(* ===== verification/_CoqProject ===== *)
-Q . S2P
Prelude.v
GoStrings.v
GoErrors.v
Admission.v
Validator.v
Plugin.v
Webhook.v
WebhookServer.v
Keys.v
Store.v
Lister.v
Workqueue.v
Controller.v
ControllerRun.v
ControllerHang.v
SchemaResolver.v
TransformedClient.v
Json.v
JsonText.v
JsonSync.v
JsonPrint.v
Types.v
Conversion.v
Rest.v
Scheme.v
Serializer.v
Review.v
Clientset.v
Send.v
Stack.v
Wire.v
GoHeap.v
DeepCopy.v
InformerFactory.v
Pki.v
Main.v
Exchange.v
Interceptor.v
Fake.v
