(* ===== verification/Prelude.v ===== *)
(** * Verification of the CEL admission polyfill

    The program gives Kubernetes clusters without [ValidatingAdmissionPolicy] the
    policies of the API, as a validating webhook.  Users store policies and
    bindings as CRDs; the evaluator of [k8s.io/apiserver], which only knows the
    native types, runs inside the webhook on a client that shows the CRDs as native
    objects.

    ** The parts and how they interact

    A request of the API server goes down this path:
    - [Webhook]: [pkg/webhook/server.go].  The handlers of [/health] and
      [/validate]: parse the review, decode the objects, build the attributes
      ([Admission]), ask the validator, write the response.  A handler is a
      computation over a world [W] that the validator may change.
    - [Validator]: [pkg/validator/multi.go], several validators as one.
    - [Plugin]: [pkg/controller/admissionregistration.x-k8s.io/v1alpha1/plugin.go]
      with the polling of [apimachinery/pkg/util/wait].  The plugin waits until its
      evaluator has synced, exempts policies and bindings, and else asks the evaluator.
    - [WebhookServer]: [webhook.Run], the life of the HTTP server, as a transition
      system over the goroutine of the listener, the contexts and [Run].
    - [Review]: [AdmissionReview] and its JSON ([k8s.io/api/admission/v1]), and with
      it how [Webhook] reads the body of a request and writes the one of an answer.
    - [Exchange]: the other end: how an API server asks a validating webhook
      ([callHook] of [apiserver/pkg/admission/plugin/webhook]) and what it makes of
      the answer, over [Send] and [Serializer], with the polyfill of [Main] behind
      the connection.
    - [Main]: [cmd/cel-admission-polyfill/main.go], the wiring of clients and
      validators and the life of the process: the plugin, the webhook and [main] as
      goroutines that end together.

    The evaluator reads policies through the native client, which goes down this path:
    - [Conversion]: [injected_client.go].  The clientset whose two native clients
      are transforming clients over the CRD clients; the four conversions go
      through JSON.
    - [Json] and [Types]: JSON as [encoding/json] and the [MarshalJSON] methods of
      [apimachinery] treat it, as codecs on JSON trees, and [types.go] with
      everything it holds, one record per struct and a codec for each of the two
      APIs ([codec CRD] and [codec Native], which differ in four [omitempty] tags).
    - [TransformedClient]: [pkg/controller/transformed_client.go] and
      [watch.Filter], a client of one type made from a client of another, and
      [Transformed.client_spec], what a typed client promises: [ok] says of a world
      that there is a collection in it, [abs] which objects it holds, and [view] how
      much of them a client shows.
    - [Clientset]: the generated typed clients and clientset of the CRDs
      ([pkg/generated/clientset]), which build requests with [Rest]
      ([client-go/rest/request.go], [path.Join] and the check of path segments), and
      [Server.serves], what an API server promises to them.
    - [Serializer]: the encoder and the decoder that these clients are configured
      with, [scheme.Codecs.WithoutConversion()], and [Result.Into].
    - [JsonText]: the scanner and the decoder of [sigs.k8s.io/json] (those of
      [encoding/json]) byte by byte, with its conversion of numbers, and the escapes of
      the encoder; [JsonSync]: the decoder stays in step with the scanner, whatever it
      makes of what it reads (generic values, or the trees of [Json]); [JsonPrint]: the
      text of a tree, which is read back.
    - [Send]: what becomes of a request: throttling, attempts and retries
      ([client-go/rest/request.go], [with_retry.go]), and the answer or the error
      that is made of a response ([apimachinery/pkg/api/errors]).
    - [Stack] composes clients and conversions over any codecs and transport;
      [Wire] takes the codecs of [Serializer] and the transport of [Send], and ends
      at a server of JSON documents behind a network that delivers texts.

    The rest of the packages:
    - [Controller], [ControllerRun] and [ControllerHang]:
      [pkg/controller/generic.go], handlers,
      reconciliation, workers and [Run], over the work queue of [Workqueue]
      ([client-go/util/workqueue]); keys, stores and listers are [Keys], [Store] and
      [Lister] ([client-go/tools/cache], [pkg/controller/lister.go]).
    - [SchemaResolver]: [pkg/controller/schemaresolver/resolver.go], concurrent
      callers over a cache guarded by a lock, and the CRD events that purge it.
    - [GoHeap] and [DeepCopy]: [zz_generated.deepcopy.go] on a heap with pointers,
      slices (an array with an offset and a length) and maps.
    - [InformerFactory]: [pkg/generated/informers] and [pkg/generated/listers]:
      the informers, the shared factory and its goroutines, the listers.
    - [Scheme]: [zz_generated.register.go] and the [register.go] of the clientset
      and its fake, over [runtime.Scheme] as far as it maps kinds and types.
    - [Fake]: the generated fake clients and fake clientset, over the reactors and
      the object tracker of [client-go/testing].
    - [Pki]: [pkg/pki] and [cmd/gentls].
    - [Interceptor]: [cmd/interceptor/main.go].
    This file holds what all of them share: computations over a world ([ST]), those
    that may panic ([GO], with [wp] for total correctness), labelled transition
    systems with runs ([steps]), record update, [int64] arithmetic and lemmas on
    lists and maps.  [GoStrings] and [GoErrors] hold Go's strings and errors.

    ** How code is translated

    A struct is a record and a tagged union an inductive type; a nil pointer, slice
    or map is [None].  A function that returns a pointer and an error has type
    [returns error A], both parts optional, because the code may return both.
    Integers are [Z], with [wrap64] where the code computes; a Go string is a list
    of bytes, Rocq's [string].  Sequential code that acts on something shared is a
    computation; code that runs concurrently is a transition system whose moves are
    executable definitions ([worker_move], [caller_move], [call_move], ...), one move
    between two points where another goroutine can be seen, and whose relation
    [step] adds what the environment may do at any time: events, timers, contexts,
    channels.  Sections that the code runs under a lock are one move, except in
    [SchemaResolver], where the lock itself is modelled.

    ** What the theorems show

    - The verdict: [admission_exchange] says, from the request that an API server
      sends to what it makes of the answer, that the verdict is the one of plugin
      and evaluator, and that a call that fails changes nothing; it rests on
      [polyfill_verdict], which composes handler, validator, plugin and evaluator,
      on [parseRequest_sent] and [MarshalReview_read] for the texts in both
      directions; [handleWebhookValidate_answers] says what is answered to every
      request, errors included; [plugin_no_bypass] that nothing is let through
      before the evaluator is ready; [multi_Validate_refines] that the first
      rejection wins.
    - The life of the processes: [process_terminates], [Run_stops], [Run_result],
      with the exit status in [process_exit]; of the controller:
      [notification_not_lost], [failed_key_retried], [one_worker_per_key],
      [shutdown_terminates], [graceful_shutdown], [Run_returns], [reconcile_spec], and
      in [ControllerHang] the one way in which [shutdown_terminates] says that a
      shutdown may hang, a full channel of the delaying queue; of the informer factory:
      [informers_shared], [listers_share_informer], [WaitForCacheSync_result],
      [shutdown_final], [shutdown_returns].
      Termination is a bound on the program's own moves in any execution together
      with progress: until the end one such move can be made.
    - The native API from CRDs: [conversions_spec], [conversions_roundtrip] and
      [conversions_preserve_encodable] for the conversions; [Transformed_refines],
      [injected_clients_refine] and [native_api_over_network] carry the contract
      [client_spec] up from a server of JSON documents, seen through single
      attempts, to the native clients, over the generated clients, the serializer
      and the retries in between; [requests_confined] says that no name leaves its
      collection; [Transformed_Watch_delivers] what the transforming client does
      with events.  [fakes_serve_native] shows the contract for the fake clientset,
      and [init_registers] that the types are registered right.
    - Sending: [request_attempts] counts and orders the attempts, and says which of
      them are repeated; [answer_of_response] which errors are made of responses.
    - JSON: [Unmarshal_in_sync] says that the decoder neither panics nor runs out of
      fuel, and that of what the scanner accepts it makes a value, with no other error
      than that of a number that has none; [print_Unmarshal] that what is written with
      integers of 64 bits is read back as its value; [sent_is_read] and [Into_target] the same for the
      serializer, and what a client makes of a body that is not its object.
    - Caching: [purge_freshness] and [resolver_progress].
    - Data: [generated_copies_equal_reference] and [deep_copies_isolated] for the
      deep copies; [serialNumber_bounds] and [generated_files_verify] for
      certificates; [When_backoff] for the delays of the work queue;
      [interceptor_transparent] and [interceptor_body_lines] for the interceptor.

    ** Bounds and fuel

    The poll of the plugin makes as many checks as its [schedule] of ticks allows
    (twelve: one at once and one per 100 ms until the second's timeout), given by the
    library's loop.  [process_terminates] leaves at most twenty moves,
    [Run_stops] six; the bounds of the controller and of the factory count what is
    in flight.  The channel of the delaying queue has its 1000 slots, and the scanner of
    the interceptor the 64 KiB limit of
    [bufio.MaxScanTokenSize].  The loop of attempts recurses on the retries that
    are left, ten at first.  The decoder of JSON has fuel, [decode_fuel], one more
    than twice the length of the text; [Unmarshal_in_sync] shows that it is always
    enough.  There is no other fuel: recursion is structural.

    ** What is assumed

    - The evaluator returns when its context is done, and its verdict is a parameter
      (CEL itself is third-party code).
    - The object decoder of the webhook, the format of times, YAML, the parser of
      media types and discovery are parameters, with their documented laws where a
      theorem needs one (for times: parsing a formatted time of the years 1 to 9999
      gives it back to the second).  The decoder of bodies is a parameter of [Send];
      [body_of_text], by the decoder of [JsonText], is the one of the witnesses.
    - In [admission_exchange]: the connection does not fail; the identifier of the
      request and the keys of the user's extra fields are UTF-8; its documents leave
      room for the two objects around them below the decoder's 10000 levels, and
      have no numbers that are not integers ([request_ok]); the status codes of the
      evaluator's errors are [int32], as their Go type has it; a webhook asked about
      a dry run declares no side effects.
    - [Server.serves]: an API server stores a collection, and a request that fails
      changes nothing.  In [native_api_over_network] this is assumed of each single
      attempt; the errors of the context, of the rate limiter and of building an
      HTTP request do not say "not found" ([Send.bystanders]).
    - An informer's [Run] returns once its stop channel is closed.
    - [Pki.library_ok]: what [crypto/x509], [encoding/pem] and [os.WriteFile]
      document.
    Every assumption is a hypothesis of the theorems that use it, and the witness of
    such a theorem discharges it for a concrete server, library or evaluator.

    ** What is not modelled

    - Logging, metrics, flags, TLS itself, signal delivery and the periodic reset of
      the REST mapper: input and output without logic of the program.
    - Of a [runtime.Scheme], conversions and defaults; of the fakes, how a patch is
      applied (a parameter).
    - Of JSON, strict decoding and how numbers that are not integers are written, which
      no field of the types has (they are read as float64s into generic values, and
      stay literals, [JFraction], in trees); the spaces and escapes of the document in
      a review, which [Review] hands on as the encoder writes it; the filling of Go
      values by reflection is written out per type, as the codecs of [Types], which
      decide about the range of an integer.
    - Of the call of a webhook, the choice of the webhooks and versions, version
      v1beta1, timeouts, audit annotations and warnings (an answer of the polyfill
      has none).
    - Of the vendored libraries, everything that the program does not rest on; the
      CEL evaluator, HTTP, TLS and discovery are parameters.
    - Of the requests: headers, warnings, traces, how long is waited before an
      attempt and the frames of a watch's stream; the namespace of a request, since
      both resources are cluster-wide; [Apply], which the CRD clients do not have.
    - Aliasing outside of [DeepCopy]: objects are values elsewhere, which is
      justified where the code copies before it writes. *)
From stdpp Require Export base option list gmap strings.
From Stdlib Require Export ZArith Lia.

#[global] Set Default Goal Selector "!".
#[export] Set Warnings "-clear-no-such-hyp,-register-all".
#[global] Open Scope string_scope.
#[global] Open Scope list_scope.
#[global] Open Scope Z_scope.

(** ** State-passing computations

    Every effectful Go operation of the development is a computation over a
    world [W]: the state of whatever the operation may read or change. *)
Definition ST (W A : Type) : Type := W → A * W.

#[export] Instance ST_ret W : MRet (ST W) := λ A a w, (a, w).
#[export] Instance ST_bind W : MBind (ST W) := λ A B f m w,
  let '(a, w') := m w in f a w'.

Definition st_get {W} : ST W W := λ w, (w, w).
Definition st_modify {W} (f : W → W) : ST W unit := λ w, (tt, f w).
Definition st_gets {W A} (f : W → A) : ST W A := λ w, (f w, w).

(** Extensional equality of computations. *)
Definition st_eq {W A} (m1 m2 : ST W A) : Prop := ∀ w, m1 w = m2 w.
Declare Scope go_scope.
Delimit Scope go_scope with go.
Infix "≈ₛ" := st_eq (at level 70, no associativity) : go_scope.
#[global] Open Scope go_scope.

#[export] Instance st_eq_equivalence W A : Equivalence (@st_eq W A).
Proof.
  split; unfold st_eq.
  - intros m w. reflexivity.
  - intros m1 m2 H w. by rewrite H.
  - intros m1 m2 m3 H1 H2 w. by rewrite H1.
Qed.

#[export] Instance st_bind_proper W A B :
  Proper (pointwise_relation A st_eq ==> st_eq ==> st_eq) (@mbind (ST W) _ A B).
Proof.
  intros f g Hfg m n Hmn w. unfold mbind, ST_bind. rewrite Hmn.
  destruct (n w) as [a w']. apply Hfg.
Qed.

Lemma st_bind_run {W A B} (m : ST W A) (f : A → ST W B) w :
  (m ≫= f) w = f (m w).1 (m w).2.
Proof. unfold mbind, ST_bind. by destruct (m w). Qed.

Lemma st_bind_eq {W A B} (m : ST W A) (f : A → ST W B) w a w' :
  m w = (a, w') → (m ≫= f) w = f a w'.
Proof. intros H. unfold mbind, ST_bind. by rewrite H. Qed.

Lemma st_ret_bind {W A B} (a : A) (f : A → ST W B) : (mret a ≫= f) ≈ₛ f a.
Proof. intros w. reflexivity. Qed.

Lemma st_bind_assoc {W A B C} (m : ST W A) (f : A → ST W B) (g : B → ST W C) :
  ((m ≫= f) ≫= g) ≈ₛ (m ≫= λ a, f a ≫= g).
Proof. intros w. unfold mbind, ST_bind. by destruct (m w). Qed.

(** ** Computations that may panic *)
Inductive outcome (A : Type) := Value (a : A) | Panic (msg : string).
Arguments Value {A}. Arguments Panic {A}.

Definition GO (W A : Type) : Type := ST W (outcome A).

#[export] Instance GO_ret W : MRet (GO W) := λ A a w, (Value a, w).
#[export] Instance GO_bind W : MBind (GO W) := λ A B f m w,
  match m w with
  | (Value a, w') => f a w'
  | (Panic msg, w') => (Panic msg, w')
  end.

Definition go_panic {W A} (msg : string) : GO W A := λ w, (Panic msg, w).

Lemma go_bind_value {W A B} (m : GO W A) (f : A → GO W B) w a w' :
  m w = (Value a, w') → (m ≫= f) w = f a w'.
Proof. intros H. unfold mbind, GO_bind. by rewrite H. Qed.

Lemma go_bind_panic {W A B} (m : GO W A) (f : A → GO W B) w msg w' :
  m w = (Panic msg, w') → (m ≫= f) w = (Panic msg, w').
Proof. intros H. unfold mbind, GO_bind. by rewrite H. Qed.

(** Total correctness: the computation does not panic, and its value and final
    world satisfy [Q]. *)
Definition wp {W A} (m : GO W A) (w : W) (Q : A → W → Prop) : Prop :=
  ∃ a w', m w = (Value a, w') ∧ Q a w'.

Lemma wp_ret {W A} (a : A) (w : W) (Q : A → W → Prop) : Q a w → wp (mret a) w Q.
Proof. intros HQ. by exists a, w. Qed.

Lemma wp_bind {W A B} (m : GO W A) (f : A → GO W B) w (Q : B → W → Prop) :
  wp m w (λ a w', wp (f a) w' Q) → wp (m ≫= f) w Q.
Proof.
  intros (a & w' & Hm & b & w'' & Hf & HQ). exists b, w''. split; [|done].
  by rewrite (go_bind_value _ _ _ _ _ Hm).
Qed.

Lemma wp_mono {W A} (m : GO W A) w (P Q : A → W → Prop) :
  wp m w P → (∀ a w', P a w' → Q a w') → wp m w Q.
Proof. intros (a & w' & Hm & HP) HPQ. exists a, w'. auto. Qed.

(** What Go functions that fail return: a pointer that may be nil and an error
    that may be nil. *)
Abbreviation returns E A := (option A * option E)%type.

Create HintDb go.

(** ** Labelled transition systems

    [steps step s tr s'] runs the labelled relation [step] along the trace
    [tr], oldest label first. *)
Section lts.
Context {S L : Type} (step : S → L → S → Prop).

Inductive steps : S → list L → S → Prop :=
  | steps_nil s : steps s [] s
  | steps_snoc s tr s1 l s2 :
      steps s tr s1 → step s1 l s2 → steps s (tr ++ [l]) s2.

Lemma steps_invariant (I : S → Prop) s tr s' :
  (∀ s1 l s2, I s1 → step s1 l s2 → I s2) → I s → steps s tr s' → I s'.
Proof. intros HI Hs Hst. induction Hst; eauto. Qed.

(** An invariant that also speaks about the history. *)
Lemma steps_trace_invariant (I : list L → S → Prop) s tr s' :
  (∀ tr1 s1 l s2, I tr1 s1 → step s1 l s2 → I (tr1 ++ [l]) s2) →
  I [] s → steps s tr s' → I tr s'.
Proof. intros HI Hs Hst. induction Hst; eauto. Qed.

Lemma steps_one s l s' : step s l s' → steps s [l] s'.
Proof. intros H. apply (steps_snoc s [] s l s'); [constructor | done]. Qed.

Lemma steps_app s tr1 s1 tr2 s2 :
  steps s tr1 s1 → steps s1 tr2 s2 → steps s (tr1 ++ tr2) s2.
Proof.
  intros H1 H2. induction H2 as [|? ? ? ? ? ? IH ?].
  - by rewrite app_nil_r.
  - rewrite app_assoc. econstructor; eauto.
Qed.

Lemma steps_cons s l s1 tr s2 :
  step s l s1 → steps s1 tr s2 → steps s (l :: tr) s2.
Proof. intros H1 H2. apply (steps_app s [l] s1); [by apply steps_one | done]. Qed.
End lts.

(** ** Record update

    [Settable R] holds the identity on [R] written as a constructor applied to
    every projection; [setter f] reads the update function of the projection
    [f] off it. *)
Class Settable (R : Type) := mk_settable : R → R.

Ltac setter_of R f :=
  let e := eval hnf in (@mk_settable R _) in
  match eval pattern f in e with
  | ?g _ => let e := eval cbv beta in (λ v r, g (λ _, v) r) in exact e
  end.

(** ** Machine integers: a value as Go's [int64] holds it *)
Definition wrap64 (z : Z) : Z := (z + 2 ^ 63) `mod` 2 ^ 64 - 2 ^ 63.
Definition MaxInt64 : Z := 2 ^ 63 - 1.

Lemma wrap64_id z : - 2 ^ 63 ≤ z < 2 ^ 63 → wrap64 z = z.
Proof. intros Hz. unfold wrap64. rewrite Z.mod_small; lia. Qed.

Lemma wrap64_range z : - 2 ^ 63 ≤ wrap64 z < 2 ^ 63.
Proof. unfold wrap64. pose proof (Z.mod_pos_bound (z + 2 ^ 63) (2 ^ 64)). lia. Qed.

(** ** Lists and finite maps *)
Lemma filter_snd {K V} (P : V → Prop) `{!∀ v, Decision (P v)} (l : list (K * V)) :
  (filter (λ kv, P kv.2) l).*2 = filter P l.*2.
Proof.
  induction l as [|[k v] l IH]; [done|]. csimpl. rewrite !filter_cons. simpl.
  case_decide; csimpl; by rewrite IH.
Qed.

Lemma NoDup_filter_fst {K V} (P : V → Prop) `{!∀ v, Decision (P v)} (l : list (K * V)) :
  NoDup l.*1 → NoDup (filter (λ kv, P kv.2) l).*1.
Proof.
  induction l as [|[k v] l IH]; csimpl; [done|].
  rewrite NoDup_cons, filter_cons. intros [Hk Hl]. simpl.
  case_decide; [|auto]. csimpl. apply NoDup_cons. split; [|auto].
  intros ([k' v'] & -> & Hin)%list_elem_of_fmap. apply Hk.
  apply list_elem_of_filter in Hin as [_ Hin].
  apply list_elem_of_fmap. by exists (k', v').
Qed.

Section map_lists.
Context {K V : Type} `{Countable K}.
Implicit Types (m : gmap K V).

Lemma omap_lookup_fst m (l : list (K * V)) :
  (∀ k v, (k, v) ∈ l → m !! k = Some v) → omap (λ k, m !! k) l.*1 = l.*2.
Proof.
  induction l as [|[k v] l IH]; intros Hl; [done|]. csimpl.
  rewrite (Hl k v) by set_solver. f_equal. apply IH. intros. apply Hl. set_solver.
Qed.

(** Looking up the keys of an exact set of keys gives the selected values. *)
Lemma omap_elements_filter m (P : V → Prop) `{!∀ v, Decision (P v)} (X : gset K) :
  (∀ k, k ∈ X ↔ ∃ v, m !! k = Some v ∧ P v) →
  omap (λ k, m !! k) (elements X) ≡ₚ filter P (map_to_list m).*2.
Proof.
  intros HX. rewrite <- filter_snd.
  set (l := filter (λ kv, P kv.2) (map_to_list m)).
  assert (Hl : ∀ k v, (k, v) ∈ l ↔ P v ∧ m !! k = Some v).
  { intros k v. unfold l. rewrite list_elem_of_filter, elem_of_map_to_list. done. }
  rewrite <- (omap_lookup_fst m l) by naive_solver.
  apply omap_Permutation, NoDup_Permutation.
  - apply NoDup_elements.
  - apply NoDup_filter_fst, NoDup_fst_map_to_list.
  - intros k. rewrite elem_of_elements, HX, list_elem_of_fmap. split.
    + intros (v & Hv & HP). exists (k, v). by rewrite Hl.
    + intros ([k' v] & -> & [HP Hv]%Hl). eauto.
Qed.
End map_lists.
