(* ===== verification/GoStrings.v ===== *)
(** * Go strings

    A Go string is a sequence of bytes: Rocq's [string], whose characters are
    8-bit.  This file translates the functions of Go's [strings], [strconv]
    and [fmt] packages that the program calls. *)
From S2P Require Import Prelude.
From Stdlib Require Export Ascii.

#[global] Arguments String.append !_ _ / : simpl nomatch.

(** [len(s) == 0] and its negation. *)
Definition is_empty (s : string) : bool := bool_decide (s = "").

Fixpoint rev_string (s acc : string) : string :=
  match s with
  | EmptyString => acc
  | String c s' => rev_string s' (String c acc)
  end.

(** [strings.Split(s, sep)] for a one-byte separator: the pieces between the
    separators, always at least one. *)
Fixpoint split_byte (sep : ascii) (s : string) : list string :=
  match s with
  | EmptyString => [""]
  | String c s' =>
      if bool_decide (c = sep) then "" :: split_byte sep s'
      else match split_byte sep s' with
           | [] => [String c ""]
           | p :: ps => String c p :: ps
           end
  end.

(** [strings.Join(parts, sep)]. *)
Fixpoint join (sep : string) (parts : list string) : string :=
  match parts with
  | [] => ""
  | [p] => p
  | p :: ps => (p ++ sep ++ join sep ps)%string
  end.

(** The bytes of a string. *)
Definition bytes (s : string) : list ascii := String.list_ascii_of_string s.

Fixpoint has_byte (c : ascii) (s : string) : bool :=
  match s with
  | EmptyString => false
  | String a s' => bool_decide (a = c) || has_byte c s'
  end.

Definition hex_digit (n : nat) : string :=
  String.substring n 1 "0123456789abcdef".

(** The escapes of the [%q] verb ([strconv.Quote]) on ASCII input: names,
    headers and keys, which Kubernetes restricts to ASCII.  A byte of 0x80 or
    more is kept, which is what [%q] does on printable UTF-8 text. *)
Definition quote_byte (c : ascii) : string :=
  let n := nat_of_ascii c in
  if bool_decide (n = 34%nat) then String "\" (String c "")
  else if bool_decide (n = 92%nat) then "\\"
  else if bool_decide (n = 7%nat) then "\a"
  else if bool_decide (n = 8%nat) then "\b"
  else if bool_decide (n = 9%nat) then "\t"
  else if bool_decide (n = 10%nat) then "\n"
  else if bool_decide (n = 11%nat) then "\v"
  else if bool_decide (n = 12%nat) then "\f"
  else if bool_decide (n = 13%nat) then "\r"
  else if bool_decide (n < 32 ∨ n = 127)%nat
  then ("\x" ++ hex_digit (n / 16) ++ hex_digit (n mod 16))%string
  else String c "".

Definition dquote : string := String (ascii_of_nat 34) "".
Definition newline : string := String (ascii_of_nat 10) "".

Fixpoint quote_body (s : string) : string :=
  match s with
  | EmptyString => ""
  | String c s' => (quote_byte c ++ quote_body s')%string
  end.

(** [fmt.Sprintf("%q", s)]. *)
Definition quote (s : string) : string := (dquote ++ quote_body s ++ dquote)%string.

Example quote_plain : quote "text/plain" = (dquote ++ "text/plain" ++ dquote)%string.
Proof. reflexivity. Qed.

(** ** Lemmas *)
Lemma is_empty_true s : is_empty s = true ↔ s = "".
Proof. apply bool_decide_eq_true. Qed.

Lemma is_empty_false s : is_empty s = false ↔ s ≠ "".
Proof. apply bool_decide_eq_false. Qed.

Lemma string_app_assoc s1 s2 s3 : ((s1 ++ s2) ++ s3 = s1 ++ (s2 ++ s3))%string.
Proof. induction s1; simpl; congruence. Qed.

Lemma string_app_nil_r s : (s ++ "" = s)%string.
Proof. induction s; simpl; congruence. Qed.

Lemma split_byte_not_nil sep s : split_byte sep s ≠ [].
Proof.
  destruct s as [|c s]; simpl; [done|].
  case_bool_decide; [done|]. by destruct (split_byte sep s).
Qed.

Lemma split_byte_no_sep sep s : has_byte sep s = false → split_byte sep s = [s].
Proof.
  induction s as [|c s IH]; [done|]; simpl.
  intros [Hc Hs]%orb_false_iff. rewrite Hc. by rewrite (IH Hs).
Qed.

Lemma split_byte_app sep s1 s2 :
  has_byte sep s1 = false →
  split_byte sep (s1 ++ String sep s2) = s1 :: split_byte sep s2.
Proof.
  induction s1 as [|c s IH]; simpl.
  - by rewrite bool_decide_eq_true_2.
  - intros [Hc Hs]%orb_false_iff. rewrite Hc. by rewrite (IH Hs).
Qed.

Lemma join_split_byte sep s : join (String sep "") (split_byte sep s) = s.
Proof.
  induction s as [|c s IH]; [done|]; simpl. case_bool_decide as Hc.
  - subst. destruct (split_byte sep s) as [|p ps] eqn:E;
      [by apply split_byte_not_nil in E|].
    simpl. simpl in IH. by rewrite IH.
  - destruct (split_byte sep s) as [|p ps]; [simpl in *; congruence|].
    by destruct ps; simpl in IH |- *; rewrite IH.
Qed.

Lemma split_byte_pieces sep s p : p ∈ split_byte sep s → has_byte sep p = false.
Proof.
  revert p. induction s as [|c s IH]; intros p; simpl; [by intros ->%list_elem_of_singleton|].
  case_bool_decide as Hc.
  - intros [->|Hp]%elem_of_cons; [done|]. auto.
  - destruct (split_byte sep s) as [|q qs] eqn:E; [by apply split_byte_not_nil in E|].
    intros [->|Hp]%elem_of_cons.
    + simpl. rewrite bool_decide_eq_false_2 by done. simpl. apply IH. set_solver.
    + apply IH. set_solver.
Qed.
