(* ===== verification/GoErrors.v ===== *)
(** * Go errors and the API status errors

    The [error] interface as a tagged union of the error types the program
    creates or inspects, [errors.As], and the part of
    [k8s.io/apimachinery/pkg/api/errors] the program calls. *)
From S2P Require Import Prelude GoStrings.

(** [metav1.StatusCause] and [metav1.StatusDetails]; [RetryAfterSeconds] is an
    [int32]. *)
Record StatusCause := {
  CauseType : string;
  CauseMessage : string;
  CauseField : string;
}.
Record StatusDetails := {
  DetailsName : string;
  DetailsGroup : string;
  DetailsKind : string;
  DetailsUID : string;
  DetailsCauses : option (list StatusCause);
  DetailsRetryAfterSeconds : Z;
}.
(** The details that name an object. *)
Definition details (group kind name : string) : StatusDetails :=
  {| DetailsName := name; DetailsGroup := group; DetailsKind := kind; DetailsUID := "";
     DetailsCauses := None; DetailsRetryAfterSeconds := 0 |}.

(** [metav1.Status], without the kind and the list metadata that it embeds.
    [Code] is an [int32]. *)
Record Status := {
  StatusStatus : string;
  Message : string;
  Reason : string;
  Details : option StatusDetails;
  Code : Z;
}.

(** The dynamic types of error values.
    - [StatusError]: [*k8serrors.StatusError];
    - [notRegisteredErr]: [*runtime.notRegisteredErr];
    - [plainError]: an error without an [Unwrap] method ([errors.New],
      [fmt.Errorf] without [%w], errors of the libraries);
    - [wrapError]: an error with [Unwrap() error] ([fmt.Errorf] with [%w]);
    - [joinError]: an error with [Unwrap() []error] ([errors.Join]). *)
Inductive error :=
  | StatusError (ErrStatus : Status)
  | notRegisteredErr (msg : string)
  | plainError (msg : string)
  | wrapError (msg : string) (err : error)
  | joinError (errs : list error).

(** [err.Error()]. *)
Fixpoint Error (e : error) : string :=
  match e with
  | StatusError s => Message s
  | notRegisteredErr msg | plainError msg | wrapError msg _ => msg
  | joinError errs =>
      join newline ((fix go (l : list error) : list string :=
        match l with [] => [] | e :: l => Error e :: go l end) errs)
  end.

(** [errors.As(err, &statusErr)] for a target of type [*StatusError], on a
    non-nil error: the first [StatusError] of the tree in depth-first order. *)
Fixpoint errors_As_StatusError (e : error) : option Status :=
  match e with
  | StatusError s => Some s
  | notRegisteredErr _ | plainError _ => None
  | wrapError _ e' => errors_As_StatusError e'
  | joinError errs =>
      (fix go (l : list error) : option Status :=
         match l with
         | [] => None
         | e :: l => match errors_As_StatusError e with
                     | Some s => Some s
                     | None => go l
                     end
         end) errs
  end.

(** The same on an interface value that may be nil: [errors.As(nil, _)] is
    false. *)
Definition errors_As (e : option error) : option Status :=
  e ≫= errors_As_StatusError.

(** [metav1.StatusReason] values. *)
Definition StatusReasonUnknown : string := "".
Definition StatusReasonForbidden : string := "Forbidden".
Definition StatusReasonNotFound : string := "NotFound".

(** [http.Status...] values. *)
Definition StatusOK : Z := 200.
Definition StatusAccepted : Z := 202.
Definition StatusBadRequest : Z := 400.
Definition StatusForbidden : Z := 403.
Definition StatusNotFound : Z := 404.
Definition StatusInternalServerError : Z := 500.

Definition knownReasons : list string :=
  ["Unauthorized"; "Forbidden"; "NotFound"; "AlreadyExists"; "Conflict"; "Gone";
   "Invalid"; "ServerTimeout"; "Timeout"; "TooManyRequests"; "BadRequest";
   "MethodNotAllowed"; "NotAcceptable"; "RequestEntityTooLarge";
   "UnsupportedMediaType"; "InternalError"; "Expired"; "ServiceUnavailable"].

Definition reasonAndCodeForError (e : option error) : string * Z :=
  match errors_As e with
  | Some s => (Reason s, Code s)
  | None => (StatusReasonUnknown, 0)
  end.

Definition IsNotFound (e : option error) : bool :=
  let '(reason, code) := reasonAndCodeForError e in
  bool_decide (reason = StatusReasonNotFound) ||
  (bool_decide (reason ∉ knownReasons) && bool_decide (code = StatusNotFound)).

Definition IsForbidden (e : option error) : bool :=
  let '(reason, code) := reasonAndCodeForError e in
  bool_decide (reason = StatusReasonForbidden) ||
  (bool_decide (reason ∉ knownReasons) && bool_decide (code = StatusForbidden)).

Definition IsNotRegisteredError (e : option error) : bool :=
  match e with Some (notRegisteredErr _) => true | _ => false end.

(** [schema.GroupResource]. *)
Record GroupResource := { grGroup : string; grResource : string }.

Definition GroupResource_Empty (gr : GroupResource) : bool :=
  is_empty (grGroup gr) && is_empty (grResource gr).

Definition GroupResource_String (gr : GroupResource) : string :=
  if is_empty (grGroup gr) then grResource gr
  else (grResource gr ++ "." ++ grGroup gr)%string.

Definition NewNotFound (gr : GroupResource) (name : string) : error :=
  StatusError {|
    StatusStatus := "Failure";
    Code := StatusNotFound;
    Reason := StatusReasonNotFound;
    Details := Some (details (grGroup gr) (grResource gr) name);
    Message := (GroupResource_String gr ++ " " ++ quote name ++ " not found")%string;
  |}.

Definition NewForbidden (gr : GroupResource) (name : string) (err : error) : error :=
  StatusError {|
    StatusStatus := "Failure";
    Code := StatusForbidden;
    Reason := StatusReasonForbidden;
    Details := Some (details (grGroup gr) (grResource gr) name);
    Message :=
      if GroupResource_Empty gr then ("forbidden: " ++ Error err)%string
      else if is_empty name
      then (GroupResource_String gr ++ " is forbidden: " ++ Error err)%string
      else (GroupResource_String gr ++ " " ++ quote name ++ " is forbidden: "
            ++ Error err)%string;
  |}.

(** ** Lemmas *)
Lemma IsNotFound_NewNotFound gr name : IsNotFound (Some (NewNotFound gr name)) = true.
Proof. reflexivity. Qed.

Lemma IsNotFound_NewForbidden gr name e :
  IsNotFound (Some (NewForbidden gr name e)) = false.
Proof. reflexivity. Qed.

Lemma errors_As_plain msg : errors_As (Some (plainError msg)) = None.
Proof. reflexivity. Qed.

(** Wrapping does not hide a status error. *)
Lemma errors_As_wrap msg e : errors_As (Some (wrapError msg e)) = errors_As (Some e).
Proof. reflexivity. Qed.

(** The first member of a join that holds a status error decides. *)
Lemma errors_As_join_cons e l :
  errors_As (Some (joinError (e :: l))) =
  match errors_As (Some e) with
  | Some s => Some s
  | None => errors_As (Some (joinError l))
  end.
Proof. reflexivity. Qed.

Create HintDb goerr.
#[export] Hint Resolve IsNotFound_NewNotFound IsNotFound_NewForbidden : goerr.
