(* ===== verification/Admission.v ===== *)
(** * The admission vocabulary

    Group/version/kind identifiers, object metadata accessors, admission
    attributes and the [admission.ValidationInterface] that the webhook, the
    multi-validator and the CEL plugin share. *)
From S2P Require Import Prelude GoStrings GoErrors.

(** ** [schema.GroupKind], [schema.GroupVersionKind], [schema.GroupVersionResource] *)
Record GroupKind := mkGK { gkGroup : string; gkKind : string }.
Record GroupVersionKind := mkGVK { Group : string; Version : string; Kind : string }.
Record GroupVersionResource :=
  mkGVR { gvrGroup : string; gvrVersion : string; gvrResource : string }.

#[export] Instance GroupKind_eq_dec : EqDecision GroupKind.
Proof. solve_decision. Defined.
#[export] Instance GroupVersionKind_eq_dec : EqDecision GroupVersionKind.
Proof. solve_decision. Defined.
#[export] Instance GroupVersionResource_eq_dec : EqDecision GroupVersionResource.
Proof. solve_decision. Defined.

#[export] Instance GroupVersionKind_countable : Countable GroupVersionKind.
Proof.
  apply (inj_countable' (λ g, (Group g, Version g, Kind g))
                        (λ t, mkGVK t.1.1 t.1.2 t.2)).
  by intros [].
Defined.

(** [gvk.GroupKind()] and [gvr.GroupResource()]. *)
Definition gvk_GroupKind (g : GroupVersionKind) : GroupKind := mkGK (Group g) (Kind g).
Definition gvr_GroupResource (g : GroupVersionResource) : GroupResource :=
  {| grGroup := gvrGroup g; grResource := gvrResource g |}.

(** ** Objects

    What [meta.Accessor] gives of an object: [None] is [errNotObject], the
    answer for a value that has no object metadata. *)
Record ObjectAccessor := {
  GetNamespace : string;
  GetName : string;
  GetGenerateName : string;
  GetResourceVersion : string;
  GetLabels : gmap string string;
}.

Class MetaAccessor (Obj : Type) := Accessor : Obj → option ObjectAccessor.

(** [user.DefaultInfo].  A nil map is [None]; a nil slice is the empty list. *)
Record UserInfo := {
  uiName : string;
  uiUID : string;
  uiGroups : list string;
  uiExtra : option (gmap string (list string));
}.

(** [admission.attributesRecord]: a nil object is [None]. *)
Record Attributes (Obj : Type) := {
  attrKind : GroupVersionKind;
  attrNamespace : string;
  attrName : string;
  attrResource : GroupVersionResource;
  attrSubresource : string;
  attrOperation : string;
  attrOptions : option Obj;
  attrDryRun : bool;
  attrObject : option Obj;
  attrOldObject : option Obj;
  attrUserInfo : UserInfo;
}.
Arguments attrKind {Obj}. Arguments attrNamespace {Obj}. Arguments attrName {Obj}.
Arguments attrResource {Obj}. Arguments attrSubresource {Obj}.
Arguments attrOperation {Obj}. Arguments attrOptions {Obj}.
Arguments attrDryRun {Obj}. Arguments attrObject {Obj}.
Arguments attrOldObject {Obj}. Arguments attrUserInfo {Obj}.

Definition NewAttributesRecord {Obj} (object oldObject : option Obj)
    (kind : GroupVersionKind) (namespace name : string)
    (resource : GroupVersionResource) (subresource operation : string)
    (operationOptions : option Obj) (dryRun : bool) (userInfo : UserInfo)
    : Attributes Obj :=
  {| attrKind := kind; attrNamespace := namespace; attrName := name;
     attrResource := resource; attrSubresource := subresource;
     attrOperation := operation; attrOptions := operationOptions;
     attrDryRun := dryRun; attrObject := object; attrOldObject := oldObject;
     attrUserInfo := userInfo |}.

(** ** Building a "forbidden" answer from the attributes *)
Section forbidden.
Context {Obj : Type} `{MetaAccessor Obj}.

Definition extractResourceName (a : Attributes Obj) : string * GroupResource :=
  let resource := gvr_GroupResource (attrResource a) in
  if negb (is_empty (attrName a)) then (attrName a, resource)
  else match attrObject a with
       | None => ("Unknown", resource)
       | Some obj =>
           match Accessor obj with
           | None => ("Unknown/errorGettingName", resource)
           | Some m =>
               if negb (is_empty (GetName m)) then (GetName m, resource)
               else if negb (is_empty (GetGenerateName m))
               then (GetGenerateName m, resource)
               else ("Unknown", resource)
           end
       end.

(** [admission.NewForbidden]. *)
Definition admission_NewForbidden (a : Attributes Obj) (internalError : error) : error :=
  if IsForbidden (Some internalError) then internalError
  else let '(name, resource) := extractResourceName a in
       NewForbidden resource name internalError.

(** A forbidden answer carries a forbidden status whatever error it is
    built from, provided that error does not already hold a status. *)
Lemma admission_NewForbidden_status a e :
  errors_As (Some e) = None →
  ∃ s, errors_As (Some (admission_NewForbidden a e)) = Some s ∧
       Code s = StatusForbidden ∧ Reason s = StatusReasonForbidden.
Proof.
  intros He. unfold admission_NewForbidden, IsForbidden, reasonAndCodeForError.
  rewrite He. simpl. destruct (extractResourceName a) as [name resource].
  by eexists.
Qed.
End forbidden.

(** ** [context.Context]

    [TODO] (and [Background]) is never done; [Cancellable] stands for a
    context that its owner may cancel. *)
Inductive Context := TODO | Cancellable.

(** ** [admission.ValidationInterface]

    A validator works over the world [W]: everything it reads or changes
    outside its arguments. *)
Record ValidationInterface (W Obj : Type) := {
  Handles : string → bool;
  Validate : Context → Attributes Obj → ST W (option error);
}.
Arguments Handles {W Obj}.
Arguments Validate {W Obj}.
