(* ===== verification/Validator.v ===== *)
(** * The multi-validator ([pkg/validator/multi.go])

    A list of validators seen as one: it handles what any member handles, and
    validates by asking the members in order until one rejects. *)
From S2P Require Import Prelude GoErrors Admission.

Module Multi.
Section multi.
Context {W Obj : Type}.
Implicit Types (v : ValidationInterface W Obj) (vs : list (ValidationInterface W Obj)).
Implicit Types (a : Attributes Obj) (ctx : Context) (w : W).

Fixpoint multi_Handles vs (operation : string) : bool :=
  match vs with
  | [] => false
  | v :: vs => if Handles v operation then true else multi_Handles vs operation
  end.

Fixpoint multi_Validate vs ctx a : ST W (option error) :=
  match vs with
  | [] => mret None
  | v :: vs =>
      if negb (Handles v (attrOperation a)) then multi_Validate vs ctx a
      else err ← Validate v ctx a;
           match err with
           | Some _ => mret err
           | None => multi_Validate vs ctx a
           end
  end.

Definition NewMulti vs : ValidationInterface W Obj :=
  {| Handles := multi_Handles vs; Validate := multi_Validate vs |}.

(** ** Specification: the members consulted, in order *)

(** [runs vs ctx a w tr err w'] says that validating [a] consults exactly the
    members of [tr], in that order, and ends with [err] in the world [w']. *)
Inductive runs : list (ValidationInterface W Obj) → Context → Attributes Obj → W →
    list (ValidationInterface W Obj) → option error → W → Prop :=
  | runs_nil ctx a w : runs [] ctx a w [] None w
  | runs_skip v vs ctx a w tr err w' :
      Handles v (attrOperation a) = false →
      runs vs ctx a w tr err w' → runs (v :: vs) ctx a w tr err w'
  | runs_reject v vs ctx a w e w' :
      Handles v (attrOperation a) = true →
      Validate v ctx a w = (Some e, w') →
      runs (v :: vs) ctx a w [v] (Some e) w'
  | runs_accept v vs ctx a w w1 tr err w' :
      Handles v (attrOperation a) = true →
      Validate v ctx a w = (None, w1) →
      runs vs ctx a w1 tr err w' → runs (v :: vs) ctx a w (v :: tr) err w'.

Lemma multi_Handles_existsb vs op :
  multi_Handles vs op = existsb (λ v, Handles v op) vs.
Proof. induction vs as [|v vs IH]; simpl; [done|]. rewrite IH. by destruct (Handles v op). Qed.

Lemma multi_Validate_app vs1 vs2 ctx a :
  multi_Validate (vs1 ++ vs2) ctx a ≈ₛ
  (err ← multi_Validate vs1 ctx a;
   match err with Some _ => mret err | None => multi_Validate vs2 ctx a end).
Proof.
  induction vs1 as [|v vs1 IH]; intros w; [done|]; simpl.
  destruct (negb _); [apply IH|].
  rewrite !st_bind_run. destruct (Validate v ctx a w) as [[e|] w1]; simpl; [done|].
  rewrite IH. by rewrite st_bind_run.
Qed.

Lemma multi_Validate_unhandled vs ctx a w :
  multi_Handles vs (attrOperation a) = false → multi_Validate vs ctx a w = (None, w).
Proof.
  induction vs as [|v vs IH]; [done|]; simpl.
  by destruct (Handles v (attrOperation a)).
Qed.

(** The consulted members that handle the operation. *)
Definition handling vs a : list (ValidationInterface W Obj) :=
  filter (λ v, Handles v (attrOperation a) = true) vs.

Lemma runs_deterministic vs ctx a w tr1 err1 w1 tr2 err2 w2 :
  runs vs ctx a w tr1 err1 w1 → runs vs ctx a w tr2 err2 w2 →
  tr1 = tr2 ∧ err1 = err2 ∧ w1 = w2.
Proof.
  intros H1. revert tr2 err2 w2.
  induction H1 as [| ? ? ? ? ? ? ? ? Hh _ IH | ? ? ? ? ? ? ? Hh Hv
                  | ? ? ? ? ? ? ? ? ? Hh Hv _ IH];
    intros tr2 err2 w2 H2; inversion H2; subst; try congruence; eauto.
  - split_and!; congruence.
  - assert (w1 = w3) as -> by congruence.
    edestruct IH as (-> & -> & ->); eauto.
Qed.

Lemma runs_total vs ctx a w :
  ∃ tr, runs vs ctx a w tr (multi_Validate vs ctx a w).1 (multi_Validate vs ctx a w).2.
Proof.
  revert w. induction vs as [|v vs IH]; intros w; simpl; [eexists; constructor|].
  destruct (Handles v (attrOperation a)) eqn:Hh; simpl.
  - rewrite st_bind_run. destruct (Validate v ctx a w) as [[e|] w1] eqn:Hv; simpl.
    + eexists. by apply runs_reject.
    + destruct (IH w1) as [tr Htr]. eexists. by eapply runs_accept.
  - destruct (IH w) as [tr Htr]. eexists. by apply runs_skip.
Qed.

Lemma runs_handling vs ctx a w tr err w' :
  runs vs ctx a w tr err w' →
  tr `prefix_of` handling vs a ∧ (err = None → tr = handling vs a).
Proof.
  unfold handling. induction 1 as [| v ? ? ? ? ? ? ? Hh _ IH | v ? ? ? ? ? ? Hh Hv
                  | v ? ? ? ? ? ? ? ? Hh Hv _ IH]; rewrite ?filter_cons, ?Hh; simpl.
  - by split; [apply prefix_nil|].
  - done.
  - split; [|done].
    apply prefix_cons, prefix_nil.
  - destruct IH as [? IH].
    split; [by apply prefix_cons|]. intros He. by rewrite IH.
Qed.

(** C5: Validation through the multi-validator consults the members that
    handle the operation, in list order, stopping at the first rejection: the
    consulted members are a prefix of the handling ones, all of them when the
    answer is "allowed", and the answer is the last consulted one's. *)
Theorem multi_Validate_refines vs ctx a w err w' :
  multi_Validate vs ctx a w = (err, w') ↔
  ∃ tr, runs vs ctx a w tr err w' ∧ tr `prefix_of` handling vs a ∧
        (err = None → tr = handling vs a).
Proof.
  split.
  - intros Hr. destruct (runs_total vs ctx a w) as [tr Htr]. rewrite Hr in Htr.
    exists tr. split; [done|]. by eapply runs_handling.
  - intros (tr & Htr & _). destruct (runs_total vs ctx a w) as [tr' Htr'].
    destruct (runs_deterministic _ _ _ _ _ _ _ _ _ _ Htr Htr') as (_ & -> & ->).
    by destruct (multi_Validate vs ctx a w).
Qed.

(** Nesting multi-validators changes nothing: a multi-validator of
    multi-validators handles and validates exactly as the one flat list of
    all the members. *)
Theorem multi_flatten (vss : list (list (ValidationInterface W Obj))) ctx a op :
  multi_Handles (NewMulti <$> vss) op = multi_Handles (concat vss) op ∧
  multi_Validate (NewMulti <$> vss) ctx a ≈ₛ multi_Validate (concat vss) ctx a.
Proof.
  induction vss as [|vs vss [IH1 IH2]]; [by split|]. split.
  - csimpl. rewrite IH1, !multi_Handles_existsb, existsb_app. by destruct (existsb _ vs).
  - intros w. csimpl. rewrite multi_Validate_app.
    destruct (multi_Handles vs (attrOperation a)) eqn:Hh; simpl.
    + rewrite !st_bind_run. destruct (multi_Validate vs ctx a w) as [[e|] w1]; simpl; [done|].
      apply IH2.
    + rewrite st_bind_run, (multi_Validate_unhandled vs) by done. apply IH2.
Qed.
End multi.

(** ** A promise validators can make to their clients

    [Exempts P v]: [v] lets every request satisfying [P] through without
    touching the world.  The plugin makes this promise for the policy
    resources, the multi-validator passes it on, and the webhook relies on it. *)
Class Exempts {W Obj} (P : Attributes Obj → Prop) (v : ValidationInterface W Obj) : Prop :=
  exempt : ∀ ctx a w, P a → Validate v ctx a w = (None, w).

#[export] Instance NewMulti_Exempts {W Obj} (P : Attributes Obj → Prop)
    (vs : list (ValidationInterface W Obj)) :
  TCForall (Exempts P) vs → Exempts P (NewMulti vs).
Proof.
  intros Hvs ctx a w Ha. simpl.
  induction Hvs as [|v vs Hv Hvs IH]; [done|].
  simpl. destruct (Handles v (attrOperation a)); simpl; [|done].
  rewrite st_bind_run, (exempt (v := v)) by done. apply IH.
Qed.
End Multi.
