(* ===== verification/Plugin.v ===== *)
(** * The CEL admission plugin

    [pkg/controller/admissionregistration.x-k8s.io/v1alpha1/plugin.go] and the
    polling loop of [k8s.io/apimachinery/pkg/util/wait] it waits with.  The
    policy evaluator of [k8s.io/apiserver] is a parameter. *)
From S2P Require Import Prelude GoStrings GoErrors Admission Validator.

Module Wait.
(** [wait.ErrWaitTimeout]. *)
Definition ErrWaitTimeout : error := plainError "timed out waiting for the condition".

(** What the channels of one wait deliver.  [ticks] ticks of the poller are
    received, then either the poller's timer closes the channel or the
    context is done.  [done_before]: the context was done already when the
    wait began. *)
Inductive wait_end := timer_closed | ctx_done.
Record wait_schedule := {
  done_before : bool;
  ticks : nat;
  ended_by : wait_end;
}.

Section wait.
Context {W : Type}.
Implicit Types (condition : ST W (bool * option error)).

(** [waitForWithContext]: run the condition on every tick, and once more
    when the poller closes its channel. *)
Fixpoint waitForWithContext (n : nat) (last : wait_end) condition
    : ST W (option error) :=
  match n with
  | O => match last with
         | ctx_done => mret (Some ErrWaitTimeout)
         | timer_closed =>
             '(ok, err) ← condition;
             match err with
             | Some e => mret (Some e)
             | None => if (ok : bool) then mret None else mret (Some ErrWaitTimeout)
             end
         end
  | S n =>
      '(ok, err) ← condition;
      match err with
      | Some e => mret (Some e)
      | None => if (ok : bool) then mret None else waitForWithContext n last condition
      end
  end.

(** [poll]. *)
Definition poll (immediate : bool) (sched : wait_schedule) condition
    : ST W (option error) :=
  let rest := if done_before sched then mret (Some ErrWaitTimeout)
              else waitForWithContext (ticks sched) (ended_by sched) condition in
  if immediate then
    '(done, err) ← condition;
    match err with
    | Some e => mret (Some e)
    | None => if (done : bool) then mret None else rest
    end
  else rest.

Definition PollImmediateWithContext (sched : wait_schedule) condition
    : ST W (option error) :=
  poll true sched condition.
End wait.

(** A schedule the poller of [poller(interval, timeout)] can produce under
    [ctx]: one tick per interval until the timeout, ticks may be dropped; a
    context that is never done does not end the wait. *)
Definition poller_schedule (interval timeout : Z) (ctx : Context) (sched : wait_schedule) : Prop :=
  Z.of_nat (ticks sched) * interval ≤ timeout ∧
  (ctx = TODO → done_before sched = false ∧ ended_by sched = timer_closed).

(** How many times the condition runs at most. *)
Definition max_polls (sched : wait_schedule) : nat :=
  if done_before sched then 1
  else match ended_by sched with timer_closed => 2 + ticks sched | ctx_done => 1 + ticks sched end.
End Wait.

Module Plugin.
Import Wait.

(** [validatingadmissionpolicy.CELPolicyEvaluator]. *)
Record CELPolicyEvaluator (W Obj : Type) := {
  evaluator_HasSynced : ST W bool;
  evaluator_Validate : Context → Attributes Obj → ST W (option error);
  evaluator_Run : Context → ST W unit;
}.
Arguments evaluator_HasSynced {W Obj}.
Arguments evaluator_Validate {W Obj}.
Arguments evaluator_Run {W Obj}.

(** [time.Millisecond], [time.Second] in nanoseconds. *)
Definition Millisecond : Z := 1000000.
Definition Second : Z := 1000 * Millisecond.
Definition poll_interval : Z := 100 * Millisecond.
Definition poll_timeout : Z := 1 * Second.

Definition isPolicyResource {Obj} (attr : Attributes Obj) : bool :=
  let gvk := attrResource attr in
  if bool_decide (gvrGroup gvk = "admissionregistration.k8s.io") ||
     bool_decide (gvrGroup gvk = "admissionregistration.x-k8s.io")
  then bool_decide (gvrResource gvk = "validatingadmissionpolicies") ||
       bool_decide (gvrResource gvk = "validatingadmissionpolicybindings")
  else false.

Section plugin.
Context {W Obj : Type} `{MetaAccessor Obj}.

(** [celAdmissionPlugin]: of its fields only the evaluator is read once the
    plugin is built.  [schedule] is the behaviour of the runtime's timers. *)
Record celAdmissionPlugin := {
  evaluator : CELPolicyEvaluator W Obj;
  schedule : Context → W → wait_schedule;
}.
Implicit Types (c : celAdmissionPlugin) (a : Attributes Obj) (w : W).

Definition HasSynced c : ST W bool := evaluator_HasSynced (evaluator c).

Definition Run c (ctx : Context) : ST W (option error) :=
  evaluator_Run (evaluator c) ctx;; mret None.

Definition plugin_Handles c (operation : string) : bool := true.

Definition plugin_Validate c (ctx : Context) a : ST W (option error) :=
  if isPolicyResource a then mret None
  else
    sched ← st_gets (schedule c ctx);
    err ← PollImmediateWithContext sched (b ← HasSynced c; mret (b, None));
    match err with
    | Some _ => mret (Some (admission_NewForbidden a
                              (plainError "not yet ready to handle request")))
    | None => evaluator_Validate (evaluator c) ctx a
    end.

(** The plugin as an [admission.ValidationInterface]. *)
Definition plugin_interface c : ValidationInterface W Obj :=
  {| Handles := plugin_Handles c; Validate := plugin_Validate c |}.

(** The schedules the runtime may answer with. *)
Definition timers_ok c : Prop :=
  ∀ ctx w, poller_schedule poll_interval poll_timeout ctx (schedule c ctx w).

(** ** Specification of the wait: poll until synced, at most [k] times *)
Fixpoint first_synced c (k : nat) w : bool * W :=
  match k with
  | O => (false, w)
  | S k => let '(b, w1) := HasSynced c w in
           if b then (true, w1) else first_synced c k w1
  end.

Lemma waitFor_first_synced c n last w :
  waitForWithContext n last (b ← HasSynced c; mret (b, None)) w =
  (let '(b, w1) := first_synced c (match last with timer_closed => S n | ctx_done => n end) w in
   (if b then None else Some ErrWaitTimeout, w1)).
Proof.
  revert w. induction n as [|n IH]; intros w; simpl.
  - destruct last; simpl; [|done].
    rewrite !st_bind_run. by destruct (HasSynced c w) as [[] w1].
  - rewrite !st_bind_run. destruct last; simpl;
      destruct (HasSynced c w) as [[] w1]; simpl; try done; apply IH.
Qed.

Lemma Poll_first_synced c sched w :
  PollImmediateWithContext sched (b ← HasSynced c; mret (b, None)) w =
  (let '(b, w1) := first_synced c (max_polls sched) w in
   (if b then None else Some ErrWaitTimeout, w1)).
Proof.
  unfold PollImmediateWithContext, poll, max_polls.
  rewrite !st_bind_run. destruct sched as [[] n last]; simpl.
  - by destruct (HasSynced c w) as [[] w1].
  - destruct last; simpl; destruct (HasSynced c w) as [[] w1] eqn:Hs; simpl; try done;
      apply waitFor_first_synced.
Qed.

Lemma plugin_Validate_run c ctx a w :
  isPolicyResource a = false →
  plugin_Validate c ctx a w =
  (let '(b, w1) := first_synced c (max_polls (schedule c ctx w)) w in
   if b then evaluator_Validate (evaluator c) ctx a w1
   else (Some (admission_NewForbidden a (plainError "not yet ready to handle request")), w1)).
Proof.
  intros Ha. unfold plugin_Validate. rewrite Ha, st_bind_run. simpl.
  rewrite st_bind_run, Poll_first_synced.
  by destruct (first_synced c _ w) as [[] w1].
Qed.

Lemma max_polls_bound c ctx w :
  timers_ok c → (1 ≤ max_polls (schedule c ctx w) ≤ 12)%nat.
Proof.
  intros Ht. destruct (Ht ctx w) as [Hticks _]. unfold max_polls.
  unfold poll_interval, poll_timeout, Second, Millisecond in Hticks.
  destruct (done_before _); [lia|]. destruct (ended_by _); lia.
Qed.

#[export] Instance plugin_Exempts c :
  Multi.Exempts (λ a, isPolicyResource a = true) (plugin_interface c).
Proof. intros ctx a w Ha. simpl. unfold plugin_Validate. by rewrite Ha. Qed.

Lemma first_synced_true c k w w1 :
  first_synced c k w = (true, w1) → ∃ w0, HasSynced c w0 = (true, w1).
Proof.
  revert w. induction k as [|k IH]; intros w; simpl; [done|].
  destruct (HasSynced c w) as [[] w2] eqn:Hs; [|apply IH].
  intros [= <-]. eauto.
Qed.

Lemma first_synced_never c k w :
  (∀ w', (HasSynced c w').1 = false) → (first_synced c k w).1 = false.
Proof.
  intros Hn. revert w. induction k as [|k IH]; intros w; simpl; [done|].
  specialize (Hn w). destruct (HasSynced c w) as [b w1]; simpl in Hn; subst. apply IH.
Qed.

(** The policy resources of both API groups are exempt: a request for
    [validatingadmissionpolicies] or [validatingadmissionpolicybindings] of
    [admissionregistration.k8s.io] or [admissionregistration.x-k8s.io] is
    allowed at once, before any wait and without asking the evaluator, so a
    broken policy can always be repaired. *)
Theorem plugin_policy_resources_exempt c ctx a w :
  gvrGroup (attrResource a) ∈ ["admissionregistration.k8s.io"; "admissionregistration.x-k8s.io"] →
  gvrResource (attrResource a) ∈ ["validatingadmissionpolicies"; "validatingadmissionpolicybindings"] →
  plugin_Validate c ctx a w = (None, w).
Proof.
  intros Hg Hr. apply (Multi.exempt (v := plugin_interface c)).
  unfold isPolicyResource. rewrite !elem_of_cons, elem_of_nil in Hg, Hr.
  destruct Hg as [->|[->|[]]], Hr as [->|[->|[]]]; reflexivity.
Qed.

(** Any other request waits for the evaluator to be synced: with the
    poller's timers (a tick every 100 ms, 1 s in all) [HasSynced] is asked
    between 1 and 12 times, stopping at the first "yes"; after a "yes" the
    answer is the evaluator's in that world, otherwise a forbidden error. *)
Theorem plugin_Validate_spec c ctx a w :
  timers_ok c → isPolicyResource a = false →
  ∃ k, (1 ≤ k ≤ 12)%nat ∧
    plugin_Validate c ctx a w =
    (let '(b, w1) := first_synced c k w in
     if b then evaluator_Validate (evaluator c) ctx a w1
     else (Some (admission_NewForbidden a (plainError "not yet ready to handle request")), w1)).
Proof.
  intros Ht Ha. exists (max_polls (schedule c ctx w)).
  split; [by apply max_polls_bound | by apply plugin_Validate_run].
Qed.

(** C2: No bypass: a request that is not for a policy resource is allowed
    only by the evaluator itself, asked after it reported to be synced. *)
Theorem plugin_no_bypass c ctx a w w' :
  isPolicyResource a = false → plugin_Validate c ctx a w = (None, w') →
  ∃ w0 w1, HasSynced c w0 = (true, w1) ∧
           evaluator_Validate (evaluator c) ctx a w1 = (None, w').
Proof.
  intros Ha. rewrite plugin_Validate_run by done.
  destruct (first_synced c _ w) as [[] w1] eqn:Hf; [|done].
  intros Hv. apply first_synced_true in Hf as [w0 Hw0]. eauto.
Qed.

(** Fail closed: as long as the evaluator is not synced every request
    that is not for a policy resource is rejected with a 403 status error. *)
Theorem plugin_not_ready_forbidden c ctx a w :
  (∀ w', (HasSynced c w').1 = false) → isPolicyResource a = false →
  ∃ s, errors_As (plugin_Validate c ctx a w).1 = Some s ∧
       Code s = StatusForbidden ∧ Reason s = StatusReasonForbidden.
Proof.
  intros Hn Ha. rewrite plugin_Validate_run by done.
  pose proof (first_synced_never c (max_polls (schedule c ctx w)) w Hn) as Hf.
  destruct (first_synced c _ w) as [[] w1]; [done|].
  by apply admission_NewForbidden_status.
Qed.
End plugin.
Arguments celAdmissionPlugin : clear implicits.

(** ** Concrete instances

    The world counts the polls; the evaluator is synced from the third poll on
    and rejects the requests named ["bad"]. *)
Module Demo.
#[export] Instance string_accessor : MetaAccessor string := λ _, None.

Definition demo_evaluator (synced_from : nat) : CELPolicyEvaluator nat string :=
  {| evaluator_HasSynced := λ n, (bool_decide (synced_from ≤ S n)%nat, S n);
     evaluator_Validate := λ _ a w,
       (if bool_decide (attrName a = "bad") then Some (plainError "denied") else None, w);
     evaluator_Run := λ _, mret tt |}.

Definition demo_plugin (synced_from : nat) : celAdmissionPlugin nat string :=
  {| evaluator := demo_evaluator synced_from;
     schedule := λ _ _, {| done_before := false; ticks := 9; ended_by := timer_closed |} |}.

Definition never_synced : celAdmissionPlugin nat string :=
  {| evaluator := {| evaluator_HasSynced := λ n, (false, S n);
                     evaluator_Validate := λ _ _, mret None;
                     evaluator_Run := λ _, mret tt |};
     schedule := λ _ _, {| done_before := false; ticks := 9; ended_by := timer_closed |} |}.

Definition demo_request (group resource name : string) : Attributes string :=
  NewAttributesRecord (Some "obj") None (mkGVK group "v1" "K") "default" name
    (mkGVR group "v1" resource) "" "CREATE" None false
    {| uiName := "u"; uiUID := ""; uiGroups := []; uiExtra := None |}.

Lemma demo_timers n : timers_ok (demo_plugin n).
Proof. intros ctx w. split; [by vm_compute | done]. Qed.
End Demo.
Import Demo.

Lemma plugin_policy_resources_exempt_witness :
  plugin_Validate (demo_plugin 3) TODO
    (demo_request "admissionregistration.k8s.io" "validatingadmissionpolicies" "bad") 0%nat
  = (None, 0%nat).
Proof.
  apply plugin_policy_resources_exempt; simpl.
  - apply list_elem_of_here.
  - apply list_elem_of_here.
Defined.

Lemma plugin_Validate_spec_witness :
  ∃ k, (1 ≤ k ≤ 12)%nat ∧
    plugin_Validate (demo_plugin 3) TODO (demo_request "apps" "deployments" "bad") 0%nat =
    (let '(b, w1) := first_synced (demo_plugin 3) k 0%nat in
     if b then evaluator_Validate (demo_evaluator 3) TODO (demo_request "apps" "deployments" "bad") w1
     else (Some (admission_NewForbidden (demo_request "apps" "deployments" "bad")
                   (plainError "not yet ready to handle request")), w1)).
Proof. apply (plugin_Validate_spec (demo_plugin 3)); [apply demo_timers | reflexivity]. Defined.

Lemma plugin_no_bypass_witness :
  ∃ w0 w1, HasSynced (demo_plugin 3) w0 = (true, w1) ∧
    evaluator_Validate (demo_evaluator 3) TODO (demo_request "apps" "deployments" "good") w1
    = (None, 3%nat).
Proof.
  apply (plugin_no_bypass (demo_plugin 3) TODO (demo_request "apps" "deployments" "good") 0%nat).
  - reflexivity.
  - reflexivity.
Defined.

Lemma plugin_not_ready_forbidden_witness :
  ∃ s, errors_As (plugin_Validate never_synced TODO
                    (demo_request "apps" "deployments" "good") 0%nat).1 = Some s ∧
       Code s = StatusForbidden ∧ Reason s = StatusReasonForbidden.
Proof. apply plugin_not_ready_forbidden; [by intros | reflexivity]. Defined.
End Plugin.
