(* ===== verification/Webhook.v ===== *)
(** * The webhook endpoint ([pkg/webhook/server.go])

    The HTTP handlers: parsing an [AdmissionReview], decoding the objects it
    carries, asking the validator and writing the review response.  The object
    decoder of [k8s.io/apimachinery] and the JSON forms of the library types
    [AdmissionReview] and [Unstructured] are parameters; those of [AdmissionReview]
    are given in [Review]. *)
From S2P Require Import Prelude GoStrings GoErrors Admission Validator.

(** ** [net/http]: requests and response writers *)
Module Http.
(** What the handlers read of a request: the [Content-Type] header and the
    bytes of the body (a failed read of the body ends it early). *)
Record Request := { ContentType : string; Body : string }.

(** A response under construction.  [status] is [None] until the header is
    written. *)
Record ResponseWriter := {
  status : option Z;
  header : gmap string string;
  body : string;
}.

Definition fresh : ResponseWriter := {| status := None; header := ∅; body := "" |}.

Definition Header_Set (k v : string) (w : ResponseWriter) : ResponseWriter :=
  {| status := status w; header := <[k := v]> (header w); body := body w |}.

(** Only the first [WriteHeader] counts. *)
Definition WriteHeader (code : Z) (w : ResponseWriter) : ResponseWriter :=
  match status w with
  | Some _ => w
  | None => {| status := Some code; header := header w; body := body w |}
  end.

(** [w.Write] sends the header with 200 first if it has not been sent. *)
Definition Write (b : string) (w : ResponseWriter) : ResponseWriter :=
  let w := WriteHeader StatusOK w in
  {| status := status w; header := header w; body := (body w ++ b)%string |}.

(** [http.Error(w, msg, code)]. *)
Definition Error (msg : string) (code : Z) (w : ResponseWriter) : ResponseWriter :=
  let w := Header_Set "Content-Type" "text/plain; charset=utf-8" w in
  let w := Header_Set "X-Content-Type-Options" "nosniff" w in
  Write (msg ++ newline)%string (WriteHeader code w).
End Http.

Module Webhook.
Import Http.

(** ** The [k8s.io/api/admission/v1] types, the fields the handler uses *)
Record AdmissionUserInfo := {
  Username : string;
  UserUID : string;
  Groups : list string;
  Extra : option (gmap string (list string));
}.

Record AdmissionRequest := {
  UID : string;
  ReqKind : GroupVersionKind;
  Resource : GroupVersionResource;
  SubResource : string;
  ReqName : string;
  ReqNamespace : string;
  Operation : string;
  ReqUserInfo : AdmissionUserInfo;
  ObjectRaw : string;
  OldObjectRaw : string;
  DryRun : option bool;
  OptionsRaw : string;
}.

(** [metav1.Status] as the response carries it. *)
Record ResultStatus := { ResultCode : Z; ResultMessage : string; ResultReason : string }.

Record AdmissionResponse := {
  ResponseUID : string;
  Allowed : bool;
  Result : ResultStatus;
}.

Record AdmissionReview := {
  ReviewKind : string;
  ReviewAPIVersion : string;
  Request_ : option AdmissionRequest;
  Response_ : option AdmissionResponse;
}.

(** [fmt.Sprintf("%v", gvk)] for a kind and for a pointer to one. *)
Definition gvk_String (g : GroupVersionKind) : string :=
  (Group g ++ "/" ++ Version g ++ ", Kind=" ++ Kind g)%string.
Definition gvk_ptr_String (g : option GroupVersionKind) : string :=
  match g with Some g => gvk_String g | None => "<nil>" end.

(** The review response for the error (or nil) of the validation. *)
Definition reviewResponse (uid : string) (err : option error) : AdmissionReview :=
  let allowed := bool_decide (err = None) in
  let status := match err with None => StatusAccepted | Some _ => StatusForbidden end in
  let reason := StatusReasonUnknown in
  let message := match err with None => "valid" | Some e => GoErrors.Error e end in
  let '(reason, message, status) :=
    match errors_As err with
    | Some statusErr => (Reason statusErr, Message statusErr, Code statusErr)
    | None => (reason, message, status)
    end in
  {| ReviewKind := "AdmissionReview";
     ReviewAPIVersion := "admission.k8s.io/v1";
     Request_ := None;
     Response_ := Some {|
       ResponseUID := uid;
       Allowed := allowed;
       Result := {| ResultCode := status; ResultMessage := message;
                    ResultReason := reason |} |} |}.

(** [convertExtra]: [[]ExtraValue] to [[]string], key by key. *)
Definition convertExtra (input : option (gmap string (list string)))
    : option (gmap string (list string)) :=
  match input with
  | None => None
  | Some m => Some ((λ v, foldl (λ converted s, converted ++ [s]) [] v) <$> m)
  end.

Section webhook.
Context {W Obj : Type}.

(** [wh.decoder.Decode(raw, nil, nil)]: object, kind and error, any of them
    nil. *)
Variable Decode : string → option Obj * option GroupVersionKind * option error.
(** [json.Unmarshal(raw, &unstructured)]. *)
Variable UnmarshalUnstructured : string → error + Obj.
(** [json.Unmarshal(body, &admissionReview)] and [json.Marshal(response)]. *)
Variable UnmarshalReview : string → error + AdmissionReview.
Variable MarshalReview : AdmissionReview → error + string.
(** [wh.validator]. *)
Variable validator : ValidationInterface W Obj.

Definition handleHealth (req : Request) : ST (W * ResponseWriter) unit :=
  st_modify (λ '(w, rw), (w, Write "OK" rw)).

Definition parseRequest (r : Request) : error + AdmissionRequest :=
  if negb (bool_decide (ContentType r = "application/json"))
  then inl (plainError ("Content-Type: " ++ quote (ContentType r) ++ " should be "
                        ++ quote "application/json"))
  else if is_empty (Body r)
  then inl (plainError "admission request body is empty")
  else match UnmarshalReview (Body r) with
       | inl err => inl (plainError ("could not parse admission review request: "
                                     ++ GoErrors.Error err))
       | inr a => match Request_ a with
                  | None => inl (plainError
                      "admission review can't be used: Request field is nil")
                  | Some req => inr req
                  end
       end.

(** One of the two decoding blocks of the handler: the object, or the error
    and the HTTP status of the failure. *)
Definition decode_object (raw : string) (kind : GroupVersionKind)
    : (error * Z) + option Obj :=
  if is_empty raw then inr None
  else
    let '(obj, gvk, err) := Decode raw in
    if negb (bool_decide (gvk = Some kind))
    then inl (plainError ("unexpected GVK " ++ gvk_ptr_String gvk ++ ". Expected "
                          ++ gvk_String kind), StatusBadRequest)
    else if IsNotRegisteredError err
    then match UnmarshalUnstructured raw with
         | inl err => inl (err, StatusInternalServerError)
         | inr u => inr (Some u)
         end
    else match err with
         | Some e => inl (e, StatusBadRequest)
         | None => inr obj
         end.

(** The attributes the handler builds; the options are nil and the dry-run
    flag is false whatever the request says. *)
Definition request_attributes (r : AdmissionRequest) (object oldObject : option Obj)
    : Attributes Obj :=
  NewAttributesRecord object oldObject (ReqKind r) (ReqNamespace r) (ReqName r)
    (mkGVR (gvrGroup (Resource r)) (gvrVersion (Resource r)) (gvrResource (Resource r)))
    (SubResource r) (Operation r) None false
    {| uiName := Username (ReqUserInfo r);
       uiUID := UserUID (ReqUserInfo r);
       uiGroups := Groups (ReqUserInfo r);
       uiExtra := convertExtra (Extra (ReqUserInfo r)) |}.

(** The middle of the handler: a failure (error and status), or the error or
    nil that the review answers with. *)
Definition review (r : AdmissionRequest) : ST W ((error * Z) + option error) :=
  if Handles validator (Operation r) then
    match decode_object (OldObjectRaw r) (ReqKind r) with
    | inl f => mret (inl f)
    | inr oldObject =>
        match decode_object (ObjectRaw r) (ReqKind r) with
        | inl f => mret (inl f)
        | inr object =>
            err ← Validate validator TODO (request_attributes r object oldObject);
            mret (inr err)
        end
    end
  else mret (inr None).

Definition handleWebhookValidate (req : Request) : ST (W * ResponseWriter) unit :=
  λ '(w, rw),
  match parseRequest req with
  | inl err => (tt, (w, Http.Error (GoErrors.Error err) StatusBadRequest rw))
  | inr parsed =>
      match review parsed w with
      | (inl (err, code), w') => (tt, (w', Http.Error (GoErrors.Error err) code rw))
      | (inr err, w') =>
          match MarshalReview (reviewResponse (UID parsed) err) with
          | inl err => (tt, (w', Http.Error (GoErrors.Error err) StatusInternalServerError rw))
          | inr out =>
              (tt, (w', Write out (Header_Set "Content-Type" "application/json" rw)))
          end
      end
  end.

(** The handler on a fresh response: final world and response. *)
Definition serve (req : Request) (w : W) : W * ResponseWriter :=
  (handleWebhookValidate req (w, fresh)).2.

(** ** Lemmas *)
Implicit Types (r : AdmissionRequest) (w : W).

(** Both objects of a request, decoded in the handler's order. *)
Definition decode_objects r : (error * Z) + (option Obj * option Obj) :=
  match decode_object (OldObjectRaw r) (ReqKind r) with
  | inl f => inl f
  | inr oldObject =>
      match decode_object (ObjectRaw r) (ReqKind r) with
      | inl f => inl f
      | inr object => inr (object, oldObject)
      end
  end.

Lemma review_cases r w :
  review r w =
  if Handles validator (Operation r) then
    match decode_objects r with
    | inl f => (inl f, w)
    | inr (object, oldObject) =>
        let '(err, w') := Validate validator TODO (request_attributes r object oldObject) w in
        (inr err, w')
    end
  else (inr None, w).
Proof.
  unfold review, decode_objects. destruct (Handles _ _); [|done].
  destruct (decode_object (OldObjectRaw r) _) as [|old]; [done|].
  destruct (decode_object (ObjectRaw r) _) as [|obj]; [done|].
  by rewrite st_bind_run; destruct (Validate _ _ _ _).
Qed.

Lemma decode_object_error_status raw kind e code :
  decode_object raw kind = inl (e, code) →
  code = StatusBadRequest ∨ code = StatusInternalServerError.
Proof.
  unfold decode_object. intros Hd.
  repeat (case_match; simplify_eq; auto).
Qed.

Lemma decode_objects_error_status r e code :
  decode_objects r = inl (e, code) →
  code = StatusBadRequest ∨ code = StatusInternalServerError.
Proof.
  unfold decode_objects. intros Hd.
  destruct (decode_object (OldObjectRaw r) _) as [[? ?]|old] eqn:H1;
    [simplify_eq; by eapply decode_object_error_status|].
  destruct (decode_object (ObjectRaw r) _) as [[? ?]|obj] eqn:H2;
    simplify_eq; by eapply decode_object_error_status.
Qed.

Lemma reviewResponse_allowed uid err :
  ∃ resp, Response_ (reviewResponse uid err) = Some resp ∧
          ResponseUID resp = uid ∧ (Allowed resp = true ↔ err = None).
Proof.
  unfold reviewResponse. destruct (errors_As err); eexists; split_and!;
    try reflexivity; simpl; by rewrite bool_decide_eq_true.
Qed.

(** The refused requests answer with an error text. *)
Definition refusal (rw : ResponseWriter) (code : Z) (msg : string) : Prop :=
  status rw = Some code ∧ body rw = (msg ++ newline)%string ∧
  header rw !! "Content-Type" = Some "text/plain; charset=utf-8".

Lemma Http_Error_refusal msg code : refusal (Http.Error msg code fresh) code msg.
Proof. split_and!; simpl; [done| |by simplify_map_eq]. by destruct (msg ++ newline)%string. Qed.

(** The answer to a review: status 200 and the marshalled response. *)
Definition reviewed (rw : ResponseWriter) (resp : AdmissionReview) : Prop :=
  status rw = Some StatusOK ∧ MarshalReview resp = inr (body rw) ∧
  header rw !! "Content-Type" = Some "application/json".

Lemma serve_reviewed out :
  let rw := Write out (Header_Set "Content-Type" "application/json" fresh) in
  status rw = Some StatusOK ∧ body rw = out ∧
  header rw !! "Content-Type" = Some "application/json".
Proof. simpl. split_and!; [done..|by simplify_map_eq]. Qed.

(** What the API promises for a verdict, independently of how the response is put
    together: it echoes the identifier, allows exactly when there is no error, and
    says why: with the code, reason and message of the first status error of the
    error's tree, however deep it is wrapped, or else with 403 and the error's text. *)
Record answers_verdict (uid : string) (err : option error) (resp : AdmissionReview) : Prop := {
  av_kind : ReviewKind resp = "AdmissionReview" ∧ ReviewAPIVersion resp = "admission.k8s.io/v1";
  av_request : Request_ resp = None;
  av_response : ∃ s, Response_ resp = Some s ∧ ResponseUID s = uid ∧
    match err with
    | None => Allowed s = true ∧
        Result s = {| ResultCode := 202; ResultMessage := "valid"; ResultReason := "" |}
    | Some e => Allowed s = false ∧
        match errors_As_StatusError e with
        | Some st => Result s = {| ResultCode := Code st; ResultMessage := Message st; ResultReason := Reason st |}
        | None => Result s = {| ResultCode := 403; ResultMessage := GoErrors.Error e; ResultReason := "" |}
        end
    end;
}.
Lemma reviewResponse_answers uid err : answers_verdict uid err (reviewResponse uid err).
Proof.
  unfold reviewResponse, errors_As.
  destruct err as [e|]; simpl; [destruct (errors_As_StatusError e) eqn:He|];
    (split; [by split|done|]; eexists; rewrite ?He; by split_and!).
Qed.

(** The answer to a verdict: status 200 with the marshalled review, or a refusal
    with 500 if it does not marshal. *)
Definition answered_with (uid : string) (err : option error) (rw : ResponseWriter) : Prop :=
  ∃ resp, answers_verdict uid err resp ∧
    match MarshalReview resp with
    | inr _ => reviewed rw resp
    | inl e => refusal rw StatusInternalServerError (GoErrors.Error e)
    end.
Lemma answered_with_review uid err (w : W) :
  let '(w', rw) := (match MarshalReview (reviewResponse uid err) with
    | inl e => (tt, (w, Http.Error (GoErrors.Error e) StatusInternalServerError fresh))
    | inr out => (tt, (w, Write out (Header_Set "Content-Type" "application/json" fresh)))
    end).2 in
  w' = w ∧ answered_with uid err rw.
Proof.
  destruct (MarshalReview (reviewResponse uid err)) as [e|out] eqn:Hm;
    (split; [done|]); eexists; (split; [apply reviewResponse_answers|]); rewrite Hm.
  - apply Http_Error_refusal.
  - destruct (serve_reviewed out) as (Hst & Hb & Hc). by split_and!; [|rewrite Hb|].
Qed.

(** C3: Every request is answered, and how depends on the request alone and on the
    validator's verdict.  A request that does not parse is refused with 400 and the
    reason, one whose objects do not decode with the status and text of the decoding
    error, 400 or 500, and neither reaches the validator.  Every other request is
    answered with the verdict: that of the validator, asked once about the request's
    attributes in the world the request found and leaving the world it returns, or
    "allowed" when the validator does not handle the operation. *)
Theorem handleWebhookValidate_answers req w :
  let '(w', rw) := serve req w in
  match parseRequest req with
  | inl e => refusal rw StatusBadRequest (GoErrors.Error e) ∧ w' = w
  | inr r =>
      if Handles validator (Operation r) then
        match decode_objects r with
        | inl (e, code) =>
            refusal rw code (GoErrors.Error e) ∧ w' = w ∧
            (code = StatusBadRequest ∨ code = StatusInternalServerError)
        | inr (object, oldObject) =>
            let '(err, w1) := Validate validator TODO (request_attributes r object oldObject) w in
            w' = w1 ∧ answered_with (UID r) err rw
        end
      else w' = w ∧ answered_with (UID r) None rw
  end.
Proof.
  unfold serve, handleWebhookValidate. destruct (parseRequest req) as [err|r] eqn:Hp.
  { split; [apply Http_Error_refusal|done]. }
  rewrite review_cases. destruct (Handles validator (Operation r)) eqn:Hh.
  - destruct (decode_objects r) as [[e code]|[obj old]] eqn:Hd.
    { split_and!; [apply Http_Error_refusal|done|by eapply decode_objects_error_status]. }
    destruct (Validate _ _ _ w) as [err w1]. apply answered_with_review.
  - apply answered_with_review.
Qed.

(** What the validator is given has the declared kind: an object handed
    to it was decoded from a non-empty payload whose own group, version and
    kind are those of the request; a kind that differs or is missing is
    refused with 400 before any other decoding error is looked at. *)
Theorem decode_object_kind raw kind :
  match decode_object raw kind with
  | inr None => raw = "" ∨ ((Decode raw).1 = (None, Some kind))
  | inr (Some o) =>
      raw ≠ "" ∧ (Decode raw).1.2 = Some kind ∧
      ((IsNotRegisteredError (Decode raw).2 = true ∧ UnmarshalUnstructured raw = inr o) ∨
       ((Decode raw).2 = None ∧ (Decode raw).1.1 = Some o))
  | inl (_, code) =>
      raw ≠ "" ∧
      ((Decode raw).1.2 ≠ Some kind → code = StatusBadRequest) ∧
      (code = StatusInternalServerError →
       IsNotRegisteredError (Decode raw).2 = true ∧ (Decode raw).1.2 = Some kind)
  end.
Proof.
  unfold decode_object.
  destruct (is_empty raw) eqn:He; [apply is_empty_true in He; auto|].
  apply is_empty_false in He.
  destruct (Decode raw) as [[obj gvk] err]. simpl.
  case_bool_decide as Hk; simpl; [subst|done].
  destruct (IsNotRegisteredError err) eqn:Hn.
  - destruct (UnmarshalUnstructured raw); naive_solver.
  - destruct err; [naive_solver|]. destruct obj; naive_solver.
Qed.

(** Parsing accepts exactly the requests whose content type is
    [application/json], whose body is not empty and unmarshals to a review
    with a request. *)
Theorem parseRequest_accepts req r :
  parseRequest req = inr r ↔
  ContentType req = "application/json" ∧ Body req ≠ "" ∧
  ∃ a, UnmarshalReview (Body req) = inr a ∧ Request_ a = Some r.
Proof.
  unfold parseRequest. case_bool_decide as Hc; simpl; [|naive_solver].
  destruct (is_empty (Body req)) eqn:He.
  - apply is_empty_true in He. naive_solver.
  - apply is_empty_false in He.
    destruct (UnmarshalReview (Body req)) as [|a]; [naive_solver|].
    destruct (Request_ a) eqn:Hr; naive_solver.
Qed.

(** End to end, the exemption a validator promises reaches the client: if
    the validator exempts the request's attributes, and the request parses
    and its objects decode, then the answer is "allowed" with the request's
    uid, unless the answer cannot be marshalled. *)
Theorem exempt_request_allowed (P : Attributes Obj → Prop) `{!Multi.Exempts P validator}
    req r object oldObject w :
  parseRequest req = inr r →
  decode_objects r = inr (object, oldObject) →
  P (request_attributes r object oldObject) →
  (∃ out, MarshalReview (reviewResponse (UID r) None) = inr out) →
  (serve req w).1 = w ∧ reviewed (serve req w).2 (reviewResponse (UID r) None).
Proof.
  intros Hp Hd HP [out Hm]. unfold serve, handleWebhookValidate.
  rewrite Hp, review_cases, Hd, (Multi.exempt (v := validator)) by done.
  destruct (serve_reviewed out) as (Hst & Hb & Hc).
  destruct (Handles _ _); rewrite Hm; (split; [done|]);
    (split_and!; [exact Hst | by rewrite Hm, <- Hb at 1 | exact Hc]).
Qed.
End webhook.

(** Converting the user's extra values keeps every key and value. *)
Lemma convertExtra_id e : convertExtra e = e.
Proof.
  destruct e as [m|]; [|done]. unfold convertExtra. f_equal.
  rewrite <- (map_fmap_id m) at 2. apply map_fmap_ext. intros k v _. simpl.
  assert (∀ acc, foldl (λ converted s, converted ++ [s]) acc v = acc ++ v) as Hf; [|apply Hf].
  induction v as [|s v IH]; intros acc; simpl; [by rewrite app_nil_r|].
  by rewrite IH, <- app_assoc.
Qed.

(** ** A concrete server

    The world counts the validations; the validator exempts the requests named
    ["ok"] and rejects the others. *)
Module Demo.
Definition pod : GroupVersionKind := mkGVK "" "v1" "Pod".

Definition demo_Decode (raw : string)
    : option string * option GroupVersionKind * option error :=
  if bool_decide (raw = "pod") then (Some raw, Some pod, None)
  else if bool_decide (raw = "cr") then (None, Some pod, Some (notRegisteredErr "no kind"))
  else (None, None, Some (plainError "no kind")).

Definition demo_request (name : string) : AdmissionRequest :=
  {| UID := "7"; ReqKind := pod; Resource := mkGVR "" "v1" "pods"; SubResource := "";
     ReqName := name; ReqNamespace := "default"; Operation := "CREATE";
     ReqUserInfo := {| Username := "u"; UserUID := ""; Groups := []; Extra := None |};
     ObjectRaw := "pod"; OldObjectRaw := ""; DryRun := Some true; OptionsRaw := "" |}.

Definition demo_UnmarshalReview (body : string) : error + AdmissionReview :=
  inr {| ReviewKind := "AdmissionReview"; ReviewAPIVersion := "admission.k8s.io/v1";
         Request_ := Some (demo_request body); Response_ := None |}.

Definition demo_MarshalReview (r : AdmissionReview) : error + string :=
  inr (match Response_ r with
       | Some resp => if Allowed resp then "allowed" else "denied"
       | None => "no response"
       end).

Definition demo_validator : ValidationInterface nat string :=
  {| Handles := λ op, bool_decide (op = "CREATE");
     Validate := λ _ a w, if bool_decide (attrName a = "ok") then (None, w)
                          else (Some (plainError "denied"), S w) |}.

Definition demo_serve (body : string) : nat * ResponseWriter :=
  serve demo_Decode (λ raw, inr raw) demo_UnmarshalReview demo_MarshalReview
    demo_validator {| ContentType := "application/json"; Body := body |} 0%nat.

#[export] Instance demo_exempts :
  Multi.Exempts (λ a, attrName a = "ok") demo_validator.
Proof. intros ctx a w Ha. simpl. by rewrite bool_decide_eq_true_2. Qed.

Example demo_denied : body (demo_serve "bad").2 = "denied" ∧ (demo_serve "bad").1 = 1%nat.
Proof. by vm_compute. Qed.
End Demo.
Import Demo.

Lemma exempt_request_allowed_witness :
  (demo_serve "ok").1 = 0%nat ∧
  reviewed demo_MarshalReview (demo_serve "ok").2 (reviewResponse "7" None).
Proof.
  apply (exempt_request_allowed demo_Decode (λ raw, inr raw) demo_UnmarshalReview
           demo_MarshalReview demo_validator (λ a, attrName a = "ok")
           {| ContentType := "application/json"; Body := "ok" |} (demo_request "ok")
           (Some "pod") None 0%nat).
  - reflexivity.
  - reflexivity.
  - reflexivity.
  - by eexists.
Defined.
End Webhook.
