(* ===== verification/WebhookServer.v ===== *)
(** * The life of the webhook server ([webhook.Run] of [pkg/webhook/server.go])

    [Run] forks a cancellable context, starts a goroutine that listens, waits
    for the fork to be done, closes the server and returns an error.  The
    interleavings of the two goroutines, of the caller's context and of the
    HTTP server are a labelled transition system. *)
From S2P Require Import Prelude GoErrors.

Module Server.
(** [context.Canceled] and [context.DeadlineExceeded]. *)
Inductive ctx_err := Canceled | DeadlineExceeded.
Definition ctx_error (e : ctx_err) : error :=
  match e with
  | Canceled => plainError "context canceled"
  | DeadlineExceeded => plainError "context deadline exceeded"
  end.

(** Where the listening goroutine is: inside [ListenAndServeTLS]; past the
    assignment of [serverError]; past [cancel()]. *)
Inductive listener_pc := listening | errored | finished.

(** Where [Run] is: at [<-fork.Done()]; before [srv.Close()]; before the
    computation of the result; returned. *)
Inductive run_pc := waiting | closing | concluding | returned (err : option error).

Record state := {
  parent : option ctx_err;       (** [ctx.Err()] *)
  fork : option ctx_err;         (** [fork.Err()] *)
  serverError : option error;
  srv_closed : bool;
  listener : listener_pc;
  main : run_pc;
}.

(** [context.WithCancel(ctx)]: the fork of a context that is already done is
    done. *)
Definition start (parent_err : option ctx_err) : state :=
  {| parent := parent_err; fork := parent_err; serverError := None;
     srv_closed := false; listener := listening; main := waiting |}.

(** [cancel] of a context: only the first one counts. *)
Definition cancel (old : option ctx_err) (e : ctx_err) : option ctx_err :=
  match old with Some e' => Some e' | None => Some e end.

(** The value [Run] returns. *)
Definition run_result (st : state) : option error :=
  match fork st with
  | Some e => Some (ctx_error e)
  | None => serverError st
  end.

Inductive label :=
  | ParentDone (e : ctx_err)     (** the caller's context ends *)
  | Propagate                    (** ... and cancels its child *)
  | ListenReturns (err : error)  (** [ListenAndServeTLS] returns *)
  | ListenerCancels              (** [cancel()] in the goroutine *)
  | WakeUp                       (** [<-fork.Done()] *)
  | CloseServer                  (** [srv.Close()] *)
  | Return.

Inductive step : state → label → state → Prop :=
  | step_parent st e :
      parent st = None →
      step st (ParentDone e)
        {| parent := Some e; fork := fork st; serverError := serverError st;
           srv_closed := srv_closed st; listener := listener st; main := main st |}
  | step_propagate st e :
      parent st = Some e → fork st = None →
      step st Propagate
        {| parent := parent st; fork := cancel (fork st) e; serverError := serverError st;
           srv_closed := srv_closed st; listener := listener st; main := main st |}
  | step_listen st err :
      listener st = listening →
      step st (ListenReturns err)
        {| parent := parent st; fork := fork st; serverError := Some err;
           srv_closed := srv_closed st; listener := errored; main := main st |}
  | step_cancel st :
      listener st = errored →
      step st ListenerCancels
        {| parent := parent st; fork := cancel (fork st) Canceled;
           serverError := serverError st;
           srv_closed := srv_closed st; listener := finished; main := main st |}
  | step_wake st :
      main st = waiting → fork st ≠ None →
      step st WakeUp
        {| parent := parent st; fork := fork st; serverError := serverError st;
           srv_closed := srv_closed st; listener := listener st; main := closing |}
  | step_close st :
      main st = closing →
      step st CloseServer
        {| parent := parent st; fork := fork st; serverError := serverError st;
           srv_closed := true; listener := listener st; main := concluding |}
  | step_return st :
      main st = concluding →
      step st Return
        {| parent := parent st; fork := fork st; serverError := serverError st;
           srv_closed := srv_closed st; listener := listener st;
           main := returned (run_result st) |}.

(** ** Invariant *)
Record inv (st : state) : Prop := {
  inv_fork : main st ≠ waiting → fork st ≠ None;
  inv_finished : listener st = finished → fork st ≠ None;
  inv_server_error : listener st ≠ listening → serverError st ≠ None;
  inv_result : ∀ r, main st = returned r → ∃ e, fork st = Some e ∧ r = Some (ctx_error e);
  inv_closed : main st ≠ waiting → main st ≠ closing → srv_closed st = true;
  inv_deadline : fork st = Some DeadlineExceeded → parent st = Some DeadlineExceeded;
  inv_live : parent st = None → fork st ≠ None → fork st = Some Canceled ∧ listener st = finished;
}.

Lemma inv_start p : inv (start p).
Proof. by split. Qed.

Lemma cancel_not_none old e : cancel old e ≠ None.
Proof. by destruct old. Qed.

Lemma server_inv_step st l st' : inv st → step st l st' → inv st'.
Proof.
  intros [Hf Hn Hs Hr Hcl Hd Hl] Hst.
  destruct Hst as [st e Hp|st e Hp He|st err Hli|st Hli|st Hm Hne|st Hm|st Hm];
    split; simpl; try done; try congruence; eauto using cancel_not_none.
  - intros He. apply Hd in He. congruence.
  - intros r Hr'. destruct (Hr r Hr') as (e' & He' & _). congruence.
  - rewrite He. simpl. by intros [= ->].
  - intros Hp Hne. destruct (Hl Hp Hne) as [_ ?]. congruence.
  - intros _. apply Hs. by rewrite Hli.
  - intros r Hr'. destruct (Hr r Hr') as (e' & He' & ->). rewrite He'. eauto.
  - destruct (fork st); simpl; [done|]. congruence.
  - intros Hp _. destruct (fork st) as [e|] eqn:He; [|done].
    split; [|done]. by destruct (Hl Hp).
  - intros _. apply Hf. by rewrite Hm.
  - intros _. apply Hf. by rewrite Hm.
  - intros r [= <-]. unfold run_result.
    destruct (fork st) as [e|] eqn:Ef; [eauto|]. by destruct Hf; rewrite ?Hm.
  - intros _ _. apply Hcl; by rewrite Hm.
Qed.

Lemma server_inv_steps p tr st : steps step (start p) tr st → inv st.
Proof. apply steps_invariant; [apply server_inv_step | apply inv_start]. Qed.

(** The steps that [Run] and its goroutine take without waiting for the caller
    or the network. *)
Definition own_step (l : label) : Prop :=
  match l with ParentDone _ | ListenReturns _ => False | _ => True end.

(** How far [Run] is from returning, in steps other than the caller's. *)
Definition remaining (st : state) : nat :=
  (match main st with waiting => 3 | closing => 2 | concluding => 1 | returned _ => 0 end) +
  (match listener st with listening => 2 | errored => 1 | finished => 0 end) +
  (match fork st with None => 1 | Some _ => 0 end).

Lemma remaining_step st l st' :
  step st l st' → (∀ e, l ≠ ParentDone e) → (remaining st' < remaining st)%nat.
Proof.
  intros Hs Hne. unfold remaining.
  destruct Hs; simpl; try (destruct (fork st); simpl); repeat case_match; naive_solver lia.
Qed.

(** Until it has returned, [Run] moves without waiting for anybody once the
    listener has returned or the caller's context is done. *)
Lemma server_progress st :
  inv st → (listener st ≠ listening ∨ parent st ≠ None) →
  (∃ r, main st = returned r) ∨
  (∃ l st', step st l st' ∧ own_step l).
Proof.
  intros Hinv Hev. destruct (main st) eqn:Hm; [| | |eauto]; right.
  - destruct (fork st) as [e|] eqn:Hf; [by eexists _, _; split; [apply step_wake; rewrite ?Hf|]|].
    destruct (parent st) as [e|] eqn:Hp; [by eexists _, _; split; [eapply step_propagate|]|].
    destruct (listener st) eqn:Hl; [naive_solver| |by destruct (inv_finished _ Hinv)].
    by eexists _, _; split; [apply step_cancel|].
  - by eexists _, _; split; [apply step_close|].
  - by eexists _, _; split; [apply step_return|].
Qed.


(** C35: [Run] stops: once the server's listener has returned or the caller's
    context is done, a step of [Run] or its goroutine is possible until [Run] has
    returned, and every step but the caller's brings the return closer, so at
    most six of them remain. *)
Theorem Run_stops p tr st :
  steps step (start p) tr st →
  (listener st ≠ listening ∨ parent st ≠ None) →
  (remaining st ≤ 6)%nat ∧
  ((∃ r, main st = returned r) ∨
   (∃ l st', step st l st' ∧ own_step l)) ∧
  (∀ l st', step st l st' → (∀ e, l ≠ ParentDone e) → (remaining st' < remaining st)%nat).
Proof.
  intros Hst%server_inv_steps Hev. split_and!.
  - unfold remaining. destruct (main st), (listener st), (fork st); lia.
  - destruct (server_progress st Hst Hev) as [?|(l & st' & Hs & Hl)]; [by left|right].
    by exists l, st'.
  - apply remaining_step.
Qed.

(** A run in which the port cannot be bound. *)
Definition bind_failure : list label :=
  [ListenReturns (plainError "listen tcp :8443: bind: address already in use");
   ListenerCancels; WakeUp; CloseServer; Return].

Definition bind_failure_end : state :=
  {| parent := None; fork := Some Canceled;
     serverError := Some (plainError "listen tcp :8443: bind: address already in use");
     srv_closed := true; listener := finished;
     main := returned (Some (ctx_error Canceled)) |}.

Lemma bind_failure_steps : steps step (start None) bind_failure bind_failure_end.
Proof.
  unfold bind_failure.
  eapply steps_cons; [by apply step_listen|].
  eapply steps_cons; [by apply step_cancel|].
  eapply steps_cons; [by apply step_wake|].
  eapply steps_cons; [by apply step_close|].
  eapply steps_cons; [by apply step_return|]. constructor.
Qed.


Lemma Run_stops_witness :
  (remaining bind_failure_end ≤ 6)%nat ∧
  ((∃ r, main bind_failure_end = returned r) ∨
   (∃ l st', step bind_failure_end l st' ∧ own_step l)) ∧
  (∀ l st', step bind_failure_end l st' → (∀ e, l ≠ ParentDone e) →
            (remaining st' < remaining bind_failure_end)%nat).
Proof. apply (Run_stops None _ _ bind_failure_steps). by left. Defined.
End Server.
