(* ===== verification/Keys.v ===== *)
(** * Work-queue keys

    [MetaNamespaceKeyFunc] and [SplitMetaNamespaceKey] of
    [k8s.io/client-go/tools/cache]: the [namespace/name] strings the controller
    puts on its queue and the index files objects under. *)
From S2P Require Import Prelude GoStrings GoErrors Admission.

Definition slash : ascii := "/"%char.
Definition slash_str : string := "/".

(** What an informer hands to its event handlers and indexes (an
    [interface{}]): an object, the tombstone of an object whose deletion was
    missed, or an explicit key. *)
Inductive informer_value (Obj : Type) :=
  | AnObject (obj : Obj)
  | DeletedFinalStateUnknown (key : string) (obj : Obj)
  | ExplicitKey (key : string).
Arguments AnObject {Obj}. Arguments DeletedFinalStateUnknown {Obj}.
Arguments ExplicitKey {Obj}.

Definition errNotObject : error :=
  plainError "object does not implement the Object interfaces".

Section keys.
Context {Obj : Type} `{MetaAccessor Obj}.

(** [meta.Accessor] on such a value: a tombstone has no object metadata. *)
Definition value_accessor (v : informer_value Obj) : option ObjectAccessor :=
  match v with
  | AnObject obj => Accessor obj
  | DeletedFinalStateUnknown _ _ => None
  | ExplicitKey _ => None
  end.

Definition MetaNamespaceKeyFunc (v : informer_value Obj) : error + string :=
  match v with
  | ExplicitKey key => inr key
  | _ =>
      match value_accessor v with
      | None => inl (plainError ("object has no meta: " ++ Error errNotObject))
      | Some meta =>
          if negb (is_empty (GetNamespace meta))
          then inr (GetNamespace meta ++ slash_str ++ GetName meta)%string
          else inr (GetName meta)
      end
  end.
End keys.

(** Namespace and name of a key. *)
Definition SplitMetaNamespaceKey (key : string) : error + (string * string) :=
  match split_byte slash key with
  | [name] => inr ("", name)
  | [namespace; name] => inr (namespace, name)
  | _ => inl (plainError ("unexpected key format: " ++ quote key))
  end.

(** The key of a namespace and a name. *)
Definition meta_key (namespace name : string) : string :=
  if negb (is_empty namespace) then (namespace ++ slash_str ++ name)%string else name.

(** A part of a key: Kubernetes names and namespaces hold no slash. *)
Definition key_part (s : string) : Prop := has_byte slash s = false.

#[export] Instance key_part_dec s : Decision (key_part s).
Proof. unfold key_part. apply _. Defined.

Lemma Split_meta_key namespace name :
  key_part namespace → key_part name →
  SplitMetaNamespaceKey (meta_key namespace name) = inr (namespace, name).
Proof.
  intros Hns Hn. unfold SplitMetaNamespaceKey, meta_key.
  destruct (is_empty namespace) eqn:He; simpl.
  - apply is_empty_true in He as ->. by rewrite split_byte_no_sep.
  - change (slash_str ++ name)%string with (String slash name).
    rewrite split_byte_app by done.
    by rewrite split_byte_no_sep.
Qed.

Lemma meta_key_inj ns1 n1 ns2 n2 :
  key_part ns1 → key_part n1 → key_part ns2 → key_part n2 →
  meta_key ns1 n1 = meta_key ns2 n2 → ns1 = ns2 ∧ n1 = n2.
Proof.
  intros H1 H2 H3 H4 Heq.
  pose proof (Split_meta_key ns1 n1 H1 H2) as E1. rewrite Heq, Split_meta_key in E1 by done.
  by simplify_eq.
Qed.

Section key_theorems.
Context {Obj : Type} `{MetaAccessor Obj}.

Lemma MetaNamespaceKeyFunc_object obj m :
  Accessor obj = Some m →
  MetaNamespaceKeyFunc (AnObject obj) = inr (meta_key (GetNamespace m) (GetName m)).
Proof. intros Hm. simpl. rewrite Hm. unfold meta_key. by destruct (is_empty _). Qed.

(** Keys round-trip: splitting the key an object is queued under gives
    back the object's namespace and name (empty namespace for a
    cluster-scoped object), as long as neither holds a slash; so two objects
    share a key only if they share both. *)
Theorem SplitMetaNamespaceKey_roundtrip obj m :
  Accessor obj = Some m → key_part (GetNamespace m) → key_part (GetName m) →
  ∃ key, MetaNamespaceKeyFunc (AnObject obj) = inr key ∧
         SplitMetaNamespaceKey key = inr (GetNamespace m, GetName m) ∧
         (∀ obj' m', Accessor obj' = Some m' →
            key_part (GetNamespace m') → key_part (GetName m') →
            MetaNamespaceKeyFunc (AnObject obj') = inr key →
            GetNamespace m' = GetNamespace m ∧ GetName m' = GetName m).
Proof.
  intros Hm Hns Hn. exists (meta_key (GetNamespace m) (GetName m)). split_and!.
  - by apply MetaNamespaceKeyFunc_object.
  - by apply Split_meta_key.
  - intros obj' m' Hm' Hns' Hn'. rewrite (MetaNamespaceKeyFunc_object obj' m') by done.
    intros [= Heq]. by apply meta_key_inj in Heq.
Qed.
End key_theorems.

(** Splitting accepts exactly the keys with at most one slash: a key
    without a slash is a name without namespace, a key with one slash is
    namespace and name, joined back by the slash, and any other key is an
    error. *)
Theorem SplitMetaNamespaceKey_spec key :
  match SplitMetaNamespaceKey key with
  | inr (namespace, name) =>
      key_part namespace ∧ key_part name ∧
      (key = (namespace ++ slash_str ++ name)%string ∨ (namespace = "" ∧ key = name))
  | inl _ => (2 < length (split_byte slash key))%nat
  end.
Proof.
  unfold SplitMetaNamespaceKey.
  pose proof (join_split_byte slash key) as Hj.
  pose proof (split_byte_pieces slash key) as Hp.
  destruct (split_byte slash key) as [|p [|q [|r ps]]] eqn:E.
  - by apply split_byte_not_nil in E.
  - split_and!; [done | apply Hp; set_solver | right; simpl in Hj; by subst].
  - split_and!; [apply Hp; set_solver.. |]. left. simpl in Hj. by rewrite <- Hj.
  - simpl. lia.
Qed.

(** Objects that are their own name, in the namespace ["prod"]. *)
Module KeysDemo.
Definition demo_meta (name : string) : ObjectAccessor :=
  {| GetNamespace := "prod"; GetName := name; GetGenerateName := "";
     GetResourceVersion := "1"; GetLabels := ∅ |}.
Definition demo_accessor : MetaAccessor string := λ name, Some (demo_meta name).
#[local] Existing Instance demo_accessor.

Lemma SplitMetaNamespaceKey_roundtrip_witness :
  ∃ key, MetaNamespaceKeyFunc (AnObject "web") = inr key ∧
         SplitMetaNamespaceKey key = inr ("prod", "web") ∧
         (∀ obj' m', Accessor obj' = Some m' →
            key_part (GetNamespace m') → key_part (GetName m') →
            MetaNamespaceKeyFunc (AnObject obj') = inr key →
            GetNamespace m' = "prod" ∧ GetName m' = "web").
Proof.
  apply (SplitMetaNamespaceKey_roundtrip "web" (demo_meta "web")).
  - reflexivity.
  - reflexivity.
  - reflexivity.
Defined.
End KeysDemo.
