(* ===== verification/Store.v ===== *)
(** * Indexed object stores

    [Indexer] is what the listers rely on: a snapshot of objects by key, with
    an optional namespace index.  [ThreadSafeMap] is the implementation of
    [k8s.io/client-go/tools/cache] ([threadSafeMap] with the indexers
    [{NamespaceIndex: MetaNamespaceIndexFunc}] that informers use), shown to
    keep the promises of the interface. *)
From S2P Require Import Prelude GoStrings GoErrors Admission Keys.

(** ** The interface *)
Class Indexer (I Obj : Type) := {
  GetByKey : I → string → error + option Obj;
  List_ : I → list Obj;
  (** [Index(NamespaceIndex, &ObjectMeta{Namespace: ns})]. *)
  IndexByNamespace : I → string → error + list Obj;
}.

(** What an indexer promises in its well-formed states: it answers from one
    finite map; [List_] gives every object once, in some order, and the
    namespace index, if there is one, gives the objects of the namespace. *)
Class IndexerLaws (I Obj : Type) `{Indexer I Obj} `{MetaAccessor Obj} := {
  ix_ok : I → Prop;
  ix_items : I → gmap string Obj;
  GetByKey_items i key : ix_ok i → GetByKey i key = inr (ix_items i !! key);
  List_items i : ix_ok i → List_ i ≡ₚ (map_to_list (ix_items i)).*2;
  Index_items i namespace l :
    ix_ok i → IndexByNamespace i namespace = inr l →
    l ≡ₚ filter (λ o, GetNamespace <$> Accessor o = Some namespace)
                (map_to_list (ix_items i)).*2;
}.

Module ThreadSafeMap.
Section store.
Context {Obj : Type} `{MetaAccessor Obj}.

(** The store: the objects, whether the namespace indexer is installed, and
    its index (namespace to keys). *)
Record threadSafeMap := {
  items : gmap string Obj;
  indexed : bool;
  index : gmap string (gset string);
}.

Definition NewThreadSafeStore (with_index : bool) : threadSafeMap :=
  {| items := ∅; indexed := with_index; index := ∅ |}.

(** [MetaNamespaceIndexFunc]. *)
Definition MetaNamespaceIndexFunc (o : Obj) : option string := GetNamespace <$> Accessor o.

Definition addKeyToIndex (key value : string) (ix : gmap string (gset string)) :=
  <[value := {[key]} ∪ default ∅ (ix !! value)]> ix.

Definition deleteKeyFromIndex (key value : string) (ix : gmap string (gset string)) :=
  match ix !! value with
  | None => ix
  | Some s => if bool_decide (s ∖ {[key]} = ∅) then delete value ix
              else <[value := s ∖ {[key]}]> ix
  end.

(** [updateIndices(old, new, key)]; [None] is the panic on an object whose
    index value cannot be computed. *)
Definition updateIndices (old new : option Obj) (key : string) (s : threadSafeMap)
    : option threadSafeMap :=
  let values (o : option Obj) : option (list string) :=
    match o with
    | None => Some []
    | Some o => match MetaNamespaceIndexFunc o with
                | None => None
                | Some ns => Some [ns]
                end
    end in
  if negb (indexed s) then Some s
  else
    match values old, values new with
    | Some oldValues, Some newValues =>
        Some
          (if bool_decide (length newValues = 1%nat ∧ length oldValues = 1%nat ∧ newValues = oldValues)
           then s
           else {| items := items s; indexed := indexed s;
                   index := foldl (λ ix v, addKeyToIndex key v ix)
                              (foldl (λ ix v, deleteKeyFromIndex key v ix) (index s) oldValues)
                              newValues |})
    | _, _ => None
    end.

Definition set_items (f : gmap string Obj → gmap string Obj) (s : threadSafeMap) :=
  {| items := f (items s); indexed := indexed s; index := index s |}.

Definition Update (key : string) (obj : Obj) (s : threadSafeMap) : option threadSafeMap :=
  updateIndices (items s !! key) (Some obj) key (set_items <[key := obj]> s).

Definition Add (key : string) (obj : Obj) (s : threadSafeMap) : option threadSafeMap :=
  Update key obj s.

Definition Delete (key : string) (s : threadSafeMap) : option threadSafeMap :=
  match items s !! key with
  | None => Some s
  | Some obj => set_items (delete key) <$> updateIndices (Some obj) None key s
  end.

#[export] Instance threadSafeMap_Indexer : Indexer threadSafeMap Obj := {
  GetByKey s key := inr (items s !! key);
  List_ s := (map_to_list (items s)).*2;
  IndexByNamespace s ns :=
    if negb (indexed s) then inl (plainError "Index with name namespace does not exist")
    else inr (omap (λ key, items s !! key) (elements (default ∅ (index s !! ns))));
}.

(** ** Well-formedness: the index is exact *)
Definition keys_of (s : threadSafeMap) (ns : string) : gset string :=
  default ∅ (index s !! ns).

Definition exact (m : gmap string Obj) (ix : gmap string (gset string)) : Prop :=
  ∀ ns key, key ∈ default ∅ (ix !! ns) ↔ ∃ o, m !! key = Some o ∧ MetaNamespaceIndexFunc o = Some ns.

Definition wf (s : threadSafeMap) : Prop :=
  indexed s = true →
  exact (items s) (index s) ∧
  (∀ key o, items s !! key = Some o → is_Some (MetaNamespaceIndexFunc o)).

Lemma wf_new b : wf (NewThreadSafeStore b).
Proof.
  intros _. split.
  - intros ns key. simpl. rewrite lookup_empty. simpl. split; [set_solver|].
    by intros (o & Ho & _).
  - intros key o Ho. simpl in Ho. by rewrite lookup_empty in Ho.
Qed.

Lemma elem_of_addKeyToIndex key value ix ns k :
  k ∈ default ∅ (addKeyToIndex key value ix !! ns) ↔
  (k = key ∧ ns = value) ∨ k ∈ default ∅ (ix !! ns).
Proof.
  unfold addKeyToIndex. destruct (decide (ns = value)) as [->|Hne].
  - rewrite lookup_insert_eq. simpl. set_solver.
  - rewrite lookup_insert_ne by done. naive_solver.
Qed.

Lemma elem_of_deleteKeyFromIndex key value ix ns k :
  k ∈ default ∅ (deleteKeyFromIndex key value ix !! ns) ↔
  ¬ (k = key ∧ ns = value) ∧ k ∈ default ∅ (ix !! ns).
Proof.
  unfold deleteKeyFromIndex. destruct (ix !! value) as [s|] eqn:Hs.
  - case_bool_decide as He; (destruct (decide (ns = value)) as [->|Hne];
      [rewrite ?lookup_delete_eq, ?lookup_insert_eq, Hs
      |rewrite ?lookup_delete_ne, ?lookup_insert_ne by done]); simpl; set_solver.
  - destruct (decide (ns = value)) as [->|Hne]; [rewrite Hs; simpl; set_solver|].
    naive_solver.
Qed.

Lemma elem_of_foldl_add key vs ix ns k :
  k ∈ default ∅ (foldl (λ ix v, addKeyToIndex key v ix) ix vs !! ns) ↔
  (k = key ∧ ns ∈ vs) ∨ k ∈ default ∅ (ix !! ns).
Proof.
  revert ix. induction vs as [|v vs IH]; intros ix; simpl; [set_solver|].
  rewrite IH, elem_of_addKeyToIndex, elem_of_cons. naive_solver.
Qed.

Lemma elem_of_foldl_delete key vs ix ns k :
  k ∈ default ∅ (foldl (λ ix v, deleteKeyFromIndex key v ix) ix vs !! ns) ↔
  ¬ (k = key ∧ ns ∈ vs) ∧ k ∈ default ∅ (ix !! ns).
Proof.
  revert ix. induction vs as [|v vs IH]; intros ix; simpl; [set_solver|].
  rewrite IH, elem_of_deleteKeyFromIndex, elem_of_cons. naive_solver.
Qed.

Lemma indexed_Update key obj s s' :
  Update key obj s = Some s' → indexed s' = indexed s ∧ items s' = <[key := obj]> (items s).
Proof.
  unfold Update, updateIndices. destruct (indexed s) eqn:Hi; simpl; rewrite ?Hi; simpl;
    [|by intros; simplify_eq].
  intros Hu. repeat case_match; simplify_eq; by simpl.
Qed.

Lemma indexed_Delete key s s' :
  Delete key s = Some s' → indexed s' = indexed s ∧ items s' = delete key (items s).
Proof.
  unfold Delete. destruct (items s !! key) as [o|] eqn:Hk.
  - unfold updateIndices. destruct (indexed s) eqn:Hi; simpl; [|by intros; simplify_eq].
    intros Hu. repeat case_match; simplify_eq; simpl in *; simplify_eq; by simpl.
  - intros [= <-]. by rewrite delete_id.
Qed.

(** The index after [Update], whichever branch computed it. *)
Lemma elem_of_index_Update key obj s s' :
  wf s → indexed s = true → Update key obj s = Some s' →
  ∃ new, MetaNamespaceIndexFunc obj = Some new ∧
    ∀ ns k, k ∈ keys_of s' ns ↔
      (k = key ∧ ns = new) ∨ (k ≠ key ∧ k ∈ keys_of s ns).
Proof.
  intros Hwf Hi. destruct (Hwf Hi) as [Hex Hacc].
  unfold Update, updateIndices. simpl. rewrite Hi. simpl.
  destruct (MetaNamespaceIndexFunc obj) as [new|] eqn:Hnew;
    [|by intros Hu; repeat case_match; simplify_eq].
  intros Hu. exists new. split; [done|]. intros ns k. unfold keys_of.
  destruct (items s !! key) as [o|] eqn:Hk.
  - destruct (Hacc key o Hk) as [old Hold]. rewrite Hold in Hu.
    injection Hu as <-. case_bool_decide as Hb; simpl.
    + destruct Hb as (_ & _ & [= ->]). rewrite (Hex ns k).
      destruct (decide (k = key)) as [->|]; [|naive_solver].
      rewrite Hk. split; [intros (o' & [= <-] & Ho'); left; naive_solver|].
      intros [[_ ->]|[? _]]; [by eexists|done].
    + rewrite elem_of_addKeyToIndex, elem_of_deleteKeyFromIndex, (Hex ns k).
      destruct (decide (k = key)) as [->|]; naive_solver.
  - injection Hu as <-. simpl.
    rewrite elem_of_addKeyToIndex, (Hex ns k).
    destruct (decide (k = key)) as [->|]; naive_solver.
Qed.

Lemma wf_Update key obj s s' : wf s → Update key obj s = Some s' → wf s'.
Proof.
  intros Hwf Hu Hi'. destruct (indexed_Update _ _ _ _ Hu) as [Hi Hit].
  rewrite Hi in Hi'. destruct (Hwf Hi') as [Hex Hacc].
  destruct (elem_of_index_Update _ _ _ _ Hwf Hi' Hu) as (new & Hnew & Hidx).
  rewrite Hit. split.
  - intros ns k. fold (keys_of s' ns). rewrite Hidx. unfold keys_of. rewrite (Hex ns k).
    destruct (decide (k = key)) as [->|Hne].
    + rewrite lookup_insert_eq. naive_solver.
    + rewrite lookup_insert_ne by done. naive_solver.
  - intros k o. destruct (decide (k = key)) as [->|Hne].
    + rewrite lookup_insert_eq. intros [= <-]. eauto.
    + rewrite lookup_insert_ne by done. apply Hacc.
Qed.

Lemma wf_Delete key s s' : wf s → Delete key s = Some s' → wf s'.
Proof.
  intros Hwf Hd Hi'. destruct (indexed_Delete _ _ _ Hd) as [Hi Hit].
  rewrite Hi in Hi'. destruct (Hwf Hi') as [Hex Hacc]. rewrite Hit. split.
  - intros ns k. unfold Delete, updateIndices in Hd. rewrite Hi' in Hd. simpl in Hd.
    destruct (items s !! key) as [o|] eqn:Hk.
    + destruct (Hacc key o Hk) as [old Hold]. rewrite Hold in Hd.
      simpl in Hd. simplify_eq. simpl.
      rewrite elem_of_deleteKeyFromIndex, (Hex ns k).
      destruct (decide (k = key)) as [->|Hne].
      * rewrite lookup_delete_eq. naive_solver.
      * rewrite lookup_delete_ne by done. naive_solver.
    + simplify_eq. rewrite (Hex ns k), delete_id by done. done.
  - intros k o. rewrite lookup_delete_Some. intros [_ Ho]. by eapply Hacc.
Qed.

Lemma Update_total key obj s :
  wf s → is_Some (MetaNamespaceIndexFunc obj) → is_Some (Update key obj s).
Proof.
  intros Hwf [new Hnew]. unfold Update, updateIndices. simpl.
  destruct (indexed s) eqn:Hi; simpl; [|eauto]. destruct (Hwf Hi) as [_ Hacc].
  rewrite Hnew. destruct (items s !! key) as [o|] eqn:Hk; [|eauto].
  destruct (Hacc key o Hk) as [old ->]. eauto.
Qed.

#[export] Instance threadSafeMap_laws : IndexerLaws threadSafeMap Obj.
Proof.
  refine {| ix_ok := wf; ix_items := items |}.
  - done.
  - done.
  - intros s ns l Hwf. simpl. destruct (indexed s) eqn:Hi; simpl; [|done].
    intros [= <-]. destruct (Hwf Hi) as [Hex _].
    apply omap_elements_filter. intros k. apply (Hex ns k).
Defined.
End store.
Arguments threadSafeMap : clear implicits.
End ThreadSafeMap.
