(* ===== verification/Lister.v ===== *)
(** * Typed listers ([pkg/controller/lister.go], [interface.go], [informer.go])

    Reading objects of one type out of an indexer, cluster-wide or in one
    namespace.  Everything is stated against the [Indexer] interface. *)
From S2P Require Import Prelude GoStrings GoErrors Admission Keys Store.

(** [labels.Selector].  An empty selector selects everything
    (the documentation of [Selector.Empty]). *)
Record Selector := {
  Empty_ : bool;
  Matches : gmap string string → bool;
}.
Definition selector_ok (s : Selector) : Prop :=
  Empty_ s = true → ∀ l, Matches s l = true.
Definition Everything : Selector := {| Empty_ := true; Matches := λ _, true |}.

(** [v1alpha1.Resource("validationruleset")] of [k8s.io/api/node/v1alpha1]. *)
Definition node_Resource (resource : string) : GroupResource :=
  {| grGroup := "node.k8s.io"; grResource := resource |}.

Module Lister.
Section lister.
Context {I Obj : Type} `{Indexer I Obj} `{!MetaAccessor Obj}.
Implicit Types (indexer : I) (selector : Selector).

(** The loops of [cache.ListAll] and [cache.ListAllByNamespace]: append the
    matching objects, stop with an error at an object without metadata. *)
Fixpoint append_matching (selectAll : bool) selector (l ret : list Obj)
    : list Obj * option error :=
  match l with
  | [] => (ret, None)
  | m :: l =>
      if selectAll then append_matching selectAll selector l (ret ++ [m])
      else match Accessor m with
           | None => (ret, Some errNotObject)
           | Some metadata =>
               append_matching selectAll selector l
                 (if Matches selector (GetLabels metadata) then ret ++ [m] else ret)
           end
  end.

Definition ListAll indexer selector : list Obj * option error :=
  append_matching (Empty_ selector) selector (List_ indexer) [].

(** The slow search without index. *)
Fixpoint append_in_namespace (namespace : string) selector (l ret : list Obj)
    : list Obj * option error :=
  match l with
  | [] => (ret, None)
  | m :: l =>
      match Accessor m with
      | None => (ret, Some errNotObject)
      | Some metadata =>
          append_in_namespace namespace selector l
            (if bool_decide (GetNamespace metadata = namespace) &&
                Matches selector (GetLabels metadata) then ret ++ [m] else ret)
      end
  end.

Definition ListAllByNamespace indexer (namespace : string) selector
    : list Obj * option error :=
  if bool_decide (namespace = "") then ListAll indexer selector
  else match IndexByNamespace indexer namespace with
       | inl _ => append_in_namespace namespace selector (List_ indexer) []
       | inr items => append_matching (Empty_ selector) selector items []
       end.

(** [lister] and [namespacedLister], and their interface. *)
Record NamespacedLister := {
  List : Selector → list Obj * option error;
  Get : string → error + Obj;
}.

Definition namespacedLister_Get indexer (namespace name : string) : error + Obj :=
  match GetByKey indexer (namespace ++ slash_str ++ name)%string with
  | inl err => inl err
  | inr None => inl (NewNotFound {| grGroup := ""; grResource := "" |} name)
  | inr (Some obj) => inr obj
  end.

Definition lister_Get indexer (name : string) : error + Obj :=
  match GetByKey indexer name with
  | inl err => inl err
  | inr None => inl (NewNotFound (node_Resource "validationruleset") name)
  | inr (Some obj) => inr obj
  end.

Definition NewLister indexer : NamespacedLister :=
  {| List := ListAll indexer; Get := lister_Get indexer |}.

Definition Namespaced indexer (namespace : string) : NamespacedLister :=
  {| List := ListAllByNamespace indexer namespace;
     Get := namespacedLister_Get indexer namespace |}.

(** ** Lemmas *)
Definition matches selector (o : Obj) : Prop :=
  match Accessor o with
  | Some m => Matches selector (GetLabels m) = true
  | None => False
  end.
#[export] Instance matches_dec selector o : Decision (matches selector o).
Proof. unfold matches. destruct (Accessor o); apply _. Defined.

Lemma matches_accessor sel o m :
  Accessor o = Some m → (matches sel o ↔ Matches sel (GetLabels m) = true).
Proof. intros Hm. unfold matches. by rewrite Hm. Qed.

Lemma append_matching_spec sel l ret :
  selector_ok sel → Forall (λ o, is_Some (Accessor o)) l →
  append_matching (Empty_ sel) sel l ret = (ret ++ filter (matches sel) l, None).
Proof.
  intros Hsel Hl. revert ret. induction Hl as [|o l [m Hm] Hl IH]; intros ret; simpl.
  { by rewrite app_nil_r. }
  rewrite filter_cons. destruct (Empty_ sel) eqn:He.
  - rewrite decide_True by (apply (matches_accessor _ _ m); auto).
    by rewrite IH, <- app_assoc.
  - rewrite Hm, IH. destruct (Matches sel (GetLabels m)) eqn:Hx.
    + rewrite decide_True by (by apply (matches_accessor _ _ m)). by rewrite <- app_assoc.
    + rewrite decide_False; [done|]. rewrite matches_accessor by done. congruence.
Qed.

Lemma append_in_namespace_spec ns sel l ret :
  Forall (λ o, is_Some (Accessor o)) l →
  append_in_namespace ns sel l ret =
  (ret ++ filter (matches sel) (filter (λ o, GetNamespace <$> Accessor o = Some ns) l), None).
Proof.
  intros Hl. revert ret. induction Hl as [|o l [m Hm] Hl IH]; intros ret; simpl.
  { by rewrite app_nil_r. }
  rewrite Hm, IH, filter_cons, Hm. simpl.
  destruct (decide (GetNamespace m = ns)) as [Hns|Hns].
  - rewrite bool_decide_eq_true_2, decide_True by congruence. simpl. rewrite filter_cons.
    destruct (Matches sel (GetLabels m)) eqn:Hx.
    + rewrite decide_True by (by apply (matches_accessor _ _ m)). by rewrite <- app_assoc.
    + rewrite decide_False; [done|]. rewrite matches_accessor by done. congruence.
  - rewrite bool_decide_eq_false_2, decide_False by congruence. done.
Qed.
End lister.

(** ** Theorems, for any indexer that keeps the laws *)
Section theorems.
Context {I Obj : Type} `{IndexerLaws I Obj}.
Implicit Types (indexer : I) (sel : Selector).

(** Every stored object has metadata and is filed under its own key, as the
    informer's [MetaNamespaceKeyFunc] files it. *)
Definition filed indexer : Prop :=
  ∀ key o, ix_items indexer !! key = Some o →
    ∃ m, Accessor o = Some m ∧ key_part (GetNamespace m) ∧ key_part (GetName m) ∧
         key = meta_key (GetNamespace m) (GetName m).

Lemma filed_accessors indexer :
  filed indexer → Forall (λ o, is_Some (Accessor o)) (map_to_list (ix_items indexer)).*2.
Proof.
  intros Hf. apply Forall_forall. intros o ([k o'] & -> & Hin)%list_elem_of_fmap.
  apply elem_of_map_to_list in Hin. destruct (Hf _ _ Hin) as (m & Hm & _). eauto.
Qed.

Lemma filter_perm_Forall (P Q : Obj → Prop) `{!∀ o, Decision (P o)} l l' :
  l ≡ₚ filter P l' → Forall Q l' → Forall Q l.
Proof.
  intros Hp HQ. rewrite Hp. apply Forall_forall. intros o [_ Ho]%list_elem_of_filter.
  by eapply Forall_forall in HQ.
Qed.

(** Listing a namespace gives exactly the stored objects of that
    namespace that match the selector, each once and without error, whether
    or not the store has a namespace index; the empty namespace lists the
    objects of all namespaces. *)
Theorem Namespaced_List_spec indexer namespace sel :
  ix_ok indexer → filed indexer → selector_ok sel →
  let '(ret, err) := List (Namespaced indexer namespace) sel in
  err = None ∧
  ret ≡ₚ filter (λ o, (namespace = "" ∨ GetNamespace <$> Accessor o = Some namespace) ∧
                      matches sel o)
           (map_to_list (ix_items indexer)).*2.
Proof.
  intros Hok Hf Hsel. simpl. unfold ListAllByNamespace.
  pose proof (filed_accessors indexer Hf) as Hacc.
  pose proof (List_items indexer Hok) as Hlist.
  assert (Hacc' : Forall (λ o, is_Some (Accessor o)) (List_ indexer)) by (by rewrite Hlist).
  case_bool_decide as Hns.
  - unfold ListAll. rewrite append_matching_spec by done. split; [done|].
    simpl. rewrite Hlist. apply reflexive_eq, list_filter_iff. naive_solver.
  - destruct (IndexByNamespace indexer namespace) as [e|items] eqn:Hix.
    + rewrite append_in_namespace_spec by done. split; [done|]. simpl.
      rewrite Hlist, list_filter_filter. apply reflexive_eq, list_filter_iff. naive_solver.
    + pose proof (Index_items indexer namespace items Hok Hix) as Hp.
      rewrite append_matching_spec; [|done|by eapply filter_perm_Forall].
      split; [done|]. simpl. rewrite Hp, list_filter_filter.
      apply reflexive_eq, list_filter_iff. naive_solver.
Qed.

(** Both getters look the object up under its key. *)
Definition get_by indexer (namespace name : string) : error + Obj :=
  if is_empty namespace then Get (NewLister indexer) name
  else Get (Namespaced indexer namespace) name.

Lemma get_by_items indexer namespace name :
  ix_ok indexer →
  get_by indexer namespace name =
  match ix_items indexer !! meta_key namespace name with
  | Some o => inr o
  | None => inl (NewNotFound (if is_empty namespace then node_Resource "validationruleset"
                              else {| grGroup := ""; grResource := "" |}) name)
  end.
Proof.
  intros Hok. unfold get_by, meta_key. destruct (is_empty namespace); simpl;
    unfold lister_Get, namespacedLister_Get; rewrite GetByKey_items by done;
    by destruct (ix_items indexer !! _).
Qed.

(** Getting by namespace and name: the namespaced lister of a non-empty
    namespace (and the cluster lister, for an object without namespace)
    returns the stored object with that namespace and name, and a NotFound
    error exactly when there is none. *)
Theorem Namespaced_Get_spec indexer namespace name :
  ix_ok indexer → filed indexer → key_part namespace → key_part name →
  let get := if is_empty namespace then Get (NewLister indexer) name
             else Get (Namespaced indexer namespace) name in
  match get with
  | inr o => ix_items indexer !! meta_key namespace name = Some o ∧
             ∃ m, Accessor o = Some m ∧ GetNamespace m = namespace ∧ GetName m = name
  | inl err => IsNotFound (Some err) = true ∧
               ∀ key o m, ix_items indexer !! key = Some o → Accessor o = Some m →
                 ¬ (GetNamespace m = namespace ∧ GetName m = name)
  end.
Proof.
  intros Hok Hf Hns Hn. cbv zeta.
  fold (get_by indexer namespace name). rewrite get_by_items by done.
  destruct (ix_items indexer !! meta_key namespace name) as [o|] eqn:Hi.
  - split; [done|]. destruct (Hf _ _ Hi) as (m & Hm & Hk1 & Hk2 & Heq).
    exists m. split; [done|]. apply meta_key_inj in Heq; naive_solver.
  - split; [apply IsNotFound_NewNotFound|]. intros key o m Ho Hm [Hns' Hn'].
    destruct (Hf _ _ Ho) as (m' & Hm' & _ & _ & ->). simplify_eq.
Qed.
End theorems.

(** ** A concrete store: two objects of the namespace ["prod"], one of ["dev"] *)
Module Demo.
Import ThreadSafeMap.
Definition object := ObjectAccessor.
#[export] Instance object_accessor : MetaAccessor object := Some.

Definition obj (namespace name env : string) : object :=
  {| GetNamespace := namespace; GetName := name; GetGenerateName := "";
     GetResourceVersion := "1"; GetLabels := {["env" := env]} |}.

Definition add (o : object) (s : option (threadSafeMap object)) :=
  s ≫= Add (meta_key (GetNamespace o) (GetName o)) o.

Definition demo_objects : list object :=
  [obj "prod" "web" "live"; obj "prod" "db" "test"; obj "dev" "web" "live"].

Definition demo_store (with_index : bool) : threadSafeMap object :=
  default (NewThreadSafeStore with_index)
    (foldr add (Some (NewThreadSafeStore with_index)) demo_objects).

Definition env_live : Selector :=
  {| Empty_ := false; Matches := λ l, bool_decide (l !! "env" = Some "live") |}.

Lemma foldr_add_ok with_index l :
  Forall (λ o, key_part (GetNamespace o) ∧ key_part (GetName o)) l →
  ∃ s, foldr add (Some (NewThreadSafeStore with_index)) l = Some s ∧ wf s ∧ filed s.
Proof.
  induction 1 as [|o l [Hns Hn] Hl (s & Hs & Hwf & Hf)]; simpl.
  - eexists. split_and!; [done | apply wf_new |]. intros key o Ho. simpl in Ho. by rewrite lookup_empty in Ho.
  - rewrite Hs. simpl. unfold add, Add.
    destruct (Update_total (meta_key (GetNamespace o) (GetName o)) o s) as [s' Hs'];
      [done | by eexists|].
    exists s'. split_and!; [done | by eapply wf_Update|].
    destruct (indexed_Update _ _ _ _ Hs') as [_ Hit].
    intros key o' Ho'. change (items s' !! key = Some o') in Ho'.
    rewrite Hit, lookup_insert_Some in Ho'.
    destruct Ho' as [[<- <-]|[_ Ho']]; [|by apply Hf]. by eexists.
Qed.

Lemma demo_store_ok with_index : wf (demo_store with_index) ∧ filed (demo_store with_index).
Proof.
  destruct (foldr_add_ok with_index demo_objects) as (s & Hs & Hwf & Hf).
  { repeat constructor. }
  unfold demo_store. by rewrite Hs.
Qed.

Example demo_list :
  (List (Namespaced (demo_store true) "prod") env_live).1 = [obj "prod" "web" "live"].
Proof. by vm_compute. Qed.
End Demo.
Import Demo ThreadSafeMap.

Lemma Namespaced_List_spec_witness :
  let '(ret, err) := List (Namespaced (demo_store true) "prod") env_live in
  err = None ∧
  ret ≡ₚ filter (λ o, ("prod" = "" ∨ GetNamespace <$> Accessor o = Some "prod") ∧
                      matches env_live o)
           (map_to_list (ix_items (demo_store true))).*2.
Proof.
  apply (Namespaced_List_spec (demo_store true) "prod" env_live).
  - apply demo_store_ok.
  - apply demo_store_ok.
  - done.
Defined.

Lemma Namespaced_Get_spec_witness :
  match Get (Namespaced (demo_store false) "dev") "web" with
  | inr o => ix_items (demo_store false) !! meta_key "dev" "web" = Some o ∧
             ∃ m, Accessor o = Some m ∧ GetNamespace m = "dev" ∧ GetName m = "web"
  | inl err => IsNotFound (Some err) = true ∧
               ∀ key o m, ix_items (demo_store false) !! key = Some o → Accessor o = Some m →
                 ¬ (GetNamespace m = "dev" ∧ GetName m = "web")
  end.
Proof.
  apply (Namespaced_Get_spec (demo_store false) "dev" "web").
  - apply demo_store_ok.
  - apply demo_store_ok.
  - reflexivity.
  - reflexivity.
Defined.
End Lister.
