(* ===== verification/Workqueue.v ===== *)
(** * Work queues ([k8s.io/client-go/util/workqueue])

    The queue the controller runs on, layer by layer as the library builds it:
    the deduplicating queue [Type_], the delaying queue on top of it and the
    rate limiter that computes the delays.  Items are of any countable type. *)
From S2P Require Import Prelude.

Module Queue.
Section queue.
Context {K : Type} `{Countable K}.

Record Type_ := {
  queue : list K;
  dirty : gset K;
  processing : gset K;
  shuttingDown : bool;
  drain : bool;
}.
Implicit Types (q : Type_) (item : K).

Definition NewQueue : Type_ :=
  {| queue := []; dirty := ∅; processing := ∅; shuttingDown := false; drain := false |}.

Definition Add item q : Type_ :=
  if shuttingDown q then q
  else if bool_decide (item ∈ dirty q) then q
  else if bool_decide (item ∈ processing q)
  then {| queue := queue q; dirty := {[item]} ∪ dirty q; processing := processing q;
          shuttingDown := shuttingDown q; drain := drain q |}
  else {| queue := queue q ++ [item]; dirty := {[item]} ∪ dirty q;
          processing := processing q;
          shuttingDown := shuttingDown q; drain := drain q |}.

Definition Len q : nat := length (queue q).

(** [Get] waits while the queue is empty and not shutting down. *)
Inductive get_result := GetWaits | GetItem (item : K) | GetShutdown.

Definition Get q : get_result * Type_ :=
  match queue q with
  | [] => (if shuttingDown q then GetShutdown else GetWaits, q)
  | item :: rest =>
      (GetItem item,
       {| queue := rest; dirty := dirty q ∖ {[item]};
          processing := {[item]} ∪ processing q;
          shuttingDown := shuttingDown q; drain := drain q |})
  end.

Definition Done item q : Type_ :=
  let processing := processing q ∖ {[item]} in
  {| queue := if bool_decide (item ∈ dirty q) then queue q ++ [item] else queue q;
     dirty := dirty q; processing := processing;
     shuttingDown := shuttingDown q; drain := drain q |}.

Definition setDrain (b : bool) q : Type_ :=
  {| queue := queue q; dirty := dirty q; processing := processing q;
     shuttingDown := shuttingDown q; drain := b |}.
Definition shutdown q : Type_ :=
  {| queue := queue q; dirty := dirty q; processing := processing q;
     shuttingDown := true; drain := drain q |}.

Definition ShutDown q : Type_ := shutdown (setDrain false q).
(** The part of [ShutDownWithDrain] before its loop, and the loop's test. *)
Definition ShutDownWithDrain_begin q : Type_ := shutdown (setDrain true q).
Definition ShutDownWithDrain_waits q : bool :=
  bool_decide (processing q ≠ ∅) && drain q.

(** ** The invariant of the documentation of [Type]

    "Every element of queue should be in the dirty set and not in the
    processing set"; conversely a dirty item that is not being processed is
    queued, and nothing is queued twice. *)
Record wf q : Prop := {
  wf_nodup : NoDup (queue q);
  wf_queue : ∀ item, item ∈ queue q ↔ item ∈ dirty q ∧ item ∉ processing q;
}.

Lemma wf_NewQueue : wf NewQueue.
Proof. split; simpl; [constructor | set_solver]. Qed.

Lemma wf_Add item q : wf q → wf (Add item q).
Proof.
  intros [Hnd Hq]. unfold Add.
  destruct (shuttingDown q); [done|]. case_bool_decide; [done|].
  case_bool_decide; split; simpl; try done.
  - intros k. rewrite Hq. set_solver.
  - apply NoDup_app. split_and!; [done | set_solver | apply NoDup_singleton].
  - intros k. rewrite elem_of_app, Hq. set_solver.
Qed.

Lemma wf_Get q r q' : wf q → Get q = (r, q') → wf q'.
Proof.
  intros [Hnd Hq]. unfold Get. destruct (queue q) as [|item rest] eqn:Hqq.
  - intros [= <- <-]. split; by rewrite Hqq.
  - intros [= <- <-]. apply NoDup_cons in Hnd as [Hni Hnd]. split; simpl; [done|].
    intros k. specialize (Hq k). rewrite elem_of_cons in Hq. set_solver.
Qed.

Lemma wf_Done item q : wf q → item ∈ processing q → wf (Done item q).
Proof.
  intros [Hnd Hq] Hp. unfold Done. split; simpl.
  - case_bool_decide; [|done]. apply NoDup_app.
    split_and!; [done | set_solver | apply NoDup_singleton].
  - intros k. case_bool_decide as Hd.
    + rewrite elem_of_app, Hq. destruct (decide (k = item)); set_solver.
    + rewrite Hq. destruct (decide (k = item)); set_solver.
Qed.

Lemma wf_shutdown q : wf q → wf (shutdown q).
Proof. by intros [? ?]. Qed.
Lemma wf_setDrain b q : wf q → wf (setDrain b q).
Proof. by intros [? ?]. Qed.

Lemma dirty_Add item q :
  dirty (Add item q) = if shuttingDown q then dirty q else {[item]} ∪ dirty q.
Proof.
  unfold Add. destruct (shuttingDown q); [done|].
  case_bool_decide; [set_solver|]. by case_bool_decide.
Qed.

Lemma processing_Add item q : processing (Add item q) = processing q.
Proof. unfold Add. repeat case_match; done. Qed.
Lemma shuttingDown_Add item q : shuttingDown (Add item q) = shuttingDown q.
Proof. unfold Add. destruct (shuttingDown q) eqn:E; [done|]. repeat case_match; done. Qed.
Lemma Add_shuttingDown item q : shuttingDown q = true → Add item q = q.
Proof. unfold Add. by intros ->. Qed.

(** A dirty item is waiting in the queue or will be queued by [Done]. *)
Lemma wf_dirty q item : wf q → item ∈ dirty q → item ∈ queue q ∨ item ∈ processing q.
Proof.
  intros Hwf Hd. destruct (decide (item ∈ processing q)); [by right|].
  left. by apply wf_queue.
Qed.
End queue.
Arguments Type_ K {_ _}.
Arguments get_result K : clear implicits.

Create HintDb queue.
#[export] Hint Resolve wf_NewQueue wf_Add wf_Done wf_shutdown wf_setDrain : queue.
End Queue.

Module Delaying.
Section delaying.
Context {K : Type} `{Countable K}.

(** Where the goroutine [waitingLoop] is: at the top of its loop, adding the entries
    that were ready at [now], in its [select], emptying the channel, or gone. *)
Inductive loop_pc := LoopTop | LoopAdds (now : Z) | LoopWaits | LoopDrains | LoopExited.

(** [delayingType]: the queue, the channel [waitingForAddCh] (1000 slots), the
    entries of the waiting loop, item to time of readiness (the priority queue
    [waitingForQueue] with its index [waitingEntryByData]), and the loop.  The channel
    [stopCh] is left out: only [delayingType.ShutDown] closes it, which nobody calls
    ([ShutDownWithDrain] is that of the queue inside). *)
Record delayingType := {
  inner : Queue.Type_ K;
  waitingForAddCh : list (K * Z);
  waitingEntryByData : gmap K Z;
  loop : loop_pc;
}.
Implicit Types (d : delayingType) (item : K).

Definition waitingForAddCh_cap : nat := 1000.

Definition NewDelayingQueue : delayingType :=
  {| inner := Queue.NewQueue; waitingForAddCh := []; waitingEntryByData := ∅; loop := LoopTop |}.

Definition with_inner (f : Queue.Type_ K → Queue.Type_ K) d : delayingType :=
  {| inner := f (inner d); waitingForAddCh := waitingForAddCh d;
     waitingEntryByData := waitingEntryByData d; loop := loop d |}.
Definition set_loop (pc : loop_pc) d : delayingType :=
  {| inner := inner d; waitingForAddCh := waitingForAddCh d;
     waitingEntryByData := waitingEntryByData d; loop := pc |}.

(** [AddAfter] at time [now], up to its [select]: it returns, or it goes on to send
    the item with its time of readiness. *)
Definition AddAfter item (duration now : Z) d : delayingType + Z :=
  if Queue.shuttingDown (inner d) then inl d
  else if duration <=? 0 then inl (with_inner (Queue.Add item) d)
  else inr (now + duration).

(** Its [select]: the send, [None] while the channel is full. *)
Definition send item (readyAt : Z) d : option delayingType :=
  if bool_decide (length (waitingForAddCh d) < waitingForAddCh_cap)%nat
  then Some {| inner := inner d;
               waitingForAddCh := waitingForAddCh d ++ [(item, readyAt)];
               waitingEntryByData := waitingEntryByData d; loop := loop d |}
  else None.

(** [insert]: an item keeps the earliest of its times. *)
Definition insert_entry item (readyAt : Z) (m : gmap K Z) : gmap K Z :=
  match m !! item with
  | Some existing => if readyAt <? existing then <[item := readyAt]> m else m
  | None => <[item := readyAt]> m
  end.

(** *** The moves of [waitingLoop]

    An entry that is ready, one with the earliest time, is added; *)
Definition ready item d : bool :=
  match loop d, waitingEntryByData d !! item with
  | LoopAdds now, Some readyAt =>
      (readyAt <=? now) && bool_decide (map_Forall (λ _ t, readyAt ≤ t) (waitingEntryByData d))
  | _, _ => false
  end.
Definition fire item d : option delayingType :=
  if ready item d
  then Some {| inner := Queue.Add item (inner d);
               waitingForAddCh := waitingForAddCh d;
               waitingEntryByData := delete item (waitingEntryByData d); loop := loop d |}
  else None.

(** an entry is received from the channel, by the outer or the inner [select]; *)
Definition receive (now : Z) d : option delayingType :=
  match loop d, waitingForAddCh d with
  | (LoopWaits | LoopDrains), (item, readyAt) :: rest =>
      Some (if now <? readyAt
            then {| inner := inner d; waitingForAddCh := rest;
                    waitingEntryByData := insert_entry item readyAt (waitingEntryByData d);
                    loop := LoopDrains |}
            else {| inner := Queue.Add item (inner d); waitingForAddCh := rest;
                    waitingEntryByData := waitingEntryByData d; loop := LoopDrains |})
  | _, _ => None
  end.

(** or the loop goes on: it ends at its top when the queue is shutting down, stops
    adding when no entry is ready, is woken by the heartbeat or the timer, or has
    found the channel empty. *)
Definition loop_move (now : Z) d : option delayingType :=
  match loop d with
  | LoopTop => Some (set_loop (if Queue.shuttingDown (inner d) then LoopExited else LoopAdds now) d)
  | LoopAdds t =>
      if bool_decide (map_Forall (λ _ readyAt, t < readyAt) (waitingEntryByData d))
      then Some (set_loop LoopWaits d) else None
  | LoopWaits => Some (set_loop LoopTop d)
  | LoopDrains => match waitingForAddCh d with [] => Some (set_loop LoopTop d) | _ => None end
  | LoopExited => None
  end.

(** The items the delaying queue has taken over and not dropped. *)
Definition held d : gset K :=
  list_to_set (waitingForAddCh d).*1 ∪ dom (waitingEntryByData d).

Lemma dom_insert_entry item t m : dom (insert_entry item t m) = {[item]} ∪ dom m.
Proof.
  unfold insert_entry. destruct (m !! item) as [t'|] eqn:Hm.
  - apply elem_of_dom_2 in Hm. destruct (t <? t'); [by rewrite dom_insert_L|set_solver].
  - by rewrite dom_insert_L.
Qed.

Lemma insert_entry_earliest item t m :
  insert_entry item t m !! item =
  Some (match m !! item with Some t' => Z.min t t' | None => t end).
Proof.
  unfold insert_entry. destruct (m !! item) as [t'|] eqn:Hm; [|by rewrite lookup_insert_eq].
  destruct (t <? t') eqn:Ht; [rewrite lookup_insert_eq|rewrite Hm]; f_equal; lia.
Qed.

(** Nothing is lost on the way to the queue while it is not shutting down. *)
Lemma receive_keeps now d d' item :
  Queue.shuttingDown (inner d) = false → receive now d = Some d' →
  item ∈ held d ∪ Queue.dirty (inner d) →
  item ∈ held d' ∪ Queue.dirty (inner d').
Proof.
  intros Hs. unfold receive, held. destruct (loop d), (waitingForAddCh d) as [|[k t] rest] eqn:Hc; try done;
    (destruct (now <? t); intros [= <-]; simpl;
     [rewrite dom_insert_entry|rewrite Queue.dirty_Add, Hs]; set_solver).
Qed.

Lemma fire_keeps d d' k item :
  Queue.shuttingDown (inner d) = false → fire k d = Some d' →
  item ∈ held d ∪ Queue.dirty (inner d) →
  item ∈ held d' ∪ Queue.dirty (inner d').
Proof.
  intros Hs. unfold fire, held. destruct (ready k d); [|done]. intros [= <-]. simpl.
  rewrite Queue.dirty_Add, Hs, dom_delete_L. destruct (decide (item = k)); set_solver.
Qed.
End delaying.
Arguments delayingType K {_ _}.
End Delaying.

Module RateLimiter.
Section limiter.
Context {K : Type} `{Countable K}.

(** [ItemExponentialFailureRateLimiter]; durations in nanoseconds. *)
Record ItemExponential := {
  failures : gmap K Z;
  baseDelay : Z;
  maxDelay : Z;
}.
Implicit Types (r : ItemExponential) (item : K).

Definition NewItemExponential (base max : Z) : ItemExponential :=
  {| failures := ∅; baseDelay := base; maxDelay := max |}.

(** [DefaultControllerRateLimiter]'s per-item limiter: 5 ms to 1000 s. *)
Definition DefaultItemLimiter : ItemExponential := NewItemExponential 5000000 1000000000000.

Definition NumRequeues item r : Z := default 0 (failures r !! item).

(** [When].  The product is computed in [float64]: a base below [2^53] times a
    power of two is exact, and [MaxInt64] converts to [2^63]. *)
Definition When item r : Z * ItemExponential :=
  let exp := NumRequeues item r in
  let r' := {| failures := <[item := wrap64 (exp + 1)]> (failures r);
               baseDelay := baseDelay r; maxDelay := maxDelay r |} in
  let backoff := baseDelay r * 2 ^ exp in
  if 2 ^ 63 <? backoff then (maxDelay r, r')
  else let calculated := wrap64 backoff in
       (if maxDelay r <? calculated then maxDelay r else calculated, r').

Definition Forget item r : ItemExponential :=
  {| failures := delete item (failures r); baseDelay := baseDelay r; maxDelay := maxDelay r |}.

(** [MaxOfRateLimiter.When] over the per-item limiter and the token bucket,
    whose delay is [bucket]. *)
Definition MaxOf_When item (bucket : Z) r : Z * ItemExponential :=
  let '(d, r') := When item r in
  let ret := if 0 <? d then d else 0 in
  (if ret <? bucket then bucket else ret, r').

Definition default_delays r : Prop := baseDelay r = 5000000 ∧ maxDelay r = 1000000000000.

(** C37: The back-off of a failing item: its delay is 5 ms times two to the
    number of failures so far, capped at 1000 s, whatever the number of
    failures (no overflow); the failure is counted, other items keep their
    counts, and forgetting the item starts again from 5 ms. *)
Theorem When_backoff item r :
  default_delays r → 0 ≤ NumRequeues item r < 2 ^ 63 - 1 →
  let '(d, r') := When item r in
  d = Z.min (5000000 * 2 ^ NumRequeues item r) 1000000000000 ∧
  default_delays r' ∧ NumRequeues item r' = NumRequeues item r + 1 ∧
  (∀ other, other ≠ item → NumRequeues other r' = NumRequeues other r) ∧
  (When item (Forget item r')).1 = 5000000.
Proof.
  intros [Hb Hm] Hn. unfold When. rewrite Hb, Hm.
  assert (Hpos : 0 < 2 ^ NumRequeues item r) by lia.
  assert (Hne : 5000000 * 2 ^ NumRequeues item r ≠ 2 ^ 63).
  { intros Heq.
    assert (Hmod : (5000000 * 2 ^ NumRequeues item r) `mod` 5 = 0)
      by (replace (5000000 * 2 ^ NumRequeues item r)
            with ((1000000 * 2 ^ NumRequeues item r) * 5) by lia; apply Z.mod_mul; lia).
    by rewrite Heq in Hmod. }
  assert (Hrest : ∀ d, let r' := {| failures := <[item := wrap64 (NumRequeues item r + 1)]> (failures r);
      baseDelay := baseDelay r; maxDelay := maxDelay r |} in
    d = Z.min (5000000 * 2 ^ NumRequeues item r) 1000000000000 →
    d = Z.min (5000000 * 2 ^ NumRequeues item r) 1000000000000 ∧
    default_delays r' ∧ NumRequeues item r' = NumRequeues item r + 1 ∧
    (∀ other, other ≠ item → NumRequeues other r' = NumRequeues other r) ∧
    (When item (Forget item r')).1 = 5000000).
  { intros d r' Hd. split_and!; [done|done| | |].
    - unfold NumRequeues at 1, r'. simpl. rewrite lookup_insert_eq. simpl.
      apply wrap64_id. lia.
    - intros other Ho. unfold NumRequeues, r'. simpl. by rewrite lookup_insert_ne.
    - unfold When, NumRequeues, Forget, r'. simpl. rewrite lookup_delete_eq. simpl.
      by rewrite Hb, Hm. }
  rewrite Hb, Hm in Hrest.
  destruct (2 ^ 63 <? _) eqn:Hlt.
  - apply Hrest. apply Z.ltb_lt in Hlt. lia.
  - apply Z.ltb_ge in Hlt. rewrite wrap64_id by lia.
    destruct (1000000000000 <? _) eqn:Hlt2; apply Hrest; lia.
Qed.

(** The limiter of the controller never answers with a negative delay. *)
Lemma MaxOf_When_nonneg item bucket r : 0 ≤ (MaxOf_When item bucket r).1.
Proof. unfold MaxOf_When. destruct (When item r) as [d r']. simpl. repeat case_match; lia. Qed.
End limiter.
Arguments ItemExponential K {_ _}.

Lemma When_backoff_witness :
  let r := (When 7%nat (When 7%nat DefaultItemLimiter).2).2 in
  let '(d, r') := When 7%nat r in
  d = Z.min (5000000 * 2 ^ NumRequeues 7%nat r) 1000000000000 ∧
  default_delays r' ∧ NumRequeues 7%nat r' = NumRequeues 7%nat r + 1 ∧
  (∀ other, other ≠ 7%nat → NumRequeues other r' = NumRequeues other r) ∧
  (When 7%nat (Forget 7%nat r')).1 = 5000000.
Proof. apply When_backoff; [done | by vm_compute]. Defined.
End RateLimiter.
