(* ===== verification/Controller.v ===== *)
(** * The generic controller ([pkg/controller/generic.go])

    Event handlers that turn informer notifications into queue keys, workers
    that reconcile the keys, and the life cycle of [Run].  The operations are
    executable definitions; [Run] with its workers, the delaying queue's
    goroutine, the informer and the caller's context is a labelled transition
    system over them. *)
From S2P Require Import Prelude GoStrings GoErrors Admission Keys Store Lister Workqueue.

Module Controller.
(** What comes off the work queue: an [interface{}] that should be a string. *)
Inductive item := StringItem (key : string) | OtherItem (id : nat).

#[export] Instance item_eq_dec : EqDecision item.
Proof. solve_decision. Defined.
#[export] Instance item_countable : Countable item.
Proof.
  apply (inj_countable' (λ i, match i with StringItem k => inl k | OtherItem n => inr n end)
                        (λ s, match s with inl k => StringItem k | inr n => OtherItem n end)).
  by intros [].
Defined.

(** [ControllerOptions] and the defaults of [New]. *)
Record ControllerOptions := { Name : string; Workers : Z }.

Definition New_options (type_name : string) (o : ControllerOptions) : ControllerOptions :=
  {| Name := if is_empty (Name o) then (type_name ++ "-controller")%string else Name o;
     Workers := if Workers o =? 0 then 2 else Workers o |}.

Section controller.
Context {I Obj W : Type} `{Indexer I Obj} `{!MetaAccessor Obj}.
(** The user's reconciler: namespace, name, and the object or the zero value. *)
Variable reconciler : string → string → option Obj → ST W (option error).
Abbreviation dqueue := (Delaying.delayingType item).

(** ** Event handlers *)
Definition enqueue (v : informer_value Obj) (d : dqueue) : dqueue :=
  match MetaNamespaceKeyFunc v with
  | inl _ => d
  | inr key => Delaying.with_inner (Queue.Add (StringItem key)) d
  end.

Definition AddFunc (v : informer_value Obj) (d : dqueue) : dqueue := enqueue v d.

Definition UpdateFunc (oldObj newObj : informer_value Obj) (d : dqueue) : dqueue :=
  match value_accessor oldObj, value_accessor newObj with
  | Some oldMeta, Some newMeta =>
      if bool_decide (GetResourceVersion oldMeta = GetResourceVersion newMeta) then d
      else enqueue newObj d
  | _, _ => d
  end.

Definition DeleteFunc (v : informer_value Obj) (d : dqueue) : dqueue := enqueue v d.

Inductive notification :=
  | OnAdd (v : informer_value Obj)
  | OnUpdate (oldObj newObj : informer_value Obj)
  | OnDelete (v : informer_value Obj).

Definition handle (n : notification) : dqueue → dqueue :=
  match n with
  | OnAdd v => AddFunc v
  | OnUpdate v v' => UpdateFunc v v'
  | OnDelete v => DeleteFunc v
  end.

(** The key a notification asks to reconcile, if any. *)
Definition notification_key (n : notification) : option string :=
  let key v := match MetaNamespaceKeyFunc v with inl _ => None | inr k => Some k end in
  match n with
  | OnAdd v | OnDelete v => key v
  | OnUpdate v v' =>
      match value_accessor v, value_accessor v' with
      | Some m, Some m' =>
          if bool_decide (GetResourceVersion m = GetResourceVersion m') then None else key v'
      | _, _ => None
      end
  end.

Lemma handle_key n d :
  handle n d = match notification_key n with
               | Some key => Delaying.with_inner (Queue.Add (StringItem key)) d
               | None => d
               end.
Proof.
  destruct n as [v|v v'|v]; simpl; unfold AddFunc, UpdateFunc, DeleteFunc, enqueue;
    repeat case_match; simplify_eq; done.
Qed.

(** ** Reconciling a key *)
Definition reconcile (indexer : I) (key : string) : ST W (option error) :=
  match SplitMetaNamespaceKey key with
  | inl _ => mret None
  | inr (namespace, name) =>
      let lister := if negb (is_empty namespace) then Lister.Namespaced indexer namespace
                    else Lister.NewLister indexer in
      match Lister.Get lister name with
      | inr newObj => reconciler namespace name (Some newObj)
      | inl err => if negb (IsNotFound (Some err)) then mret (Some err)
                   else reconciler namespace name None
      end
  end.

(** ** The state of a running controller

    A worker is at the top of [wait.Until]; inside [queue.Get]; inside
    [reconcile]; about to [AddRateLimited]; in the [select] of [AddAfter], sending the
    key to the waiting loop; about to [Forget] a success or an invalid item; at the
    deferred [Done]; or finished. *)
Inductive worker :=
  | Starting
  | AtGet
  | Reconciling (key : string)
  | Failed (key : string)
  | Sending (key : string) (readyAt : Z)
  | Succeeded (key : string)
  | Invalid (it : item)
  | Finishing (it : item)
  | Exited.

#[export] Instance worker_eq_dec : EqDecision worker.
Proof. solve_decision. Defined.

Inductive main_pc := Syncing | Serving | Draining | Joining | Returned (err : option error).

Record state := {
  dq : dqueue;
  limiter : RateLimiter.ItemExponential item;
  indexer : I;
  world : W;
  workers : list worker;
  now : Z;
  ctxErr : option error;
  synced : bool;
  main : main_pc;
}.

#[local] Instance state_settable : Settable state := λ st,
  {| dq := dq st; limiter := limiter st; indexer := indexer st; world := world st;
     workers := workers st; now := now st; ctxErr := ctxErr st; synced := synced st;
     main := main st |}.

Definition set_dq : dqueue → state → state := ltac:(setter_of state dq).
Definition set_limiter : RateLimiter.ItemExponential item → state → state :=
  ltac:(setter_of state limiter).
Definition set_indexer : I → state → state := ltac:(setter_of state indexer).
Definition set_world : W → state → state := ltac:(setter_of state world).
Definition set_workers : list worker → state → state := ltac:(setter_of state workers).
Definition set_now : Z → state → state := ltac:(setter_of state now).
Definition set_ctxErr : option error → state → state := ltac:(setter_of state ctxErr).
Definition set_synced : bool → state → state := ltac:(setter_of state synced).
Definition set_main : main_pc → state → state := ltac:(setter_of state main).

Definition set_worker (i : nat) (w : worker) st : state :=
  set_workers (<[i := w]> (workers st)) st.

(** [New]: an idle controller. *)
Definition New (i : I) (w : W) : state :=
  {| dq := Delaying.NewDelayingQueue; limiter := RateLimiter.DefaultItemLimiter;
     indexer := i; world := w; workers := []; now := 0; ctxErr := None;
     synced := false; main := Syncing |}.

(** ** The moves of a worker

    [worker_move st i bucket]: what worker [i] does next, [None] if it cannot
    move (waiting in [Get], blocked on the full channel of the delaying queue, or
    finished).  [bucket] is the delay of the token-bucket rate limiter. *)
Definition worker_move (st : state) (i : nat) (bucket : Z) : option state :=
  w ← workers st !! i;
  match w with
  | Starting =>
      Some (set_worker i (match ctxErr st with Some _ => Exited | None => AtGet end) st)
  | AtGet =>
      match Queue.Get (Delaying.inner (dq st)) with
      | (Queue.GetWaits, _) => None
      | (Queue.GetShutdown, _) => Some (set_worker i Starting st)
      | (Queue.GetItem it, q) =>
          Some (set_worker i (match it with StringItem key => Reconciling key
                                          | OtherItem _ => Invalid it end)
                  (set_dq (Delaying.with_inner (λ _, q) (dq st)) st))
      end
  | Reconciling key =>
      let '(err, w') := reconcile (indexer st) key (world st) in
      Some (set_worker i (match err with Some _ => Failed key | None => Succeeded key end)
              (set_world w' st))
  | Failed key =>
      let '(delay, l) := RateLimiter.MaxOf_When (StringItem key) bucket (limiter st) in
      Some (match Delaying.AddAfter (StringItem key) delay (now st) (dq st) with
            | inl d => set_worker i (Finishing (StringItem key)) (set_limiter l (set_dq d st))
            | inr readyAt => set_worker i (Sending key readyAt) (set_limiter l st)
            end)
  | Sending key readyAt =>
      d ← Delaying.send (StringItem key) readyAt (dq st);
      Some (set_worker i (Finishing (StringItem key)) (set_dq d st))
  | Succeeded key =>
      Some (set_worker i (Finishing (StringItem key))
              (set_limiter (RateLimiter.Forget (StringItem key) (limiter st)) st))
  | Invalid it =>
      Some (set_worker i (Finishing it)
              (set_limiter (RateLimiter.Forget it (limiter st)) st))
  | Finishing it =>
      Some (set_worker i AtGet (set_dq (Delaying.with_inner (Queue.Done it) (dq st)) st))
  | Exited => None
  end.

(** ** The moves of [Run] itself, [None] while it waits

    [polled]: whether waiting for the informer ends with a run of its
    condition, which may win against a cancelled context.  Waiting fails only when the
    context is done ([WaitForCacheSync]), so that the error "cache sync failed" of
    [Run] is never made. *)
Definition main_move (n_workers : nat) (polled : bool) (st : state) : option state :=
  match main st with
  | Syncing =>
      if polled && synced st
      then Some (set_main Serving (set_workers (replicate n_workers Starting) st))
      else match ctxErr st with
           | Some e => Some (set_main (Returned (Some e)) st)
           | None => None
           end
  | Serving =>
      match ctxErr st with
      | Some _ => Some (set_main Draining
          (set_dq (Delaying.with_inner Queue.ShutDownWithDrain_begin (dq st)) st))
      | None => None
      end
  | Draining =>
      if Queue.ShutDownWithDrain_waits (Delaying.inner (dq st)) then None
      else Some (set_main Joining st)
  | Joining =>
      if bool_decide (Forall (λ w, w = Exited) (workers st))
      then Some (set_main (Returned (ctxErr st)) st) else None
  | Returned _ => None
  end.

Inductive label :=
  | Notify (n : notification)             (** an informer event *)
  | StoreChanges (i : I)                  (** the informer updates its store *)
  | Passes (t : Z)                        (** time *)
  | Syncs                                 (** the informer has synced *)
  | Cancel (e : error)                    (** the caller cancels *)
  | Fires (it : item)                     (** the waiting loop, ready entry *)
  | Receives                              (** the waiting loop, channel *)
  | LoopMoves                             (** the waiting loop goes on *)
  | WorkerMoves (i : nat) (bucket : Z)
  | MainMoves (polled : bool).

Inductive step (n_workers : nat) : state → label → state → Prop :=
  | step_notify st n :
      step n_workers st (Notify n) (set_dq (handle n (dq st)) st)
  | step_store st i : step n_workers st (StoreChanges i) (set_indexer i st)
  | step_time st t : now st ≤ t → step n_workers st (Passes t) (set_now t st)
  | step_sync st : step n_workers st Syncs (set_synced true st)
  | step_ctx st e : ctxErr st = None → step n_workers st (Cancel e) (set_ctxErr (Some e) st)
  | step_fire st it d :
      Delaying.fire it (dq st) = Some d → step n_workers st (Fires it) (set_dq d st)
  | step_receive st d :
      Delaying.receive (now st) (dq st) = Some d → step n_workers st Receives (set_dq d st)
  | step_loop st d :
      Delaying.loop_move (now st) (dq st) = Some d → step n_workers st LoopMoves (set_dq d st)
  | step_worker st i bucket st' :
      worker_move st i bucket = Some st' →
      step n_workers st (WorkerMoves i bucket) st'
  | step_main st polled st' :
      main_move n_workers polled st = Some st' → step n_workers st (MainMoves polled) st'.
End controller.

(** ** Theorems on the handlers and on one reconciliation *)
Section theorems.
Context {I Obj W : Type} `{IndexerLaws I Obj}.
Variable reconciler : string → string → option Obj → ST W (option error).

(** The event handlers enqueue exactly the namespace/name key of the
    object: on every addition and every deletion, and on an update whose
    resource versions differ; a resync (equal resource versions) enqueues
    nothing, and neither does the deletion of an object whose final state is
    unknown. *)
Theorem handlers_spec (o o' : Obj) m m' key (d : Delaying.delayingType item) :
  Accessor o = Some m → Accessor o' = Some m' →
  let enqueued := Delaying.with_inner
    (Queue.Add (StringItem (meta_key (GetNamespace m') (GetName m')))) d in
  AddFunc (AnObject o') d = enqueued ∧
  DeleteFunc (AnObject o') d = enqueued ∧
  UpdateFunc (AnObject o) (AnObject o') d =
    (if decide (GetResourceVersion m = GetResourceVersion m') then d else enqueued) ∧
  DeleteFunc (DeletedFinalStateUnknown key o') d = d.
Proof.
  intros Hm Hm' enqueued.
  assert (Henq : enqueue (AnObject o') d = enqueued).
  { unfold enqueue, enqueued, meta_key. simpl. rewrite Hm'. by destruct (is_empty _). }
  split_and!; [done|done| |done]. unfold UpdateFunc. simpl. rewrite Hm, Hm', Henq.
  case_bool_decide; by case_decide.
Qed.

(** C32: Reconciliation is level triggered: reconciling the key of a
    namespace and a name runs the reconciler once, on that namespace and name
    and on the object the store holds under them now (no object if there is
    none), and returns its result; a malformed key is dropped without
    running the reconciler, and is not retried. *)
Theorem reconcile_spec (ix : I) :
  ix_ok ix →
  (∀ namespace name, key_part namespace → key_part name →
     reconcile reconciler ix (meta_key namespace name) ≈ₛ
     reconciler namespace name (ix_items ix !! meta_key namespace name)) ∧
  (∀ key err, SplitMetaNamespaceKey key = inl err → reconcile reconciler ix key ≈ₛ mret None).
Proof.
  intros Hok. split.
  - intros namespace name Hns Hn w. unfold reconcile. rewrite Split_meta_key by done.
    pose proof (Lister.get_by_items ix namespace name Hok) as Hget. unfold Lister.get_by in Hget.
    destruct (is_empty namespace); simpl in *; rewrite Hget;
      destruct (ix_items ix !! meta_key namespace name); try done;
      by rewrite IsNotFound_NewNotFound.
  - intros key err Hkey w. unfold reconcile. by rewrite Hkey.
Qed.
End theorems.

(** A reconciler that records what it is asked, and fails on the name ["bad"]. *)
Module Demo.
Import Lister.Demo.
Definition demo_reconciler (namespace name : string) (newObj : option object)
    : ST (list (string * bool)) (option error) :=
  λ log, (if decide (name = "bad") then Some (plainError "transient") else None,
          log ++ [(meta_key namespace name, bool_decide (is_Some newObj))]).
End Demo.
Import ThreadSafeMap Lister.Demo Demo.

Lemma handlers_spec_witness :
  let d : Delaying.delayingType item := Delaying.NewDelayingQueue in
  let o := obj "prod" "web" "live" in
  let enqueued := Delaying.with_inner (Queue.Add (StringItem "prod/web")) d in
  AddFunc (AnObject o) d = enqueued ∧
  DeleteFunc (AnObject o) d = enqueued ∧
  UpdateFunc (AnObject o) (AnObject o) d = d ∧
  DeleteFunc (DeletedFinalStateUnknown "prod/web" o) d = d.
Proof.
  exact (handlers_spec (obj "prod" "web" "live") (obj "prod" "web" "live") _ _ "prod/web"
           Delaying.NewDelayingQueue eq_refl eq_refl).
Defined.

Lemma reconcile_spec_witness :
  (∀ namespace name, key_part namespace → key_part name →
     reconcile demo_reconciler (demo_store true) (meta_key namespace name) ≈ₛ
     demo_reconciler namespace name (ix_items (demo_store true) !! meta_key namespace name)) ∧
  (∀ key err, SplitMetaNamespaceKey key = inl err →
     reconcile demo_reconciler (demo_store true) key ≈ₛ mret None).
Proof. apply reconcile_spec. apply demo_store_ok. Defined.
End Controller.
