(* ===== verification/ControllerRun.v ===== *)
(** * Executions of the controller

    The invariant of the reachable states of [Controller.step], and what it
    gives: a key is never reconciled by two workers at once, no notification and
    no failed key is lost before shutdown, and [Run] drains, stops and returns, unless
    the channel of the delaying queue is full. *)
From S2P Require Import Prelude GoStrings GoErrors Admission Keys Store Lister Workqueue Controller.

Module ControllerRun.
Import Controller.

(** The item a worker has taken off the queue and not given back. *)
Definition busy (w : worker) : option item :=
  match w with
  | Reconciling key | Failed key | Sending key _ | Succeeded key => Some (StringItem key)
  | Invalid it | Finishing it => Some it
  | Starting | AtGet | Exited => None
  end.

Definition is_key (it : item) : Prop := ∃ key, it = StringItem key.

(** Replacing one worker replaces its busy item. *)
Lemma busy_insert ws i w0 :
  ws !! i = Some w0 →
  ∃ rest, omap busy ws ≡ₚ option_list (busy w0) ++ rest ∧
          ∀ w, omap busy (<[i := w]> ws) ≡ₚ option_list (busy w) ++ rest.
Proof.
  intros Hi. exists (omap busy (take i ws) ++ omap busy (drop (S i) ws)).
  assert (Hcons : ∀ w l, omap busy (w :: l) = option_list (busy w) ++ omap busy l)
    by (intros w l; simpl; by destruct (busy w)).
  assert (Hmid : ∀ w, omap busy (take i ws ++ w :: drop (S i) ws) ≡ₚ
      option_list (busy w) ++ omap busy (take i ws) ++ omap busy (drop (S i) ws)).
  { intros w. rewrite omap_app, Hcons. apply Permutation_app_swap_app. }
  split.
  - by rewrite <- (take_drop_middle ws i w0 Hi) at 1.
  - intros w. rewrite insert_take_drop by (by eapply lookup_lt_Some). apply Hmid.
Qed.

(** ** The queue and the items the workers hold *)
Abbreviation dqueue := (Delaying.delayingType item).

(** What is queued, or will be when it is done or its delay is over. *)
Definition pending (d : dqueue) : gset item := Delaying.held d ∪ Queue.dirty (Delaying.inner d).

Lemma elem_of_pending d it :
  it ∈ pending d ↔ it ∈ (Delaying.waitingForAddCh d).*1 ∨
                   it ∈ dom (Delaying.waitingEntryByData d) ∨ it ∈ Queue.dirty (Delaying.inner d).
Proof. unfold pending, Delaying.held. rewrite !elem_of_union, elem_of_list_to_set. tauto. Qed.

Lemma elem_of_dirty_Add it it' (q : Queue.Type_ item) :
  it' ∈ Queue.dirty (Queue.Add it q) → it' = it ∨ it' ∈ Queue.dirty q.
Proof. rewrite Queue.dirty_Add. destruct (Queue.shuttingDown q); set_solver. Qed.

Definition shutting (d : dqueue) : bool := Queue.shuttingDown (Delaying.inner d).

Record queue_inv (d : dqueue) (held : list item) : Prop := {
  qi_wf : Queue.wf (Delaying.inner d);
  qi_nodup : NoDup held;
  qi_processing it : it ∈ Queue.processing (Delaying.inner d) ↔ it ∈ held;
  qi_pending it : it ∈ pending d → is_key it;
  qi_held it : it ∈ held → is_key it;
}.

#[export] Instance queue_inv_proper d : Proper ((≡ₚ) ==> iff) (queue_inv d).
Proof.
  intros l l' Hl. split; intros [Hwf Hnd Hp Hk Hh]; split; try done.
  - by rewrite <- Hl.
  - intros it. by rewrite Hp, Hl.
  - intros it. rewrite <- Hl. apply Hh.
  - by rewrite Hl.
  - intros it. by rewrite Hp, Hl.
  - intros it. rewrite Hl. apply Hh.
Qed.

(** Which operations of the queue keep what is pending. *)
Definition keeps (d d' : dqueue) : Prop :=
  shutting d' = shutting d ∧ (shutting d = false → pending d ⊆ pending d').

#[export] Instance keeps_preorder : PreOrder keeps.
Proof.
  split; [by intros d|]. intros d1 d2 d3 [Hs1 H1] [Hs2 H2]. split; [congruence|].
  intros Hs. etrans; [by apply H1|]. apply H2. congruence.
Qed.

Section queue_steps.
Implicit Types (d : dqueue).

Lemma add_inv it d l :
  is_key it → queue_inv d l →
  queue_inv (Delaying.with_inner (Queue.Add it) d) l ∧
  keeps d (Delaying.with_inner (Queue.Add it) d).
Proof.
  intros Hk [Hwf Hnd Hp Hkp Hh]. unfold keeps, shutting, pending in *. split; [split|split]; simpl.
  - by apply Queue.wf_Add.
  - done.
  - intros it'. by rewrite Queue.processing_Add.
  - intros it'. unfold pending. simpl. rewrite Queue.dirty_Add.
    destruct (Queue.shuttingDown _); set_solver.
  - done.
  - apply Queue.shuttingDown_Add.
  - intros Hs. rewrite Queue.dirty_Add, Hs. set_solver.
Qed.

Lemma get_inv it q' d l :
  Queue.Get (Delaying.inner d) = (Queue.GetItem it, q') → queue_inv d l →
  let d' := Delaying.with_inner (λ _, q') d in
  queue_inv d' (it :: l) ∧ shutting d' = shutting d ∧
  (∀ it', it' ∈ pending d → it' ≠ it → it' ∈ pending d').
Proof.
  intros Hg [Hwf Hnd Hp Hkp Hh].
  pose proof (Queue.wf_Get _ _ _ Hwf Hg) as Hwf'.
  pose proof (λ i, Queue.wf_queue _ Hwf i) as Hqi.
  unfold Queue.Get in Hg. destruct (Queue.queue (Delaying.inner d)) as [|it0 rest] eqn:Hq.
  { by destruct (Queue.shuttingDown _). }
  injection Hg as -> <-. specialize (Hqi it) as Hit. rewrite elem_of_cons in Hit.
  destruct Hit as [[Hd Hnp] _]; [by left|].
  unfold shutting, pending in *. simpl. split; [split|split]; simpl; try done.
  - apply NoDup_cons. split; [|done]. by rewrite <- Hp.
  - intros it'. rewrite elem_of_cons, <- Hp. set_solver.
  - intros it'. unfold pending. simpl. set_solver.
  - intros it' [->|Hin]%elem_of_cons; [|auto]. apply Hkp. set_solver.
  - set_solver.
Qed.

Lemma done_inv it d l :
  queue_inv d (it :: l) →
  let d' := Delaying.with_inner (Queue.Done it) d in queue_inv d' l ∧ keeps d d'.
Proof.
  intros [Hwf [Hni Hnd]%NoDup_cons Hp Hkp Hh]. split; [split|split]; simpl; try done.
  - apply Queue.wf_Done; [done|]. apply Hp. by left.
  - intros it'. specialize (Hp it'). rewrite elem_of_cons in Hp. set_solver.
  - intros it' Hin. apply Hh. by right.
Qed.

Lemma fire_inv it d d' l :
  Delaying.fire it d = Some d' → queue_inv d l → queue_inv d' l ∧ keeps d d'.
Proof.
  intros Hf [Hwf Hnd Hp Hkp Hh].
  pose proof (λ it' Hs, Delaying.fire_keeps d d' it it' Hs Hf) as Hkeeps.
  unfold Delaying.fire in Hf. destruct (Delaying.ready it d) eqn:Hr; [|done]. injection Hf as <-.
  assert (Hk : is_key it).
  { apply Hkp, elem_of_pending. right. left. apply elem_of_dom. unfold Delaying.ready in Hr.
    destruct (Delaying.loop d); try done. by destruct (_ !! it) as [t|]; [eexists|]. }
  split; [split|split]; unfold shutting, pending, Delaying.held in *; simpl; try done.
  - by apply Queue.wf_Add.
  - intros it'. by rewrite Queue.processing_Add.
  - intros it'. unfold pending, Delaying.held. simpl. rewrite Queue.dirty_Add.
    destruct (Queue.shuttingDown _); set_solver.
  - apply Queue.shuttingDown_Add.
  - intros Hs it'. by apply Hkeeps.
Qed.

Lemma receive_inv t d d' l :
  Delaying.receive t d = Some d' → queue_inv d l → queue_inv d' l ∧ keeps d d'.
Proof.
  intros Hr [Hwf Hnd Hp Hkp Hh].
  assert (Hkeep : shutting d' = shutting d → keeps d d').
  { intros Hs. split; [done|]. intros Hs' it Hin. by eapply Delaying.receive_keeps. }
  assert (Hd' : ∃ it r rest pc, Delaying.waitingForAddCh d = (it, r) :: rest ∧ d' =
    if t <? r then {| Delaying.inner := Delaying.inner d; Delaying.waitingForAddCh := rest;
                      Delaying.waitingEntryByData := Delaying.insert_entry it r (Delaying.waitingEntryByData d);
                      Delaying.loop := pc |}
    else {| Delaying.inner := Queue.Add it (Delaying.inner d); Delaying.waitingForAddCh := rest;
            Delaying.waitingEntryByData := Delaying.waitingEntryByData d; Delaying.loop := pc |}).
  { unfold Delaying.receive in Hr.
    destruct (Delaying.loop d), (Delaying.waitingForAddCh d) as [|[it r] rest]; try done;
      injection Hr as <-; by eexists _, _, _, _. }
  clear Hr. destruct Hd' as (it & r & rest & pc & Hc & ->).
  assert (Hkp' : ∀ it', it' = it ∨ it' ∈ rest.*1 ∨ it' ∈ dom (Delaying.waitingEntryByData d) ∨
                        it' ∈ Queue.dirty (Delaying.inner d) → is_key it').
  { intros it' Hin. apply Hkp, elem_of_pending. rewrite Hc. csimpl. rewrite elem_of_cons. tauto. }
  destruct (t <? r); (split; [split|apply Hkeep]); simpl; try done.
  - intros it' Hin. apply Hkp'. apply elem_of_pending in Hin. simpl in Hin.
    rewrite Delaying.dom_insert_entry, elem_of_union, elem_of_singleton in Hin. tauto.
  - by apply Queue.wf_Add.
  - intros it'. by rewrite Queue.processing_Add.
  - intros it' Hin. apply Hkp'. apply elem_of_pending in Hin. simpl in Hin.
    destruct Hin as [?|[?|?%elem_of_dirty_Add]]; tauto.
  - apply Queue.shuttingDown_Add.
Qed.

Lemma set_loop_inv pc d l :
  queue_inv d l → queue_inv (Delaying.set_loop pc d) l ∧ keeps d (Delaying.set_loop pc d).
Proof. intros [Hwf Hnd Hp Hkp Hh]. by split. Qed.
Lemma loop_inv t d d' :
  Delaying.loop_move t d = Some d' →
  Delaying.inner d' = Delaying.inner d ∧ Delaying.waitingForAddCh d' = Delaying.waitingForAddCh d ∧
  (∀ l, queue_inv d l → queue_inv d' l ∧ keeps d d').
Proof.
  intros Hl. assert (Hd : ∃ pc, d' = Delaying.set_loop pc d).
  { unfold Delaying.loop_move in Hl. repeat case_match; simplify_eq; by eexists. }
  destruct Hd as [pc ->]. split_and!; [done|done|]. intros l. apply set_loop_inv.
Qed.

(** Adding a key after a delay: at once, not at all, or by the channel. *)
Lemma AddAfter_inv it delay t d d' l :
  is_key it → Delaying.AddAfter it delay t d = inl d' → queue_inv d l →
  queue_inv d' l ∧ keeps d d' ∧ (shutting d = false → it ∈ pending d') ∧ (shutting d = true → d' = d) ∧
  Delaying.waitingForAddCh d' = Delaying.waitingForAddCh d.
Proof.
  intros Hk Ha Hinv. unfold shutting. unfold Delaying.AddAfter in Ha.
  destruct (Queue.shuttingDown (Delaying.inner d)) eqn:Hs; [by simplify_eq|].
  destruct (delay <=? 0); [|done]. injection Ha as <-.
  destruct (add_inv it d l Hk Hinv) as [? ?]. split_and!; try done.
  intros _. apply elem_of_pending. simpl. rewrite Queue.dirty_Add, Hs. set_solver.
Qed.
Lemma send_inv it readyAt d d' l :
  is_key it → Delaying.send it readyAt d = Some d' → queue_inv d l →
  queue_inv d' l ∧ keeps d d' ∧ it ∈ pending d' ∧ Delaying.inner d' = Delaying.inner d ∧
  length (Delaying.waitingForAddCh d') = S (length (Delaying.waitingForAddCh d)).
Proof.
  intros Hk Ha [Hwf Hnd Hp Hkp Hhl]. unfold Delaying.send in Ha. case_bool_decide; [|done]. injection Ha as <-.
  split_and!; [split|split| |done|by simpl; rewrite length_app, Nat.add_comm]; simpl; try done.
  - intros it' Hin. apply elem_of_pending in Hin. simpl in Hin.
    rewrite fmap_app, elem_of_app in Hin. csimpl in Hin. rewrite list_elem_of_singleton in Hin.
    destruct Hin as [[Hin| -> ]|Hin]; [apply Hkp, elem_of_pending; tauto | done
      | apply Hkp, elem_of_pending; tauto].
  - intros _ it'. rewrite !elem_of_pending. simpl. rewrite fmap_app, elem_of_app. tauto.
  - apply elem_of_pending. left. simpl. rewrite fmap_app. set_solver.
Qed.

Lemma shutdown_inv d l :
  queue_inv d l → queue_inv (Delaying.with_inner Queue.ShutDownWithDrain_begin d) l.
Proof. intros [Hwf Hnd Hp Hkp Hh]. split; try done. by destruct Hwf. Qed.

Lemma handle_inv {Obj} `{!MetaAccessor Obj} (n : notification (Obj := Obj)) d l :
  queue_inv d l →
  queue_inv (handle n d) l ∧ keeps d (handle n d) ∧
  (∀ key, notification_key n = Some key → shutting d = false →
          StringItem key ∈ pending (handle n d)).
Proof.
  intros Hinv. rewrite handle_key. destruct (notification_key n) as [key|]; [|done].
  destruct (add_inv (StringItem key) d l) as [? Hkeep]; [by eexists | done|].
  split; [done|split; [done|]]. intros _ [= <-] Hs. unfold pending. simpl.
  rewrite Queue.dirty_Add. unfold shutting in Hs. rewrite Hs. set_solver.
Qed.
End queue_steps.

(** ** The invariant of the controller *)
(** How far a worker is from the end of its round, for termination. *)
Definition weight (w : worker) : nat :=
  match w with
  | Exited => 0 | Starting => 1 | AtGet => 2 | Finishing _ => 3 | Sending _ _ => 4
  | Failed _ | Succeeded _ | Invalid _ => 5 | Reconciling _ => 6
  end.

(** The key that a worker is putting back after a failure. *)
Definition putting_back (w : worker) : option string :=
  match w with Failed key | Sending key _ => Some key | _ => None end.

(** The slots of the channel that are taken, and those that workers wait for. *)
Definition sender (w : worker) : nat := match w with Sending _ _ => 1 | _ => 0 end.
Definition in_channel (d : dqueue) : nat := length (Delaying.waitingForAddCh d).

(** A worker inside [runWorker]. *)
Definition active (w : worker) : Prop := w ≠ Starting ∧ w ≠ Exited.

#[export] Instance active_dec w : Decision (active w).
Proof. unfold active. apply _. Defined.

Definition backlog (d : dqueue) : nat := size (Queue.dirty (Delaying.inner d)).

Lemma backlog_get it q' d l :
  Queue.Get (Delaying.inner d) = (Queue.GetItem it, q') → queue_inv d l →
  backlog d = S (backlog (Delaying.with_inner (λ _, q') d)).
Proof.
  intros Hg [Hwf _ _ _ _]. unfold Queue.Get in Hg.
  destruct (Queue.queue (Delaying.inner d)) as [|it0 rest] eqn:Hq;
    [by destruct (Queue.shuttingDown _)|].
  injection Hg as -> <-. unfold backlog. simpl.
  assert (Hd : it ∈ Queue.dirty (Delaying.inner d)) by (apply Queue.wf_queue; [done|]; rewrite Hq; by left).
  rewrite size_difference by set_solver. rewrite size_singleton.
  assert (size (Queue.dirty (Delaying.inner d)) ≠ 0)%nat; [|lia].
  intros Hz%size_empty_inv. set_solver.
Qed.

Section run.
Context {I Obj W : Type} `{Indexer I Obj} `{!MetaAccessor Obj}.
Variable reconciler : string → string → option Obj → ST W (option error).
Variable n_workers : nat.
Implicit Types (st : state (I := I) (W := W)).

Abbreviation step := (step reconciler n_workers).

Definition phase_ok st : Prop :=
  match main st with
  | Syncing => shutting (dq st) = false ∧ workers st = []
  | Serving => shutting (dq st) = false ∧ length (workers st) = n_workers
  | Draining | Joining =>
      shutting (dq st) = true ∧ ctxErr st ≠ None ∧ length (workers st) = n_workers
  | Returned e =>
      e = ctxErr st ∧ e ≠ None ∧ Forall (λ w, w = Exited) (workers st) ∧
      (workers st = [] ∨ shutting (dq st) = true)
  end.

Record inv st : Prop := {
  inv_queue : queue_inv (dq st) (omap busy (workers st));
  inv_valid it : Invalid it ∉ workers st;
  inv_exited : Exited ∈ workers st → ctxErr st ≠ None;
  inv_phase : phase_ok st;
}.

(** What one move of a worker from [w0] to [w1] does to the state. *)
Record worker_effect st (i : nat) (w0 w1 : worker) st' : Prop := {
  we_from : workers st !! i = Some w0;
  we_workers : workers st' = <[i := w1]> (workers st);
  we_ctxErr : ctxErr st' = ctxErr st;
  we_main : main st' = main st;
  we_shutting : shutting (dq st') = shutting (dq st);
  we_valid it : w1 ≠ Invalid it;
  we_exits : w1 = Exited → ctxErr st ≠ None;
  we_queue : queue_inv (dq st') (omap busy (<[i := w1]> (workers st)));
  we_pending it : shutting (dq st) = false → it ∈ pending (dq st) →
    it ∈ pending (dq st') ∨ ∃ key, it = StringItem key ∧ w1 = Reconciling key;
  we_retry key : putting_back w0 = Some key → shutting (dq st) = false →
    StringItem key ∈ pending (dq st') ∨ (w0 = Failed key ∧ ∃ t, w1 = Sending key t);
  we_weight : ctxErr st ≠ None → shutting (dq st) = true →
    (weight w1 + 5 * backlog (dq st') < weight w0 + 5 * backlog (dq st))%nat;
  we_channel : shutting (dq st) = true →
    (in_channel (dq st') + sender w1 ≤ in_channel (dq st) + sender w0)%nat;
  we_backlog : shutting (dq st) = true → (backlog (dq st') ≤ backlog (dq st))%nat;
  we_leaves : active w0 → active w1 ∨
    (w0 = AtGet ∧ dq st' = dq st ∧ shutting (dq st) = true ∧
     Queue.queue (Delaying.inner (dq st)) = []);
}.

(** A move that keeps what is pending. *)
Lemma keeps_effect st i w0 w1 st' :
  workers st !! i = Some w0 → workers st' = <[i := w1]> (workers st) →
  ctxErr st' = ctxErr st → main st' = main st →
  queue_inv (dq st') (omap busy (<[i := w1]> (workers st))) →
  keeps (dq st) (dq st') →
  (shutting (dq st) = true → backlog (dq st') = backlog (dq st)) →
  (shutting (dq st) = true → in_channel (dq st') + sender w1 ≤ in_channel (dq st) + sender w0)%nat →
  (ctxErr st ≠ None → weight w1 < weight w0)%nat →
  (∀ it, w1 ≠ Invalid it) → (w1 = Exited → ctxErr st ≠ None) →
  (∀ key, putting_back w0 = Some key → shutting (dq st) = false →
     StringItem key ∈ pending (dq st') ∨ (w0 = Failed key ∧ ∃ t, w1 = Sending key t)) →
  (active w0 → active w1) →
  worker_effect st i w0 w1 st'.
Proof.
  intros Hi Hws Hc Hm Hq [Hs Hk] Hb Hch Hw Hv He Hr Ha. split; try done.
  - intros it Hsf Hin. left. by apply Hk.
  - intros Hce Hst. rewrite Hb by done. specialize (Hw Hce). lia.
  - intros Hst. by rewrite Hb.
  - intros Hact. left. by apply Ha.
Qed.

Lemma get_effect st i it q' :
  inv st → workers st !! i = Some AtGet →
  Queue.Get (Delaying.inner (dq st)) = (Queue.GetItem it, q') →
  ∃ key, it = StringItem key ∧
    worker_effect st i AtGet (Reconciling key)
      (set_worker i (Reconciling key) (set_dq (Delaying.with_inner (λ _, q') (dq st)) st)).
Proof.
  intros [Hq Hv He _] Hi Hg. destruct (busy_insert _ _ _ Hi) as (rest & Hrest & Hins).
  rewrite Hrest in Hq. simpl in Hq.
  destruct (get_inv _ _ _ _ Hg Hq) as (Hq' & Hs & Hp).
  destruct (qi_held _ _ Hq' it) as [key ->]; [by left|]. exists key. split; [done|].
  split; simpl; try done.
  - by rewrite Hins.
  - intros it' _ Hin. destruct (decide (it' = StringItem key)); [by right; eauto|].
    left. by apply Hp.
  - intros _ _. rewrite (backlog_get _ _ _ _ Hg Hq). lia.
  - intros _. rewrite (backlog_get _ _ _ _ Hg Hq). lia.
  - intros _. left. by split.
Qed.

Lemma worker_move_effect st i bucket st' :
  inv st → worker_move reconciler st i bucket = Some st' →
  ∃ w0 w1, worker_effect st i w0 w1 st'.
Proof.
  intros Hinv. pose proof Hinv as [Hq Hv He _]. unfold worker_move.
  destruct (workers st !! i) as [w0|] eqn:Hi; [|done].
  simpl. intros Hmv. destruct (busy_insert _ _ _ Hi) as (rest & Hrest & Hins).
  rewrite Hrest in Hq. exists w0. revert Hmv. destruct w0; simpl in *.
  - intros [= <-]. eexists. apply keeps_effect; simpl; try done; try (by destruct (ctxErr st)).
    + rewrite Hins. by destruct (ctxErr st).
    + by destruct (ctxErr st); simpl; [lia|].
    + by intros [? _].
  - destruct (Queue.Get (Delaying.inner (dq st))) as [[|it|] q'] eqn:Hg; [done| |];
      intros [= <-].
    + destruct (get_effect st i it q' Hinv Hi Hg) as (key & -> & Heff). eauto.
    + exists Starting. unfold Queue.Get in Hg.
      destruct (Queue.queue (Delaying.inner (dq st))) eqn:Hqq; [|done].
      destruct (Queue.shuttingDown (Delaying.inner (dq st))) eqn:Hsd; [|done].
      split; simpl; try done; [by rewrite Hins | by left | lia | by right].
  - destruct (reconcile reconciler (indexer st) key (world st)) as [err w'].
    intros [= <-]. eexists. apply keeps_effect; simpl; try done; try (by destruct err).
    + rewrite Hins. by destruct err.
    + by destruct err; simpl; lia.
  - destruct (RateLimiter.MaxOf_When (StringItem key) bucket (limiter st)) as [delay l].
    destruct (Delaying.AddAfter (StringItem key) delay (now st) (dq st)) as [d|t] eqn:Ha;
      intros [= <-]; eexists.
    + destruct (AddAfter_inv _ _ _ _ _ _ ltac:(by eexists) Ha Hq) as (Hq' & Hk & Hin & Hsame & Hch).
      apply keeps_effect; simpl; try done.
      * by rewrite Hins.
      * intros Hs. by rewrite Hsame.
      * unfold in_channel. by rewrite Hch.
      * simpl; lia.
      * intros key' [= <-]. by left; auto.
    + apply keeps_effect; simpl; try done.
      * by rewrite Hins.
      * unfold shutting, Delaying.AddAfter in *. intros Hs. by rewrite Hs in Ha.
      * simpl; lia.
      * intros key' [= <-]. right. by eauto.
  - destruct (Delaying.send (StringItem key) readyAt (dq st)) as [d|] eqn:Ha; [|done].
    intros [= <-]. eexists.
    destruct (send_inv _ _ _ _ _ ltac:(by eexists) Ha Hq) as (Hq' & Hk & Hin & Hsame & Hch).
    apply keeps_effect; simpl; try done.
    + by rewrite Hins.
    + unfold backlog. by rewrite Hsame.
    + unfold in_channel. rewrite Hch. simpl. lia.
    + simpl; lia.
    + intros key' [= <-]. by left.
  - intros [= <-]. eexists. apply keeps_effect; simpl; try done; [by rewrite Hins | by simpl; lia].
  - by destruct (Hv it); eapply list_elem_of_lookup_2.
  - intros [= <-]. eexists. destruct (done_inv _ _ _ Hq) as [Hq' Hk].
    apply keeps_effect; simpl; try done; [by rewrite Hins | by simpl; lia].
  - done.
Qed.

Lemma main_move_inv st polled st' :
  inv st → main_move n_workers polled st = Some st' → inv st' ∧
  (shutting (dq st') = false → dq st' = dq st).
Proof.
  intros [Hq Hv He Hph] Hm. unfold main_move, phase_ok in *. destruct (main st) eqn:Hmain.
  - destruct Hph as [Hs Hws]. destruct (polled && synced st).
    + injection Hm as <-. split; [|done]. rewrite Hws in *. split; simpl; [| | |split; [done|apply length_replicate]].
      * replace (omap busy (replicate n_workers Starting)) with (@nil item); [done|].
        induction n_workers; [done|simpl; auto].
      * intros it [? _]%elem_of_replicate. done.
      * intros [? _]%elem_of_replicate. done.
    + destruct (ctxErr st) as [e|] eqn:Hc; [|done]. injection Hm as <-. split; [|done].
      split; simpl; try done; [by rewrite Hc|].
      unfold phase_ok. simpl. rewrite Hws, Hc. split_and!; [done|done|constructor|by left].
  - destruct (ctxErr st) eqn:Hc; [|done]. injection Hm as <-. split; [|done].
    split; simpl; [by apply shutdown_inv | done | by rewrite Hc |].
    unfold phase_ok. simpl. rewrite Hc. by destruct Hph.
  - destruct (Queue.ShutDownWithDrain_waits _); [done|]. injection Hm as <-.
    split; [|done]. by split.
  - case_bool_decide as Hex; [|done]. injection Hm as <-. split; [|done].
    split; simpl; try done. unfold phase_ok. simpl. destruct Hph as (? & ? & ?).
    split_and!; [done|done|done|by right].
  - done.
Qed.

(** What every step does to the queue. *)
Record queue_effect st (l : label (I := I) (Obj := Obj)) st' : Prop := {
  qe_shutting : shutting (dq st) = true → shutting (dq st') = true;
  qe_backlog : shutting (dq st) = true → (backlog (dq st') ≤ backlog (dq st))%nat;
  qe_pending it : shutting (dq st') = false → it ∈ pending (dq st) →
    it ∈ pending (dq st') ∨
    ∃ key i b, it = StringItem key ∧ l = WorkerMoves i b ∧
               workers st' !! i = Some (Reconciling key);
}.

Lemma keeps_queue_effect st l st' :
  keeps (dq st) (dq st') →
  (shutting (dq st) = true → Queue.dirty (Delaying.inner (dq st')) = Queue.dirty (Delaying.inner (dq st))) →
  queue_effect st l st'.
Proof.
  intros [Hs Hk] Hb. split.
  - by rewrite Hs.
  - intros Hst. unfold backlog. by rewrite Hb.
  - intros it Hs' Hin. left. apply Hk; [congruence|done].
Qed.

Lemma inv_worker_move st i bucket st' :
  inv st → worker_move reconciler st i bucket = Some st' →
  inv st' ∧ queue_effect st (WorkerMoves i bucket) st'.
Proof.
  intros Hinv Hmv. pose proof Hinv as [Hq Hv He Hph].
  destruct (worker_move_effect _ _ _ _ Hinv Hmv) as (w0 & w1 & []). split; split.
  - by rewrite we_workers0.
  - intros it Hin. rewrite we_workers0 in Hin. apply list_elem_of_lookup in Hin as [j Hj].
    apply list_lookup_insert_Some in Hj as [(_ & ? & _)|[_ Hj]]; [naive_solver|].
    by eapply Hv, list_elem_of_lookup_2.
  - rewrite we_workers0, we_ctxErr0. intros [j Hj]%list_elem_of_lookup.
    apply list_lookup_insert_Some in Hj as [(_ & ? & _)|[_ Hj]]; [auto|].
    by eapply He, list_elem_of_lookup_2.
  - unfold phase_ok in *. rewrite we_main0, we_shutting0, we_ctxErr0, we_workers0, length_insert.
    destruct (main st); try done.
    * destruct Hph as [? Hn]. by rewrite Hn in we_from0.
    * destruct Hph as (? & ? & Hall & ?). apply list_elem_of_lookup_2 in we_from0 as Hin.
      eapply Forall_forall in Hall; [|done]. subst. unfold worker_move in Hmv.
      rewrite we_from0 in Hmv. done.
  - by rewrite we_shutting0.
  - done.
  - intros it Hs Hin. rewrite we_shutting0 in Hs.
    destruct (we_pending0 it Hs Hin) as [?|(key & -> & ->)]; [by left|right].
    exists key, i, bucket. split_and!; [done|done|]. rewrite we_workers0.
    apply list_lookup_insert_eq. by eapply lookup_lt_Some.
Qed.

Lemma inv_step st l st' : inv st → step st l st' → inv st' ∧ queue_effect st l st'.
Proof.
  intros Hinv Hstep. pose proof Hinv as [Hq Hv He Hph]. destruct Hstep as
    [st n|st ix|st t Ht|st|st e Hc|st it d Hd|st d Hd|st d Hd|st i bucket st' Hmv|st polled st' Hmv].
  - destruct (handle_inv n _ _ Hq) as (Hq' & Hk & _). split; [|apply keeps_queue_effect; [done|]].
    + split; try done. destruct Hk as [Hs _]. unfold phase_ok in *. simpl. by rewrite Hs.
    + simpl. rewrite handle_key. unfold shutting. destruct (notification_key n); [|done].
      intros Hs. simpl. by rewrite Queue.dirty_Add, Hs.
  - split; [by split|by apply keeps_queue_effect].
  - split; [by split|by apply keeps_queue_effect].
  - split; [by split|by apply keeps_queue_effect].
  - split; [|by apply keeps_queue_effect]. split; simpl; try done.
    unfold phase_ok in *. simpl. rewrite Hc in Hph. destruct (main st); try done; naive_solver.
  - destruct (fire_inv _ _ _ _ Hd Hq) as [Hq' Hk]. split; [|apply keeps_queue_effect; [done|]].
    + split; try done. destruct Hk as [Hs _]. unfold phase_ok in *. simpl. by rewrite Hs.
    + simpl. unfold shutting, Delaying.fire in *. intros Hs. destruct (Delaying.ready _ _); [|done].
      injection Hd as <-. by simpl; rewrite Queue.dirty_Add, Hs.
  - destruct (receive_inv _ _ _ _ Hd Hq) as [Hq' Hk]. split; [|apply keeps_queue_effect; [done|]].
    + split; try done. destruct Hk as [Hs _]. unfold phase_ok in *. simpl. by rewrite Hs.
    + simpl. unfold shutting, Delaying.receive in *. intros Hs.
      repeat case_match; simplify_eq; simpl; try done; by rewrite Queue.dirty_Add, Hs.
  - destruct (loop_inv _ _ _ Hd) as (Hin & _ & Hk). destruct (Hk _ Hq) as [Hq' Hk'].
    split; [|apply keeps_queue_effect; [done|]; by simpl; rewrite Hin].
    split; try done. destruct Hk' as [Hs _]. unfold phase_ok in *. simpl. by rewrite Hs.
  - by apply inv_worker_move.
  - destruct (main_move_inv _ _ _ Hinv Hmv) as [Hinv' Hdq]. split; [done|].
    unfold main_move in Hmv.
    destruct (main st); repeat case_match; simplify_eq; try (by apply keeps_queue_effect).
    split; simpl; [done|done|]. by intros it Hs.
Qed.

(** ** Executions *)
Lemma inv_New ix w : inv (New ix w).
Proof.
  split; simpl; [|set_solver|set_solver|done].
  split; simpl; [apply Queue.wf_NewQueue|constructor|set_solver| |set_solver].
  intros it Hin%elem_of_pending. csimpl in Hin. rewrite dom_empty_L in Hin. set_solver.
Qed.

Lemma inv_steps st tr st' : inv st → steps step st tr st' → inv st'.
Proof. apply steps_invariant. intros ? ? ? ? ?. by eapply inv_step. Qed.

Lemma steps_shutting st tr st' :
  inv st → steps step st tr st' → shutting (dq st) = true →
  shutting (dq st') = true ∧ (backlog (dq st') ≤ backlog (dq st))%nat.
Proof.
  intros Hinv Hst Hs.
  apply (steps_invariant step (λ s, inv s ∧ shutting (dq s) = true ∧
    (backlog (dq s) ≤ backlog (dq st))%nat)) in Hst; [tauto| |done]. intros s1 l s2 (Hi & Hs1 & Hb) Hl.
  destruct (inv_step _ _ _ Hi Hl) as [Hi2 [Hsh Hbk _]]. split_and!; [done|auto|].
  specialize (Hbk Hs1). lia.
Qed.

(** The key is taken for reconciliation somewhere along the execution. *)
Definition reconciled st tr (key : string) : Prop :=
  ∃ tr1 i b tr2 st1, tr = tr1 ++ WorkerMoves i b :: tr2 ∧
    steps step st (tr1 ++ [WorkerMoves i b]) st1 ∧ workers st1 !! i = Some (Reconciling key).

Lemma pending_or_reconciled st tr st' key :
  inv st → steps step st tr st' → StringItem key ∈ pending (dq st) →
  shutting (dq st') = false →
  StringItem key ∈ pending (dq st') ∨ reconciled st tr key.
Proof.
  intros Hinv Hst Hin. induction Hst as [|s tr s1 l s2 Hst IH Hl]; [by left|].
  intros Hs2. destruct (inv_step _ _ _ (inv_steps _ _ _ Hinv Hst) Hl) as [_ [Hsh _ Hp]].
  assert (Hs1 : shutting (dq s1) = false)
    by (destruct (shutting (dq s1)); [by rewrite Hsh in Hs2|done]).
  destruct (IH Hinv Hin Hs1) as [Hin1|(tr1 & i & b & tr2 & st1 & -> & Hst1 & Hw)].
  - destruct (Hp _ Hs2 Hin1) as [?|(key' & i & b & [= <-] & -> & Hw)]; [by left|right].
    exists tr, i, b, [], s2. split_and!; [done| by econstructor |done].
  - right. exists tr1, i, b, (tr2 ++ [l]), st1. split_and!; [by rewrite <- app_assoc|done|done].
Qed.

(** The labelled steps, executable. *)
Definition do_step st (l : label (I := I) (Obj := Obj)) : option (state (I := I) (W := W)) :=
  match l with
  | Notify n => Some (set_dq (handle n (dq st)) st)
  | StoreChanges i => Some (set_indexer i st)
  | Passes t => if now st <=? t then Some (set_now t st) else None
  | Syncs => Some (set_synced true st)
  | Cancel e => if ctxErr st is None then Some (set_ctxErr (Some e) st) else None
  | Fires it => d ← Delaying.fire it (dq st); Some (set_dq d st)
  | Receives => d ← Delaying.receive (now st) (dq st); Some (set_dq d st)
  | LoopMoves => d ← Delaying.loop_move (now st) (dq st); Some (set_dq d st)
  | WorkerMoves i bucket => worker_move reconciler st i bucket
  | MainMoves polled => main_move n_workers polled st
  end.

Fixpoint run st tr : option (state (I := I) (W := W)) :=
  match tr with
  | [] => Some st
  | l :: tr => st' ← do_step st l; run st' tr
  end.

Lemma do_step_sound st l st' : do_step st l = Some st' → step st l st'.
Proof.
  destruct l; simpl; intros Hd.
  - injection Hd as <-. constructor.
  - injection Hd as <-. constructor.
  - destruct (now st <=? t) eqn:?; [|done]. injection Hd as <-. constructor. lia.
  - injection Hd as <-. constructor.
  - destruct (ctxErr st) eqn:?; [done|]. injection Hd as <-. by constructor.
  - destruct (Delaying.fire it (dq st)) eqn:?; [|done]. injection Hd as <-. by constructor.
  - destruct (Delaying.receive _ _) eqn:?; [|done]. injection Hd as <-. by constructor.
  - destruct (Delaying.loop_move _ _) eqn:?; [|done]. injection Hd as <-. by constructor.
  - by constructor.
  - by econstructor.
Qed.

Lemma run_steps st tr st' : run st tr = Some st' → steps step st tr st'.
Proof.
  revert st. induction tr as [|l tr IH]; simpl; intros st.
  - intros [= <-]. constructor.
  - destruct (do_step st l) as [st1|] eqn:Hl; [|done]. simpl. intros Hr.
    eapply steps_cons; [by apply do_step_sound|auto].
Qed.

(** ** Theorems *)
Abbreviation exec := (steps step).

Lemma busy_unique ws i j wi wj it :
  NoDup (omap busy ws) → ws !! i = Some wi → ws !! j = Some wj →
  busy wi = Some it → busy wj = Some it → i = j.
Proof.
  intros Hnd Hi Hj Hbi Hbj. destruct (decide (i = j)) as [|Hij]; [done|exfalso].
  destruct (busy_insert _ _ _ Hi) as (rest & Hrest & Hins).
  specialize (Hins Exited). simpl in Hins. rewrite Hrest, Hbi in Hnd.
  apply NoDup_cons in Hnd as [Hni _]. apply Hni. rewrite <- Hins.
  apply list_elem_of_omap. exists wj. split; [|done].
  apply list_elem_of_lookup. exists j. by rewrite list_lookup_insert_ne.
Qed.

(** C6: A key is never in the hands of two workers: in every reachable state
    of the controller, two workers that hold an item (taken from the queue
    and not yet [Done], so in particular being reconciled) hold different
    ones, and every item in a worker's hands is a string key. *)
Theorem one_worker_per_key ix w tr st i j wi wj it :
  exec (New ix w) tr st →
  workers st !! i = Some wi → workers st !! j = Some wj →
  busy wi = Some it → busy wj = Some it →
  i = j ∧ is_key it.
Proof.
  intros Hst Hi Hj Hbi Hbj.
  destruct (inv_steps _ _ _ (inv_New ix w) Hst) as [[_ Hnd _ _ Hkey] _ _ _].
  split; [by eapply busy_unique|]. apply Hkey. apply list_elem_of_omap.
  exists wi. split; [by eapply list_elem_of_lookup_2|done].
Qed.

(** C4: No notification is lost: after an informer event that concerns a key,
    as long as the queue has not been shut down, the key is still waiting to
    be processed (in the queue, to be queued again when its current worker is
    done, or held back by the delaying queue) unless some worker has taken it
    for reconciliation after the event. *)
Theorem notification_not_lost ix w tr0 st0 n st1 tr st key :
  exec (New ix w) tr0 st0 → step st0 (Notify n) st1 → notification_key n = Some key →
  exec st1 tr st → shutting (dq st) = false →
  StringItem key ∈ pending (dq st) ∨ reconciled st1 tr key.
Proof.
  intros H0 Hn Hkey Htr Hs.
  pose proof (inv_steps _ _ _ (inv_New ix w) H0) as Hinv0.
  destruct (inv_step _ _ _ Hinv0 Hn) as [Hinv1 _].
  apply pending_or_reconciled; [done|done| |done].
  inversion Hn; subst. simpl. apply (handle_inv n _ _ (inv_queue _ Hinv0)); [done|].
  destruct (shutting (dq st0)) eqn:Hs0; [|done].
  destruct (steps_shutting _ _ _ Hinv1 Htr) as [Hs' _]; [|congruence].
  simpl. destruct (handle_inv n _ _ (inv_queue _ Hinv0)) as (_ & [-> _] & _). done.
Qed.

(** C9: A key whose reconciliation failed is tried again.  Its worker has it to put
    back until it does: each move either brings it to the channel of the delaying
    queue, where it goes on holding the key until there is room, or puts the key back;
    and from then on, as long as the queue has not been shut down, the key is waiting
    (in the delaying queue or the queue) unless some worker has taken it again since. *)
Theorem failed_key_retried ix w tr0 st0 i w0 b st1 tr st key :
  exec (New ix w) tr0 st0 → workers st0 !! i = Some w0 → putting_back w0 = Some key →
  step st0 (WorkerMoves i b) st1 →
  exec st1 tr st → shutting (dq st) = false →
  (w0 = Failed key ∧ ∃ t, workers st1 !! i = Some (Sending key t)) ∨
  StringItem key ∈ pending (dq st) ∨ reconciled st1 tr key.
Proof.
  intros H0 Hi Hback Hmv Htr Hs.
  pose proof (inv_steps _ _ _ (inv_New ix w) H0) as Hinv0.
  destruct (inv_step _ _ _ Hinv0 Hmv) as [Hinv1 _].
  inversion Hmv as [| | | | | | | |? ? ? ? Hw|]; subst.
  destruct (worker_move_effect _ _ _ _ Hinv0 Hw) as (w0' & w1 & []). simplify_eq.
  destruct (we_retry0 key Hback) as [Hin|(-> & t & ->)].
  - rewrite <- we_shutting0. destruct (shutting (dq st1)) eqn:Hs1; [|done].
    destruct (steps_shutting _ _ _ Hinv1 Htr Hs1) as [Hs' _]. congruence.
  - right. by apply pending_or_reconciled.
  - left. split; [done|]. exists t. rewrite we_workers0. apply list_lookup_insert_eq. by eapply lookup_lt_Some.
Qed.

(** ** The end of [Run] *)
Definition program_move (l : label (I := I) (Obj := Obj)) : bool :=
  match l with WorkerMoves _ _ | MainMoves _ => true | _ => false end.

Definition main_weight (m : main_pc) : nat :=
  match m with Syncing => 4 | Serving => 3 | Draining => 2 | Joining => 1 | Returned _ => 0 end.

Definition measure st : nat :=
  (sum_list_with weight (workers st) + 5 * backlog (dq st) + main_weight (main st))%nat.

Lemma sum_insert (f : worker → nat) ws i w0 w1 :
  ws !! i = Some w0 →
  (sum_list_with f (<[i := w1]> ws) + f w0 = sum_list_with f ws + f w1)%nat.
Proof.
  revert i. induction ws as [|w ws IH]; intros [|i] Hi; simplify_eq/=; [lia|].
  specialize (IH _ Hi). lia.
Qed.

Lemma shutting_ctxErr st : inv st → shutting (dq st) = true → ctxErr st ≠ None.
Proof.
  intros [_ _ _ Hph] Hs. unfold phase_ok in Hph. destruct (main st); naive_solver congruence.
Qed.

(** A step after shutdown never increases the measure; a step of the
    program decreases it. *)
Lemma measure_step st l st' :
  inv st → shutting (dq st) = true → step st l st' →
  (measure st' + (if program_move l then 1 else 0) ≤ measure st)%nat.
Proof.
  intros Hinv Hs Hstep. destruct (inv_step _ _ _ Hinv Hstep) as [_ [_ Hb _]].
  specialize (Hb Hs). pose proof (shutting_ctxErr _ Hinv Hs) as Hc.
  unfold measure. destruct Hstep as [| | | | | | | |st i b st' Hmv|st polled st' Hmv]; simpl in *; try lia.
  - destruct (worker_move_effect _ _ _ _ Hinv Hmv) as (w0 & w1 & []).
    specialize (we_weight0 Hc Hs). rewrite we_workers0, we_main0.
    pose proof (sum_insert weight _ _ _ w1 we_from0). lia.
  - pose proof (inv_phase _ Hinv) as Hph. unfold phase_ok, main_move in *.
    destruct (main st) eqn:Hm; repeat case_match; simplify_eq; simpl in *; try lia;
      destruct Hph; congruence.
Qed.

(** The entries in the channel and the workers that wait to send another.  Once the
    queue is shutting down, no worker begins to send. *)
Definition in_flight st : nat := (in_channel (dq st) + sum_list_with sender (workers st))%nat.

Lemma in_flight_step st l st' :
  inv st → shutting (dq st) = true → step st l st' → (in_flight st' ≤ in_flight st)%nat.
Proof.
  intros Hinv Hs Hstep. pose proof (inv_phase _ Hinv) as Hph. unfold in_flight, in_channel, phase_ok in *.
  destruct Hstep as [st n| | | | |st it d Hd|st d Hd|st d Hd|st i b st' Hmv|st polled st' Hmv]; simpl in *; try lia.
  - rewrite handle_key. destruct (notification_key n); simpl; lia.
  - unfold Delaying.fire in Hd. destruct (Delaying.ready _ _); simplify_eq; simpl; lia.
  - unfold Delaying.receive in Hd. repeat case_match; simplify_eq; simpl; lia.
  - destruct (loop_inv _ _ _ Hd) as (_ & -> & _). lia.
  - destruct (worker_move_effect _ _ _ _ Hinv Hmv) as (w0 & w1 & []). specialize (we_channel0 Hs).
    unfold in_channel in *. rewrite we_workers0. pose proof (sum_insert sender _ _ _ w1 we_from0). lia.
  - unfold main_move in Hmv. destruct (main st) eqn:Hm; repeat case_match; simplify_eq; simpl in *; try lia;
      destruct Hph; congruence.
Qed.

(** Some worker cannot put its key back, because the channel is full. *)
Definition blocked st : Prop :=
  (Delaying.waitingForAddCh_cap ≤ in_channel (dq st))%nat ∧
  ∃ i key t, workers st !! i = Some (Sending key t).

Lemma blocked_in_flight st : blocked st → (Delaying.waitingForAddCh_cap < in_flight st)%nat.
Proof.
  intros (Hch & i & key & t & Hi). pose proof (sum_insert sender _ _ _ Exited Hi). unfold in_flight. simpl in *. lia.
Qed.

Lemma worker_enabled st i w :
  shutting (dq st) = true → workers st !! i = Some w → w ≠ Exited → (∀ it, w ≠ Invalid it) →
  (∃ st', worker_move reconciler st i 0 = Some st') ∨ blocked st.
Proof.
  intros Hs Hi Hne Hnv. unfold worker_move. rewrite Hi. simpl. destruct w; eauto; try done.
  - left. unfold Queue.Get. destruct (Queue.queue _); [|eauto].
    unfold shutting in Hs. rewrite Hs. eauto.
  - left. destruct (reconcile _ _ _ _). eauto.
  - left. destruct (RateLimiter.MaxOf_When _ _ _). eauto.
  - unfold Delaying.send. case_bool_decide as Hch; [by left; eauto|right].
    split; [unfold in_channel; lia|eauto].
Qed.

Lemma not_stuck st :
  inv st → shutting (dq st) = true → (∀ e, main st ≠ Returned e) →
  (∃ l st', program_move l = true ∧ step st l st') ∨ blocked st.
Proof.
  intros Hinv Hs Hm.
  destruct (decide (Exists (λ w, w ≠ Exited) (workers st))) as [Hex|Hex].
  - apply Exists_exists in Hex as (w & Hw & Hne).
    apply list_elem_of_lookup in Hw as Hi. destruct Hi as [i Hi].
    destruct (worker_enabled st i w) as [[st' Hmv]|Hb]; [done|done|done| | |by right].
    { intros it ->. by eapply inv_valid. }
    left. exists (WorkerMoves i 0), st'. split; [done|]. by constructor.
  - left. apply not_Exists_Forall in Hex; [|apply _].
    assert (Hall : Forall (λ w, w = Exited) (workers st))
      by (eapply Forall_impl; [exact Hex|]; intros w Hw; by apply dec_stable).
    assert (Hmm : ∃ st', main_move n_workers false st = Some st').
    { pose proof (inv_phase _ Hinv) as Hph. unfold phase_ok, main_move in *.
      destruct (main st) eqn:Hmain; try (destruct Hph; congruence).
      - destruct (Queue.ShutDownWithDrain_waits _) eqn:Hw; [|eauto].
        unfold Queue.ShutDownWithDrain_waits in Hw.
        apply andb_true_iff in Hw as [Hw%bool_decide_eq_true_1 _]. exfalso. apply Hw.
        apply set_eq. intros it. rewrite (qi_processing _ _ (inv_queue _ Hinv)).
        split; [|set_solver]. intros (w & Hin & Hb)%list_elem_of_omap.
        eapply Forall_forall in Hall; [|done]. by subst.
      - rewrite bool_decide_eq_true_2 by done. eauto. }
    destruct Hmm as [st' Hmm]. exists (MainMoves false), st'. split; [done|]. by econstructor.
Qed.

(** C7: Shutting down terminates, unless the channel of the delaying queue is full.
    Once the queue has been told to shut down, along every execution, with any
    interleaving of events and of the waiting loop, at most [measure] moves of the
    workers and of [Run] remain.  Before [Run] returns one of them can move, unless a
    worker waits for room in a full channel (which it may do for ever: see
    [shutdown_can_hang] in [ControllerHang]).  That does not happen when, at the time of the shutdown, the
    channel has room for the workers that are about to send to it.  So every execution
    from there in which the workers and [Run] keep moving reaches the return of [Run]. *)
Theorem shutdown_terminates ix w tr0 st tr st' :
  exec (New ix w) tr0 st → shutting (dq st) = true → exec st tr st' →
  (length (filter (λ l, program_move l = true) tr) + measure st' ≤ measure st)%nat ∧
  ((∃ e, main st' = Returned e) ∨ (∃ l st2, program_move l = true ∧ step st' l st2) ∨ blocked st') ∧
  ((in_flight st ≤ Delaying.waitingForAddCh_cap)%nat → ¬ blocked st').
Proof.
  intros H0 Hs Htr. pose proof (inv_steps _ _ _ (inv_New ix w) H0) as Hinv.
  assert (Hbound : (length (filter (λ l, program_move l = true) tr) + measure st' ≤ measure st)%nat ∧
                   (in_flight st' ≤ in_flight st)%nat).
  { clear H0. induction Htr as [|s tr s1 l s2 Htr IH Hl]; [simpl; lia|].
    destruct (IH Hs Hinv) as [IHm IHf]. destruct (steps_shutting _ _ _ Hinv Htr Hs) as [Hs1 _].
    pose proof (inv_steps _ _ _ Hinv Htr) as Hinv1.
    pose proof (measure_step _ _ _ Hinv1 Hs1 Hl) as Hm. pose proof (in_flight_step _ _ _ Hinv1 Hs1 Hl) as Hf.
    rewrite filter_app, length_app, filter_cons. destruct (program_move l); simpl; lia. }
  destruct Hbound as [Hm Hf]. split_and!; [done| |intros Hroom Hb%blocked_in_flight; lia].
  destruct (main st') eqn:Hmain; [right|right|right|right|by left; eauto];
    (apply not_stuck; [by eapply inv_steps|by eapply steps_shutting|congruence]).
Qed.

(** Every worker has left. *)
Definition all_exited st : Prop := Forall (λ w, w = Exited) (workers st).

(** C10: [Run] never returns [nil] and leaves nothing running: whenever it has
    returned, its result is the error of the cancelled context, every worker
    has finished and no item is being processed. *)
Theorem Run_returns ix w tr st err :
  exec (New ix w) tr st → main st = Returned err →
  err = ctxErr st ∧ err ≠ None ∧ all_exited st ∧ Queue.processing (Delaying.inner (dq st)) = ∅.
Proof.
  intros H0 Hm. pose proof (inv_steps _ _ _ (inv_New ix w) H0) as Hinv.
  pose proof (inv_phase _ Hinv) as Hph. unfold phase_ok in Hph. rewrite Hm in Hph.
  destruct Hph as (-> & Hne & Hall & _). split_and!; [done|done|done|].
  apply set_eq. intros it. rewrite (qi_processing _ _ (inv_queue _ Hinv)).
  split; [|set_solver]. intros (wk & Hin & Hb)%list_elem_of_omap.
  eapply Forall_forall in Hall; [|done]. by subst.
Qed.

(** Someone is working, or the queue is shut down and has nothing left. *)
Definition attended st : Prop :=
  Exists active (workers st) ∨
  (shutting (dq st) = true ∧ Queue.dirty (Delaying.inner (dq st)) = ∅).

Lemma busy_active w it : busy w = Some it → active w.
Proof. by destruct w; split. Qed.

Lemma idle_dirty st :
  inv st → (∀ w, w ∈ workers st → busy w = None) → Queue.queue (Delaying.inner (dq st)) = [] →
  Queue.dirty (Delaying.inner (dq st)) = ∅.
Proof.
  intros [[Hwf _ Hp _ _] _ _ _] Hidle Hq. apply set_eq. intros it. split; [|set_solver].
  intros [Hin|Hin]%(Queue.wf_dirty _ _ Hwf); [rewrite Hq in Hin; set_solver|].
  apply Hp, list_elem_of_omap in Hin as (w & Hw & Hb). apply Hidle in Hw. congruence.
Qed.

Lemma attended_same st l st' :
  workers st' = workers st → queue_effect st l st' → attended st → attended st'.
Proof.
  intros Hws [Hs Hb _] [Hex|[Hst Hd]]; [left; by rewrite Hws|right].
  split; [auto|]. specialize (Hb Hst). unfold backlog in Hb. rewrite Hd, size_empty in Hb.
  apply size_empty_inv in Hb || apply leibniz_equiv, size_empty_inv; lia.
Qed.

Lemma attended_worker st i b st' :
  inv st → worker_move reconciler st i b = Some st' → attended st → attended st'.
Proof.
  intros Hinv Hmv Hatt. destruct (inv_worker_move _ _ _ _ Hinv Hmv) as [_ Heff].
  destruct (worker_move_effect _ _ _ _ Hinv Hmv) as (w0 & w1 & []).
  destruct (decide (Exists active (workers st'))) as [|Hno]; [by left|].
  rewrite we_workers0 in Hno.
  assert (Hother : ∀ j w, j ≠ i → workers st !! j = Some w → ¬ active w).
  { intros j w Hji Hj Ha. apply Hno, Exists_exists. exists w. split; [|done].
    apply list_elem_of_lookup. exists j. by rewrite list_lookup_insert_ne. }
  destruct Hatt as [Hex|[Hst Hd]].
  - assert (Ha0 : active w0).
    { apply Exists_exists in Hex as (w & [j Hj]%list_elem_of_lookup & Ha).
      destruct (decide (j = i)) as [->|]; [congruence|]. by destruct (Hother j w). }
    right. destruct (we_leaves0 Ha0) as [Ha1|(-> & -> & Hs & Hq)].
    { destruct Hno. apply Exists_exists. exists w1. split; [|done].
      apply list_elem_of_lookup. exists i. apply list_lookup_insert_eq. by eapply lookup_lt_Some. }
    split; [done|]. apply idle_dirty; [done| |done].
    intros w [j Hj]%list_elem_of_lookup. destruct (decide (j = i)) as [->|Hji]; [by simplify_eq|].
    destruct (busy w) as [it|] eqn:Hb; [|done]. apply busy_active in Hb. by destruct (Hother j w).
  - right. destruct Heff as [Hs Hb _]. split; [auto|]. specialize (Hb Hst). unfold backlog in Hb.
    rewrite Hd, size_empty in Hb. apply leibniz_equiv, size_empty_inv; lia.
Qed.

Lemma attended_step st l st' : inv st → step st l st' → attended st → attended st'.
Proof.
  intros Hinv Hl. pose proof (inv_step _ _ _ Hinv Hl) as [_ Heff].
  destruct Hl as [| | | | | | | |st i b st' Hmv|st polled st' Hmv];
    try (by eapply attended_same).
  - by eapply attended_worker.
  - unfold main_move in Hmv. pose proof (inv_phase _ Hinv) as Hph. unfold phase_ok in Hph.
    destruct (main st) eqn:Hm; [|by repeat case_match; simplify_eq; eapply attended_same ..].
    destruct Hph as [Hs Hw]. intros [Hex|[Hst _]]; [|congruence].
    rewrite Hw in Hex. by apply Exists_nil in Hex.
Qed.

(** C8: Graceful shutdown: if some worker is serving the queue when the
    context is cancelled (or at any earlier moment), then when [Run] returns
    nothing is left in the queue: every key that was enqueued before the
    queue was shut down has been handed to a worker. *)
Theorem graceful_shutdown ix w tr0 st tr st' err :
  exec (New ix w) tr0 st → Exists active (workers st) →
  exec st tr st' → main st' = Returned err →
  Queue.queue (Delaying.inner (dq st')) = [] ∧ Queue.dirty (Delaying.inner (dq st')) = ∅.
Proof.
  intros H0 Hact Htr Hm. pose proof (inv_steps _ _ _ (inv_New ix w) H0) as Hinv.
  assert (Hinv' : inv st' ∧ attended st').
  { apply (steps_invariant step (λ s, inv s ∧ attended s)) in Htr; [done| |by split; [|left]].
    intros s1 l s2 [Hi Ha] Hl. split; [by eapply inv_step|by eapply attended_step]. }
  destruct Hinv' as [Hi' Ha']. pose proof (inv_phase _ Hi') as Hph.
  unfold phase_ok in Hph. rewrite Hm in Hph. destruct Hph as (_ & _ & Hall & _).
  destruct Ha' as [(wk & Hin & Hne)%Exists_exists|[_ Hd]].
  { eapply Forall_forall in Hall; [|done]. by destruct Hne. }
  split; [|done]. destruct (Queue.queue (Delaying.inner (dq st'))) as [|it rest] eqn:Hq; [done|].
  assert (Hin : it ∈ Queue.queue (Delaying.inner (dq st'))) by (rewrite Hq; by left).
  apply (Queue.wf_queue _ (qi_wf _ _ (inv_queue _ Hi'))) in Hin as [Hin _].
  rewrite Hd in Hin. set_solver.
Qed.
End run.

(** ** Concrete executions: two workers, one event *)
Module Demo.
Import ThreadSafeMap Lister.Demo Controller.Demo.

Definition demo_run := run (Obj := object) demo_reconciler 2.
Abbreviation demo_state := (state (I := threadSafeMap object) (W := list (string * bool))).
Definition demo_New : demo_state := New (demo_store true) [].
Definition web_added : notification (Obj := object) := OnAdd (AnObject (obj "prod" "web" "live")).
Definition bad_added : notification (Obj := object) := OnAdd (AnObject (obj "prod" "bad" "live")).
Definition cancelled : error := plainError "context canceled".

Abbreviation trace := (list (label (I := threadSafeMap object) (Obj := object))).

(** Both workers are serving. *)
Definition start : trace := [Syncs; MainMoves true; WorkerMoves 0 0; WorkerMoves 1 0].
(** Worker 0 takes and reconciles the key; worker 1 waits. *)
Definition take_web : trace := start ++ [Notify web_added; WorkerMoves 0 0].
(** Worker 0 has failed on the key. *)
Definition fail_bad : trace := start ++ [Notify bad_added; WorkerMoves 0 0; WorkerMoves 0 0].
(** Worker 0 brings it to the delaying queue. *)
Definition send_bad : trace := fail_bad ++ [WorkerMoves 0 0].
(** Cancelled, shut down, with one key in the queue. *)
Definition shut : trace := start ++ [Notify web_added; Cancel cancelled; MainMoves true].
(** Worker 0 processes the key, both workers leave, [Run] returns. *)
Definition finish : trace :=
  [WorkerMoves 0 0; WorkerMoves 0 0; WorkerMoves 0 0; WorkerMoves 0 0;
   WorkerMoves 0 0; WorkerMoves 0 0; WorkerMoves 1 0; WorkerMoves 1 0;
   MainMoves true; MainMoves true].

(** Cancelled before the workers start. *)
Definition early : trace :=
  [Notify web_added; Syncs; MainMoves true; Cancel cancelled; WorkerMoves 0 0;
   WorkerMoves 1 0; MainMoves true; MainMoves true; MainMoves true].

Definition after (tr : trace) : demo_state := default demo_New (demo_run demo_New tr).

Lemma exec_after (tr : trace) :
  (if demo_run demo_New tr is Some _ then true else false) = true →
  steps (step demo_reconciler 2) demo_New tr (after tr).
Proof.
  intros Hr. apply run_steps. unfold after. unfold demo_run in *.
  by destruct (run demo_reconciler 2 demo_New tr).
Qed.

Example finish_returns : main (after (shut ++ finish)) = Returned (Some cancelled).
Proof. by vm_compute. Qed.
Example finish_reconciles : world (after (shut ++ finish)) = [("prod/web", true)].
Proof. by vm_compute. Qed.
End Demo.
Import ThreadSafeMap Lister.Demo Controller.Demo Demo.

(** The drain has a gap: when the context is cancelled after the caches have
    synced but before the workers' goroutines have run, [Run] returns with the
    enqueued key still in the queue and no one left to process it. *)
Theorem early_cancel_leaves_keys :
  ∃ tr st, steps (step demo_reconciler 2) demo_New tr st ∧
    main st = Returned (Some cancelled) ∧
    Queue.queue (Delaying.inner (dq st)) = [StringItem "prod/web"] ∧ world st = [].
Proof.
  exists early, (after early). split; [|by vm_compute].
  apply exec_after. by vm_compute.
Qed.

Lemma one_worker_per_key_witness :
  workers (after take_web) !! 0%nat = Some (Reconciling "prod/web") ∧
  0%nat = 0%nat ∧ is_key (StringItem "prod/web").
Proof.
  split; [by vm_compute|].
  apply (one_worker_per_key demo_reconciler 2 (demo_store true) [] take_web (after take_web)
           0 0 (Reconciling "prod/web") (Reconciling "prod/web")); try (by vm_compute).
  apply exec_after. by vm_compute.
Defined.

Lemma notification_not_lost_witness :
  StringItem "prod/web" ∈ pending (dq (after take_web)) ∨
  reconciled demo_reconciler 2 (after (start ++ [Notify web_added])) [WorkerMoves 0 0] "prod/web".
Proof.
  apply (notification_not_lost demo_reconciler 2 (demo_store true) [] start (after start) web_added
           (after (start ++ [Notify web_added])) [WorkerMoves 0 0] (after take_web)).
  - apply exec_after. by vm_compute.
  - apply do_step_sound. by vm_compute.
  - by vm_compute.
  - apply run_steps. by vm_compute.
  - by vm_compute.
Defined.

Lemma failed_key_retried_witness :
  let st1 := after (send_bad ++ [WorkerMoves 0 0]) in
  (Sending "prod/bad" 5000000 = Failed "prod/bad" ∧ ∃ t, workers st1 !! 0%nat = Some (Sending "prod/bad" t)) ∨
  StringItem "prod/bad" ∈ pending (dq st1) ∨ reconciled demo_reconciler 2 st1 [] "prod/bad".
Proof.
  intros st1. apply (failed_key_retried demo_reconciler 2 (demo_store true) [] send_bad (after send_bad) 0
                       (Sending "prod/bad" 5000000) 0 st1 []).
  - apply exec_after. by vm_compute.
  - by vm_compute.
  - done.
  - apply do_step_sound. by vm_compute.
  - constructor.
  - by vm_compute.
Defined.

Lemma shutdown_terminates_witness :
  let st' := after (shut ++ finish) in
  (length (filter (λ l, program_move l = true) finish) + measure st' ≤ measure (after shut))%nat ∧
  ((∃ e, main st' = Returned e) ∨
   (∃ l st2, program_move l = true ∧ step demo_reconciler 2 st' l st2) ∨ blocked st') ∧
  ((in_flight (after shut) ≤ Delaying.waitingForAddCh_cap)%nat → ¬ blocked st').
Proof.
  apply (shutdown_terminates demo_reconciler 2 (demo_store true) [] shut).
  - apply exec_after. by vm_compute.
  - by vm_compute.
  - apply run_steps. by vm_compute.
Defined.

Lemma Run_returns_witness :
  let st := after (shut ++ finish) in
  Some cancelled = ctxErr st ∧ Some cancelled ≠ None ∧ all_exited st ∧
  Queue.processing (Delaying.inner (dq st)) = ∅.
Proof.
  apply (Run_returns demo_reconciler 2 (demo_store true) [] (shut ++ finish)).
  - apply exec_after. by vm_compute.
  - by vm_compute.
Defined.

Lemma graceful_shutdown_witness :
  let st := after (shut ++ finish) in
  Queue.queue (Delaying.inner (dq st)) = [] ∧ Queue.dirty (Delaying.inner (dq st)) = ∅.
Proof.
  apply (graceful_shutdown demo_reconciler 2 (demo_store true) [] shut (after shut) finish
           (after (shut ++ finish)) (Some cancelled)).
  - apply exec_after. by vm_compute.
  - apply Exists_exists. exists AtGet. split; [vm_compute; left|done].
  - apply run_steps. by vm_compute.
  - by vm_compute.
Defined.
End ControllerRun.
