(* ===== verification/ControllerHang.v ===== *)
(** * A shutdown of the controller that hangs

    [Controller.Run] ends with [ShutDownWithDrain], which ends the waiting loop of the
    delaying queue and does not close its [stopCh].  A worker that has passed the test
    of [AddAfter] before, and finds the channel to the loop full, then waits for ever,
    and so does [Run].  Here is such an execution: a key fails again and again while
    the waiting loop gets no chance to run, and [Run] is cancelled when the channel is
    full. *)
From S2P Require Import Prelude GoStrings GoErrors Admission Keys Store Lister Workqueue Controller ControllerRun.
Module Hang.
Import Controller ControllerRun ThreadSafeMap Lister.Demo Controller.Demo ControllerRun.Demo.

Abbreviation demo_step := (step demo_reconciler 2).
Definition bad : item := StringItem "prod/bad".

(** A queue with nothing in it, whose items [p] are being processed. *)
Definition empty_queue (p : gset item) : Queue.Type_ item :=
  {| Queue.queue := []; Queue.dirty := ∅; Queue.processing := p; Queue.shuttingDown := false; Queue.drain := false |}.

(** Serving, with [n] entries in the channel of a waiting loop that has not run yet:
    worker 0 is at [w] with the items [p], worker 1 waits. *)
Record crowded (w : worker) (p : gset item) (n : nat) (st : demo_state) : Prop := {
  cr_workers : workers st = [w; AtGet];
  cr_main : main st = Serving;
  cr_ctx : ctxErr st = None;
  cr_indexer : indexer st = demo_store true;
  cr_loop : Delaying.loop (dq st) = Delaying.LoopTop;
  cr_channel : in_channel (dq st) = n;
  cr_inner : Delaying.inner (dq st) = empty_queue p;
}.

Lemma MaxOf_When_bucket {K} `{Countable K} (it : K) bucket r : bucket ≤ (RateLimiter.MaxOf_When it bucket r).1.
Proof. unfold RateLimiter.MaxOf_When. destruct (RateLimiter.When it r). simpl. repeat case_match; lia. Qed.
Lemma bad_fails log :
  reconcile demo_reconciler (demo_store true) "prod/bad" log = (Some (plainError "transient"), log ++ [("prod/bad", false)]).
Proof. reflexivity. Qed.
Lemma bad_notified d : handle bad_added d = Delaying.with_inner (Queue.Add bad) d.
Proof. reflexivity. Qed.
Lemma Get_Add_empty it : Queue.Get (Queue.Add it (empty_queue ∅)) = (Queue.GetItem it, empty_queue {[it]}).
Proof.
  unfold Queue.Add, Queue.Get, empty_queue. simpl. rewrite !bool_decide_eq_false_2 by set_solver. simpl.
  f_equal. f_equal; apply set_eq; set_solver.
Qed.
Lemma Done_empty it : Queue.Done it (empty_queue {[it]}) = empty_queue ∅.
Proof.
  unfold Queue.Done, empty_queue. simpl. rewrite bool_decide_eq_false_2 by set_solver.
  f_equal. apply set_eq; set_solver.
Qed.

(** The moves of worker 0 in its round. *)
Section moves.
Context (st : demo_state).
Abbreviation moves w st' := (workers st !! 0%nat = Some w → worker_move demo_reconciler st 0 1 = Some st').
Lemma moves_get q :
  Queue.Get (Delaying.inner (dq st)) = (Queue.GetItem bad, q) →
  moves AtGet (set_worker 0 (Reconciling "prod/bad") (set_dq (Delaying.with_inner (λ _, q) (dq st)) st)).
Proof. intros Hg Hw. unfold worker_move. rewrite Hw. simpl. by rewrite Hg. Qed.
Lemma moves_reconcile :
  indexer st = demo_store true →
  moves (Reconciling "prod/bad") (set_worker 0 (Failed "prod/bad") (set_world (world st ++ [("prod/bad", false)]) st)).
Proof. intros Hi Hw. unfold worker_move. rewrite Hw. simpl. by rewrite Hi, bad_fails. Qed.
Lemma moves_fail delay l :
  RateLimiter.MaxOf_When bad 1 (limiter st) = (delay, l) → Queue.shuttingDown (Delaying.inner (dq st)) = false →
  moves (Failed "prod/bad") (set_worker 0 (Sending "prod/bad" (now st + delay)) (set_limiter l st)).
Proof.
  intros Hd Hs Hw. pose proof (MaxOf_When_bucket bad 1 (limiter st)) as Hpos. rewrite Hd in Hpos. simpl in Hpos.
  unfold worker_move. rewrite Hw. simpl. fold bad. rewrite Hd. unfold Delaying.AddAfter.
  by rewrite Hs, (proj2 (Z.leb_gt delay 0)) by lia.
Qed.
Lemma moves_send t d :
  Delaying.send bad t (dq st) = Some d →
  moves (Sending "prod/bad" t) (set_worker 0 (Finishing bad) (set_dq d st)).
Proof. intros Hs Hw. unfold worker_move. rewrite Hw. simpl. fold bad. by rewrite Hs. Qed.
Lemma moves_done :
  moves (Finishing bad) (set_worker 0 AtGet (set_dq (Delaying.with_inner (Queue.Done bad) (dq st)) st)).
Proof. intros Hw. unfold worker_move. by rewrite Hw. Qed.
End moves.

(** A notification of the key makes worker 0 fail on it once more; *)
Lemma fails_again n st :
  crowded AtGet ∅ n st →
  ∃ tr st' t, steps demo_step st tr st' ∧ crowded (Sending "prod/bad" t) {[bad]} n st'.
Proof.
  intros [Hws Hm Hc Hi Hl Hch Hin]. destruct (RateLimiter.MaxOf_When bad 1 (limiter st)) as [delay l'] eqn:Hw.
  eexists _, _, _. split.
  - eapply steps_cons; [apply (step_notify _ _ _ bad_added)|]. rewrite bad_notified.
    eapply steps_cons; [apply step_worker, (moves_get _ (empty_queue {[bad]})); simpl; by rewrite ?Hws, ?Hin, ?Get_Add_empty|].
    eapply steps_cons; [apply step_worker, moves_reconcile; simpl; by rewrite ?Hws|].
    apply steps_one, step_worker, (moves_fail _ delay l'); simpl; by rewrite ?Hws.
  - split; simpl; try done. by rewrite Hws.
Qed.
(** and it puts it back, while there is room. *)
Lemma crowd_grows n st t :
  (n < Delaying.waitingForAddCh_cap)%nat → crowded (Sending "prod/bad" t) {[bad]} n st →
  ∃ tr st', steps demo_step st tr st' ∧ crowded AtGet ∅ (S n) st'.
Proof.
  intros Hn [Hws Hm Hc Hi Hl Hch Hin]. eexists _, _. split.
  - eapply steps_cons; [apply step_worker, (moves_send _ t); [|by rewrite Hws]|].
    { unfold Delaying.send. unfold in_channel in Hch. by rewrite bool_decide_eq_true_2 by lia. }
    apply steps_one, step_worker, moves_done. simpl. by rewrite Hws.
  - split; simpl; try done; [by rewrite Hws| |by rewrite Hin, Done_empty].
    unfold in_channel in *. simpl. rewrite length_app. simpl. lia.
Qed.
Lemma crowd_of n : (n ≤ Delaying.waitingForAddCh_cap)%nat →
  ∃ tr st, steps demo_step demo_New tr st ∧ crowded AtGet ∅ n st.
Proof.
  induction n as [|n IH]; intros Hn.
  - exists start, (after start). split; [apply exec_after; by vm_compute|]. by split; vm_compute.
  - destruct IH as (tr & st & Htr & Hc); [lia|].
    destruct (fails_again n st Hc) as (tr1 & st1 & t & Htr1 & Hc1).
    destruct (crowd_grows n st1 t) as (tr2 & st2 & Htr2 & Hc2); [lia|done|].
    exists ((tr ++ tr1) ++ tr2), st2. split; [|done]. by do 2 (eapply steps_app; [|done]).
Qed.

(** [Run] drains while worker 0 cannot put its key back and no one reads the channel. *)
Record hung (st : demo_state) : Prop := {
  hu_workers : ∃ t, workers st = [Sending "prod/bad" t; Exited];
  hu_main : main st = Draining;
  hu_loop : Delaying.loop (dq st) = Delaying.LoopExited;
  hu_channel : in_channel (dq st) = Delaying.waitingForAddCh_cap;
  hu_shut : shutting (dq st) = true;
  hu_drain : Queue.drain (Delaying.inner (dq st)) = true;
  hu_processing : bad ∈ Queue.processing (Delaying.inner (dq st));
}.

Lemma hung_reachable : ∃ tr st, steps demo_step demo_New tr st ∧ hung st ∧ ctxErr st = Some cancelled.
Proof.
  destruct (crowd_of Delaying.waitingForAddCh_cap) as (tr & st & Htr & Hc); [done|].
  destruct (fails_again _ _ Hc) as (tr1 & st1 & t & Htr1 & []).
  destruct st1 as [[q ch m pc] l ix w ws nw ce sy mn]. simpl in *. subst.
  assert (H : ∃ st2, run demo_reconciler 2
    {| dq := {| Delaying.inner := empty_queue {[bad]}; Delaying.waitingForAddCh := ch;
                Delaying.waitingEntryByData := m; Delaying.loop := Delaying.LoopTop |};
       limiter := l; indexer := demo_store true; world := w; workers := [Sending "prod/bad" t; AtGet];
       now := nw; ctxErr := None; synced := sy; main := Serving |}
    [Cancel cancelled; MainMoves true; WorkerMoves 1 0; WorkerMoves 1 0; LoopMoves] = Some st2 ∧
    hung st2 ∧ ctxErr st2 = Some cancelled).
  { eexists. split; [reflexivity|]. split; [|done]. split; simpl; try done; [by eexists|..]; set_solver. }
  destruct H as (st2 & Hr & Hh & Hc2). eexists _, st2. split; [|done].
  eapply steps_app; [eapply steps_app; [done|done]|by apply run_steps].
Qed.

(** No move of anyone changes that. *)
Lemma hung_step st l st' : hung st → demo_step st l st' → hung st'.
Proof.
  intros Hh. pose proof Hh as [[t Hws] Hm Hl Hch Hs Hdr Hp]. unfold shutting, in_channel in *. intros Hst.
  destruct Hst as [st n| | | | |st it d Hd|st d Hd|st d Hd|st i b st' Hmv|st polled st' Hmv].
  - simpl. rewrite handle_key. destruct (notification_key n) as [key|]; [|by destruct Hh]. split; simpl; try done; [by eexists|..];
      unfold shutting; simpl; by rewrite Queue.Add_shuttingDown.
  - split; try done. by eexists.
  - split; try done. by eexists.
  - split; try done. by eexists.
  - split; try done. by eexists.
  - unfold Delaying.fire, Delaying.ready in Hd. by rewrite Hl in Hd.
  - unfold Delaying.receive in Hd. by rewrite Hl in Hd.
  - unfold Delaying.loop_move in Hd. by rewrite Hl in Hd.
  - unfold worker_move in Hmv. rewrite Hws in Hmv. destruct i as [|[|[]]]; simpl in Hmv; try done.
    unfold Delaying.send in Hmv. by rewrite bool_decide_eq_false_2 in Hmv by lia.
  - unfold main_move in Hmv. rewrite Hm in Hmv. unfold Queue.ShutDownWithDrain_waits in Hmv.
    rewrite Hdr, bool_decide_eq_true_2 in Hmv by set_solver. done.
Qed.

(** [Run] may never return: there is an execution at the end of which the context is
    cancelled and the queue is shut down, and after which [Run] is still waiting,
    whatever moves follow. *)
Theorem shutdown_can_hang :
  ∃ tr st, steps demo_step demo_New tr st ∧ ctxErr st = Some cancelled ∧ shutting (dq st) = true ∧
    ∀ tr' st', steps demo_step st tr' st' → main st' = Draining.
Proof.
  destruct hung_reachable as (tr & st & Htr & Hh & Hc). exists tr, st.
  split_and!; [done|done|apply Hh|]. intros tr' st' Htr'.
  apply hu_main. eapply (steps_invariant demo_step hung); [|done|done]. intros s1 l s2. apply hung_step.
Qed.
End Hang.
