(* ===== verification/SchemaResolver.v ===== *)
(** * The caching schema resolver ([pkg/controller/schemaresolver/resolver.go])

    Callers resolve schemas concurrently through a cache guarded by a lock; the
    handlers of CRD events purge entries.  Discovery
    ([ClientDiscoveryResolver.ResolveSchema]) is a parameter that reads the
    state of the API server. *)
From S2P Require Import Prelude GoStrings GoErrors Admission.

Module SchemaResolver.
Section resolver.
(** [*spec.Schema], the API server, and what discovery answers about it. *)
Context {Schema World : Type}.
Definition answer : Type := option Schema * option error.
Variable discovery_ResolveSchema : World → GroupVersionKind → answer.

(** [schemaCache] of [cacheEntry]s. *)
Abbreviation schemaCache := (gmap GroupVersionKind answer).
Implicit Types (cache : schemaCache) (gvk : GroupVersionKind) (gk : GroupKind).

Definition same_GroupKind gk gvk : Prop := Group gvk = gkGroup gk ∧ Kind gvk = gkKind gk.

#[export] Instance same_GroupKind_dec gk gvk : Decision (same_GroupKind gk gvk).
Proof. unfold same_GroupKind. apply _. Defined.

(** The loop of [purgeCRDFromCache]: over the keys of the cache, in the order
    of the iteration. *)
Definition purge_loop gk (keys : list GroupVersionKind) cache : schemaCache :=
  foldl (λ cache k, if decide (same_GroupKind gk k) then delete k cache else cache) cache keys.

Definition purgeCRDFromCache gk cache : schemaCache :=
  purge_loop gk (map_to_list cache).*1 cache.

(** [resolveSchemaFromCache]; an absent entry reads as the zero entry. *)
Definition resolveSchemaFromCache gvk cache : bool * answer :=
  match cache !! gvk with
  | Some entry => (true, entry)
  | None => (false, (None, None))
  end.

(** ** Events on CRDs

    [crd_object_kind] is the kind of the event's object itself
    ([crd.GetObjectKind().GroupVersionKind()]); [crd_spec] is the group and kind
    the CRD defines ([spec.group], [spec.names.kind]). *)
Record CRD := { crd_object_kind : GroupVersionKind; crd_spec : GroupKind }.

Inductive event :=
  | Added (crd : CRD)
  | Updated (oldCrd newCrd : CRD)
  | Deleted (crd : CRD).

(** The purges of the handler of an event, in order. *)
Definition handler (e : event) : list GroupKind :=
  let gk crd := gvk_GroupKind (crd_object_kind crd) in
  match e with
  | Added crd | Deleted crd => [gk crd]
  | Updated oldCrd newCrd => [gk oldCrd; gk newCrd]
  end.

(** ** Concurrent callers

    Where a call of [ResolveSchema] is: not started; before the read lock;
    before the write lock, having missed; with the lock, before discovery; with
    the lock, before the store; returned. *)
Inductive caller :=
  | Idle
  | Looking (gvk : GroupVersionKind)
  | Missed (gvk : GroupVersionKind)
  | Locked (gvk : GroupVersionKind)
  | Resolved (gvk : GroupVersionKind) (ans : answer)
  | Returned (gvk : GroupVersionKind) (ans : answer).

Record state := {
  cache : schemaCache;
  writer : option nat;            (** who holds the write lock *)
  callers : list caller;
  purges : list GroupKind;        (** what the informer goroutine has yet to purge *)
  api : World;
}.

#[local] Instance state_settable : Settable state := λ st,
  {| cache := cache st; writer := writer st; callers := callers st;
     purges := purges st; api := api st |}.
Definition set_cache : schemaCache → state → state := ltac:(setter_of state cache).
Definition set_writer : option nat → state → state := ltac:(setter_of state writer).
Definition set_callers : list caller → state → state := ltac:(setter_of state callers).
Definition set_purges : list GroupKind → state → state := ltac:(setter_of state purges).
Definition set_api : World → state → state := ltac:(setter_of state api).

Definition New (n : nat) (w : World) : state :=
  {| cache := ∅; writer := None; callers := replicate n Idle; purges := []; api := w |}.

Definition set_caller (i : nat) (c : caller) (st : state) : state :=
  set_callers (<[i := c]> (callers st)) st.

(** The next move of caller [i] inside [ResolveSchema]; [None] while it waits
    for the lock or has returned. *)
Definition caller_move (st : state) (i : nat) : option state :=
  c ← callers st !! i;
  match c with
  | Idle | Returned _ _ => None
  | Looking gvk =>
      if writer st is Some _ then None
      else let '(exists_, entry) := resolveSchemaFromCache gvk (cache st) in
           Some (set_caller i (if exists_ : bool then Returned gvk entry else Missed gvk) st)
  | Missed gvk =>
      if writer st is Some _ then None
      else Some (set_caller i (Locked gvk) (set_writer (Some i) st))
  | Locked gvk =>
      Some (set_caller i (Resolved gvk (discovery_ResolveSchema (api st) gvk)) st)
  | Resolved gvk ans =>
      Some (set_caller i (Returned gvk ans)
              (set_writer None (set_cache (<[gvk := ans]> (cache st)) st)))
  end.

(** The informer goroutine runs one purge, if nobody holds the lock. *)
Definition purge_move (st : state) : option state :=
  match purges st with
  | gk :: rest =>
      if writer st is Some _ then None
      else Some (set_purges rest (set_cache (purgeCRDFromCache gk (cache st)) st))
  | [] => None
  end.

Inductive label :=
  | Call (i : nat) (gvk : GroupVersionKind)   (** a caller starts *)
  | CallerMoves (i : nat)
  | Event (e : event)                         (** the informer delivers an event *)
  | Purges                                    (** one purge of the handlers *)
  | ApiChanges (w : World).                   (** the API server changes *)

Definition do_step (st : state) (l : label) : option state :=
  match l with
  | Call i gvk =>
      match callers st !! i with
      | Some Idle | Some (Returned _ _) => Some (set_caller i (Looking gvk) st)
      | _ => None
      end
  | CallerMoves i => caller_move st i
  | Event e => Some (set_purges (purges st ++ handler e) st)
  | Purges => purge_move st
  | ApiChanges w => Some (set_api w st)
  end.

Definition step (st : state) (l : label) (st' : state) : Prop := do_step st l = Some st'.

(** ** Lemmas *)
Lemma lookup_purge_loop gk keys cache gvk :
  purge_loop gk keys cache !! gvk =
  if decide (gvk ∈ keys ∧ same_GroupKind gk gvk) then None else cache !! gvk.
Proof.
  revert cache. induction keys as [|k keys IH]; intros cache.
  { rewrite decide_False; [done|]. intros [[]%not_elem_of_nil _]. }
  change (purge_loop gk (k :: keys) cache) with
    (purge_loop gk keys (if decide (same_GroupKind gk k) then delete k cache else cache)).
  rewrite IH. destruct (decide (gvk ∈ keys ∧ same_GroupKind gk gvk)) as [[Hin Hgk]|Hno].
  { by rewrite decide_True by (split; [by right|done]). }
  destruct (decide (same_GroupKind gk k)) as [Hk|Hk]; destruct (decide (gvk ∈ k :: keys ∧ same_GroupKind gk gvk)) as [[Hin Hgk]|Hno'].
  - apply elem_of_cons in Hin as [->|Hin]; [by rewrite lookup_delete_eq|tauto].
  - apply lookup_delete_ne. intros ->. apply Hno'. split; [by left|done].
  - apply elem_of_cons in Hin as [->|Hin]; tauto.
  - done.
Qed.

Lemma lookup_purge gk cache gvk :
  purgeCRDFromCache gk cache !! gvk =
  if decide (same_GroupKind gk gvk) then None else cache !! gvk.
Proof.
  unfold purgeCRDFromCache. rewrite lookup_purge_loop.
  destruct (decide (same_GroupKind gk gvk)) as [Hgk|Hgk].
  - case_decide as Hin; [done|]. destruct (cache !! gvk) as [ans|] eqn:Hc; [|done].
    exfalso. apply Hin. split; [|done]. apply list_elem_of_fmap.
    exists (gvk, ans). split; [done|]. by apply elem_of_map_to_list.
  - rewrite decide_False; [done|]. tauto.
Qed.

(** A caller that holds the write lock; a caller inside [ResolveSchema]. *)
Definition holding (c : caller) : bool :=
  match c with Locked _ | Resolved _ _ => true | _ => false end.
Definition in_flight (c : caller) : bool :=
  match c with Idle | Returned _ _ => false | _ => true end.

(** The lock: its owner, and only its owner, is in the critical section. *)
Definition locked_by (st : state) : Prop :=
  ∀ i, writer st = Some i ↔ ∃ c, callers st !! i = Some c ∧ holding c = true.

Lemma locked_by_set i c0 c st wr st' :
  callers st !! i = Some c0 → callers st' = <[i := c]> (callers st) → writer st' = wr →
  locked_by st →
  (if holding c then wr = Some i ∧ (writer st = None ∨ writer st = Some i)
   else if holding c0 then wr = None else wr = writer st) →
  locked_by st'.
Proof.
  intros Hi Hc Hw Hl Hcase j. rewrite Hc, Hw.
  assert (Hlt : (i < length (callers st))%nat) by (by eapply lookup_lt_Some).
  destruct (decide (i = j)) as [<-|Hij].
  - rewrite list_lookup_insert_eq by done. destruct (holding c) eqn:Hh.
    { destruct Hcase as [-> _]. split; [by exists c|done]. }
    split; [|intros (c' & [= <-] & Hc'); congruence]. intros Heq. exfalso.
    destruct (holding c0) eqn:Hh0; [congruence|].
    rewrite Hcase in Heq. apply Hl in Heq as (c' & ? & ?). congruence.
  - rewrite list_lookup_insert_ne by done. rewrite <- (Hl j). destruct (holding c) eqn:Hh.
    { destruct Hcase as [-> [Hn|Hs]]; split; congruence. }
    destruct (holding c0) eqn:Hh0; [|by rewrite Hcase].
    assert (Hwi : writer st = Some i) by (apply Hl; eauto). rewrite Hcase. split; congruence.
Qed.

Lemma locked_by_step st l st' : locked_by st → step st l st' → locked_by st'.
Proof.
  intros Hl Hstep. unfold step in Hstep. destruct l as [i gvk|i|e| |w]; simpl in Hstep.
  - destruct (callers st !! i) as [[]|] eqn:Hi; simplify_eq;
      eapply (locked_by_set i); [exact Hi|done..|done].
  - unfold caller_move in Hstep. destruct (callers st !! i) as [c|] eqn:Hi; simpl in Hstep; [|done].
    destruct c; [done| | | | |done].
    + destruct (writer st) eqn:Hw; [done|].
      destruct (resolveSchemaFromCache gvk (cache st)) as [ex en]. injection Hstep as <-.
      eapply (locked_by_set i); [exact Hi|done|done|done|]. by destruct ex.
    + destruct (writer st) eqn:Hw; [done|]. injection Hstep as <-.
      eapply (locked_by_set i); [exact Hi|done|done|done|]. simpl. auto.
    + injection Hstep as <-. eapply (locked_by_set i); [exact Hi|done|done|done|].
      simpl. assert (writer st = Some i) by (apply Hl; eauto). auto.
    + injection Hstep as <-. by eapply (locked_by_set i); [exact Hi|..].
  - by simplify_eq.
  - unfold purge_move in Hstep. destruct (purges st); [done|].
    destruct (writer st) eqn:Hw; [done|]. injection Hstep as <-.
    intros i. apply (Hl i).
  - by simplify_eq.
Qed.

Lemma locked_by_New n w : locked_by (New n w).
Proof.
  intros i. simpl. split; [done|]. intros (c & [-> _]%lookup_replicate & ?). done.
Qed.

Lemma locked_by_steps st tr st' : locked_by st → steps step st tr st' → locked_by st'.
Proof. apply steps_invariant, locked_by_step. Qed.

(** [ans] is what discovery answered about [gvk] at a moment of the execution. *)
Definition answered_during st tr st' gvk (ans : answer) : Prop :=
  ∃ tr1 tr2 s, tr = tr1 ++ tr2 ∧ steps step st tr1 s ∧ steps step s tr2 st' ∧
    ans = discovery_ResolveSchema (api s) gvk.

Lemma answered_now st tr s gvk :
  steps step st tr s → answered_during st tr s gvk (discovery_ResolveSchema (api s) gvk).
Proof.
  intros Hs. exists tr, [], s. rewrite app_nil_r. split_and!; [done|done|constructor|done].
Qed.

Lemma answered_later st tr s l s' gvk ans :
  answered_during st tr s gvk ans → step s l s' → answered_during st (tr ++ [l]) s' gvk ans.
Proof.
  intros (tr1 & tr2 & s1 & -> & H1 & H2 & ->) Hl. exists tr1, (tr2 ++ [l]), s1.
  split_and!; [by rewrite <- app_assoc|done| by econstructor |done].
Qed.

(** Where an answer about [gvk] may be found in a state: in the cache, with the
    owner of the lock, or returned to caller [i]. *)
Inductive holds_answer gvk (i : nat) (st : state) (ans : answer) : Prop :=
  | in_cache : cache st !! gvk = Some ans → holds_answer gvk i st ans
  | in_resolved j : callers st !! j = Some (Resolved gvk ans) → holds_answer gvk i st ans
  | in_returned : callers st !! i = Some (Returned gvk ans) → holds_answer gvk i st ans.

(** An answer found after a step was there before or was just discovered. *)
Lemma holds_answer_step gvk i st l st' ans :
  step st l st' → holds_answer gvk i st' ans →
  holds_answer gvk i st ans ∨ ans = discovery_ResolveSchema (api st') gvk.
Proof.
  intros Hstep Hans. unfold step in Hstep.
  assert (Hcase : ∀ k c0 c st1, callers st !! k = Some c0 →
    callers st1 = callers st → cache st1 = cache st →
    (∀ a, c = Resolved gvk a → a = discovery_ResolveSchema (api st) gvk) →
    (∀ a, c = Returned gvk a → holds_answer gvk i st a) → api st1 = api st →
    holds_answer gvk i (set_caller k c st1) ans →
    holds_answer gvk i st ans ∨ ans = discovery_ResolveSchema (api (set_caller k c st1)) gvk).
  { intros k c0 c st1 Hk Hcs Hca Hres Hret Hapi [Hin|j Hj|Hr]; simpl in *.
    - left. rewrite Hca in Hin. by constructor.
    - rewrite Hcs in Hj. apply list_lookup_insert_Some in Hj as [(_ & -> & _)|[_ Hj]].
      + right. rewrite Hapi. by apply Hres.
      + left. by eapply in_resolved.
    - rewrite Hcs in Hr. apply list_lookup_insert_Some in Hr as [(_ & -> & _)|[_ Hr]].
      + left. by apply Hret.
      + left. by apply in_returned. }
  destruct l as [k gvk'|k|e| |w]; simpl in Hstep.
  - destruct (callers st !! k) as [[]|] eqn:Hk; simplify_eq; by eapply Hcase.
  - unfold caller_move, resolveSchemaFromCache in Hstep.
    destruct (callers st !! k) as [c|] eqn:Hk; simpl in Hstep; [|done].
    destruct c as [|g|g|g|g a|]; [done| | | | |done].
    + destruct (writer st); [done|].
      destruct (cache st !! g) as [en|] eqn:Hg; injection Hstep as <-; eapply Hcase; try done.
      intros a [= -> ->]. by constructor.
    + destruct (writer st); [done|]. injection Hstep as <-. by eapply Hcase.
    + injection Hstep as <-. eapply Hcase; try done. by intros a [= -> <-].
    + injection Hstep as <-. assert (Hres : ∀ a', g = gvk → a' = a → holds_answer gvk i st a')
        by (intros a' -> ->; by eapply in_resolved).
      destruct Hans as [Hin|j Hj|Hr]; simpl in *.
      * left. apply lookup_insert_Some in Hin as [[? ?]|[_ Hin]]; [by apply Hres|by constructor].
      * apply list_lookup_insert_Some in Hj as [(_ & ? & _)|[_ Hj]]; [done|].
        left. by eapply in_resolved.
      * apply list_lookup_insert_Some in Hr as [(_ & [= ? ?] & _)|[_ Hr]]; left;
          [by apply Hres|by apply in_returned].
  - simplify_eq. left. destruct Hans; [by constructor|by eapply in_resolved|by apply in_returned].
  - unfold purge_move in Hstep. destruct (purges st) as [|gk rest]; [done|].
    destruct (writer st); [done|]. injection Hstep as <-. left.
    destruct Hans as [Hin|j Hj|Hr]; simpl in *;
      [|by eapply in_resolved|by apply in_returned].
    rewrite lookup_purge in Hin. case_decide; [done|]. by constructor.
  - simplify_eq. left. destruct Hans; [by constructor|by eapply in_resolved|by apply in_returned].
Qed.

Lemma answers_are_recent gvk i st tr st' ans :
  (∀ a, ¬ holds_answer gvk i st a) → steps step st tr st' →
  holds_answer gvk i st' ans → answered_during st tr st' gvk ans.
Proof.
  intros Hclean Hst. induction Hst as [|s tr s1 l s2 Hst IH Hl]; [by intros []%Hclean|].
  intros Hans. destruct (holds_answer_step _ _ _ _ _ _ Hl Hans) as [Hold| ->].
  - eapply answered_later; [|done]. by apply IH.
  - apply answered_now. by econstructor.
Qed.

(** ** Theorems *)
(** A purge removes from the cache exactly the entries of its group and
    kind, in every version, whatever the order in which it visits them. *)
Theorem purgeCRDFromCache_spec gk cache gvk :
  purgeCRDFromCache gk cache !! gvk =
  if decide (Group gvk = gkGroup gk ∧ Kind gvk = gkKind gk) then None else cache !! gvk.
Proof. apply lookup_purge. Qed.

(** C23: No stale answer after a purge: once the schemas of a group and kind
    have been purged, every call for one of them that returns after the purge,
    even one that was already under way, returns what discovery answered at a
    moment after the purge. *)
Theorem purge_freshness n w tr0 st0 gk rest st tr st' i gvk ans :
  steps step (New n w) tr0 st0 → purges st0 = gk :: rest → step st0 Purges st →
  same_GroupKind gk gvk → steps step st tr st' →
  (∀ a, callers st !! i ≠ Some (Returned gvk a)) →
  callers st' !! i = Some (Returned gvk ans) →
  answered_during st tr st' gvk ans.
Proof.
  intros H0 Hp Hstep Hgk Htr Hi Hret.
  apply (answers_are_recent gvk i); [|done|by apply in_returned].
  pose proof (locked_by_steps _ _ _ (locked_by_New n w) H0) as Hl.
  pose proof (locked_by_step _ _ _ Hl Hstep) as Hl'.
  unfold step, do_step, purge_move in Hstep. rewrite Hp in Hstep.
  destruct (writer st0) eqn:Hw; [done|]. injection Hstep as <-.
  intros a [Hin|j Hj|Hr]; simpl in *.
  - rewrite lookup_purge in Hin. by rewrite decide_True in Hin.
  - assert (Hwj : writer st0 = Some j) by (apply Hl; eauto). congruence.
  - by apply (Hi a).
Qed.

(** The answer about [gvk] is cached and no call is on its way to replace it. *)
Definition settled (st : state) gvk (ans : answer) : Prop :=
  cache st !! gvk = Some ans ∧
  ∀ j c, callers st !! j = Some c → c ≠ Missed gvk ∧ c ≠ Locked gvk ∧ ∀ a, c ≠ Resolved gvk a.

(** No purge concerns [gvk], neither a pending one nor one of an event to come. *)
Definition unpurged (st : state) (tr : list label) gvk : Prop :=
  Forall (λ gk, ¬ same_GroupKind gk gvk) (purges st) ∧
  ∀ e, Event e ∈ tr → Forall (λ gk, ¬ same_GroupKind gk gvk) (handler e).

Lemma settled_caller st gvk ans k c0 c st1 :
  settled st gvk ans → callers st !! k = Some c0 → callers st1 = callers st →
  cache st1 !! gvk = Some ans →
  (c ≠ Missed gvk ∧ c ≠ Locked gvk ∧ ∀ a, c ≠ Resolved gvk a) →
  settled (set_caller k c st1) gvk ans.
Proof.
  intros [_ Hcl] Hk Hcs Hca Hc. split; [done|]. intros j c' Hj. simpl in Hj. rewrite Hcs in Hj.
  apply list_lookup_insert_Some in Hj as [(_ & <- & _)|[_ Hj]]; [done|by eapply Hcl].
Qed.

Lemma settled_step gvk ans i st l st' :
  settled st gvk ans → unpurged st [l] gvk → step st l st' →
  settled st' gvk ans ∧ Forall (λ gk, ¬ same_GroupKind gk gvk) (purges st') ∧
  (∀ a, callers st' !! i = Some (Returned gvk a) → callers st !! i = Some (Returned gvk a) ∨ a = ans).
Proof.
  intros Hset [Hpu Hev] Hstep. pose proof Hset as [Hca Hcl]. unfold step in Hstep.
  assert (Hret : ∀ k c st1, callers st1 = callers st →
    (∀ a, c = Returned gvk a → a = ans) →
    ∀ a, callers (set_caller k c st1) !! i = Some (Returned gvk a) →
         callers st !! i = Some (Returned gvk a) ∨ a = ans).
  { intros k c st1 Hcs Hc a Hr. simpl in Hr. rewrite Hcs in Hr.
    apply list_lookup_insert_Some in Hr as [(_ & -> & _)|[_ Hr]]; [right; by apply Hc|by left]. }
  destruct l as [k g|k|e| |w]; simpl in Hstep.
  - destruct (callers st !! k) as [[]|] eqn:Hk; simplify_eq;
      (split; [by eapply settled_caller|split; [done|by apply Hret]]).
  - unfold caller_move, resolveSchemaFromCache in Hstep.
    destruct (callers st !! k) as [c|] eqn:Hk; simpl in Hstep; [|done].
    pose proof (Hcl _ _ Hk) as (Hm & Hlk & Hrs).
    destruct c as [|g|g|g|g a|]; [done| | | | |done].
    + destruct (writer st); [done|]. destruct (decide (g = gvk)) as [->|Hne].
      * rewrite Hca in Hstep. injection Hstep as <-.
        split; [by eapply settled_caller|split; [done|]]. apply Hret; [done|]. by intros a [= <-].
      * destruct (cache st !! g) as [en|]; injection Hstep as <-;
          (split; [eapply settled_caller; naive_solver|split; [done|]]; apply Hret; naive_solver).
    + destruct (writer st); [done|]. injection Hstep as <-.
      split; [eapply settled_caller; naive_solver|split; [done|by apply Hret]].
    + injection Hstep as <-.
      split; [eapply settled_caller; naive_solver|split; [done|by apply Hret]].
    + injection Hstep as <-. assert (g ≠ gvk) by naive_solver.
      split; [|split; [done|apply Hret; naive_solver]].
      eapply settled_caller; [done|done|done| |done]. simpl. by rewrite lookup_insert_ne.
  - simplify_eq. split; [done|split; [|by left]]. simpl. apply Forall_app. split; [done|].
    apply Hev. by left.
  - unfold purge_move in Hstep. destruct (purges st) as [|gk rest] eqn:Hp; [done|].
    destruct (writer st); [done|]. injection Hstep as <-. apply Forall_cons in Hpu as [Hgk Hpu].
    split; [split; [|done]|split; [done|by left]]. simpl. rewrite lookup_purge.
    by rewrite decide_False.
  - simplify_eq. split; [done|split; [done|by left]].
Qed.

(** A cached answer is final until it is purged: once the answer about a
    kind is cached and no call is about to replace it, every call that returns
    afterwards returns that same answer, without discovery and whatever has
    become of the API server, as long as no purge concerns the kind.  This
    holds for errors too: a failed discovery is remembered. *)
Theorem cached_answer_stable gvk ans st tr st' i a :
  settled st gvk ans → unpurged st tr gvk → steps step st tr st' →
  (∀ b, callers st !! i ≠ Some (Returned gvk b)) →
  callers st' !! i = Some (Returned gvk a) → a = ans.
Proof.
  intros Hset [Hpu Hev] Hst Hi.
  enough (settled st' gvk ans ∧ Forall (λ gk, ¬ same_GroupKind gk gvk) (purges st') ∧
          ∀ b, callers st' !! i = Some (Returned gvk b) → b = ans) by naive_solver.
  induction Hst as [|s tr s1 l s2 Hst IH Hl]; [split_and!; [done..|by intros b Hb%Hi]|].
  destruct IH as (Hset1 & Hpu1 & Hi1); [done|done| |done|].
  { intros e He. apply Hev, elem_of_app. by left. }
  destruct (settled_step gvk ans i s1 l s2 Hset1) as (Hset2 & Hpu2 & Hi2); [|done|].
  { split; [done|]. intros e <-%list_elem_of_singleton. apply Hev, elem_of_app. right. by left. }
  split_and!; [done|done|]. intros b Hb. destruct (Hi2 b Hb); [by apply Hi1|done].
Qed.

(** How many moves a call has left at most. *)
Definition moves_left (c : caller) : nat :=
  match c with
  | Looking _ => 4 | Missed _ => 3 | Locked _ => 2 | Resolved _ _ => 1 | Idle | Returned _ _ => 0
  end.

(** The moves that the calls in progress and the pending purges have left. *)
Definition work (st : state) : nat := (sum_list_with moves_left (callers st) + length (purges st))%nat.

Lemma sum_moves_insert cs i c0 c :
  cs !! i = Some c0 →
  (sum_list_with moves_left (<[i := c]> cs) + moves_left c0 = sum_list_with moves_left cs + moves_left c)%nat.
Proof.
  revert i. induction cs as [|c1 cs IH]; intros [|i] Hi; simplify_eq/=; [lia|]. specialize (IH _ Hi). lia.
Qed.

(** The owner of the lock can move. *)
Lemma owner_moves st j : locked_by st → writer st = Some j → is_Some (caller_move st j).
Proof.
  intros Hl Hw. destruct (proj1 (Hl j) Hw) as (c & Hj & Hh). unfold caller_move. rewrite Hj. by destruct c.
Qed.

Lemma caller_move_less st i st' c :
  callers st !! i = Some c → caller_move st i = Some st' →
  (∃ c', callers st' !! i = Some c' ∧ (moves_left c' < moves_left c)%nat) ∧ (work st' < work st)%nat.
Proof.
  intros Hi Hmv. assert (Hlt : (i < length (callers st))%nat) by (by eapply lookup_lt_Some).
  unfold caller_move, resolveSchemaFromCache in Hmv. rewrite Hi in Hmv.
  assert (Hless : ∀ c', callers st' = <[i := c']> (callers st) → purges st' = purges st →
    (moves_left c' < moves_left c)%nat →
    (∃ c', callers st' !! i = Some c' ∧ (moves_left c' < moves_left c)%nat) ∧ (work st' < work st)%nat).
  { intros c' Hc Hp Hm. split; [exists c'; by rewrite Hc, list_lookup_insert_eq|].
    unfold work. rewrite Hc, Hp. pose proof (sum_moves_insert _ _ _ c' Hi). lia. }
  destruct c; simpl in Hmv; repeat case_match; simplify_eq; eapply Hless; try done; simpl; lia.
Qed.

(** C24: No deadlock, and everything ends: in every reachable state, a call in
    progress can move, or the lock is held by another call, which can move itself;
    and so it is for a purge of the event handlers.  Every move of a call brings
    this call closer to its end, of the four moves it has at most, and every purge
    that is run is done; so between them, calls and purges make at most [work]
    moves. *)
Theorem resolver_progress n w tr st :
  steps step (New n w) tr st →
  (∀ i c, callers st !! i = Some c → in_flight c = true →
     is_Some (caller_move st i) ∨ ∃ j, j ≠ i ∧ writer st = Some j ∧ is_Some (caller_move st j)) ∧
  (purges st ≠ [] → is_Some (purge_move st) ∨ ∃ j, writer st = Some j ∧ is_Some (caller_move st j)) ∧
  (∀ i c st', callers st !! i = Some c → caller_move st i = Some st' →
     (∃ c', callers st' !! i = Some c' ∧ (moves_left c' < moves_left c ≤ 4)%nat) ∧ (work st' < work st)%nat) ∧
  (∀ st', purge_move st = Some st' →
     (∃ gk, purges st = gk :: purges st') ∧ callers st' = callers st ∧ (work st' < work st)%nat).
Proof.
  intros Htr. pose proof (locked_by_steps _ _ _ (locked_by_New n w) Htr) as Hl. split_and!.
  - intros i c Hi Hf. destruct (writer st) as [j|] eqn:Hw.
    + destruct (decide (j = i)) as [->|Hji]; [left|right; exists j; split_and!; try done]; by apply owner_moves.
    + left. unfold caller_move. rewrite Hi, Hw. simpl. destruct c; try done.
      by destruct (resolveSchemaFromCache gvk (cache st)).
  - intros Hp. destruct (writer st) as [j|] eqn:Hw; [right; exists j; split; [done|by apply owner_moves]|left].
    unfold purge_move. destruct (purges st); [done|]. by rewrite Hw.
  - intros i c st' Hi Hmv. destruct (caller_move_less st i st' c Hi Hmv) as [(c' & Hc' & Hm) Hw].
    split; [exists c'; split; [done|]|done]. split; [done|]. destruct c; simpl; lia.
  - intros st' Hmv. unfold purge_move in Hmv. destruct (purges st) as [|gk rest] eqn:Hp; [done|].
    destruct (writer st); [done|]. injection Hmv as <-. unfold work. simpl. rewrite Hp. simpl.
    split_and!; [by eexists|done|lia].
Qed.
End resolver.

(** ** Concrete executions

    The API server is a version of the schemas: discovery answers the version;
    at version 0 it fails. *)
Module Demo.
Definition demo_discovery (version : nat) (gvk : GroupVersionKind) : option nat * option error :=
  if decide (version = 0%nat) then (None, Some (plainError "schema not found"))
  else (Some version, None).

Abbreviation demo_state := (state (Schema := nat) (World := nat)).
Abbreviation trace := (list (label (World := nat))).

Fixpoint run (st : demo_state) (tr : trace) : option demo_state :=
  match tr with
  | [] => Some st
  | l :: tr => st' ← do_step demo_discovery st l; run st' tr
  end.

Lemma run_reaches st tr st' : run st tr = Some st' → steps (step demo_discovery) st tr st'.
Proof.
  revert st. induction tr as [|l tr IH]; simpl; intros st.
  - intros [= <-]. constructor.
  - destruct (do_step demo_discovery st l) as [st1|] eqn:Hl; [|done]. intros Hr.
    eapply steps_cons; [exact Hl|by apply IH].
Qed.

Definition widget : GroupVersionKind := mkGVK "example.com" "v1" "Widget".
(** The CRD of the widgets, with the kind of the CRD object itself. *)
Definition widget_crd : CRD :=
  {| crd_object_kind := mkGVK "apiextensions.k8s.io" "v1" "CustomResourceDefinition";
     crd_spec := mkGK "example.com" "Widget" |}.
(** An object whose own kind is that of the widgets. *)
Definition widget_object : CRD :=
  {| crd_object_kind := widget; crd_spec := mkGK "example.com" "Widget" |}.

Definition resolve (i : nat) : trace :=
  [Call i widget; CallerMoves i; CallerMoves i; CallerMoves i; CallerMoves i].
Definition demo_New (version : nat) : demo_state := New 2 version.
Definition after (version : nat) (tr : trace) : demo_state :=
  default (demo_New version) (run (demo_New version) tr).

(** A call holds the lock, another one and a purge wait for it. *)
Definition contended : demo_state :=
  after 1 [Call 0 widget; CallerMoves 0; CallerMoves 0; Call 1 widget; Event (Added widget_object)].

Lemma after_steps version tr :
  (if run (demo_New version) tr is Some _ then true else false) = true →
  steps (step demo_discovery) (demo_New version) tr (after version tr).
Proof.
  intros Hr. apply run_reaches. unfold after. by destruct (run (demo_New version) tr).
Qed.
End Demo.
Import Demo.

(** CRD updates do not refresh the schemas they define: the handlers purge by
    the kind of the CRD object itself, so after the CRD of a kind has changed
    and its event has been handled completely, callers still get the schema of
    before the change. *)
Theorem crd_update_leaves_stale_schema :
  ∃ tr st, steps (step demo_discovery) (demo_New 1) tr st ∧
    Event (Updated widget_crd widget_crd) ∈ tr ∧ purges st = [] ∧ api st = 2%nat ∧
    callers st !! 1%nat = Some (Returned widget (Some 1%nat, None)) ∧
    demo_discovery (api st) widget = (Some 2%nat, None).
Proof.
  set (tr := resolve 0 ++ [ApiChanges 2%nat; Event (Updated widget_crd widget_crd);
                           Purges; Purges; Call 1 widget; CallerMoves 1]).
  exists tr, (after 1 tr). split; [apply after_steps; by vm_compute|].
  split; [|by vm_compute]. unfold tr. simpl. do 6 right. left.
Qed.

Lemma purge_freshness_witness :
  answered_during demo_discovery
    (after 1 (resolve 0 ++ [ApiChanges 2%nat; Event (Added widget_object); Purges]))
    (resolve 1)
    (after 1 (resolve 0 ++ [ApiChanges 2%nat; Event (Added widget_object); Purges] ++ resolve 1))
    widget (Some 2%nat, None).
Proof.
  apply (purge_freshness demo_discovery 2 1%nat
           (resolve 0 ++ [ApiChanges 2%nat; Event (Added widget_object)])
           (after 1 (resolve 0 ++ [ApiChanges 2%nat; Event (Added widget_object)]))
           (mkGK "example.com" "Widget") [] _ (resolve 1) _ 1).
  - apply after_steps. by vm_compute.
  - by vm_compute.
  - by vm_compute.
  - done.
  - apply run_reaches. by vm_compute.
  - by vm_compute.
  - by vm_compute.
Defined.

(** A discovery error is answered again after the schema has appeared. *)
Lemma cached_answer_stable_witness :
  let st := after 0 (resolve 0) in
  let st' := after 0 (resolve 0 ++ [ApiChanges 3%nat; Call 1 widget; CallerMoves 1]) in
  callers st' !! 1%nat = Some (Returned widget (None, Some (plainError "schema not found"))) ∧
  (None, Some (plainError "schema not found")) = (@None nat, Some (plainError "schema not found")).
Proof.
  split; [by vm_compute|].
  apply (cached_answer_stable demo_discovery widget (None, Some (plainError "schema not found"))
           (after 0 (resolve 0)) [ApiChanges 3%nat; Call 1 widget; CallerMoves 1]
           (after 0 (resolve 0 ++ [ApiChanges 3%nat; Call 1 widget; CallerMoves 1])) 1).
  - split; [by vm_compute|]. intros [|[|j]] c; vm_compute; by intros [= <-].
  - split; [constructor|]. intros e He. repeat (apply elem_of_cons in He as [He|He]; [done|]).
    by apply not_elem_of_nil in He.
  - apply run_reaches. by vm_compute.
  - by vm_compute.
  - by vm_compute.
Defined.

Lemma resolver_progress_witness :
  (is_Some (purge_move contended) ∨
   ∃ j, writer contended = Some j ∧ is_Some (caller_move demo_discovery contended j)) ∧
  (is_Some (caller_move demo_discovery contended 1) ∨
   ∃ j, j ≠ 1%nat ∧ writer contended = Some j ∧ is_Some (caller_move demo_discovery contended j)).
Proof.
  destruct (resolver_progress demo_discovery 2 1%nat
    [Call 0 widget; CallerMoves 0; CallerMoves 0; Call 1 widget; Event (Added widget_object)] contended)
    as (Hc & Hp & _).
  - apply after_steps. by vm_compute.
  - split; [by apply Hp; vm_compute|]. by apply (Hc 1%nat (Looking widget)); vm_compute.
Defined.
End SchemaResolver.
