(* ===== verification/TransformedClient.v ===== *)
(** * The transforming client ([pkg/controller/transformed_client.go])

    A typed client of one resource made from a client of another, by converting
    what goes in and what comes out.  Everything is generic in the two clients
    and the two conversions. *)
From S2P Require Import Prelude GoStrings GoErrors Admission.

(** [metav1.ListMeta] and a typed list: [Items] is a slice, [None] if nil. *)
Record ListMeta := {
  ListSelfLink : string;
  ListResourceVersion : string;
  ListContinue : string;
  RemainingItemCount : option Z;
}.
Definition zero_ListMeta : ListMeta :=
  {| ListSelfLink := ""; ListResourceVersion := ""; ListContinue := ""; RemainingItemCount := None |}.

Record TypedList (A : Type) := {
  list_kind : string;
  list_apiVersion : string;
  list_meta : ListMeta;
  Items : option (list A);
}.
Arguments list_kind {A}. Arguments list_apiVersion {A}.
Arguments list_meta {A}. Arguments Items {A}.

(** [watch.Event]: its object is an interface value: nil, a pointer to the
    resource or something else (a bookmark, a status). *)
Inductive watch_object (R Other : Type) :=
  | NilObject
  | Resource (r : option R)
  | OtherObject (o : Other).
Arguments NilObject {R Other}. Arguments Resource {R Other}. Arguments OtherObject {R Other}.

Record Event (R Other : Type) := { event_type : string; event_object : watch_object R Other }.
Arguments event_type {R Other}. Arguments event_object {R Other}.

(** ** [ClientInterface]

    Options are passed through.  [UpdateStatus] is a method of some clients only
    ([ClientInterfaceWithStatus]). *)
Record ClientInterface (W Options Watcher R : Type) := {
  Create : Context → option R → Options → GO W (returns error R);
  Update : Context → option R → Options → GO W (returns error R);
  UpdateStatus : option (Context → option R → Options → GO W (returns error R));
  Delete : Context → string → Options → GO W (option error);
  DeleteCollection : Context → Options → Options → GO W (option error);
  Get : Context → string → Options → GO W (returns error R);
  ListObjects : Context → Options → GO W (returns error (TypedList R));
  Watch : Context → Options → GO W (returns error Watcher);
  Patch : Context → string → string → string → Options → list string → GO W (returns error R);
}.
Arguments Create {W Options Watcher R}. Arguments Update {W Options Watcher R}.
Arguments UpdateStatus {W Options Watcher R}. Arguments Delete {W Options Watcher R}.
Arguments DeleteCollection {W Options Watcher R}. Arguments Get {W Options Watcher R}.
Arguments ListObjects {W Options Watcher R}. Arguments Watch {W Options Watcher R}.
Arguments Patch {W Options Watcher R}.

Definition nil_dereference : string := "invalid memory address or nil pointer dereference".

Module Transformed.
Section client.
Context {W Options Watcher T R : Type}.
Variable ReplacementClient : ClientInterface W Options Watcher R.
(** The conversions, on pointers. *)
Variable To : option R → returns error T.
Variable From : option T → returns error R.

(** The end of every method that returns an object: fail with a nil pointer, or
    convert. *)
Definition convert_result (r : returns error R) : GO W (returns error T) :=
  match r with
  | (_, Some err) => mret (None, Some err)
  | (replacementValue, None) =>
      match To replacementValue with
      | (_, Some err) => mret (None, Some err)
      | (convertedResult, None) => mret (convertedResult, None)
      end
  end.

(** [Create], [Update] and [UpdateStatus] differ in the method they call. *)
Definition convert_and (send : option R → GO W (returns error R)) (object : option T)
    : GO W (returns error T) :=
  match From object with
  | (_, Some err) => mret (None, Some err)
  | (converted, None) => send converted ≫= convert_result
  end.

Definition Transformed_Create ctx (object : option T) opts : GO W (returns error T) :=
  convert_and (λ o, Create ReplacementClient ctx o opts) object.
Definition Transformed_Update ctx (object : option T) opts : GO W (returns error T) :=
  convert_and (λ o, Update ReplacementClient ctx o opts) object.
(** [c.ReplacementClient.(ClientInterfaceWithStatus).UpdateStatus]: the type
    assertion panics, after the conversion, when there is no such method. *)
Definition assert_UpdateStatus ctx opts (o : option R) : GO W (returns error R) :=
  match UpdateStatus ReplacementClient with
  | Some updateStatus => updateStatus ctx o opts
  | None => go_panic "interface conversion: missing method UpdateStatus"
  end.
Definition Transformed_UpdateStatus ctx (object : option T) opts : GO W (returns error T) :=
  convert_and (assert_UpdateStatus ctx opts) object.

Definition Transformed_Delete ctx name opts : GO W (option error) :=
  Delete ReplacementClient ctx name opts.
Definition Transformed_DeleteCollection ctx opts listOpts : GO W (option error) :=
  DeleteCollection ReplacementClient ctx opts listOpts.

Definition Transformed_Get ctx name opts : GO W (returns error T) :=
  Get ReplacementClient ctx name opts ≫= convert_result.

(** [getItems]; its argument is a pointer. *)
Definition getItems (listObj : option (TypedList R)) : GO W (list R) :=
  match listObj with
  | None => go_panic "reflect: call of reflect.Value.FieldByName on zero Value"
  | Some l => mret (default [] (Items l))
  end.

(** [listWithItems]: the zero list with its items set. *)
Definition listWithItems (items : list T) : TypedList T :=
  {| list_kind := ""; list_apiVersion := ""; list_meta := zero_ListMeta; Items := Some items |}.

(** The loop of [List]: convert the items in order, stop at the first error;
    dereferencing a nil result panics. *)
Fixpoint convert_items (items : list R) : GO W (error + list T) :=
  match items with
  | [] => mret (inr [])
  | v :: items =>
      match To (Some v) with
      | (_, Some err) => mret (inl err)
      | (None, None) => go_panic nil_dereference
      | (Some converted, None) =>
          rest ← convert_items items;
          mret (match rest with inl err => inl err | inr l => inr (converted :: l) end)
      end
  end.

Definition Transformed_List ctx opts : GO W (returns error (TypedList T)) :=
  r ← ListObjects ReplacementClient ctx opts;
  match r with
  | (_, Some err) => mret (None, Some err)
  | (value, None) =>
      items ← getItems value;
      converted ← convert_items items;
      mret (match converted with
            | inl err => (None, Some err)
            | inr newItems => (Some (listWithItems newItems), None)
            end)
  end.

(** The filter of [Watch]: the event to pass on, if any; [in.Object.(any)]
    panics on a nil object. *)
Definition watch_filter {Other} (event : Event R Other) : outcome (option (Event T Other)) :=
  match event_object event with
  | NilObject => Panic "interface conversion: interface is nil, not interface {}"
  | Resource asR =>
      match To asR with
      | (_, Some err) => Value None
      | (converted, None) =>
          Value (Some {| event_type := event_type event; event_object := Resource converted |})
      end
  | OtherObject o =>
      Value (Some {| event_type := event_type event; event_object := OtherObject o |})
  end.

(** [watch.Filter]: the upstream watch, read by a new goroutine through
    [watch_filter] (see [loop_move]). *)
Record filteredWatch := Filter { incoming : option Watcher }.

Definition Transformed_Watch ctx opts : GO W (returns error filteredWatch) :=
  r ← Watch ReplacementClient ctx opts;
  match r with
  | (_, Some err) => mret (None, Some err)
  | (watcher, None) => mret (Some (Filter watcher), None)
  end.

Definition Transformed_Patch (ctx : Context) (name pt data : string) (opts : Options)
    (subresources : list string) : GO W (returns error T) :=
  go_panic "transform patch unsupported".
Definition Transformed_Apply {TApplyConfiguration} (ctx : Context)
    (object : option TApplyConfiguration) (opts : Options) : GO W (returns error T) :=
  go_panic "transform apply unsupported".
Definition Transformed_ApplyStatus {TApplyConfiguration} (ctx : Context)
    (object : option TApplyConfiguration) (opts : Options) : GO W (returns error T) :=
  go_panic "transform applystatus unsupported".

(** The transformed client as a client. *)
Definition TransformedClient : ClientInterface W Options filteredWatch T :=
  {| Create := Transformed_Create; Update := Transformed_Update;
     UpdateStatus := Some Transformed_UpdateStatus; Delete := Transformed_Delete;
     DeleteCollection := Transformed_DeleteCollection; Get := Transformed_Get;
     ListObjects := Transformed_List; Watch := Transformed_Watch; Patch := Transformed_Patch |}.

(** ** Lemmas *)
Lemma wp_convert_result r w (Q : returns error T → W → Prop) :
  match r with
  | (_, Some err) => Q (None, Some err) w
  | (v, None) => match To v with
                 | (_, Some err) => Q (None, Some err) w
                 | (t, None) => Q (t, None) w
                 end
  end → wp (convert_result r) w Q.
Proof.
  unfold convert_result. destruct r as [v [err|]]; [by apply wp_ret|].
  destruct (To v) as [t [err|]]; by apply wp_ret.
Qed.

(** The branches of a method that sends an object, whatever it calls. *)
Lemma convert_and_branches send object w :
  convert_and send object w =
  match From object with
  | (_, Some err) => (Value (None, Some err), w)
  | (converted, None) =>
      match send converted w with
      | (Panic msg, w') => (Panic msg, w')
      | (Value (_, Some err), w') => (Value (None, Some err), w')
      | (Value (replacementValue, None), w') =>
          (Value (match To replacementValue with
                  | (_, Some err) => (None, Some err)
                  | (convertedResult, None) => (convertedResult, None)
                  end), w')
      end
  end.
Proof.
  unfold convert_and. destruct (From object) as [r [err|]]; [done|].
  unfold mbind, GO_bind, convert_result. destruct (send r w) as [[[v [err|]]|msg] w']; [done| |done].
  by destruct (To v) as [t [err|]].
Qed.
End client.

(** ** Branches *)
Section branches.
Context {W Options Watcher T R : Type}.
Variable cl : ClientInterface W Options Watcher R.
Variable To : option R → returns error T.
Variable From : option T → returns error R.

(** The methods that send an object, on every branch: when the object does
    not convert, nothing is sent and nothing changes; when the replacement
    fails, its error is returned with a nil object; when the answer does not
    convert, the error is returned although the replacement has acted. *)
Theorem Transformed_write_branches ctx object opts w :
  let branches (send : option R → GO W (returns error R)) (result : outcome (returns error T) * W) :=
    match From object with
    | (_, Some err) => result = (Value (None, Some err), w)
    | (converted, None) =>
        match send converted w with
        | (Panic msg, w') => result = (Panic msg, w')
        | (Value (_, Some err), w') => result = (Value (None, Some err), w')
        | (Value (replacementValue, None), w') =>
            result.2 = w' ∧
            match To replacementValue with
            | (_, Some err) => result.1 = Value (None, Some err)
            | (convertedResult, None) => result.1 = Value (convertedResult, None)
            end
        end
    end in
  let tc := TransformedClient cl To From in
  branches (λ o, Create cl ctx o opts) (Create tc ctx object opts w) ∧
  branches (λ o, Update cl ctx o opts) (Update tc ctx object opts w) ∧
  branches (assert_UpdateStatus cl ctx opts) (Transformed_UpdateStatus cl To From ctx object opts w).
Proof.
  intros branches tc.
  assert (Hall : ∀ send, branches send (convert_and To From send object w)).
  { intros send. unfold branches. rewrite convert_and_branches.
    destruct (From object) as [r [err|]]; [done|].
    destruct (send r w) as [[[v [err|]]|msg] w']; [done| |done].
    by destruct (To v) as [t [err|]]. }
  split_and!; apply Hall.
Qed.

(** A list loses its metadata: whatever resource version and continue token
    the replacement's list carries, the transformed list carries none; its
    items are the converted items, in order. *)
Theorem Transformed_List_drops_metadata ctx opts w l w' items :
  ListObjects cl ctx opts w = (Value (Some l, None), w') →
  Forall2 (λ r t, To (Some r) = (Some t, None)) (default [] (Items l)) items →
  ∃ l', ListObjects (TransformedClient cl To From) ctx opts w = (Value (Some l', None), w') ∧
        Items l' = Some items ∧ list_meta l' = zero_ListMeta.
Proof.
  intros Hl Hall. exists (listWithItems items). split; [|done]. simpl. unfold Transformed_List.
  rewrite (go_bind_value _ _ _ _ _ Hl).
  enough (convert_items To (default [] (Items l)) w' = (Value (inr items), w')) as Hc.
  { unfold mbind, GO_bind. simpl. by rewrite Hc. }
  clear Hl. induction Hall as [|r t rs ts Hr Hrest IH]; [done|]. simpl. rewrite Hr.
  by rewrite (go_bind_value _ _ _ _ _ IH).
Qed.
End branches.

(** ** The watch

    [filteredWatch.loop] between the upstream watch and the consumer: waiting
    for an event, blocked sending one on the unbuffered result channel, finished
    (upstream closed, result channel closed), or dead (the filter panicked, and
    the program with it). *)
Section watch.
Context {T R Other : Type}.
Variable To : option R → returns error T.

Inductive loop_pc := Receiving | Sending (e : Event T Other) | Closed | Dead.

Record watch_state := {
  upcoming : list (Event R Other);     (** sent by upstream, not yet received *)
  upstream_closed : bool;
  loop : loop_pc;
  delivered : list (Event T Other);    (** received by the consumer *)
}.

Definition watch_start : watch_state :=
  {| upcoming := []; upstream_closed := false; loop := Receiving; delivered := [] |}.

Definition loop_move (st : watch_state) : option watch_state :=
  match loop st, upcoming st with
  | Receiving, event :: rest =>
      Some {| upcoming := rest; upstream_closed := upstream_closed st;
              loop := match watch_filter To event with
                      | Value (Some filtered) => Sending filtered
                      | Value None => Receiving
                      | Panic _ => Dead
                      end;
              delivered := delivered st |}
  | Receiving, [] =>
      if upstream_closed st
      then Some {| upcoming := []; upstream_closed := true; loop := Closed;
                   delivered := delivered st |}
      else None
  | _, _ => None
  end.

Inductive watch_label := Arrives (e : Event R Other) | UpstreamCloses | LoopMoves | ConsumerReceives.

Inductive watch_step : watch_state → watch_label → watch_state → Prop :=
  | step_arrives st e :
      upstream_closed st = false →
      watch_step st (Arrives e)
        {| upcoming := upcoming st ++ [e]; upstream_closed := false; loop := loop st;
           delivered := delivered st |}
  | step_closes st :
      watch_step st UpstreamCloses
        {| upcoming := upcoming st; upstream_closed := true; loop := loop st;
           delivered := delivered st |}
  | step_loop st st' : loop_move st = Some st' → watch_step st LoopMoves st'
  | step_consume st e :
      loop st = Sending e →
      watch_step st ConsumerReceives
        {| upcoming := upcoming st; upstream_closed := upstream_closed st; loop := Receiving;
           delivered := delivered st ++ [e] |}.

Definition arrived (tr : list watch_label) : list (Event R Other) :=
  omap (λ l, match l with Arrives e => Some e | _ => None end) tr.

Definition in_hand (st : watch_state) : list (Event T Other) :=
  match loop st with Sending e => [e] | _ => [] end.

(** What the consumer should see of an event: one about an object of the
    replacement type with the same type and the converted object; nothing of an
    object that does not convert; any other object as it is. *)
Inductive converts : Event R Other → option (Event T Other) → Prop :=
  | converts_object ty r t : To r = (t, None) →
      converts {| event_type := ty; event_object := Resource r |}
        (Some {| event_type := ty; event_object := Resource t |})
  | converts_not ty r t err : To r = (t, Some err) →
      converts {| event_type := ty; event_object := Resource r |} None
  | converts_other ty o :
      converts {| event_type := ty; event_object := OtherObject o |}
        (Some {| event_type := ty; event_object := OtherObject o |}).

Lemma watch_filter_converts e :
  match watch_filter To e with
  | Value out => converts e out
  | Panic _ => event_object e = NilObject
  end.
Proof.
  destruct e as [ty [|r|o]]; unfold watch_filter; simpl; [done| |constructor].
  destruct (To r) as [t [err|]] eqn:Hr; by econstructor.
Qed.

(** The events taken from upstream are accounted for: [taken] were filtered to
    [outs], and in the end there may be a nil object, on which the loop dies. *)
Definition watch_delivers (tr : list watch_label) (st : watch_state) : Prop :=
  ∃ taken outs nils, arrived tr = taken ++ nils ++ upcoming st ∧
    Forall2 converts taken outs ∧ omap id outs = delivered st ++ in_hand st ∧
    (loop st = Closed → upcoming st = [] ∧ upstream_closed st = true) ∧
    match loop st with
    | Dead => ∃ e, nils = [e] ∧ event_object e = NilObject
    | _ => nils = []
    end.

Lemma loop_move_delivers tr st st' :
  watch_delivers tr st → loop_move st = Some st' → watch_delivers tr st'.
Proof.
  intros (taken & outs & nils & Harr & Hconv & Hdel & Hcl & Hdead) Hmv.
  unfold loop_move in Hmv. destruct (loop st) eqn:Hl; try done. subst nils.
  unfold in_hand in Hdel. rewrite Hl, app_nil_r in Hdel.
  destruct (upcoming st) as [|e rest] eqn:Hup.
  - destruct (upstream_closed st); [|done]. injection Hmv as <-. exists taken, outs, []. simpl.
    split_and!; [done|done|by rewrite app_nil_r|done|done].
  - injection Hmv as <-. pose proof (watch_filter_converts e) as He. unfold watch_delivers, in_hand. simpl.
    destruct (watch_filter To e) as [out|msg].
    + exists (taken ++ [e]), (outs ++ [out]), []. rewrite omap_app, Hdel, Harr. simpl.
      split_and!; [by rewrite <- app_assoc|by apply Forall2_app; [|constructor]| |by destruct out|by destruct out].
      by destruct out.
    + exists taken, outs, [e]. split_and!; [done|done|by rewrite app_nil_r|done|by exists e].
Qed.

(** C25: A watch delivers the converted events in order and exactly once: at any
    moment the events delivered, with the one in the loop's hand, are those that the
    events taken from upstream convert to, each with its type and its converted
    object, an object of another type as it is; only events whose object does not
    convert are left out.  When the result channel is closed, nothing that arrived is
    left.  The loop dies on an event with a nil object, and only then; it delivers
    nothing of it. *)
Theorem Transformed_Watch_delivers tr st :
  steps watch_step watch_start tr st →
  ∃ taken outs nils, arrived tr = taken ++ nils ++ upcoming st ∧
    Forall2 converts taken outs ∧ omap id outs = delivered st ++ in_hand st ∧
    (loop st = Closed → upcoming st = [] ∧ upstream_closed st = true) ∧
    match loop st with
    | Dead => ∃ e, nils = [e] ∧ event_object e = NilObject
    | _ => nils = []
    end.
Proof.
  apply (steps_trace_invariant watch_step watch_delivers).
  - intros tr1 s1 l s2 Hinv Hstep.
    assert (Hsnoc : ∀ l, arrived (tr1 ++ [l]) = arrived tr1 ++ arrived [l]) by
      (intros; apply omap_app).
    unfold watch_delivers in *. rewrite Hsnoc. destruct Hstep as [s e Hc|s|s s' Hmv|s e Hl]; simpl.
    3: { rewrite app_nil_r. by eapply loop_move_delivers. }
    all: destruct Hinv as (taken & outs & nils & Harr & Hconv & Hdel & Hcl & Hdead); rewrite Harr;
      exists taken, outs, nils.
    + split_and!; [by rewrite <- !app_assoc|done|done| |done]. intros Hl. destruct (Hcl Hl). congruence.
    + split_and!; [by rewrite app_nil_r|done|done| |done]. intros Hl. by destruct (Hcl Hl).
    + unfold in_hand in *. rewrite Hl in Hdel, Hdead. simpl.
      by split_and!; [rewrite app_nil_r|done|rewrite app_nil_r| |].
  - exists [], [], []. by split_and!; [|constructor| | |].
Qed.
End watch.

(** ** What a typed client promises

    [abs] is the collection by name that a client reads and writes, of what
    [view] shows of its objects (a client need not show every part of an object
    by every method); [admitted r r']: the server may store [r'] for a submitted
    [r].  The objects a client returns are [good].  No method panics; a method
    that fails changes nothing. *)
Record client_spec {W Options Watcher R V} (cl : ClientInterface W Options Watcher R)
    (ok : W → Prop) (view : R → V) (abs : W → gmap string V) (key : R → string)
    (good : R → Prop) (admitted : R → R → Prop) : Prop := {
  spec_Get ctx name opts w :
    ok w → wp (Get cl ctx name opts) w (λ '(v, e) w',
      ok w' ∧ abs w' = abs w ∧
      match e with
      | None => ∃ r, v = Some r ∧ good r ∧ abs w !! name = Some (view r)
      | Some err => IsNotFound (Some err) = true → abs w !! name = None
      end);
  spec_Create ctx r opts w :
    ok w → good r → wp (Create cl ctx (Some r) opts) w (λ '(v, e) w',
      ok w' ∧
      match e with
      | None => ∃ r', v = Some r' ∧ good r' ∧ admitted r r' ∧ abs w !! key r' = None ∧
                      abs w' = <[key r' := view r']> (abs w)
      | Some err => abs w' = abs w
      end);
  spec_Update ctx r opts w :
    ok w → good r → wp (Update cl ctx (Some r) opts) w (λ '(v, e) w',
      ok w' ∧
      match e with
      | None => ∃ r', v = Some r' ∧ good r' ∧ admitted r r' ∧ is_Some (abs w !! key r') ∧
                      abs w' = <[key r' := view r']> (abs w)
      | Some err => abs w' = abs w
      end);
  spec_Delete ctx name opts w :
    ok w → wp (Delete cl ctx name opts) w (λ e w',
      ok w' ∧
      match e with
      | None => is_Some (abs w !! name) ∧ abs w' = delete name (abs w)
      | Some err => abs w' = abs w
      end);
  spec_List ctx opts w :
    ok w → wp (ListObjects cl ctx opts) w (λ '(v, e) w',
      ok w' ∧ abs w' = abs w ∧
      match e with
      | None => ∃ l, v = Some l ∧ Forall good (default [] (Items l)) ∧
                     view <$> default [] (Items l) ≡ₚ (map_to_list (abs w)).*2
      | Some err => True
      end);
}.

(** The contract depends on which worlds are meant, not on how that is said. *)
Lemma client_spec_iff {W Options Watcher R V} (cl : ClientInterface W Options Watcher R)
    (ok ok' : W → Prop) (view : R → V) abs key good admitted :
  (∀ w, ok w ↔ ok' w) →
  client_spec cl ok view abs key good admitted → client_spec cl ok' view abs key good admitted.
Proof.
  intros Hok [HG HC HU HD HL].
  split; intros; (eapply wp_mono; [first [apply HG|apply HC|apply HU|apply HD|apply HL]; by try apply Hok|]);
    intros x w'; destruct x; simpl; rewrite <- (Hok w'); done.
Qed.

Section refinement.
Context {W Options Watcher T R VT VR : Type}.
Variable cl : ClientInterface W Options Watcher R.
Variable To : option R → returns error T.
Variable From : option T → returns error R.
(** Conversions that succeed on good objects, keep their names and can be seen
    on the views. *)
Variable to : R → T.
Variable from : T → R.
Variable keyR : R → string.
Variable keyT : T → string.
Variable goodR : R → Prop.
Variable goodT : T → Prop.
Variable viewR : R → VR.
Variable viewT : T → VT.
Variable view_to : VR → VT.
Hypothesis To_good : ∀ r, goodR r → To (Some r) = (Some (to r), None).
Hypothesis From_good : ∀ t, goodT t → From (Some t) = (Some (from t), None).
Hypothesis to_good : ∀ r, goodR r → goodT (to r).
Hypothesis from_good : ∀ t, goodT t → goodR (from t).
Hypothesis to_key : ∀ r, goodR r → keyT (to r) = keyR r.
Hypothesis to_view : ∀ r, goodR r → viewT (to r) = view_to (viewR r).

Variable ok : W → Prop.
Variable abs : W → gmap string VR.
Variable admitted : R → R → Prop.

(** The collection and the admission of the transformed client. *)
Definition transformed_abs (w : W) : gmap string VT := view_to <$> abs w.
Definition transformed_admitted (t t' : T) : Prop := ∃ r', admitted (from t) r' ∧ t' = to r'.

Lemma wp_convert_items items w (Q : error + list T → W → Prop) :
  Forall goodR items → Q (inr (to <$> items)) w → wp (convert_items To items) w Q.
Proof.
  intros Hall. revert Q. induction Hall as [|v items Hv Hall IH]; intros Q HQ; simpl;
    [by apply wp_ret|].
  rewrite To_good by done. apply wp_bind, IH, wp_ret. done.
Qed.

Lemma wp_convert_and send t w (Q : returns error T → W → Prop) :
  goodT t →
  wp (send (Some (from t))) w (λ '(v, e) w',
    match e, v with
    | Some err, _ => Q (None, Some err) w'
    | None, Some r => goodR r ∧ Q (Some (to r), None) w'
    | None, None => False
    end) →
  wp (convert_and To From send (Some t)) w Q.
Proof.
  intros Ht Hsend. unfold convert_and. rewrite From_good by done. apply wp_bind.
  eapply wp_mono; [exact Hsend|]. intros [v e] w' Hv. apply wp_convert_result.
  destruct e as [err|]; [done|]. destruct v as [r|]; [|done]. destruct Hv as [Hr HQ].
  by rewrite To_good.
Qed.

Lemma transformed_same w w' : abs w' = abs w → transformed_abs w' = transformed_abs w.
Proof. unfold transformed_abs. by intros ->. Qed.

(** The end of a write that has stored [r']. *)
Lemma transformed_write t r' w w' :
  goodR r' → admitted (from t) r' → abs w' = <[keyR r' := viewR r']> (abs w) →
  ∃ t', Some (to r') = Some t' ∧ goodT t' ∧ transformed_admitted t t' ∧
    transformed_abs w !! keyT t' = view_to <$> abs w !! keyR r' ∧
    transformed_abs w' = <[keyT t' := viewT t']> (transformed_abs w).
Proof.
  intros Hg Ha Hw'. exists (to r'). unfold transformed_abs.
  rewrite Hw', to_key, lookup_fmap, fmap_insert, to_view by done.
  split_and!; [done|by apply to_good| |done..]. by exists r'.
Qed.

Lemma transformed_client_spec :
  client_spec cl ok viewR abs keyR goodR admitted →
  client_spec (TransformedClient cl To From) ok viewT transformed_abs keyT goodT transformed_admitted.
Proof.
  intros [HG HC HU HD HL]. split; simpl.
  - intros ctx name opts w Hw. apply wp_bind. eapply wp_mono; [by apply HG|].
    intros [v e] w' (Hw' & Habs & Hv). apply wp_convert_result.
    apply transformed_same in Habs as Ht. destruct e as [err|].
    + split_and!; [done|done|]. intros Hnf. unfold transformed_abs. by rewrite lookup_fmap, Hv.
    + destruct Hv as (r & -> & Hr & Hl). rewrite To_good by done. split_and!; [done|done|].
      exists (to r). split_and!; [done|by apply to_good|]. unfold transformed_abs.
      by rewrite lookup_fmap, Hl, to_view.
  - intros ctx t opts w Hw Ht. apply wp_convert_and; [done|].
    eapply wp_mono; [by apply HC; [|apply from_good]|].
    intros [v e] w' [Hw' Hv]. destruct e as [err|]; [by split; [|apply transformed_same]|].
    destruct Hv as (r' & -> & Hr' & Hadm & Hnone & Habs). split; [done|]. split; [done|].
    destruct (transformed_write t r' w w' Hr' Hadm Habs) as (t' & Heq & ? & ? & Hl & ?).
    exists t'. rewrite Hl, Hnone. by rewrite Heq.
  - intros ctx t opts w Hw Ht. apply wp_convert_and; [done|].
    eapply wp_mono; [by apply HU; [|apply from_good]|].
    intros [v e] w' [Hw' Hv]. destruct e as [err|]; [by split; [|apply transformed_same]|].
    destruct Hv as (r' & -> & Hr' & Hadm & Hsome & Habs). split; [done|]. split; [done|].
    destruct (transformed_write t r' w w' Hr' Hadm Habs) as (t' & Heq & ? & ? & Hl & ?).
    exists t'. rewrite Hl, fmap_is_Some. by rewrite Heq.
  - intros ctx name opts w Hw. eapply wp_mono; [by apply HD|].
    intros e w' [Hw' He]. split; [done|]. destruct e as [err|]; [by apply transformed_same|].
    unfold transformed_abs. destruct He as [Hsome ->]. by rewrite lookup_fmap, fmap_is_Some, fmap_delete.
  - intros ctx opts w Hw. apply wp_bind. eapply wp_mono; [by apply HL|].
    intros [v e] w' (Hw' & Habs & Hv). apply transformed_same in Habs as Ht.
    destruct e as [err|]; [by apply wp_ret|]. destruct Hv as (l & -> & Hall & Hl).
    apply wp_bind, wp_ret, wp_bind, wp_convert_items; [done|].
    apply wp_ret. split_and!; [done|done|]. eexists. split; [done|]. simpl. split.
    + apply Forall_fmap. by eapply Forall_impl; [|exact to_good].
    + transitivity (view_to <$> (viewR <$> default [] (Items l))).
      * rewrite <- !list_fmap_compose. apply reflexive_eq, Forall_fmap_ext_1.
        by eapply Forall_impl.
      * rewrite Hl. unfold transformed_abs. by rewrite map_to_list_fmap, <- !list_fmap_compose.
Qed.

(** C22: The transformed client keeps the contract of a typed client: if the
    replacement client reads and writes a collection of its objects, then the
    transformed client reads and writes the collection of the converted objects
    (get, create, update, delete and list, failures included), for conversions
    that succeed on well-formed objects, keep names and agree with what the two
    clients show of their objects. *)
Theorem Transformed_refines :
  client_spec cl ok viewR abs keyR goodR admitted →
  client_spec (TransformedClient cl To From) ok viewT transformed_abs keyT goodT transformed_admitted.
Proof. exact transformed_client_spec. Qed.
End refinement.

(** ** A concrete client: a collection in memory

    [continue] is the continue token that its lists carry. *)
Section memory.
Context {R : Type} (key : R → string) (continue : string).
Abbreviation memory := (gmap string R).

Definition not_found : error := NewNotFound {| grGroup := ""; grResource := "things" |} "x".
Definition conflict : error := plainError "conflict".

Definition mem_Get (name : string) (w : memory) : outcome (returns error R) * memory :=
  (Value (match w !! name with Some r => (Some r, None) | None => (None, Some not_found) end), w).
Definition mem_write (must_exist : bool) (o : option R) (w : memory)
    : outcome (returns error R) * memory :=
  match o with
  | None => (Value (None, Some conflict), w)
  | Some r => if bool_decide (is_Some (w !! key r)) then
                if must_exist then (Value (Some r, None), <[key r := r]> w)
                else (Value (None, Some conflict), w)
              else if must_exist then (Value (None, Some not_found), w)
                   else (Value (Some r, None), <[key r := r]> w)
  end.
Definition mem_Delete (name : string) (w : memory) : outcome (option error) * memory :=
  if bool_decide (is_Some (w !! name)) then (Value None, delete name w)
  else (Value (Some not_found), w).
Definition mem_page (items : list R) : TypedList R :=
  {| list_kind := "ThingList"; list_apiVersion := "v1";
     list_meta := {| ListSelfLink := ""; ListResourceVersion := "7"; ListContinue := continue;
                     RemainingItemCount := None |};
     Items := Some items |}.
Definition mem_List (w : memory) : outcome (returns error (TypedList R)) * memory :=
  (Value (Some (mem_page (map_to_list w).*2), None), w).

Definition mem_client : ClientInterface memory unit unit R :=
  {| Create := λ _ o _, mem_write false o; Update := λ _ o _, mem_write true o;
     UpdateStatus := Some (λ _ o _, mem_write true o); Delete := λ _ name _, mem_Delete name;
     DeleteCollection := λ _ _ _ w, (Value None, ∅); Get := λ _ name _, mem_Get name;
     ListObjects := λ _ _, mem_List; Watch := λ _ _ w, (Value (Some (), None), w);
     Patch := λ _ _ _ _ _ _, go_panic "unsupported" |}.

Lemma mem_client_spec (good : R → Prop) :
  client_spec mem_client (map_Forall (λ _, good)) id id key good (λ r r', r' = r).
Proof.
  assert (Hins : ∀ r w, good r → map_Forall (λ _, good) w →
                        map_Forall (λ _ : string, good) (<[key r := r]> w))
    by (intros; by apply map_Forall_insert_2).
  split; simpl.
  - intros _ name _ w Hw. unfold wp, mem_Get. eexists _, _. split; [done|]. simpl.
    destruct (w !! name) as [r|] eqn:Hn; (split_and!; [done|done|]); [|done].
    exists r. split_and!; [done|by apply (Hw name)|done].
  - intros _ r _ w Hw Hr. unfold wp, mem_write. case_bool_decide as Hs.
    + by eexists _, _.
    + eexists _, _. split; [done|]. split; [by apply Hins|]. exists r.
      split_and!; [done|done|done| |done]. by apply eq_None_not_Some.
  - intros _ r _ w Hw Hr. unfold wp, mem_write. case_bool_decide as Hs.
    + eexists _, _. split; [done|]. split; [by apply Hins|]. by exists r.
    + by eexists _, _.
  - intros _ name _ w Hw. unfold wp, mem_Delete. case_bool_decide as Hs; [|by eexists _, _].
    eexists _, _. split; [done|]. split; [by apply map_Forall_delete|done].
  - intros _ _ w Hw. eexists _, _. split; [done|]. split_and!; [done|done|]. eexists. split; [done|].
    simpl. split; [|by rewrite list_fmap_id]. apply Forall_fmap, Forall_forall.
    intros [k r] Hin%elem_of_map_to_list. by apply (Hw k).
Qed.
End memory.

(** A client of a part of a larger world. *)
Section part.
Context {V W : Type} (get : V → W) (put : W → V → V).
Hypothesis get_put : ∀ w v, get (put w v) = w.

Definition part {A} (m : GO W A) : GO V A := λ v, let '(o, w) := m (get v) in (o, put w v).

Definition part_client {Options Watcher R} (cl : ClientInterface W Options Watcher R)
    : ClientInterface V Options Watcher R :=
  {| Create := λ ctx o opts, part (Create cl ctx o opts);
     Update := λ ctx o opts, part (Update cl ctx o opts);
     UpdateStatus := (λ update ctx o opts, part (update ctx o opts)) <$> UpdateStatus cl;
     Delete := λ ctx name opts, part (Delete cl ctx name opts);
     DeleteCollection := λ ctx o1 o2, part (DeleteCollection cl ctx o1 o2);
     Get := λ ctx name opts, part (Get cl ctx name opts);
     ListObjects := λ ctx opts, part (ListObjects cl ctx opts);
     Watch := λ ctx opts, part (Watch cl ctx opts);
     Patch := λ ctx name pt data opts sub, part (Patch cl ctx name pt data opts sub) |}.

Lemma wp_part {A} (m : GO W A) v (Q : A → W → Prop) (P : A → V → Prop) :
  wp m (get v) Q → (∀ a v', Q a (get v') → P a v') → wp (part m) v P.
Proof.
  intros (a & w & Hm & HQ) HP. exists a, (put w v). split.
  - unfold part. by rewrite Hm.
  - apply HP. by rewrite get_put.
Qed.

Lemma part_client_spec {Options Watcher R X} (cl : ClientInterface W Options Watcher R)
    ok (view : R → X) abs key good admitted :
  client_spec cl ok view abs key good admitted →
  client_spec (part_client cl) (λ v, ok (get v)) view (λ v, abs (get v)) key good admitted.
Proof.
  intros [HG HC HU HD HL]. split; simpl; intros.
  - eapply wp_part; [by apply HG|by intros []].
  - eapply wp_part; [by apply HC|by intros []].
  - eapply wp_part; [by apply HU|by intros []].
  - eapply wp_part; [by apply HD|by intros []].
  - eapply wp_part; [by apply HL|by intros []].
Qed.
End part.

(** Objects with a name and a number; the target type holds the number as a
    string of ticks. *)
Module Demo.
Definition R : Type := string * nat.
Definition T : Type := string * string.

Fixpoint ticks (n : nat) : string := match n with O => "" | S n => String "|" (ticks n) end.
Definition to (r : R) : T := (r.1, ticks r.2).
Definition from (t : T) : R := (t.1, String.length t.2).
Definition To (r : option R) : returns error T := (to <$> r, None).
Definition From (t : option T) : returns error R := (from <$> t, None).

Definition lamp : R := ("lamp", 3%nat).
Definition demo_world : gmap string R := {["lamp" := lamp]}.
Definition lamp_added : Event R unit :=
  {| event_type := "ADDED"; event_object := Resource (Some lamp) |}.
Definition lamp_out : Event T unit :=
  {| event_type := "ADDED"; event_object := Resource (Some ("lamp", "|||")) |}.
End Demo.

Lemma Transformed_refines_witness :
  client_spec (TransformedClient (mem_client fst "") Demo.To Demo.From)
    (map_Forall (λ _, λ _, True)) id (transformed_abs Demo.to id) fst (λ _, True)
    (transformed_admitted Demo.to Demo.from (λ r r', r' = r)).
Proof.
  apply (Transformed_refines (mem_client fst "") Demo.To Demo.From Demo.to Demo.from fst fst
           (λ _, True) (λ _, True) id id Demo.to); try reflexivity; try done.
  apply mem_client_spec.
Defined.

Lemma Transformed_List_drops_metadata_witness :
  ∃ l', ListObjects (TransformedClient (mem_client fst "page-2") Demo.To Demo.From) TODO ()
          Demo.demo_world = (Value (Some l', None), Demo.demo_world) ∧
        Items l' = Some [("lamp", "|||")] ∧ list_meta l' = zero_ListMeta.
Proof.
  apply (Transformed_List_drops_metadata (mem_client fst "page-2") Demo.To Demo.From TODO ()
           Demo.demo_world (mem_page "page-2" [Demo.lamp]) Demo.demo_world [("lamp", "|||")]).
  - by vm_compute.
  - constructor; [done|constructor].
Defined.

Lemma Transformed_Watch_delivers_witness :
  ∃ taken outs nils, arrived [Arrives Demo.lamp_added; LoopMoves; ConsumerReceives] = taken ++ nils ++ [] ∧
    Forall2 (converts Demo.To) taken outs ∧ omap id outs = [Demo.lamp_out] ++ [] ∧
    (@Receiving Demo.T unit = Closed → @nil (Event Demo.R unit) = [] ∧ false = true) ∧ nils = [].
Proof.
  apply (Transformed_Watch_delivers Demo.To [Arrives Demo.lamp_added; LoopMoves; ConsumerReceives]
    {| upcoming := []; upstream_closed := false; loop := Receiving;
       delivered := [Demo.lamp_out] |}).
  eapply steps_cons; [by apply step_arrives|].
  eapply steps_cons; [apply step_loop; reflexivity|].
  apply steps_one.
  by apply (step_consume Demo.To {| upcoming := []; upstream_closed := false;
              loop := Sending Demo.lamp_out; delivered := [] |} Demo.lamp_out).
Defined.
End Transformed.
