(* ===== verification/Json.v ===== *)
(** * Encoding and decoding Go values as JSON

    The part of [encoding/json] and of the [MarshalJSON]/[UnmarshalJSON] methods
    of [k8s.io/apimachinery/pkg/apis/meta/v1] that API objects go through, on
    JSON trees.  [encoding/json] walks the Go type by reflection; here a type
    with its struct tags is a [codec], put together from the codecs of its
    parts. *)
From stdpp Require Import sorting.
From Stdlib Require Import ZifyBool ZifyNat.
From S2P Require Import Prelude GoStrings GoErrors.

(** A JSON text as a tree.  Integer literals are numbers; a literal with a
    fraction or an exponent is kept as text. *)
Inductive json :=
  | JNull
  | JBool (b : bool)
  | JNumber (n : Z)
  | JFraction (literal : string)
  | JString (s : string)
  | JArray (elements : list json)
  | JObject (members : list (string * json)).

Definition is_null (j : json) : bool := match j with JNull => true | _ => false end.

(** ** Strings: invalid UTF-8 is replaced ([utf8.RuneError]) on encoding *)
Module Utf8.
Definition between (lo hi : nat) (c : ascii) : bool :=
  (lo <=? nat_of_ascii c)%nat && (nat_of_ascii c <=? hi)%nat.
Definition cont (c : ascii) : bool := between 128 191 c.

Definition one (c : ascii) : bool := between 0 127 c.
Definition two (c c1 : ascii) : bool := between 194 223 c && cont c1.
Definition three (c c1 c2 : ascii) : bool :=
  ((between 224 224 c && between 160 191 c1) ||
   (between 225 236 c && cont c1) || (between 237 237 c && between 128 159 c1) ||
   (between 238 239 c && cont c1)) && cont c2.
Definition four (c c1 c2 c3 : ascii) : bool :=
  ((between 240 240 c && between 144 191 c1) || (between 241 243 c && cont c1) ||
   (between 244 244 c && between 128 143 c1)) && cont c2 && cont c3.

Definition b (n : nat) (rest : string) : string := String (ascii_of_nat n) rest.
(** U+FFFD *)
Definition RuneError (rest : string) : string := b 239 (b 191 (b 189 rest)).

(** Every byte that does not start a well-formed sequence is replaced. *)
Fixpoint coerce (s : string) : string :=
  match s with
  | EmptyString => EmptyString
  | String c r0 =>
      if one c then String c (coerce r0) else
      match r0 with
      | EmptyString => RuneError (coerce r0)
      | String c1 r1 =>
          if two c c1 then String c (String c1 (coerce r1)) else
          match r1 with
          | EmptyString => RuneError (coerce r0)
          | String c2 r2 =>
              if three c c1 c2 then String c (String c1 (String c2 (coerce r2))) else
              match r2 with
              | EmptyString => RuneError (coerce r0)
              | String c3 r3 =>
                  if four c c1 c2 c3
                  then String c (String c1 (String c2 (String c3 (coerce r3))))
                  else RuneError (coerce r0)
              end
          end
      end
  end.

(** *** Coercing twice is coercing once *)
Ltac bytes := unfold one, two, three, four, cont, between in *; lia.

Lemma two_not_one c c1 : two c c1 = true → one c = false.
Proof. bytes. Qed.

Lemma big_not_two c c1 : (224 ≤ nat_of_ascii c)%nat → one c = false ∧ two c c1 = false.
Proof. bytes. Qed.

Lemma three_big c c1 c2 : three c c1 c2 = true → (224 ≤ nat_of_ascii c < 240)%nat.
Proof. bytes. Qed.

Lemma four_big c c1 c2 c3 : four c c1 c2 c3 = true → (240 ≤ nat_of_ascii c)%nat.
Proof. bytes. Qed.

Lemma not_three c c1 c2 : (240 ≤ nat_of_ascii c)%nat → three c c1 c2 = false.
Proof.
  intros H. destruct (three c c1 c2) eqn:Ht; [|done]. apply three_big in Ht. lia.
Qed.

Lemma coerce_one c s : one c = true → coerce (String c s) = String c (coerce s).
Proof. intros H. simpl. by rewrite H. Qed.

Lemma coerce_two c c1 s :
  two c c1 = true → coerce (String c (String c1 s)) = String c (String c1 (coerce s)).
Proof. intros H. simpl. by rewrite (two_not_one _ _ H), H. Qed.

Lemma coerce_three c c1 c2 s :
  three c c1 c2 = true →
  coerce (String c (String c1 (String c2 s))) = String c (String c1 (String c2 (coerce s))).
Proof.
  intros H. destruct (big_not_two c c1) as [H1 H2]; [apply three_big in H; lia|].
  simpl. by rewrite H1, H2, H.
Qed.

Lemma coerce_four c c1 c2 c3 s :
  four c c1 c2 c3 = true →
  coerce (String c (String c1 (String c2 (String c3 s)))) =
  String c (String c1 (String c2 (String c3 (coerce s)))).
Proof.
  intros H. apply four_big in H as Hb. destruct (big_not_two c c1) as [H1 H2]; [lia|].
  simpl. by rewrite H1, H2, not_three, H.
Qed.

Lemma coerce_RuneError s : coerce (RuneError s) = RuneError (coerce s).
Proof. by apply coerce_three. Qed.

Lemma coerce_coerce_below n s : (String.length s < n)%nat → coerce (coerce s) = coerce s.
Proof.
  revert s. induction n as [|n IH]; intros s Hn; [lia|].
  destruct s as [|c r0]; [done|]. simpl in Hn.
  destruct (one c) eqn:H1; [rewrite (coerce_one c r0), coerce_one by done; f_equal; apply IH; lia|].
  assert (Herr : coerce (RuneError (coerce r0)) = RuneError (coerce r0))
    by (rewrite coerce_RuneError, IH by lia; done).
  destruct r0 as [|c1 r1]; [simpl; rewrite H1; exact Herr|]. simpl in Hn.
  destruct (two c c1) eqn:H2.
  { rewrite (coerce_two c c1 r1), coerce_two by done. do 2 f_equal. apply IH. lia. }
  destruct r1 as [|c2 r2]; [simpl in *; rewrite H1, H2; exact Herr|]. simpl in Hn.
  destruct (three c c1 c2) eqn:H3.
  { rewrite (coerce_three c c1 c2 r2), coerce_three by done. do 3 f_equal. apply IH. lia. }
  assert (Hc : coerce (String c (String c1 (String c2 r2))) =
    match r2 with
    | EmptyString => RuneError (coerce (String c1 (String c2 r2)))
    | String c3 r3 => if four c c1 c2 c3
        then String c (String c1 (String c2 (String c3 (coerce r3))))
        else RuneError (coerce (String c1 (String c2 r2)))
    end).
  { simpl. by rewrite H1, H2, H3. }
  rewrite Hc. destruct r2 as [|c3 r3]; [exact Herr|]. simpl in Hn.
  destruct (four c c1 c2 c3) eqn:H4; [|exact Herr].
  rewrite coerce_four by done. do 4 f_equal. apply IH. lia.
Qed.

Lemma coerce_coerce s : coerce (coerce s) = coerce s.
Proof. apply (coerce_coerce_below (S (String.length s))). lia. Qed.

Lemma coerce_is_empty s : is_empty (coerce s) = is_empty s.
Proof.
  destruct s as [|c s]; [done|].
  change (is_empty (String c s)) with false. simpl.
  repeat case_match; done.
Qed.
End Utf8.

(** ** Errors of decoding

    A type mismatch is remembered and decoding goes on ([saveError]); an error of
    an [UnmarshalJSON] method ends it. *)
Inductive decode_error := no_error | saved (e : error) | fatal (e : error).

Definition also (e1 e2 : decode_error) : decode_error :=
  match e1, e2 with
  | fatal _, _ => e1
  | _, fatal _ => e2
  | no_error, _ => e2
  | saved _, _ => e1
  end.
Definition is_fatal (e : decode_error) : bool := match e with fatal _ => true | _ => false end.

(** [UnmarshalTypeError], without the names of the type and the field. *)
Definition UnmarshalTypeError (value : string) : decode_error :=
  saved (plainError ("json: cannot unmarshal " ++ value ++ " into Go value")).

(** The description of a value in such an error. *)
Definition describe (j : json) : string :=
  match j with
  | JNull => "null"
  | JBool _ => "bool"
  | JNumber _ | JFraction _ => "number"
  | JString _ => "string"
  | JArray _ => "array"
  | JObject _ => "object"
  end.

(** ** Codecs

    [decode old j] decodes into a variable that holds [old].  The last three
    fields describe what a round trip keeps: the values that can be encoded,
    what becomes of them, and which are encoded as [null]. *)
Record codec (A : Type) := {
  zero : A;
  isEmptyValue : A → bool;
  encode : A → error + json;
  decode : A → json → A * decode_error;
  encodable : A → Prop;
  stored : A → A;
  nullish : A → bool;
}.
Arguments zero {A}. Arguments isEmptyValue {A}. Arguments encode {A}.
Arguments decode {A}. Arguments encodable {A}. Arguments stored {A}. Arguments nullish {A}.

Section scalars.
Definition string_codec : codec string :=
  {| zero := ""; isEmptyValue := is_empty; encode := λ s, inr (JString (Utf8.coerce s));
     decode := λ old j, match j with
                        | JNull => (old, no_error)
                        | JString s => (s, no_error)
                        | _ => (old, UnmarshalTypeError (describe j))
                        end;
     encodable := λ _, True; stored := Utf8.coerce; nullish := λ _, false |}.

Definition bool_codec : codec bool :=
  {| zero := false; isEmptyValue := negb; encode := λ b, inr (JBool b);
     decode := λ old j, match j with
                        | JNull => (old, no_error)
                        | JBool b => (b, no_error)
                        | _ => (old, UnmarshalTypeError (describe j))
                        end;
     encodable := λ _, True; stored := id; nullish := λ _, false |}.

Definition int64_codec : codec Z :=
  {| zero := 0; isEmptyValue := Z.eqb 0; encode := λ n, inr (JNumber n);
     decode := λ old j, match j with
                        | JNull => (old, no_error)
                        | JNumber n =>
                            if bool_decide (- 2 ^ 63 ≤ n < 2 ^ 63) then (n, no_error)
                            else (old, UnmarshalTypeError "number")
                        | _ => (old, UnmarshalTypeError (describe j))
                        end;
     encodable := λ n, - 2 ^ 63 ≤ n < 2 ^ 63; stored := id; nullish := λ _, false |}.
End scalars.

Section containers.
Context {A : Type} (c : codec A).

(** A pointer: [null] makes it nil; anything else is decoded into the value it
    points to, or a new one. *)
Definition ptr_codec : codec (option A) :=
  {| zero := None;
     isEmptyValue := λ p, match p with None => true | _ => false end;
     encode := λ p, match p with None => inr JNull | Some a => encode c a end;
     decode := λ old j, match j with
                        | JNull => (None, no_error)
                        | _ => let '(a, e) := decode c (default (zero c) old) j in (Some a, e)
                        end;
     encodable := λ p, match p with None => True | Some a => encodable c a end;
     stored := λ p, match p with
                    | None => None
                    | Some a => if nullish c a then None else Some (stored c a)
                    end;
     nullish := λ p, match p with None => true | Some a => nullish c a end |}.

Fixpoint encode_elements (l : list A) : error + list json :=
  match l with
  | [] => inr []
  | a :: l =>
      match encode c a with
      | inl e => inl e
      | inr j => match encode_elements l with
                 | inl e => inl e
                 | inr js => inr (j :: js)
                 end
      end
  end.

(** The elements of an array are decoded over the old elements of the slice. *)
Fixpoint decode_elements (old : list A) (js : list json) : list A * decode_error :=
  match js with
  | [] => ([], no_error)
  | j :: js =>
      let '(a, e) := decode c (default (zero c) (head old)) j in
      if is_fatal e then ([a], e)
      else let '(l, e') := decode_elements (tail old) js in (a :: l, also e e')
  end.

(** A slice; nil is [None]. *)
Definition slice_codec : codec (option (list A)) :=
  {| zero := None;
     isEmptyValue := λ s, match s with None | Some [] => true | _ => false end;
     encode := λ s, match s with
                    | None => inr JNull
                    | Some l => match encode_elements l with
                                | inl e => inl e
                                | inr js => inr (JArray js)
                                end
                    end;
     decode := λ old j, match j with
                        | JNull => (None, no_error)
                        | JArray js => let '(l, e) := decode_elements (default [] old) js in (Some l, e)
                        | _ => (old, UnmarshalTypeError (describe j))
                        end;
     encodable := λ s, match s with None => True | Some l => Forall (encodable c) l end;
     stored := λ s, match s with None => None | Some l => Some (stored c <$> l) end;
     nullish := λ s, match s with None => true | _ => false end |}.

(** A map with string keys; nil is [None].  Members are encoded in the order of
    their keys; a new element is decoded for every member. *)
Definition key_le (m1 m2 : string * json) : Prop := String.leb m1.1 m2.1 = true.
#[export] Instance key_le_dec m1 m2 : Decision (key_le m1 m2).
Proof. unfold key_le. apply _. Defined.

Fixpoint encode_members (l : list (string * A)) : error + list (string * json) :=
  match l with
  | [] => inr []
  | (k, a) :: l =>
      match encode c a with
      | inl e => inl e
      | inr j => match encode_members l with
                 | inl e => inl e
                 | inr ms => inr ((Utf8.coerce k, j) :: ms)
                 end
      end
  end.

Fixpoint decode_members (m : gmap string A) (ms : list (string * json))
    : gmap string A * decode_error :=
  match ms with
  | [] => (m, no_error)
  | (k, j) :: ms =>
      let '(a, e) := decode c (zero c) j in
      if is_fatal e then (m, e)
      else let '(m', e') := decode_members (<[k := a]> m) ms in (m', also e e')
  end.

Definition map_codec : codec (option (gmap string A)) :=
  {| zero := None;
     isEmptyValue := λ m, match m with None => true | Some m => bool_decide (m = ∅) end;
     encode := λ m, match m with
                    | None => inr JNull
                    | Some m => match encode_members (map_to_list m) with
                                | inl e => inl e
                                | inr ms => inr (JObject (merge_sort key_le ms))
                                end
                    end;
     decode := λ old j, match j with
                        | JNull => (None, no_error)
                        | JObject ms =>
                            let '(m, e) := decode_members (default ∅ old) ms in (Some m, e)
                        | _ => (old, UnmarshalTypeError (describe j))
                        end;
     encodable := λ m, match m with
                       | None => True
                       | Some m => map_Forall (λ k a, Utf8.coerce k = k ∧ encodable c a) m
                       end;
     stored := λ m, match m with None => None | Some m => Some (stored c <$> m) end;
     nullish := λ m, match m with None => true | _ => false end |}.
End containers.

(** ** Structs

    The fields of a struct, in order, as nested pairs.  [f_set name] decodes into
    the field of that name. *)
Record fields (A : Type) := {
  f_zero : A;
  f_names : list string;
  f_encode : A → error + list (string * json);
  f_set : string → A → json → A * decode_error;
  f_encodable : A → Prop;
  f_stored : A → A;
}.
Arguments f_zero {A}. Arguments f_names {A}. Arguments f_encode {A}.
Arguments f_set {A}. Arguments f_encodable {A}. Arguments f_stored {A}.

Definition no_fields : fields unit :=
  {| f_zero := tt; f_names := []; f_encode := λ _, inr [];
     f_set := λ _ _ _, (tt, no_error); f_encodable := λ _, True; f_stored := id |}.

(** A field with its name and whether it has [omitempty]. *)
Definition field {A B} (name : string) (omitempty : bool) (c : codec A) (fs : fields B)
    : fields (A * B) :=
  let omitted a := omitempty && isEmptyValue c a in
  {| f_zero := (zero c, f_zero fs);
     f_names := name :: f_names fs;
     f_encode := λ '(a, b),
       if omitted a then f_encode fs b
       else match encode c a with
            | inl e => inl e
            | inr j => match f_encode fs b with
                       | inl e => inl e
                       | inr ms => inr ((name, j) :: ms)
                       end
            end;
     f_set := λ key '(a, b) j,
       if bool_decide (key = name) then let '(a', e) := decode c a j in ((a', b), e)
       else let '(b', e) := f_set fs key b j in ((a, b'), e);
     f_encodable := λ '(a, b), (omitted a = false → encodable c a) ∧ f_encodable fs b;
     f_stored := λ '(a, b), (if omitted a then zero c else stored c a, f_stored fs b) |}.

(** The promoted fields of an embedded struct. *)
Definition inline {A B} (fs1 : fields A) (fs2 : fields B) : fields (A * B) :=
  {| f_zero := (f_zero fs1, f_zero fs2);
     f_names := f_names fs1 ++ f_names fs2;
     f_encode := λ '(a, b),
       match f_encode fs1 a with
       | inl e => inl e
       | inr ms1 => match f_encode fs2 b with
                    | inl e => inl e
                    | inr ms2 => inr (ms1 ++ ms2)
                    end
       end;
     f_set := λ key '(a, b) j,
       if bool_decide (key ∈ f_names fs1) then let '(a', e) := f_set fs1 key a j in ((a', b), e)
       else let '(b', e) := f_set fs2 key b j in ((a, b'), e);
     f_encodable := λ '(a, b), f_encodable fs1 a ∧ f_encodable fs2 b;
     f_stored := λ '(a, b), (f_stored fs1 a, f_stored fs2 b) |}.

(** The same fields seen as a record. *)
Definition as_record {A S} (to : S → A) (mk : A → S) (fs : fields A) : fields S :=
  {| f_zero := mk (f_zero fs); f_names := f_names fs;
     f_encode := λ s, f_encode fs (to s);
     f_set := λ key s j, let '(a, e) := f_set fs key (to s) j in (mk a, e);
     f_encodable := λ s, f_encodable fs (to s); f_stored := λ s, mk (f_stored fs (to s)) |}.

(** [equalFold]: ASCII case is ignored, and the Kelvin sign and the long s are
    the letters they fold to. *)
Definition fold_byte (c : ascii) : ascii :=
  if Utf8.between 65 90 c then ascii_of_nat (nat_of_ascii c + 32) else c.
Fixpoint fold_key (s : string) : string :=
  match s with
  | EmptyString => EmptyString
  | String c r =>
      match r with
      | String c1 r1 =>
          if Utf8.between 197 197 c && Utf8.between 191 191 c1 then String "s" (fold_key r1)
          else match r1 with
               | String c2 r2 =>
                   if Utf8.between 226 226 c && Utf8.between 132 132 c1 && Utf8.between 170 170 c2
                   then String "k" (fold_key r2) else String (fold_byte c) (fold_key r)
               | EmptyString => String (fold_byte c) (fold_key r)
               end
      | EmptyString => String (fold_byte c) (fold_key r)
      end
  end.

(** Whether the decoder looks for a field under folding: [encoding/json] does,
    [sigs.k8s.io/json], which decodes what a server answers, does not. *)
Class KeyFolding := folds_keys : bool.
#[export] Instance encoding_json : KeyFolding := true.
Definition case_sensitive : KeyFolding := false.

Section structs.
Context {kf : KeyFolding}.

(** The field a member belongs to: the exact name, else the first that is equal
    under folding. *)
Definition resolve (names : list string) (key : string) : option string :=
  if bool_decide (key ∈ names) then Some key
  else if folds_keys then head (filter (λ name, fold_key name = fold_key key) names)
  else None.

(** The members of an object are decoded in order; unknown ones are skipped. *)
Fixpoint decode_struct {A} (fs : fields A) (a : A) (ms : list (string * json))
    : A * decode_error :=
  match ms with
  | [] => (a, no_error)
  | (k, j) :: ms =>
      match resolve (f_names fs) k with
      | None => decode_struct fs a ms
      | Some name =>
          let '(a', e) := f_set fs name a j in
          if is_fatal e then (a', e)
          else let '(a'', e') := decode_struct fs a' ms in (a'', also e e')
      end
  end.

Definition struct_codec {A} (fs : fields A) : codec A :=
  {| zero := f_zero fs; isEmptyValue := λ _, false;
     encode := λ a, match f_encode fs a with inl e => inl e | inr ms => inr (JObject ms) end;
     decode := λ old j, match j with
                        | JNull => (old, no_error)
                        | JObject ms => decode_struct fs old ms
                        | _ => (old, UnmarshalTypeError (describe j))
                        end;
     encodable := f_encodable fs; stored := f_stored fs; nullish := λ _, false |}.
End structs.

(** ** The types with methods of their own *)
(** [metav1.Time]: the zero time, or the seconds since 1970 and the nanoseconds
    of another instant. *)
Definition Time : Type := option (Z * Z).

(** The instants after the zero time and before the year 10000. *)
Definition representable (sec : Z) : Prop := - 62135596800 < sec ≤ 253402300799.

Section time.
(** [UTC().AppendFormat(_, time.RFC3339)] of the seconds, and [time.Parse]. *)
Context (format : Z → string) (parse : string → error + Time).

Definition time_codec : codec Time :=
  {| zero := None; isEmptyValue := λ _, false;
     encode := λ t, match t with
                    | None => inr JNull
                    | Some (sec, _) => inr (JString (format sec))
                    end;
     decode := λ old j, match j with
                        | JNull => (None, no_error)
                        | JString s => match parse s with
                                       | inl e => (old, fatal e)
                                       | inr t => (t, no_error)
                                       end
                        | _ => (old, fatal (plainError ("json: cannot unmarshal " ++ describe j
                                             ++ " into Go value of type string")))
                        end;
     encodable := λ t, match t with None => True | Some (sec, _) => representable sec end;
     stored := λ t, match t with None => None | Some (sec, _) => Some (sec, 0) end;
     nullish := λ t, match t with None => true | _ => false end |}.
End time.

(** [FieldsV1]: raw JSON text, as the tree it holds if it is well-formed. *)
Inductive raw_json := RawNil | RawJson (j : json) | RawInvalid (text : string).

Definition raw_codec : codec raw_json :=
  {| zero := RawNil; isEmptyValue := λ _, false;
     encode := λ r, match r with
                    | RawNil => inr JNull
                    | RawJson j => inr j
                    | RawInvalid _ => inl (plainError
                        "json: error calling MarshalJSON for type *v1.FieldsV1: invalid character")
                    end;
     decode := λ old j, match j with JNull => (old, no_error) | _ => (RawJson j, no_error) end;
     encodable := λ r, match r with RawInvalid _ => False | _ => True end;
     stored := λ r, match r with RawJson JNull => RawNil | _ => r end;
     nullish := λ r, match r with RawNil | RawJson JNull => true | _ => false end |}.

(** ** [json.Marshal] and [json.Unmarshal] into a variable that holds [old] *)
Definition Marshal {A} (c : codec A) (a : A) : error + json := encode c a.

Definition Unmarshal {A} (c : codec A) (j : json) (old : A) : A * option error :=
  let '(a, e) := decode c old j in
  (a, match e with no_error => None | saved e | fatal e => Some e end).

(** ** Encoding with one codec and decoding with another

    The two codecs may tag the same fields differently ([omitempty]). *)
Record lawful {A} (E D : codec A) : Prop := {
  law_zero : zero D = zero E;
  law_null a j : encode E a = inr j → is_null j = nullish E a;
  law_ok a : encodable E a →
    ∃ j, encode E a = inr j ∧ decode D (zero D) j = (stored E a, no_error);
}.

Fixpoint set_all {A} (fs : fields A) (a : A) (ms : list (string * json)) : A * decode_error :=
  match ms with
  | [] => (a, no_error)
  | (k, j) :: ms =>
      let '(a', e) := f_set fs k a j in
      if is_fatal e then (a', e)
      else let '(a'', e') := set_all fs a' ms in (a'', also e e')
  end.

Record lawful_fields {A} (E D : fields A) : Prop := {
  flaw_zero : f_zero D = f_zero E;
  flaw_names : f_names D = f_names E;
  flaw_ok a : f_encodable E a →
    ∃ ms, f_encode E a = inr ms ∧ (∀ k, k ∈ ms.*1 → k ∈ f_names E) ∧
          set_all D (f_zero D) ms = (f_stored E a, no_error);
}.

Create HintDb json.

Lemma lawful_string : lawful string_codec string_codec.
Proof. split; [done|by intros a j [= <-]|]. intros a _. by eexists. Qed.

Lemma lawful_bool : lawful bool_codec bool_codec.
Proof. split; [done|by intros a j [= <-]|]. intros a _. by eexists. Qed.

Lemma lawful_int64 : lawful int64_codec int64_codec.
Proof.
  split; [done|by intros a j [= <-]|]. intros a Ha. eexists. split; [done|]. simpl.
  by rewrite bool_decide_eq_true_2.
Qed.

Lemma lawful_time format parse :
  (∀ sec, representable sec → parse (format sec) = inr (Some (sec, 0))) →
  lawful (time_codec format parse) (time_codec format parse).
Proof.
  intros Hp. split; [done|by intros [[sec ns]|] j [= <-]|].
  intros [[sec ns]|] Hs; simpl; eexists; (split; [done|]); simpl; [|done]. by rewrite Hp.
Qed.

Lemma lawful_raw : lawful raw_codec raw_codec.
Proof.
  split; [done| |].
  - intros [|j'|] j; simpl; [by intros [= <-]| |done]. intros [= <-]. by destruct j'.
  - intros [|j|] Hr; [by eexists| |done]. exists j. split; [done|]. by destruct j.
Qed.

Lemma lawful_ptr {A} (E D : codec A) : lawful E D → lawful (ptr_codec E) (ptr_codec D).
Proof.
  intros [Hz Hn Hok]. split; [done| |].
  - intros [a|] j; simpl; [by apply Hn|by intros [= <-]].
  - intros [a|] Ha; [|by eexists]. destruct (Hok a Ha) as (j & Hj & Hd).
    exists j. split; [done|]. simpl. rewrite <- (Hn a j Hj).
    destruct j; simpl; [done|by rewrite Hd..].
Qed.

Lemma lawful_elements {A} (E D : codec A) l :
  lawful E D → Forall (encodable E) l →
  ∃ js, encode_elements E l = inr js ∧ decode_elements D [] js = (stored E <$> l, no_error).
Proof.
  intros [Hz Hn Hok]. induction 1 as [|a l Ha Hl (js & Hjs & Hd)]; [by exists []|].
  destruct (Hok a Ha) as (j & Hj & Hdj). exists (j :: js). simpl. rewrite Hj, Hjs.
  split; [done|]. by rewrite Hdj, Hd.
Qed.

Lemma lawful_slice {A} (E D : codec A) : lawful E D → lawful (slice_codec E) (slice_codec D).
Proof.
  intros Hlaw. split; [done| |].
  - intros [l|] j; simpl; [|by intros [= <-]]. destruct (encode_elements E l); [done|].
    by intros [= <-].
  - intros [l|] Hl; [|by eexists]. destruct (lawful_elements E D l Hlaw Hl) as (js & Hjs & Hd).
    exists (JArray js). simpl. rewrite Hjs. split; [done|]. by rewrite Hd.
Qed.

#[export] Hint Resolve lawful_string lawful_bool lawful_int64 lawful_time lawful_raw
  lawful_ptr lawful_slice : json.

(** ** Maps: the order of the members does not matter *)
Section lawful_maps.
Context {A : Type} (E D : codec A) (m : gmap string A).
Hypothesis Hlaw : lawful E D.

Definition member_of (kj : string * json) : Prop :=
  ∃ a, m !! kj.1 = Some a ∧ decode D (zero D) kj.2 = (stored E a, no_error).

Lemma encode_members_ok l :
  (∀ k a, (k, a) ∈ l → m !! k = Some a ∧ Utf8.coerce k = k ∧ encodable E a) →
  ∃ ms, encode_members E l = inr ms ∧ ms.*1 = l.*1 ∧ Forall member_of ms.
Proof.
  induction l as [|[k a] l IH]; intros Hl; [by exists []|].
  destruct IH as (ms & Hms & Hk & Hall); [intros; apply Hl; by right|].
  destruct (Hl k a) as (Hm & Hc & He); [by left|].
  destruct (law_ok _ _ Hlaw a He) as (j & Hj & Hd). exists ((k, j) :: ms). csimpl.
  rewrite Hj, Hms, Hc, Hk. split_and!; [done|done|]. constructor; [by exists a|done].
Qed.

Lemma decode_members_ok ms m0 :
  Forall member_of ms → NoDup ms.*1 →
  ∃ m1, decode_members D m0 ms = (m1, no_error) ∧
        ∀ k, m1 !! k = if decide (k ∈ ms.*1) then stored E <$> m !! k else m0 !! k.
Proof.
  intros Hall. revert m0. induction Hall as [|[k j] ms (a & Ha & Hd) Hall IH]; intros m0 Hnd.
  { exists m0. split; [done|]. intros k. rewrite decide_False; [done|]. apply not_elem_of_nil. }
  csimpl in *. apply NoDup_cons in Hnd as [Hni Hnd].
  rewrite Hd. simpl. destruct (IH (<[k := stored E a]> m0) Hnd) as (m1 & -> & Hm1).
  exists m1. split; [done|]. intros k'. rewrite Hm1.
  destruct (decide (k' ∈ ms.*1)) as [Hin|Hout].
  - by rewrite decide_True by (by right).
  - destruct (decide (k' = k)) as [->|Hne].
    + rewrite decide_True by (by left). by rewrite lookup_insert_eq, Ha.
    + rewrite decide_False by (rewrite elem_of_cons; tauto). by rewrite lookup_insert_ne.
Qed.

Lemma lawful_members :
  map_Forall (λ k a, Utf8.coerce k = k ∧ encodable E a) m →
  ∃ ms, encode_members E (map_to_list m) = inr ms ∧
        decode_members D ∅ (merge_sort key_le ms) = (stored E <$> m, no_error).
Proof.
  intros Hm. destruct (encode_members_ok (map_to_list m)) as (ms & Hms & Hk & Hall).
  { intros k a Hin%elem_of_map_to_list. split; [done|]. by apply Hm. }
  exists ms. split; [done|].
  assert (Hp : merge_sort key_le ms ≡ₚ ms) by apply merge_sort_Permutation.
  destruct (decode_members_ok (merge_sort key_le ms) ∅) as (m1 & -> & Hm1).
  - by rewrite Hp.
  - rewrite Hp, Hk. apply NoDup_fst_map_to_list.
  - f_equal. apply map_eq. intros k. rewrite Hm1, lookup_fmap.
    destruct (decide (k ∈ (merge_sort key_le ms).*1)) as [Hin|Hout]; [done|].
    rewrite lookup_empty. destruct (m !! k) as [a|] eqn:Hka; [|done]. exfalso. apply Hout.
    rewrite Hp, Hk. apply list_elem_of_fmap. exists (k, a). split; [done|].
    by apply elem_of_map_to_list.
Qed.
End lawful_maps.

Lemma lawful_map {A} (E D : codec A) : lawful E D → lawful (map_codec E) (map_codec D).
Proof.
  intros Hlaw. split; [done| |].
  - intros [m|] j; simpl; [|by intros [= <-]]. destruct (encode_members E _); [done|].
    by intros [= <-].
  - intros [m|] Hm; [|by eexists]. destruct (lawful_members E D m Hlaw Hm) as (ms & Hms & Hd).
    eexists. simpl. rewrite Hms. split; [done|]. simpl. by rewrite Hd.
Qed.

(** ** Structs *)
Lemma set_all_app {A} (fs : fields A) a ms1 ms2 a1 :
  set_all fs a ms1 = (a1, no_error) → set_all fs a (ms1 ++ ms2) = set_all fs a1 ms2.
Proof.
  revert a. induction ms1 as [|[k j] ms1 IH]; simpl; intros a; [by intros [= <-]|].
  destruct (f_set fs k a j) as [a' e]. destruct (is_fatal e) eqn:Hf.
  { intros [= _ ->]. done. }
  destruct (set_all fs a' ms1) as [a'' e'] eqn:Hr. intros [= -> He].
  assert (e = no_error ∧ e' = no_error) as [-> ->]
    by (destruct e, e'; simpl in *; try discriminate; by split).
  rewrite (IH a' Hr). by destruct (set_all fs a1 ms2) as [? []].
Qed.

Lemma lawful_no_fields : lawful_fields no_fields no_fields.
Proof. split; [done|done|]. intros [] _. exists []. split_and!; [done|set_solver|done]. Qed.

Section lawful_field.
Context {A B : Type} (name : string) (om om' : bool) (cE cD : codec A) (fE fD : fields B).

Lemma set_all_field_tail a b ms :
  name ∉ ms.*1 →
  set_all (field name om' cD fD) (a, b) ms = (let '(b', e) := set_all fD b ms in ((a, b'), e)).
Proof.
  revert b. induction ms as [|[k j] ms IH]; intros b Hk; [done|]. csimpl in Hk.
  apply not_elem_of_cons in Hk as [Hne Hk]. simpl. rewrite bool_decide_eq_false_2 by congruence.
  destruct (f_set fD k b j) as [b' e]. destruct (is_fatal e); [done|].
  rewrite IH by done. by destruct (set_all fD b' ms).
Qed.

Lemma lawful_field :
  name ∉ f_names fE → lawful cE cD → lawful_fields fE fD →
  lawful_fields (field name om cE fE) (field name om' cD fD).
Proof.
  intros Hni [Hz _ Hok] [Hfz Hfn Hfok]. split; simpl; [by rewrite Hz, Hfz|by rewrite Hfn|].
  intros [a b] [Ha Hb]. destruct (Hfok b Hb) as (ms & Hms & Hk & Hset).
  assert (Hnk : name ∉ ms.*1) by (intros Hin; by apply Hni, Hk).
  destruct (om && isEmptyValue cE a) eqn:Hom.
  - exists ms. split_and!; [done|intros k Hin; right; by apply Hk|].
    by rewrite set_all_field_tail, Hset, Hz.
  - destruct (Hok a (Ha eq_refl)) as (j & Hj & Hd). rewrite Hj, Hms.
    exists ((name, j) :: ms). split_and!; [done| |].
    + intros k [->|Hin]%elem_of_cons; [by left|right; by apply Hk].
    + simpl. rewrite bool_decide_eq_true_2, Hd by done. simpl.
      by rewrite set_all_field_tail, Hset.
Qed.
End lawful_field.

Section lawful_inline.
Context {A B : Type} (E1 D1 : fields A) (E2 D2 : fields B).

Lemma set_all_inline_l a b ms :
  (∀ k, k ∈ ms.*1 → k ∈ f_names D1) →
  set_all (inline D1 D2) (a, b) ms = (let '(a', e) := set_all D1 a ms in ((a', b), e)).
Proof.
  revert a. induction ms as [|[k j] ms IH]; intros a Hk; [done|]. csimpl in Hk. simpl.
  rewrite bool_decide_eq_true_2 by (apply Hk; by left).
  destruct (f_set D1 k a j) as [a' e]. destruct (is_fatal e); [done|].
  rewrite IH by (intros; apply Hk; by right). by destruct (set_all D1 a' ms).
Qed.

Lemma set_all_inline_r a b ms :
  (∀ k, k ∈ ms.*1 → k ∉ f_names D1) →
  set_all (inline D1 D2) (a, b) ms = (let '(b', e) := set_all D2 b ms in ((a, b'), e)).
Proof.
  revert b. induction ms as [|[k j] ms IH]; intros b Hk; [done|]. csimpl in Hk. simpl.
  rewrite bool_decide_eq_false_2 by (apply Hk; by left).
  destruct (f_set D2 k b j) as [b' e]. destruct (is_fatal e); [done|].
  rewrite IH by (intros; apply Hk; by right). by destruct (set_all D2 b' ms).
Qed.

Lemma lawful_inline :
  Forall (λ k, k ∉ f_names E2) (f_names E1) → lawful_fields E1 D1 → lawful_fields E2 D2 →
  lawful_fields (inline E1 E2) (inline D1 D2).
Proof.
  intros Hdis [Hz1 Hn1 Hok1] [Hz2 Hn2 Hok2].
  split; simpl; [by rewrite Hz1, Hz2|by rewrite Hn1, Hn2|].
  intros [a b] [Ha Hb]. destruct (Hok1 a Ha) as (ms1 & Hms1 & Hk1 & Hs1).
  destruct (Hok2 b Hb) as (ms2 & Hms2 & Hk2 & Hs2). rewrite Hms1, Hms2.
  exists (ms1 ++ ms2). split_and!; [done| |].
  - intros k. rewrite fmap_app, !elem_of_app. intros [?|?]; auto.
  - rewrite (set_all_app _ _ _ _ (f_stored E1 a, f_zero D2)).
    + rewrite set_all_inline_r; [by rewrite Hs2|]. intros k Hk%Hk2 Hk'. rewrite Hn1 in Hk'.
      by eapply Forall_forall in Hdis.
    + rewrite set_all_inline_l; [by rewrite Hs1|]. intros k Hk. rewrite Hn1. auto.
Qed.
End lawful_inline.

Lemma set_all_as_record {A S} (to : S → A) (mk : A → S) (fs : fields A) s ms :
  (∀ a, to (mk a) = a) → (∀ s, mk (to s) = s) →
  set_all (as_record to mk fs) s ms = (let '(a, e) := set_all fs (to s) ms in (mk a, e)).
Proof.
  intros Htm Hmt. revert s. induction ms as [|[k j] ms IH]; intros s; simpl; [by rewrite Hmt|].
  destruct (f_set fs k (to s) j) as [a e]. destruct (is_fatal e); [done|].
  rewrite IH, Htm. by destruct (set_all fs a ms).
Qed.

Lemma lawful_as_record {A S} (to : S → A) (mk : A → S) (E D : fields A) :
  (∀ a, to (mk a) = a) → (∀ s, mk (to s) = s) → lawful_fields E D →
  lawful_fields (as_record to mk E) (as_record to mk D).
Proof.
  intros Htm Hmt [Hz Hn Hok]. split; simpl; [by rewrite Hz|done|].
  intros s Hs. destruct (Hok _ Hs) as (ms & Hms & Hk & Hset). exists ms.
  split_and!; [done|done|]. by rewrite set_all_as_record, Htm, Hset.
Qed.

Lemma decode_struct_exact {kf : KeyFolding} {A} (fs : fields A) a ms :
  (∀ k, k ∈ ms.*1 → k ∈ f_names fs) → decode_struct fs a ms = set_all fs a ms.
Proof.
  revert a. induction ms as [|[k j] ms IH]; intros a Hk; [done|]. csimpl in Hk. simpl.
  unfold resolve. rewrite bool_decide_eq_true_2 by (apply Hk; by left).
  destruct (f_set fs k a j) as [a' e]. rewrite IH by (intros; apply Hk; by right). done.
Qed.

Lemma lawful_struct {kE kD : KeyFolding} {A} (E D : fields A) :
  lawful_fields E D → lawful (struct_codec (kf := kE) E) (struct_codec (kf := kD) D).
Proof.
  intros [Hz Hn Hok]. split; [done| |].
  - intros a j; simpl. destruct (f_encode E a); [done|]. by intros [= <-].
  - intros a Ha. destruct (Hok a Ha) as (ms & Hms & Hk & Hset). exists (JObject ms).
    simpl. rewrite Hms. split; [done|]. rewrite decode_struct_exact; [done|].
    intros k Hin. rewrite Hn. auto.
Qed.

#[export] Hint Resolve lawful_map lawful_no_fields lawful_field lawful_inline lawful_struct : json.

(** ** What is stored is stable

    What a round trip with [E] stores can be encoded with [E'] again and is then
    stored unchanged. *)
Record stable {A} (E E' : codec A) : Prop := {
  st_zero : zero E' = zero E;
  st_zero_ok : encodable E' (zero E') ∧ stored E' (zero E') = zero E';
  st_ok a : encodable E a → encodable E' (stored E a) ∧ stored E' (stored E a) = stored E a;
  st_nullish a : nullish E' (stored E a) = nullish E a;
  st_empty a : isEmptyValue E' (stored E a) = true → isEmptyValue E a = true ∨ stored E a = zero E';
}.

(** Only the zero value is empty (so not of slices and maps). *)
Definition strict {A} (c : codec A) : Prop := ∀ a, isEmptyValue c a = true → a = zero c.

Record stable_fields {A} (E E' : fields A) : Prop := {
  sf_zero : f_zero E' = f_zero E;
  sf_zero_ok : f_encodable E' (f_zero E') ∧ f_stored E' (f_zero E') = f_zero E';
  sf_ok a : f_encodable E a → f_encodable E' (f_stored E a) ∧ f_stored E' (f_stored E a) = f_stored E a;
}.

Lemma stable_string : stable string_codec string_codec.
Proof.
  split; try done; simpl.
  - intros a _. split; [done|]. apply Utf8.coerce_coerce.
  - intros a Ha%is_empty_true. by right.
Qed.
Lemma stable_bool : stable bool_codec bool_codec.
Proof. split; try done; simpl. by left. Qed.
Lemma stable_int64 : stable int64_codec int64_codec.
Proof. split; try done; simpl. by left. Qed.

Lemma strict_string : strict string_codec.
Proof. by intros a ?%is_empty_true. Qed.
Lemma strict_ptr {A} (c : codec A) : strict (ptr_codec c).
Proof. by intros [a|]. Qed.

Lemma stable_time format parse : stable (time_codec format parse) (time_codec format parse).
Proof. split; try done; simpl; [by intros [[sec ns]|]|by intros [[sec ns]|]]. Qed.

Lemma stable_raw : stable raw_codec raw_codec.
Proof. split; try done; simpl; [by intros [|[]|]|by intros [|[]|]]. Qed.

Lemma stable_ptr {A} (E E' : codec A) : stable E E' → stable (ptr_codec E) (ptr_codec E').
Proof.
  intros [Hz Hzo Hok Hn Hem]. split; simpl; try done.
  - intros [a|] Ha; [|done]. destruct (Hok a Ha) as [H1 H2].
    destruct (nullish E a) eqn:Hna; [done|]. split; [done|]. by rewrite Hn, Hna, H2.
  - intros [a|]; [|done]. destruct (nullish E a) eqn:Hna; [done|]. by rewrite Hn, Hna.
  - intros [a|]; [|by left]. destruct (nullish E a); [by right|done].
Qed.

Lemma stable_elements {A} (E E' : codec A) l :
  stable E E' → Forall (encodable E) l →
  Forall (encodable E') (stored E <$> l) ∧ stored E' <$> (stored E <$> l) = stored E <$> l.
Proof.
  intros [_ _ Hok _ _]. induction 1 as [|a l Ha Hl [IH1 IH2]]; [done|]. csimpl.
  destruct (Hok a Ha) as [H1 H2]. split; [by constructor|]. by rewrite H2, IH2.
Qed.

Lemma stable_slice {A} (E E' : codec A) : stable E E' → stable (slice_codec E) (slice_codec E').
Proof.
  intros Hst. split; simpl; try done.
  - intros [l|] Hl; [|done]. destruct (stable_elements E E' l Hst Hl) as [H1 H2].
    split; [done|]. by rewrite H2.
  - by intros [l|].
  - intros [[|a l]|]; auto.
Qed.

Lemma stable_map {A} (E E' : codec A) : stable E E' → stable (map_codec E) (map_codec E').
Proof.
  intros [_ _ Hok _ _]. split; simpl; try done.
  - intros [m|] Hm; [|done]. split.
    + intros k a. rewrite lookup_fmap. intros (b & Hb & ->)%fmap_Some_1.
      destruct (Hm k b Hb) as [? ?]. split; [done|]. by apply Hok.
    + f_equal. apply map_eq. intros k. rewrite !lookup_fmap.
      destruct (m !! k) as [a|] eqn:Hk; [|done]. simpl. f_equal. apply Hok. by eapply Hm.
  - by intros [m|].
  - intros [m|]; [|by left]. rewrite !bool_decide_eq_true. intros Hm%fmap_empty_inv. by left.
Qed.

Lemma stable_no_fields : stable_fields no_fields no_fields.
Proof. by split. Qed.

Lemma stable_field {A B} name (om om' : bool) (c c' : codec A) (fs fs' : fields B) :
  (om' = true → om = false → strict c') → stable c c' → stable_fields fs fs' →
  stable_fields (field name om c fs) (field name om' c' fs').
Proof.
  intros Hstrict [Hz [Hz1 Hz2] Hok _ Hem] [Hfz [Hf1 Hf2] Hfok]. split; simpl.
  - by rewrite Hz, Hfz.
  - split; [done|]. rewrite Hf2. f_equal. by destruct (om' && _).
  - intros [a b] [Ha Hb]. destruct (Hfok b Hb) as [Hb1 Hb2]. rewrite Hb2.
    destruct (om && isEmptyValue c a) eqn:Hom.
    + rewrite <- Hz. split; [done|]. f_equal. by destruct (om' && _).
    + destruct (Hok a (Ha eq_refl)) as [H1 H2]. split; [done|]. f_equal.
      destruct (om' && isEmptyValue c' (stored c a)) eqn:Hom'; [|done].
      apply andb_true_iff in Hom' as [-> He]. symmetry.
      destruct om; [|by apply Hstrict]. simpl in Hom.
      destruct (Hem a He) as [?|?]; congruence.
Qed.

Lemma stable_inline {A B} (f1 f1' : fields A) (f2 f2' : fields B) :
  stable_fields f1 f1' → stable_fields f2 f2' → stable_fields (inline f1 f2) (inline f1' f2').
Proof.
  intros [Hz1 [H1 H1'] Hok1] [Hz2 [H2 H2'] Hok2]. split; simpl.
  - by rewrite Hz1, Hz2.
  - split; [done|]. by rewrite H1', H2'.
  - intros [a b] [[Ha1 Ha2]%Hok1 [Hb1 Hb2]%Hok2]. split; [done|]. by rewrite Ha2, Hb2.
Qed.

Lemma stable_as_record {A S} (to : S → A) (mk : A → S) (fs fs' : fields A) :
  (∀ a, to (mk a) = a) → (∀ s, mk (to s) = s) → stable_fields fs fs' →
  stable_fields (as_record to mk fs) (as_record to mk fs').
Proof.
  intros Htm Hmt [Hz [Hz1 Hz2] Hok]. split; simpl.
  - by rewrite Hz.
  - rewrite Htm. split; [done|]. by rewrite Hz2.
  - intros s [H1 H2]%Hok. rewrite Htm. split; [done|]. by rewrite H2.
Qed.

Lemma stable_struct {k k' : KeyFolding} {A} (fs fs' : fields A) :
  stable_fields fs fs' → stable (struct_codec (kf := k) fs) (struct_codec (kf := k') fs').
Proof. intros [Hz Hzo Hok]. by split. Qed.
