(* ===== verification/JsonText.v ===== *)
(** * The text of JSON

    Between texts and the trees of [Json]: the scanner and the decoder of
    [sigs.k8s.io/json] ([scanner.go], [decode.go]), which are those of Go's
    [encoding/json] but for the options of the latter, and what the encoder of
    [encoding/json] writes.  The decoder is the one that makes generic values
    ([valueInterface]), with the conversion of numbers, whose errors it saves.  The
    one that fills Go values reads the text in the same way, but decides about a
    number when it knows the type of its target; for it, the same functions give the
    tree of a text, in which numbers are kept as they are written and the members of
    an object in their order, repeated keys included. *)
From Stdlib Require DecimalString SpecFloat.
From S2P Require Import Prelude GoStrings GoErrors Json.

(** ** The scanner ([scanner.go]) *)
Module Scanner.
Inductive opcode :=
  | scanContinue | scanBeginLiteral | scanBeginObject | scanObjectKey | scanObjectValue | scanEndObject
  | scanBeginArray | scanArrayValue | scanEndArray | scanSkipSpace | scanEnd | scanError.
#[export] Instance opcode_eq_dec : EqDecision opcode.
Proof. solve_decision. Defined.

Inductive parse := parseObjectKey | parseObjectValue | parseArrayValue.

(** The step functions. *)
Inductive step_function :=
  | BeginValueOrEmpty | BeginValue | BeginStringOrEmpty | BeginString | EndValue | EndTop
  | InString | InStringEsc | InStringEscU | InStringEscU1 | InStringEscU12 | InStringEscU123
  | Neg | State1 | State0 | Dot | Dot0 | StateE | ESign | E0
  | StateT | Tr | Tru | StateF | Fa | Fal | Fals | StateN | Nu | Nul | StateError.

(** The stack of what is being parsed, the innermost first. *)
Record scanner := {
  next : step_function;
  endTop : bool;
  parseState : list parse;
  err : option string;
}.

Definition maxNestingDepth : Z := 10000.
Definition reset : scanner := {| next := BeginValue; endTop := false; parseState := []; err := None |}.

Definition go (f : step_function) (s : scanner) : scanner :=
  {| next := f; endTop := endTop s; parseState := parseState s; err := err s |}.
Definition set_parseState (l : list parse) (s : scanner) : scanner :=
  {| next := next s; endTop := endTop s; parseState := l; err := err s |}.

Definition same (c d : ascii) : bool := Ascii.eqb c d.
Definition quotation : ascii := ascii_of_nat 34.
Definition isSpace (c : ascii) : bool :=
  same c " " || same c (ascii_of_nat 9) || same c (ascii_of_nat 13) || same c (ascii_of_nat 10).
Definition digit (c : ascii) : bool := Utf8.between 48 57 c.
Definition digit19 (c : ascii) : bool := Utf8.between 49 57 c.
Definition hexadecimal (c : ascii) : bool := digit c || Utf8.between 97 102 c || Utf8.between 65 70 c.

(** On ASCII bytes. *)
Definition quoteChar (c : ascii) : string :=
  if same c "'" then "'\''"
  else if same c quotation then String "'" (String quotation "'")
  else ("'" ++ quote_byte c ++ "'")%string.

Definition scanner_error (c : ascii) (context : string) (s : scanner) : scanner * opcode :=
  ({| next := StateError; endTop := endTop s; parseState := parseState s;
      err := Some ("invalid character " ++ quoteChar c ++ " " ++ context)%string |}, scanError).

Definition pushParseState (c : ascii) (newParseState : parse) (successState : opcode) (s : scanner)
    : scanner * opcode :=
  let s := set_parseState (newParseState :: parseState s) s in
  if Z.of_nat (length (parseState s)) <=? maxNestingDepth then (s, successState)
  else scanner_error c "exceeded max depth" s.

Definition popParseState (s : scanner) : scanner :=
  match tail (parseState s) with
  | [] => {| next := EndTop; endTop := true; parseState := []; err := err s |}
  | l => go EndValue (set_parseState l s)
  end.

Definition stateEndTop (s : scanner) (c : ascii) : scanner * opcode :=
  if isSpace c then (s, scanEnd) else ((scanner_error c "after top-level value" s).1, scanEnd).

Definition stateEndValue (s : scanner) (c : ascii) : scanner * opcode :=
  match parseState s with
  | [] => stateEndTop {| next := EndTop; endTop := true; parseState := []; err := err s |} c
  | ps :: rest =>
      if isSpace c then (go EndValue s, scanSkipSpace)
      else match ps with
           | parseObjectKey =>
               if same c ":" then (go BeginValue (set_parseState (parseObjectValue :: rest) s), scanObjectKey)
               else scanner_error c "after object key" s
           | parseObjectValue =>
               if same c "," then (go BeginString (set_parseState (parseObjectKey :: rest) s), scanObjectValue)
               else if same c "}" then (popParseState s, scanEndObject)
               else scanner_error c "after object key:value pair" s
           | parseArrayValue =>
               if same c "," then (go BeginValue s, scanArrayValue)
               else if same c "]" then (popParseState s, scanEndArray)
               else scanner_error c "after array element" s
           end
  end.

Definition stateBeginValue (s : scanner) (c : ascii) : scanner * opcode :=
  if isSpace c then (s, scanSkipSpace)
  else if same c "{" then pushParseState c parseObjectKey scanBeginObject (go BeginStringOrEmpty s)
  else if same c "[" then pushParseState c parseArrayValue scanBeginArray (go BeginValueOrEmpty s)
  else if same c quotation then (go InString s, scanBeginLiteral)
  else if same c "-" then (go Neg s, scanBeginLiteral)
  else if same c "0" then (go State0 s, scanBeginLiteral)
  else if same c "t" then (go StateT s, scanBeginLiteral)
  else if same c "f" then (go StateF s, scanBeginLiteral)
  else if same c "n" then (go StateN s, scanBeginLiteral)
  else if digit19 c then (go State1 s, scanBeginLiteral)
  else scanner_error c "looking for beginning of value" s.

Definition stateBeginString (s : scanner) (c : ascii) : scanner * opcode :=
  if isSpace c then (s, scanSkipSpace)
  else if same c quotation then (go InString s, scanBeginLiteral)
  else scanner_error c "looking for beginning of object key string" s.

(** A state that goes on for some bytes only. *)
Definition expect (ok : bool) (f : step_function) (context : string) (s : scanner) (c : ascii) : scanner * opcode :=
  if ok then (go f s, scanContinue) else scanner_error c context s.

Definition state0 (s : scanner) (c : ascii) : scanner * opcode :=
  if same c "." then (go Dot s, scanContinue)
  else if same c "e" || same c "E" then (go StateE s, scanContinue)
  else stateEndValue s c.
Definition stateESign (s : scanner) (c : ascii) : scanner * opcode :=
  expect (digit c) E0 "in exponent of numeric literal" s c.

Definition literal_context (name : string) (c : ascii) : string :=
  ("in literal " ++ name ++ " (expecting '" ++ String c "')")%string.

(** [s.step(s, c)]. *)
Definition step (s : scanner) (c : ascii) : scanner * opcode :=
  let hex := expect (hexadecimal c) in
  let letter name d f := expect (same c d) f (literal_context name d) s c in
  match next s with
  | BeginValueOrEmpty =>
      if isSpace c then (s, scanSkipSpace) else if same c "]" then stateEndValue s c else stateBeginValue s c
  | BeginValue => stateBeginValue s c
  | BeginStringOrEmpty =>
      if isSpace c then (s, scanSkipSpace)
      else if same c "}" then stateEndValue (set_parseState (parseObjectValue :: tail (parseState s)) s) c
      else stateBeginString s c
  | BeginString => stateBeginString s c
  | EndValue => stateEndValue s c
  | EndTop => stateEndTop s c
  | InString =>
      if same c quotation then (go EndValue s, scanContinue)
      else if same c "\" then (go InStringEsc s, scanContinue)
      else if Utf8.between 0 31 c then scanner_error c "in string literal" s
      else (s, scanContinue)
  | InStringEsc =>
      if same c "b" || same c "f" || same c "n" || same c "r" || same c "t" || same c "\" || same c "/" || same c quotation
      then (go InString s, scanContinue)
      else if same c "u" then (go InStringEscU s, scanContinue)
      else scanner_error c "in string escape code" s
  | InStringEscU => hex InStringEscU1 "in \u hexadecimal character escape" s c
  | InStringEscU1 => hex InStringEscU12 "in \u hexadecimal character escape" s c
  | InStringEscU12 => hex InStringEscU123 "in \u hexadecimal character escape" s c
  | InStringEscU123 => hex InString "in \u hexadecimal character escape" s c
  | Neg => if same c "0" then (go State0 s, scanContinue) else expect (digit19 c) State1 "in numeric literal" s c
  | State1 => if digit c then (go State1 s, scanContinue) else state0 s c
  | State0 => state0 s c
  | Dot => expect (digit c) Dot0 "after decimal point in numeric literal" s c
  | Dot0 => if digit c then (s, scanContinue)
            else if same c "e" || same c "E" then (go StateE s, scanContinue) else stateEndValue s c
  | StateE => if same c "+" || same c "-" then (go ESign s, scanContinue) else stateESign s c
  | ESign => stateESign s c
  | E0 => if digit c then (s, scanContinue) else stateEndValue s c
  | StateT => letter "true" "r"%char Tr
  | Tr => letter "true" "u"%char Tru
  | Tru => letter "true" "e"%char EndValue
  | StateF => letter "false" "a"%char Fa
  | Fa => letter "false" "l"%char Fal
  | Fal => letter "false" "s"%char Fals
  | Fals => letter "false" "e"%char EndValue
  | StateN => letter "null" "u"%char Nu
  | Nu => letter "null" "l"%char Nul
  | Nul => letter "null" "l"%char EndValue
  | StateError => (s, scanError)
  end.

Definition eof (s : scanner) : scanner * opcode :=
  match err s with
  | Some _ => (s, scanError)
  | None =>
      if endTop s then (s, scanEnd)
      else let s := (step s " ").1 in
           if endTop s then (s, scanEnd)
           else ({| next := next s; endTop := endTop s; parseState := parseState s;
                    err := match err s with
                           | None => Some "unexpected end of JSON input"
                           | Some e => Some e
                           end |}, scanError)
  end.

(** [checkValid]: the message of the error. *)
Fixpoint scan_all (s : scanner) (data : string) : option string :=
  match data with
  | EmptyString => match eof s with (s, scanError) => err s | _ => None end
  | String c data => match step s c with (s, scanError) => err s | (s, _) => scan_all s data end
  end.
Definition checkValid (data : string) : option string := scan_all reset data.
End Scanner.

(** ** Strings *)
Module Strings.
Import Scanner.

(** [utf8.DecodeRune] on text that does not start with an ASCII byte: the bytes of
    the first rune, or none for a byte that is not one, and the rest. *)
Definition rune (s : string) : option string * string :=
  match s with
  | EmptyString => (None, "")
  | String c r0 =>
      match r0 with
      | EmptyString => (None, r0)
      | String c1 r1 =>
          if Utf8.two c c1 then (Some (String c (String c1 "")), r1) else
          match r1 with
          | EmptyString => (None, r0)
          | String c2 r2 =>
              if Utf8.three c c1 c2 then (Some (String c (String c1 (String c2 ""))), r2) else
              match r2 with
              | EmptyString => (None, r0)
              | String c3 r3 =>
                  if Utf8.four c c1 c2 c3 then (Some (String c (String c1 (String c2 (String c3 "")))), r3)
                  else (None, r0)
              end
          end
      end
  end.
Definition replaced (r : option string) : string := default (Utf8.RuneError "") r.

(** *** What the encoder writes ([encodeState.string], HTML escaped) *)
Definition backslash (rest : string) : string := String "\" rest.
Definition escape_byte (c : ascii) : string :=
  let n := nat_of_ascii c in
  if same c "\" || same c quotation then backslash (String c "")
  else if (n =? 10)%nat then backslash "n"
  else if (n =? 13)%nat then backslash "r"
  else if (n =? 9)%nat then backslash "t"
  else if (n <? 32)%nat || same c "<" || same c ">" || same c "&"
  then backslash ("u00" ++ hex_digit (n / 16) ++ hex_digit (n mod 16))
  else String c "".
(** U+2028 and U+2029. *)
Definition separator (last : nat) : string := Utf8.b 226 (Utf8.b 128 (Utf8.b last "")).
Definition escape_rune (r : option string) : string :=
  match r with
  | None => backslash "ufffd"
  | Some p => if bool_decide (p = separator 168) then backslash "u2028"
              else if bool_decide (p = separator 169) then backslash "u2029" else p
  end.

(** The fuel is the number of bytes. *)
Fixpoint escape_from (n : nat) (s : string) : string :=
  match n, s with
  | S n, String c r => if Utf8.one c then (escape_byte c ++ escape_from n r)%string
                       else (escape_rune (rune s).1 ++ escape_from n (rune s).2)%string
  | _, _ => ""
  end.
Definition escape (s : string) : string := escape_from (String.length s) s.
Definition print_string (s : string) : string := String quotation (escape s ++ String quotation "").

(** *** What the decoder makes of a literal ([unquoteBytes])

    Runes are numbers. *)
Definition hex_value (c : ascii) : option Z :=
  let n := Z.of_nat (nat_of_ascii c) in
  if digit c then Some (n - 48)
  else if Utf8.between 97 102 c then Some (n - 97 + 10)
  else if Utf8.between 65 70 c then Some (n - 65 + 10) else None.
Definition getu4 (s : string) : option Z :=
  match s with
  | String b (String u (String c1 (String c2 (String c3 (String c4 _))))) =>
      if same b "\" && same u "u" then
        d1 ← hex_value c1; d2 ← hex_value c2; d3 ← hex_value c3; d4 ← hex_value c4;
        Some (((d1 * 16 + d2) * 16 + d3) * 16 + d4)
      else None
  | _ => None
  end.

(** [unicode.ReplacementChar], and [unicode/utf16]. *)
Definition ReplacementChar : Z := 65533.
Definition IsSurrogate (r : Z) : bool := (55296 <=? r) && (r <? 57344).
Definition DecodeRune16 (r1 : Z) (r2 : option Z) : Z :=
  match r2 with
  | Some r2 => if (55296 <=? r1) && (r1 <? 56320) && (56320 <=? r2) && (r2 <? 57344)
               then (r1 - 55296) * 1024 + (r2 - 56320) + 65536 else ReplacementChar
  | None => ReplacementChar
  end.
(** [utf8.EncodeRune] of a rune that is not negative. *)
Definition byte_of (n : Z) : ascii := ascii_of_nat (Z.to_nat n).
Definition EncodeRune (r : Z) : string :=
  if r <=? 127 then String (byte_of r) ""
  else if r <=? 2047 then String (byte_of (192 + r / 64)) (String (byte_of (128 + r mod 64)) "")
  else if (1114111 <? r) || IsSurrogate r then Utf8.RuneError ""
  else if r <=? 65535 then
    String (byte_of (224 + r / 4096)) (String (byte_of (128 + r / 64 mod 64)) (String (byte_of (128 + r mod 64)) ""))
  else String (byte_of (240 + r / 262144)) (String (byte_of (128 + r / 4096 mod 64))
         (String (byte_of (128 + r / 64 mod 64)) (String (byte_of (128 + r mod 64)) ""))).

Definition drop_bytes (n : nat) (s : string) : string := Nat.iter n (λ s, match s with String _ s => s | _ => "" end) s.

(** An escape: what it stands for and the text after it. *)
Definition unescape (s : string) : option (string * string) :=
  match s with
  | String _ (String e r) =>
      if same e quotation || same e "\" || same e "/" || same e "'" then Some (String e "", r)
      else if same e "b" then Some (String (ascii_of_nat 8) "", r)
      else if same e "f" then Some (String (ascii_of_nat 12) "", r)
      else if same e "n" then Some (String (ascii_of_nat 10) "", r)
      else if same e "r" then Some (String (ascii_of_nat 13) "", r)
      else if same e "t" then Some (String (ascii_of_nat 9) "", r)
      else if same e "u" then
        rr ← getu4 s;
        let after := drop_bytes 6 s in
        if IsSurrogate rr then
          let dec := DecodeRune16 rr (getu4 after) in
          if dec =? ReplacementChar then Some (EncodeRune ReplacementChar, after)
          else Some (EncodeRune dec, drop_bytes 6 after)
        else Some (EncodeRune rr, after)
      else None
  | _ => None
  end.

(** The content of a literal; the fuel is the number of its bytes.  The path that
    copies nothing is left out. *)
Fixpoint unquote_from (n : nat) (s : string) : option string :=
  match s with
  | EmptyString => Some ""
  | String c r =>
      match n with
      | O => None
      | S n =>
          if same c "\" then '(out, r) ← unescape s; String.append out <$> unquote_from n r
          else if same c quotation || Utf8.between 0 31 c then None
          else if Utf8.one c then String c <$> unquote_from n r
          else String.append (replaced (rune s).1) <$> unquote_from n (rune s).2
      end
  end.
Definition unquote_content (s : string) : option string := unquote_from (String.length s) s.

(** The literal without its last byte. *)
Fixpoint without_last (s : string) : option (string * ascii) :=
  match s with
  | EmptyString => None
  | String c EmptyString => Some ("", c)
  | String c s => '(s, l) ← without_last s; Some (String c s, l)
  end.
Definition unquote (s : string) : option string :=
  match s with
  | String q s => '(content, q') ← without_last s;
                  if same q quotation && same q' quotation then unquote_content content else None
  | EmptyString => None
  end.
End Strings.

(** ** Numbers ([convertNumber], with [strconv]) *)
Module Numbers.
Import Scanner SpecFloat.

(** [strconv.ParseInt(s, 10, 64)] of the literals of JSON. *)
Definition int64 (z : Z) : bool := (- 2 ^ 63 <=? z) && (z <? 2 ^ 63).
Definition ParseInt (s : string) : option Z :=
  match DecimalString.NilZero.int_of_string s with
  | Some d => if int64 (Z.of_int d) then Some (Z.of_int d) else None
  | None => None
  end.

(** The digits at the start of a text, after those that make [acc]: the number they
    make, how many they are, and the rest. *)
Fixpoint digits (s : string) (acc : Z) : Z * Z * string :=
  match s with
  | String c r =>
      if digit c then let '(n, k, rest) := digits r (10 * acc + (Z.of_nat (nat_of_ascii c) - 48)) in (n, k + 1, rest)
      else (acc, 0, s)
  | EmptyString => (acc, 0, "")
  end.
Definition minus (s : string) : bool * string :=
  match s with String c r => if same c "-" then (true, r) else (false, s) | EmptyString => (false, "") end.
Definition exponent (s : string) : option Z :=
  match s with
  | EmptyString => Some 0
  | String c r =>
      if same c "e" || same c "E" then
        let '(neg, r) := match r with String d r' => if same d "+" then (false, r') else minus r | _ => (false, r) end in
        let '(n, k, rest) := digits r 0 in
        if is_empty rest && (0 <? k) then Some (if neg : bool then - n else n) else None
      else None
  end.
(** A decimal literal: its sign, digits and exponent of ten. *)
Definition decimal (s : string) : option (bool * Z * Z) :=
  let '(neg, s) := minus s in
  let '(n, _, s) := digits s 0 in
  let '(n, k, s) := match s with
                    | String c r => if same c "." then digits r n else (n, 0, s)
                    | EmptyString => (n, 0, s)
                    end in
  e ← exponent s; Some (neg, n, e - k).

(** [strconv.ParseFloat(s, 64)]: the nearest [float64], or the error when that is
    beyond the finite ones. *)
Definition float64 : Type := spec_float.
Definition nearest (neg : bool) (m : positive) (e : Z) : float64 :=
  if 0 <=? e then
    match Z.pos m * 10 ^ e with Zpos m => binary_round 53 1024 neg m 0 | _ => S754_zero neg end
  else
    match 10 ^ (- e) with
    | Zpos d => SFdiv 53 1024 (S754_finite neg m 0) (S754_finite false d 0)
    | _ => S754_zero neg
    end.
Definition ParseFloat (s : string) : option float64 :=
  '(neg, n, e) ← decimal s;
  match n with
  | Zpos m => match nearest neg m e with S754_infinity _ => None | f => Some f end
  | _ => Some (S754_zero neg)
  end.

(** Generic values ([interface{}]). *)
Inductive any :=
  | Nil | Bool (b : bool) | Int64 (i : Z) | Float64 (f : float64) | Number (literal : string) | Str (s : string)
  | Slice (l : list any) | Map (m : gmap string any).

Fixpoint contains (c : ascii) (s : string) : bool :=
  match s with String d s => same d c || contains c s | EmptyString => false end.

(** The settings of a decoder. *)
Record options := { useNumber : bool; preserveInts : bool }.
Definition convertNumber (o : options) (s : string) : any * option error :=
  if useNumber o then (Number s, None)
  else
    match if preserveInts o && negb (contains "." s) then ParseInt s else None with
    | Some i => (Int64 i, None)
    | None =>
        match ParseFloat s with
        | Some f => (Float64 f, None)
        | None => (Nil, Some (plainError ("json: cannot unmarshal number " ++ s ++ " into Go value of type float64")))
        end
    end.
End Numbers.

(** ** The decoder ([decode.go]) *)
Module Decoder.
Import Scanner Strings Numbers.

(** What is made of the parts of a text. *)
Class Values (V : Type) := {
  v_null : V;
  v_bool : bool → V;
  v_string : string → V;
  v_number : string → V;
  v_slice : list V → V;
  v_map : list (string * V) → V;
}.

(** Generic values, with the error that is saved while they are made
    ([savedError], the first one). *)
Definition first_error (es : list (option error)) : option error :=
  foldr (λ e rest, match e with Some _ => e | None => rest end) None es.
Definition interface_values (o : options) : Values (any * option error) :=
  {| v_null := (Nil, None); v_bool := λ b, (Bool b, None); v_string := λ s, (Str s, None);
     v_number := convertNumber o;
     v_slice := λ l, (Slice l.*1, first_error l.*2);
     v_map := λ ms, (Map (foldl (λ m '(k, v), <[k := v.1]> m) ∅ ms), first_error (snd ∘ snd <$> ms)) |}.

(** Trees: a number is an integer if it is written as one. *)
Definition number (item : string) : json :=
  match DecimalString.NilZero.int_of_string item with
  | Some d => JNumber (Z.of_int d)
  | None => JFraction item
  end.
#[export] Instance trees : Values json :=
  {| v_null := JNull; v_bool := JBool; v_string := JString; v_number := number; v_slice := JArray;
     v_map := JObject |}.

(** [decodeState]: the text from the byte read last on ([data[off-1:]], empty at
    the end), the last result of the scanner, and the scanner. *)
Record decodeState := { unread : string; op : opcode; scan : scanner }.

Definition rest_of (s : string) : string := match s with String _ s => s | EmptyString => "" end.

(** Reads on from [s]. *)
Definition read (sc : scanner) (s : string) : decodeState :=
  match s with
  | EmptyString => {| unread := ""; op := (eof sc).2; scan := (eof sc).1 |}
  | String c _ => {| unread := s; op := (step sc c).2; scan := (step sc c).1 |}
  end.
Definition scanNext (d : decodeState) : decodeState := read (scan d) (rest_of (unread d)).

Fixpoint read_while (o : opcode) (sc : scanner) (s : string) : decodeState :=
  match s with
  | String c r => if bool_decide ((step sc c).2 = o) then read_while o (step sc c).1 r else read sc s
  | EmptyString => read sc ""
  end.
Definition scanWhile (o : opcode) (d : decodeState) : decodeState := read_while o (scan d) (rest_of (unread d)).
Definition skip_space (d : decodeState) : decodeState :=
  if bool_decide (op d = scanSkipSpace) then scanWhile scanSkipSpace d else d.

(** The end of a literal and the text after it ([rescanLiteral]). *)
Fixpoint string_end (s : string) : string * string :=
  match s with
  | EmptyString => ("", "")
  | String c r =>
      if same c "\" then
        match r with
        | String e r => let '(l, rest) := string_end r in (String c (String e l), rest)
        | EmptyString => (String c "", "")
        end
      else if same c quotation then (String c "", r)
      else let '(l, rest) := string_end r in (String c l, rest)
  end.
Definition number_byte (c : ascii) : bool :=
  digit c || same c "." || same c "e" || same c "E" || same c "+" || same c "-".
Fixpoint number_end (s : string) : string * string :=
  match s with
  | String c r => if number_byte c then let '(l, rest) := number_end r in (String c l, rest) else ("", s)
  | EmptyString => ("", "")
  end.
Definition take_drop (n : nat) (s : string) : string * string := (String.substring 0 n s, drop_bytes n s).
Definition literal_end (c : ascii) (s : string) : string * string :=
  if same c quotation then string_end s
  else if digit c || same c "-" then number_end s
  else if same c "t" then take_drop 3 s
  else if same c "f" then take_drop 4 s
  else if same c "n" then take_drop 3 s
  else ("", s).

Definition rescanLiteral (d : decodeState) : string * decodeState :=
  match unread d with
  | EmptyString => ("", d)
  | String c s =>
      let '(l, rest) := literal_end c s in
      (String c l,
       match rest with
       | EmptyString => {| unread := ""; op := scanEnd; scan := scan d |}
       | String c' _ => {| unread := rest; op := (stateEndValue (scan d) c').2; scan := (stateEndValue (scan d) c').1 |}
       end)
  end.

Section literals.
Context {V : Type} `{Values V}.

(** [literalInterface]; [None] is the panic with [phasePanicMsg]. *)
Definition literal (item : string) : option V :=
  match item with
  | EmptyString => None
  | String c _ =>
      if same c "n" then Some v_null
      else if same c "t" || same c "f" then Some (v_bool (same c "t"))
      else if same c quotation then v_string <$> unquote item
      else if negb (same c "-") && negb (digit c) then None
      else Some (v_number item)
  end.
Definition literalInterface (d : decodeState) : option (V * decodeState) :=
  let '(item, d) := rescanLiteral d in j ← literal item; Some (j, d).

End literals.

(** [None] is the panic, or the end of the fuel. *)
Fixpoint valueInterface {V} `{Values V} (n : nat) (d : decodeState) : option (V * decodeState) :=
  match n with
  | O => None
  | S n =>
      match op d with
      | scanBeginArray => '(l, d) ← arrayInterface n d; Some (v_slice l, scanNext d)
      | scanBeginObject => '(ms, d) ← objectInterface n d; Some (v_map ms, scanNext d)
      | scanBeginLiteral => literalInterface d
      | _ => None
      end
  end
with arrayInterface {V} `{Values V} (n : nat) (d : decodeState) : option (list V * decodeState) :=
  match n with
  | O => None
  | S n =>
      let d := scanWhile scanSkipSpace d in
      if bool_decide (op d = scanEndArray) then Some ([], d)
      else
        '(v, d) ← valueInterface n d;
        let d := skip_space d in
        match op d with
        | scanEndArray => Some ([v], d)
        | scanArrayValue => '(l, d) ← arrayInterface n d; Some (v :: l, d)
        | _ => None
        end
  end
with objectInterface {V} `{Values V} (n : nat) (d : decodeState) : option (list (string * V) * decodeState) :=
  match n with
  | O => None
  | S n =>
      let d := scanWhile scanSkipSpace d in
      match op d with
      | scanEndObject => Some ([], d)
      | scanBeginLiteral =>
          let '(item, d) := rescanLiteral d in
          key ← unquote item;
          let d := skip_space d in
          if bool_decide (op d = scanObjectKey) then
            let d := scanWhile scanSkipSpace d in
            '(v, d) ← valueInterface n d;
            let d := skip_space d in
            match op d with
            | scanEndObject => Some ([(key, v)], d)
            | scanObjectValue => '(ms, d) ← objectInterface n d; Some ((key, v) :: ms, d)
            | _ => None
            end
          else None
      | _ => None
      end
  end.

(** [unmarshal]: the decoder, which reads what it needs of the text; [None] is the
    panic. *)
Definition decode_fuel (s : string) : nat := S (2 * String.length s).
Definition decode {V} `{Values V} (s : string) : option V :=
  fst <$> valueInterface (decode_fuel s) (read_while scanSkipSpace reset s).
Definition decode_valid {V} `{Values V} (s : string) : option (error + V) :=
  match checkValid s with
  | Some msg => Some (inl (plainError msg))
  | None => inr <$> decode s
  end.

(** [Unmarshal] into a variable of type [interface{}]: a syntax error, or the value
    that is stored with the error that is returned. *)
Definition Unmarshal (o : options) (s : string) : option (error + any * option error) :=
  decode_valid (V := any * option error) (H := interface_values o) s.
(** The tree that a decoder goes through when it fills a Go value. *)
Definition read_tree (s : string) : option (error + json) := decode_valid s.
End Decoder.
