(* ===== verification/JsonSync.v ===== *)
(** * The decoder of JSON stays in step with the scanner

    The decoder of [JsonText] reads again, with its own scanner, a text in which
    [checkValid] found no error; it skips over literals by itself
    ([rescanLiteral]).  That its panic "JSON decoder out of sync" is never reached
    is shown here. *)
From S2P Require Import Prelude GoStrings GoErrors Json JsonText.

Module Sync.
Import Scanner Strings Numbers Decoder.

(** The scanner of texts without an error so far, and at the end of the text. *)
Definition at_ (f : step_function) (l : list parse) : scanner :=
  {| next := f; endTop := false; parseState := l; err := None |}.
Definition popped (l : list parse) : scanner :=
  match l with [] => {| next := EndTop; endTop := true; parseState := []; err := None |} | _ => at_ EndValue l end.

(** The scanner reads the text to its end without an error. *)
Fixpoint accepts (sc : scanner) (s : string) : bool :=
  match s with
  | EmptyString => negb (bool_decide ((eof sc).2 = scanError))
  | String c s => negb (bool_decide ((step sc c).2 = scanError)) && accepts (step sc c).1 s
  end.

(** A scanner with an error accepts nothing. *)
Definition failed (sc : scanner) : Prop := next sc = StateError ∧ is_Some (err sc).
Lemma failed_rejects sc s : failed sc → accepts sc s = false.
Proof.
  intros [Hn [e He]]. destruct s as [|c s]; simpl; [unfold eof; by rewrite He|].
  unfold step. by rewrite Hn.
Qed.

(** What a step leaves. *)
Definition fine (r : scanner * opcode) : Prop :=
  (next r.1 = StateError → is_Some (err r.1)) ∧ (r.2 = scanError → failed r.1).
Lemma fine_error c context sc : fine (scanner_error c context sc).
Proof. split; [by eauto|]. by split; eauto. Qed.
#[local] Hint Resolve fine_error : core.
Lemma fine_EndValue sc c : fine (stateEndValue sc c).
Proof.
  unfold stateEndValue, stateEndTop, popParseState. repeat case_match; auto; try (by split; simpl; eauto).
Qed.
#[local] Hint Resolve fine_EndValue : core.
Section fine.
Context (sc : scanner) (c : ascii).
Hypothesis sc_fine : next sc = StateError → is_Some (err sc).
Lemma fine_same o : o ≠ scanError → fine (sc, o).
Proof. by split. Qed.
Lemma fine_go f o : f ≠ StateError → o ≠ scanError → fine (go f sc, o).
Proof. by split. Qed.
#[local] Hint Resolve fine_same fine_go : core.
Lemma fine_expect ok f context : f ≠ StateError → fine (expect ok f context sc c).
Proof. unfold expect. intros. destruct ok; [by apply fine_go|auto]. Qed.
Lemma fine_state0 : fine (state0 sc c).
Proof.
  unfold state0. destruct (same c "."); [by apply fine_go|].
  destruct (_ || _); [by apply fine_go|apply fine_EndValue].
Qed.
Lemma fine_push p o f : f ≠ StateError → o ≠ scanError → fine (pushParseState c p o (go f sc)).
Proof. intros. unfold pushParseState. destruct (_ <=? _); [by split|apply fine_error]. Qed.
Lemma fine_BeginValue : fine (stateBeginValue sc c).
Proof.
  unfold stateBeginValue.
  repeat (match goal with |- context [if ?b then _ else _] => destruct b end;
          [first [by apply fine_same|by apply fine_go|by apply fine_push]|]). apply fine_error.
Qed.
Lemma fine_BeginString : fine (stateBeginString sc c).
Proof. unfold stateBeginString. repeat case_match; auto. Qed.
Lemma fine_step : fine (step sc c).
Proof.
  assert (Hf : ∃ f, next sc = f) by eauto. destruct Hf as [f Hn]. unfold step, stateESign. rewrite Hn.
  destruct f;
    repeat first [by apply fine_expect|by apply fine_state0|apply fine_BeginValue|apply fine_BeginString
                 |apply fine_EndValue|by apply fine_same|by apply fine_go|apply fine_error|case_match].
  - unfold stateEndTop. destruct (isSpace c); [by apply fine_same|]. by split; simpl; eauto.
  - split; [done|]. split; [done|]. by apply sc_fine.
Qed.
End fine.

Lemma accepts_step sc c s :
  accepts sc (String c s) = true → (step sc c).2 ≠ scanError ∧ accepts (step sc c).1 s = true.
Proof. simpl. intros [H1 H2]%andb_true_iff. by apply negb_true_iff, bool_decide_eq_false in H1. Qed.

(** [checkValid] says nothing exactly of the texts that are accepted. *)
Lemma scan_all_accepts s : ∀ sc, (next sc = StateError → is_Some (err sc)) →
  scan_all sc s = None ↔ accepts sc s = true.
Proof.
  induction s as [|c s IH]; intros sc Hsc; simpl.
  - rewrite negb_true_iff, bool_decide_eq_false. unfold eof.
    destruct (err sc) as [e|] eqn:He; simpl; [rewrite He; split; congruence|]. destruct (endTop sc); simpl; [done|].
    destruct (endTop _); simpl; [done|]. split; [|congruence]. by destruct (err (step sc " ").1).
  - rewrite andb_true_iff, negb_true_iff, bool_decide_eq_false.
    destruct (fine_step sc c Hsc) as [Hok Hf]. destruct (step sc c) as [sc' o]. simpl in *.
    destruct (decide (o = scanError)) as [->|Hne]; [|rewrite <- IH by done; destruct o; naive_solver congruence].
    destruct (Hf eq_refl) as [_ [e ->]]. split; [congruence|by intros []].
Qed.

(** *** Spaces *)
Lemma read_while_space sc s :
  (∀ c, (step sc c).2 = scanSkipSpace → (step sc c).1 = sc) → accepts sc s = true →
  ∃ s', read_while scanSkipSpace sc s = read sc s' ∧ accepts sc s' = true ∧
        (String.length s' ≤ String.length s)%nat ∧
        match s' with "" => True | String c _ => (step sc c).2 ≠ scanSkipSpace end.
Proof.
  intros Hsc. induction s as [|c s IH]; intros Hacc; [by exists ""|].
  destruct (decide ((step sc c).2 = scanSkipSpace)) as [Hsp|Hsp].
  - apply accepts_step in Hacc as [_ Hacc]. rewrite Hsc in Hacc by done.
    destruct (IH Hacc) as (s' & Hr & ? & ? & ?). exists s'. simpl.
    rewrite bool_decide_eq_true_2, Hsc by done. split_and!; [done|done|lia|done].
  - exists (String c s). change (read_while scanSkipSpace sc (String c s)) with
      (if bool_decide ((step sc c).2 = scanSkipSpace) then read_while scanSkipSpace (step sc c).1 s
       else read sc (String c s)).
    by rewrite bool_decide_eq_false_2.
Qed.

Lemma end_skips l c : (step (at_ EndValue l) c).2 = scanSkipSpace → (step (at_ EndValue l) c).1 = at_ EndValue l.
Proof.
  unfold step, stateEndValue, stateEndTop. simpl. destruct l as [|p l]; simpl; [by destruct (isSpace c)|].
  destruct (isSpace c); [done|]. destruct p; repeat case_match; done.
Qed.
Lemma BeginValue_skips l c :
  (stateBeginValue (at_ BeginValue l) c).2 = scanSkipSpace → (stateBeginValue (at_ BeginValue l) c).1 = at_ BeginValue l.
Proof.
  unfold stateBeginValue, pushParseState. destruct (isSpace c); [done|]. repeat case_match; done.
Qed.

(** *** After a value *)

(** The decoder has read on after a value, inside of [l], before [s]. *)
Definition follows (l : list parse) (s : string) (d : decodeState) : Prop :=
  unread d = s ∧
  match s with
  | EmptyString => op d = scanEnd
  | String c _ => (scan d, op d) = step (at_ EndValue l) c
  end.

Lemma stateEndValue_next f l c : stateEndValue (at_ f l) c = step (at_ EndValue l) c.
Proof. destruct l as [|p l]; [done|]. unfold step, stateEndValue. simpl. by destruct (isSpace c), p; repeat case_match. Qed.

Lemma accepts_end p l : accepts (at_ EndValue (p :: l)) "" = false.
Proof. by destruct p. Qed.
Lemma accepts_popped l s : accepts (popped l) s = accepts (at_ EndValue l) s.
Proof. by destruct l, s. Qed.
Lemma follows_popped l s d c :
  scan d = popped l → unread d = String c s → accepts (at_ EndValue l) s = true → follows l s (scanNext d).
Proof.
  intros Hsc Hun Hacc. unfold scanNext. rewrite Hsc, Hun. destruct s as [|c' s]; simpl.
  - split; [done|]. destruct l as [|p l]; [done|]. by rewrite accepts_end in Hacc.
  - split; [done|]. simpl. rewrite <- surjective_pairing. by destruct l as [|p l].
Qed.

(** Inside of an array or an object, the decoder skips spaces to a separator. *)
Lemma skip_follows p l s d :
  follows (p :: l) s d → accepts (at_ EndValue (p :: l)) s = true →
  ∃ c r, skip_space d = read (at_ EndValue (p :: l)) (String c r) ∧
         accepts (at_ EndValue (p :: l)) (String c r) = true ∧ isSpace c = false ∧
         (S (String.length r) ≤ String.length s)%nat.
Proof.
  intros [Hun Hop] Hacc. destruct s as [|c s]; [by rewrite accepts_end in Hacc|].
  assert (Hd : d = read (at_ EndValue (p :: l)) (String c s)).
  { destruct d as [u o sc]. simpl in *. subst u. simpl. by rewrite <- Hop. }
  unfold skip_space, scanWhile. destruct (isSpace c) eqn:Hsp.
  - assert (Hst : step (at_ EndValue (p :: l)) c = (at_ EndValue (p :: l), scanSkipSpace)).
    { unfold step, stateEndValue. simpl. by rewrite Hsp. }
    rewrite Hst in Hop. injection Hop as -> ->. rewrite bool_decide_eq_true_2 by done. rewrite Hun. simpl.
    apply accepts_step in Hacc as [_ Hacc]. rewrite Hst in Hacc. simpl in Hacc.
    destruct (read_while_space _ _ (end_skips (p :: l)) Hacc) as ([|c' s'] & -> & Hacc' & Hlen & Hns);
      [by rewrite accepts_end in Hacc'|].
    exists c', s'. simpl in Hlen. split_and!; [done|done| |lia].
    destruct (isSpace c') eqn:Hsp'; [|done]. unfold step, stateEndValue in Hns. simpl in Hns. by rewrite Hsp' in Hns.
  - exists c, s. split_and!; [|done|done|simpl; lia]. rewrite Hd. simpl. rewrite bool_decide_eq_false_2; [done|].
    unfold step, stateEndValue. simpl. rewrite Hsp. destruct p; repeat case_match; by intros [=].
Qed.

(** *** String literals *)

(** The content of a literal that the scanner takes. *)
Inductive content : string → Prop :=
  | content_end : content ""
  | content_byte c s :
      same c "\" = false → same c quotation = false → Utf8.between 0 31 c = false → content s → content (String c s)
  | content_escape e s :
      same e "b" || same e "f" || same e "n" || same e "r" || same e "t" || same e "\" || same e "/" ||
      same e quotation = true → content s → content (String "\" (String e s))
  | content_rune h1 h2 h3 h4 s :
      Forall (λ h, hexadecimal h = true) [h1; h2; h3; h4] → content s →
      content (String "\" (String "u" (String h1 (String h2 (String h3 (String h4 s)))))).

(** One byte of the scanner, if it takes it. *)
Lemma accepts_cons sc c s :
  accepts sc (String c s) = true → ∃ sc' o, step sc c = (sc', o) ∧ o ≠ scanError ∧ accepts sc' s = true.
Proof. intros [Ho Hs]%accepts_step. exists (step sc c).1, (step sc c).2. by rewrite <- surjective_pairing. Qed.

Lemma accepts_hex f f' context l s :
  (∀ c, step (at_ f l) c = expect (hexadecimal c) f' context (at_ f l) c) →
  accepts (at_ f l) "" = false → accepts (at_ f l) s = true →
  ∃ h s', s = String h s' ∧ hexadecimal h = true ∧ accepts (at_ f' l) s' = true.
Proof.
  intros Hstep Hend Hacc. destruct s as [|h s]; [congruence|].
  apply accepts_cons in Hacc as (sc & o & Hst & Ho & Hacc). rewrite Hstep in Hst. unfold expect in Hst.
  destruct (hexadecimal h) eqn:Hh; injection Hst as <- <-; [|done]. by exists h, s.
Qed.

Lemma accepts_string l s n :
  (String.length s < n)%nat → accepts (at_ InString l) s = true →
  ∃ t rest, s = (t ++ String quotation rest)%string ∧ content t ∧ accepts (at_ EndValue l) rest = true.
Proof.
  revert s. induction n as [|n IH]; intros s Hn Hacc; [lia|]. destruct s as [|c s]; [done|]. simpl in Hn.
  apply accepts_cons in Hacc as (sc & o & Hst & Ho & Hacc). unfold step in Hst. simpl in Hst.
  destruct (same c quotation) eqn:Hq.
  { apply Ascii.eqb_eq in Hq as ->. injection Hst as <- <-. exists "", s. by repeat constructor. }
  destruct (same c "\") eqn:Hb.
  2: { destruct (Utf8.between 0 31 c) eqn:Hc; injection Hst as <- <-; [done|].
       destruct (IH s) as (t & rest & -> & Ht & Hrest); [clear -Hn; lia|done|].
       exists (String c t), rest. split_and!; [done|by constructor|done]. }
  apply Ascii.eqb_eq in Hb as ->. injection Hst as <- <-. destruct s as [|e s]; [done|]. simpl in Hn.
  apply accepts_cons in Hacc as (sc & o & Hst & Ho' & Hacc). unfold step in Hst. cbn [next go at_] in Hst.
  destruct (_ || _) eqn:He in Hst.
  - injection Hst as <- <-. destruct (IH s) as (t & rest & -> & Ht & Hrest); [clear -Hn; lia|done|].
    exists (backslash (String e t)), rest. split_and!; [done|by constructor|done].
  - destruct (same e "u") eqn:Hu; injection Hst as <- <-; [|done]. apply Ascii.eqb_eq in Hu as ->.
    eapply (accepts_hex InStringEscU) in Hacc as (h1 & s1 & -> & Hh1 & Hacc); [|done|done].
    eapply (accepts_hex InStringEscU1) in Hacc as (h2 & s2 & -> & Hh2 & Hacc); [|done|done].
    eapply (accepts_hex InStringEscU12) in Hacc as (h3 & s3 & -> & Hh3 & Hacc); [|done|done].
    eapply (accepts_hex InStringEscU123) in Hacc as (h4 & s4 & -> & Hh4 & Hacc); [|done|done].
    simpl in Hn. destruct (IH s4) as (t & rest & -> & Ht & Hrest); [clear -Hn; lia|done|].
    eexists (backslash (String "u" (String h1 (String h2 (String h3 (String h4 t)))))), rest.
    split_and!; [done| |done]. constructor; [by repeat constructor|done].
Qed.

(** The decoder finds the same end of the literal. *)
Lemma string_end_content t rest :
  content t → string_end (t ++ String quotation rest) = ((t ++ String quotation "")%string, rest).
Proof.
  induction 1 as [|c s Hb Hq _ _ IH|e s He _ IH|h1 h2 h3 h4 s Hh _ IH]; [done| | |].
  - simpl. by rewrite Hb, Hq, IH.
  - simpl. by rewrite IH.
  - assert (Hhex : ∀ h r, hexadecimal h = true → string_end (String h r) =
        (let '(l, rest) := string_end r in (String h l, rest))).
    { intros h r Hh'. simpl. destruct (same h "\") eqn:Hb; [by apply Ascii.eqb_eq in Hb as ->|].
      destruct (same h quotation) eqn:Hq; [by apply Ascii.eqb_eq in Hq as ->|done]. }
    rewrite !Forall_cons in Hh. destruct Hh as (Hh1 & Hh2 & Hh3 & Hh4 & _).
    unfold backslash. cbn [String.append].
    transitivity (let '(l, rest) := string_end (String h1 (String h2 (String h3 (String h4 (s ++ String quotation rest)))))
                  in (String "\" (String "u" l), rest)); [done|].
    by rewrite !Hhex, IH.
Qed.

Lemma without_last_app t q : without_last (t ++ String q "") = Some (t, q).
Proof. induction t as [|c [|c' t] IH]; [done|done|]. simpl in *. by rewrite IH. Qed.

(** *** What the decoder makes of the content *)
Lemma content_tail c s : (128 ≤ nat_of_ascii c)%nat → content (String c s) → content s.
Proof. intros Hc. inversion 1; subst; [done|exfalso; vm_compute in Hc; lia..]. Qed.

(** Bytes that are not ASCII before [t]. *)
Inductive high_before (t : string) : string → Prop :=
  | high_here : high_before t t
  | high_byte c s : (128 ≤ nat_of_ascii c)%nat → high_before t s → high_before t (String c s).
Lemma high_before_content s t : high_before t s → content s → content t.
Proof. induction 1; [done|]. intros Hc. by eapply IHhigh_before, content_tail. Qed.
Lemma high_before_length s t : high_before t s → (String.length t ≤ String.length s)%nat.
Proof. induction 1; simpl; lia. Qed.

Lemma two_high c c1 : Utf8.two c c1 = true → (128 ≤ nat_of_ascii c1)%nat.
Proof. Utf8.bytes. Qed.
Lemma three_high c c1 c2 :
  Utf8.three c c1 c2 = true → (128 ≤ nat_of_ascii c1)%nat ∧ (128 ≤ nat_of_ascii c2)%nat.
Proof. Utf8.bytes. Qed.
Lemma four_high c c1 c2 c3 : Utf8.four c c1 c2 c3 = true →
  (128 ≤ nat_of_ascii c1)%nat ∧ (128 ≤ nat_of_ascii c2)%nat ∧ (128 ≤ nat_of_ascii c3)%nat.
Proof. Utf8.bytes. Qed.

Lemma rune_high c s : high_before (rune (String c s)).2 s.
Proof.
  simpl. destruct s as [|c1 r1]; [constructor|].
  destruct (Utf8.two c c1) eqn:H2; [apply two_high in H2; by repeat constructor|].
  destruct r1 as [|c2 r2]; [constructor|].
  destruct (Utf8.three c c1 c2) eqn:H3; [apply three_high in H3 as [??]; by repeat constructor|].
  destruct r2 as [|c3 r3]; [constructor|].
  destruct (Utf8.four c c1 c2 c3) eqn:H4; [|constructor].
  apply four_high in H4 as (?&?&?). by repeat constructor.
Qed.

Lemma hex_value_some h : hexadecimal h = true → is_Some (hex_value h).
Proof. unfold hexadecimal, hex_value. intros H. repeat case_match; by eauto. Qed.

Lemma content_unescape s : content (String "\" s) →
  ∃ out r, unescape (String "\" s) = Some (out, r) ∧ content r ∧ (S (String.length r) ≤ String.length s)%nat.
Proof.
  inversion 1 as [|? ? Hb|e s' He Hs|h1 h2 h3 h4 s' Hh Hs]; subst; [done| |].
  - assert (Hex : ∃ out, unescape (String "\" (String e s')) = Some (out, s')).
    { rewrite !orb_true_iff in He. unfold same in He. rewrite !Ascii.eqb_eq in He.
      by decompose [or] He; subst; eexists. }
    destruct Hex as [out ->]. by exists out, s'.
  - rewrite !Forall_cons in Hh. destruct Hh as (Hh1 & Hh2 & Hh3 & Hh4 & _).
    apply hex_value_some in Hh1 as [d1 H1], Hh2 as [d2 H2], Hh3 as [d3 H3], Hh4 as [d4 H4].
    unfold unescape. cbn [same Ascii.eqb Bool.eqb orb].
    assert (Hu : getu4 (String "\" (String "u" (String h1 (String h2 (String h3 (String h4 s')))))) =
                 Some (((d1 * 16 + d2) * 16 + d3) * 16 + d4)) by (simpl; by rewrite H1, H2, H3, H4).
    rewrite Hu. simpl. destruct (IsSurrogate _); [|eexists _, s'; simpl; split_and!; [done|done|lia]].
    destruct (DecodeRune16 _ _ =? ReplacementChar) eqn:Hdec; [eexists _, s'; simpl; split_and!; [done|done|lia]|].
    destruct (getu4 s') as [rr|] eqn:Hu'; [|done]. clear - Hs Hu'.
    assert (Hr : content (drop_bytes 6 s') ∧ (String.length (drop_bytes 6 s') ≤ String.length s')%nat).
    { inversion Hs as [|? ? Hb|e t He Ht|? ? ? ? t ? Ht]; subst; [done| | |simpl; split; [done|lia]].
      - simpl in Hu'. repeat (case_match; [done|]). simpl in *. by rewrite Hb in Hu'.
      - destruct (same e "u") eqn:Heu; [apply Ascii.eqb_eq in Heu as ->; done|].
        simpl in Hu'. by repeat case_match; simplify_eq; rewrite Heu in *. }
    destruct Hr as [Hr Hlen]. eexists _, (drop_bytes 6 s'). split_and!; [done|done|]. clear - Hlen. cbn [String.length]. lia.
Qed.

Lemma content_plain_tail c s : content (String c s) → same c "\" = false → content s.
Proof. inversion 1; subst; [done|discriminate..]. Qed.

Lemma unquote_content_some n s : content s → (String.length s ≤ n)%nat → is_Some (unquote_from n s).
Proof.
  revert s. induction n as [|n IH]; intros [|c s] Hc Hn; [by eexists|simpl in Hn; lia|by eexists|].
  simpl in Hn. cbn [unquote_from]. destruct (same c "\") eqn:Hb.
  { apply Ascii.eqb_eq in Hb as ->. destruct (content_unescape s Hc) as (out & r & -> & Hr & Hlen). simpl.
    destruct (IH r Hr) as [t ->]; [lia|by eexists]. }
  assert (Hq : same c quotation || Utf8.between 0 31 c = false)
    by (inversion Hc as [|? ? ? Hq1 Hq2| |]; subst; [by rewrite Hq1, Hq2|done|done]).
  rewrite Hq. destruct (Utf8.one c).
  - destruct (IH s) as [t ->]; [by eapply content_plain_tail|lia|by eexists].
  - pose proof (rune_high c s) as Hh. pose proof (high_before_length _ _ Hh) as Hlen.
    destruct (IH (rune (String c s)).2) as [t ->]; [|clear - Hlen Hn; lia|by eexists].
    eapply high_before_content; [exact Hh|]. by eapply content_plain_tail.
Qed.

(** *** Other literals *)
Definition number_state (f : step_function) : bool :=
  match f with Neg | State1 | State0 | Dot | Dot0 | StateE | ESign | E0 => true | _ => false end.

Lemma number_step f l c : number_state f = true →
  (number_byte c = true ∧ ∃ f', number_state f' = true ∧ step (at_ f l) c = (at_ f' l, scanContinue)) ∨
  step (at_ f l) c = step (at_ EndValue l) c ∨ (step (at_ f l) c).2 = scanError.
Proof.
  intros Hf. assert (H19 : ∀ c, digit19 c = true → digit c = true) by (unfold digit19, digit, Utf8.between; lia).
  assert (H0 : ∀ c, same c "0" = true → digit c = true) by (by intros c' ->%Ascii.eqb_eq).
  unfold number_byte. destruct f; try done; unfold step, stateESign, state0, expect; cbn [next at_];
    repeat match goal with
    | |- context [if ?b then _ else _] => destruct b eqn:?
    end;
    repeat match goal with
    | H : _ || _ = true |- _ => apply orb_true_iff in H as [H|H]
    | H : digit19 c = true |- _ => apply H19 in H
    | H : same c "0" = true |- _ => apply H0 in H
    end;
    first [by right; left|by right; right
          |left; split; [repeat match goal with H : _ = true |- _ => rewrite H end; by rewrite ?orb_true_r|];
           eexists; split; [|reflexivity]; reflexivity
          |by right; left; rewrite !stateEndValue_next].
Qed.

Lemma end_rejects_number_byte l c s : number_byte c = true → accepts (at_ EndValue l) (String c s) = false.
Proof.
  intros Hc. apply not_true_is_false. intros (sc & o & Hst & Ho & Hacc)%accepts_cons.
  assert (Hno : isSpace c = false ∧ same c ":" = false ∧ same c "," = false ∧ same c "}" = false ∧ same c "]" = false).
  { destruct c as [[] [] [] [] [] [] [] []]; by vm_compute in Hc. }
  destruct Hno as (H1 & H2 & H3 & H4 & H5). unfold step, stateEndValue, stateEndTop in Hst. simpl in Hst.
  destruct l as [|[] l]; rewrite H1, ?H2, ?H3, ?H4, ?H5 in Hst; injection Hst as <- <-; [|done..].
  rewrite failed_rejects in Hacc; [done|]. split; [done|by eexists].
Qed.

Lemma accepts_number s : ∀ f l, number_state f = true → accepts (at_ f l) s = true →
  accepts (at_ EndValue l) (number_end s).2 = true ∧ (String.length (number_end s).2 ≤ String.length s)%nat.
Proof.
  induction s as [|c s IH]; intros f l Hf Hacc.
  { split; [|done]. by destruct f, l. }
  assert (Hgo : number_byte c = true → number_end (String c s) = (String c (number_end s).1, (number_end s).2)).
  { intros Hc. simpl. rewrite Hc. by destruct (number_end s). }
  assert (Hstop : number_byte c = false → number_end (String c s) = ("", String c s)).
  { intros Hc. simpl. by rewrite Hc. }
  destruct (number_step f l c Hf) as [(Hc & f' & Hf' & Hst)|[Hst|Herr]].
  - apply accepts_step in Hacc as [_ Hacc]. rewrite Hst in Hacc. rewrite Hgo by done.
    destruct (IH f' l Hf' Hacc) as [IH1 IH2]. split; [done|]. clear - IH2. simpl. lia.
  - assert (Hend : accepts (at_ EndValue l) (String c s) = true).
    { rewrite <- Hacc. simpl. by rewrite Hst. }
    destruct (number_byte c) eqn:Hc; [by rewrite end_rejects_number_byte in Hend|]. by rewrite Hstop.
  - by apply accepts_step in Hacc as [? _].
Qed.

Lemma accepts_letter f c f' context l s :
  (∀ c', step (at_ f l) c' = expect (same c' c) f' context (at_ f l) c') →
  accepts (at_ f l) "" = false → accepts (at_ f l) s = true →
  ∃ s', s = String c s' ∧ accepts (at_ f' l) s' = true.
Proof.
  intros Hstep Hend Hacc. destruct s as [|h s]; [congruence|].
  apply accepts_cons in Hacc as (sc & o & Hst & Ho & Hacc). rewrite Hstep in Hst. unfold expect in Hst.
  destruct (same h c) eqn:Hh; injection Hst as <- <-; [|done]. apply Ascii.eqb_eq in Hh as ->. by exists s.
Qed.
Lemma accepts_true l s : accepts (at_ StateT l) s = true →
  ∃ s', s = ("rue" ++ s')%string ∧ accepts (at_ EndValue l) s' = true.
Proof.
  intros Hacc. eapply accepts_letter in Hacc as (s1 & -> & Hacc); [|done|done].
  eapply accepts_letter in Hacc as (s2 & -> & Hacc); [|done|done].
  eapply accepts_letter in Hacc as (s3 & -> & Hacc); [|done|done]. by exists s3.
Qed.
Lemma accepts_false l s : accepts (at_ StateF l) s = true →
  ∃ s', s = ("alse" ++ s')%string ∧ accepts (at_ EndValue l) s' = true.
Proof.
  intros Hacc. eapply accepts_letter in Hacc as (s1 & -> & Hacc); [|done|done].
  eapply accepts_letter in Hacc as (s2 & -> & Hacc); [|done|done].
  eapply accepts_letter in Hacc as (s3 & -> & Hacc); [|done|done].
  eapply accepts_letter in Hacc as (s4 & -> & Hacc); [|done|done]. by exists s4.
Qed.
Lemma accepts_null l s : accepts (at_ StateN l) s = true →
  ∃ s', s = ("ull" ++ s')%string ∧ accepts (at_ EndValue l) s' = true.
Proof.
  intros Hacc. eapply accepts_letter in Hacc as (s1 & -> & Hacc); [|done|done].
  eapply accepts_letter in Hacc as (s2 & -> & Hacc); [|done|done].
  eapply accepts_letter in Hacc as (s3 & -> & Hacc); [|done|done]. by exists s3.
Qed.

(** *** Reading a literal *)
Lemma rescan l f o c s t rest :
  literal_end c s = (t, rest) →
  ∃ d, rescanLiteral {| unread := String c s; op := o; scan := at_ f l |} = (String c t, d) ∧ follows l rest d.
Proof.
  intros Hlit. unfold rescanLiteral. cbn [unread scan]. rewrite Hlit. eexists. split; [done|].
  destruct rest as [|c' rest]; [done|]. split; [done|]. cbn [scan op].
  by rewrite stateEndValue_next, <- surjective_pairing.
Qed.

Lemma take_drop_app n t s : String.length t = n → take_drop n (t ++ s) = (t, s).
Proof.
  intros <-. unfold take_drop, drop_bytes. f_equal.
  - induction t as [|c t IH]; simpl; [by destruct s|by rewrite IH].
  - induction t as [|c t IH]; [done|]. cbn [String.length]. by rewrite Nat.iter_succ_r.
Qed.

(** A string: a key or a value. *)
Lemma string_literal l o s :
  accepts (at_ InString l) s = true →
  ∃ item d s' k, rescanLiteral {| unread := String quotation s; op := o; scan := at_ InString l |} =
                   (String quotation item, d) ∧
    unquote (String quotation item) = Some k ∧ follows l s' d ∧ accepts (at_ EndValue l) s' = true ∧
    (String.length s' ≤ String.length s)%nat.
Proof.
  intros Hacc. destruct (accepts_string l s (S (String.length s))) as (t & rest & -> & Ht & Hrest); [lia|done|].
  destruct (rescan l InString o quotation _ _ _ (string_end_content t rest Ht)) as (d & Hd & Hf).
  destruct (unquote_content_some (String.length t) t Ht) as [k Hk]; [done|].
  exists (t ++ String quotation "")%string, d, rest, k. split_and!; [done| |done|done|].
  - unfold unquote. rewrite without_last_app. exact Hk.
  - clear. induction t; simpl; lia.
Qed.

(** How a literal begins. *)
Lemma begins_literal l c :
  (step (at_ BeginValue l) c).2 = scanBeginLiteral →
  ∃ f, step (at_ BeginValue l) c = (at_ f l, scanBeginLiteral) ∧
    (c = quotation ∧ f = InString ∨ c = "t"%char ∧ f = StateT ∨ c = "f"%char ∧ f = StateF ∨
     c = "n"%char ∧ f = StateN ∨ digit c || same c "-" = true ∧ number_state f = true).
Proof.
  assert (H19 : ∀ c, digit19 c = true → digit c = true) by (unfold digit19, digit, Utf8.between; lia).
  unfold step, stateBeginValue, pushParseState. cbn [next at_]. intros Hop.
  repeat match type of Hop with
  | context [if ?b then _ else _] => destruct b eqn:?; [try discriminate Hop|]
  end;
  repeat match goal with H : same _ _ = true |- _ => apply Ascii.eqb_eq in H as -> end;
  try discriminate Hop; (eexists; split; [reflexivity|]);
    first [by left|by right; left|by right; right; left|by do 3 right; left|by do 4 right
          |do 4 right; split; [by rewrite H19|done]].
Qed.

Section values.
Context {V : Type} `{Values V}.

(** Any literal value. *)
Lemma literal_reads l c s t rest (j : V) :
  (step (at_ BeginValue l) c).2 = scanBeginLiteral → literal_end c s = (t, rest) → literal (String c t) = Some j →
  ∃ d, literalInterface (read (at_ BeginValue l) (String c s)) = Some (j, d) ∧ follows l rest d.
Proof.
  intros Hop Ht Hj. unfold literalInterface, read. destruct (begins_literal l c Hop) as (f & -> & _).
  destruct (rescan l f scanBeginLiteral c s t rest Ht) as (d & Hd & Hf). cbn [fst snd]. rewrite Hd, Hj. by exists d.
Qed.
Lemma value_literal l c s :
  accepts (at_ BeginValue l) (String c s) = true → (step (at_ BeginValue l) c).2 = scanBeginLiteral →
  ∃ (j : V) d s', literalInterface (read (at_ BeginValue l) (String c s)) = Some (j, d) ∧
    follows l s' d ∧ accepts (at_ EndValue l) s' = true ∧ (String.length s' ≤ String.length s)%nat.
Proof.
  intros Hacc Hop. apply accepts_step in Hacc as [_ Hacc].
  destruct (begins_literal l c Hop) as (f & Hst & Hf). rewrite Hst in Hacc. cbn [fst] in Hacc.
  assert (Hgen : ∀ t rest j, literal_end c s = (t, rest) →
    accepts (at_ EndValue l) rest = true → (String.length rest ≤ String.length s)%nat →
    literal (String c t) = Some j →
    ∃ (j : V) d s', literalInterface (read (at_ BeginValue l) (String c s)) = Some (j, d) ∧
      follows l s' d ∧ accepts (at_ EndValue l) s' = true ∧ (String.length s' ≤ String.length s)%nat).
  { intros t rest j Ht Hrest Hlen Hj. destruct (literal_reads l c s t rest j Hop Ht Hj) as (d & Hd & Hf').
    exists j, d, rest. by split_and!. }
  assert (Hword : ∀ t rest, s = (t ++ rest)%string → (String.length rest ≤ String.length s)%nat).
  { clear. intros t rest ->. induction t; simpl; lia. }
  destruct Hf as [[-> ->]|[[-> ->]|[[-> ->]|[[-> ->]|[Hc Hf]]]]].
  - unfold literalInterface, read. rewrite Hst. cbn [fst snd].
    destruct (string_literal l scanBeginLiteral s Hacc) as (item & d & s' & k & -> & Hk & ? & ? & ?).
    exists (v_string k), d, s'. split; [|done]. unfold literal.
    change (same quotation "n") with false. change (same quotation "t") with false. change (same quotation "f") with false.
    change (same quotation quotation) with true. cbv iota beta. cbn [orb]. rewrite Hk. reflexivity.
  - destruct (accepts_true l s Hacc) as (s' & -> & Hend).
    by eapply Hgen; [apply (take_drop_app 3)| |eapply Hword|].
  - destruct (accepts_false l s Hacc) as (s' & -> & Hend).
    by eapply Hgen; [apply (take_drop_app 4)| |eapply Hword|].
  - destruct (accepts_null l s Hacc) as (s' & -> & Hend).
    by eapply Hgen; [apply (take_drop_app 3)| |eapply Hword|].
  - destruct (accepts_number s f l Hf Hacc) as [Hend Hlen].
    assert (Hno : same c quotation = false ∧ same c "n" = false ∧ same c "t" = false ∧ same c "f" = false).
    { clear - Hc. destruct c as [[] [] [] [] [] [] [] []]; by vm_compute in Hc. }
    destruct Hno as (H1 & H2 & H3 & H4).
    apply (Hgen (number_end s).1 (number_end s).2 (v_number (String c (number_end s).1))); [|done|done|].
    + unfold literal_end. rewrite H1, Hc. by destruct (number_end s).
    + unfold literal. rewrite H1, H2, H3, H4, <- negb_orb, (orb_comm (same c "-")), Hc. done.
Qed.

(** *** Values *)
Lemma begins_value l c :
  (step (at_ BeginValue l) c).2 ≠ scanSkipSpace → (step (at_ BeginValue l) c).2 ≠ scanError →
  (step (at_ BeginValue l) c).2 = scanBeginLiteral ∨
  step (at_ BeginValue l) c = (at_ BeginValueOrEmpty (parseArrayValue :: l), scanBeginArray) ∨
  step (at_ BeginValue l) c = (at_ BeginStringOrEmpty (parseObjectKey :: l), scanBeginObject).
Proof.
  unfold step, stateBeginValue, pushParseState. cbn [next at_ parseState set_parseState go].
  destruct (isSpace c); [by intros []|]. destruct (same c "{"); [destruct (_ <=? _); [by right; right|by intros _ []]|].
  destruct (same c "["); [destruct (_ <=? _); [by right; left|by intros _ []]|].
  repeat match goal with |- context [if ?b then _ else _] => destruct b; [by left|] end. by intros _ [].
Qed.

Lemma after_element l c :
  (step (at_ EndValue (parseArrayValue :: l)) c).2 ≠ scanError → isSpace c = false →
  step (at_ EndValue (parseArrayValue :: l)) c = (at_ BeginValue (parseArrayValue :: l), scanArrayValue) ∨
  c = "]"%char ∧ step (at_ EndValue (parseArrayValue :: l)) c = (popped l, scanEndArray).
Proof.
  unfold step, stateEndValue. simpl. intros Ho Hsp. rewrite Hsp in *. destruct (same c ","); [by left|].
  destruct (same c "]") eqn:Hc; [|by destruct Ho]. apply Ascii.eqb_eq in Hc. right. split; [done|]. by destruct l.
Qed.
Lemma after_member l c :
  (step (at_ EndValue (parseObjectValue :: l)) c).2 ≠ scanError → isSpace c = false →
  step (at_ EndValue (parseObjectValue :: l)) c = (at_ BeginString (parseObjectKey :: l), scanObjectValue) ∨
  c = "}"%char ∧ step (at_ EndValue (parseObjectValue :: l)) c = (popped l, scanEndObject).
Proof.
  unfold step, stateEndValue. simpl. intros Ho Hsp. rewrite Hsp in *. destruct (same c ","); [by left|].
  destruct (same c "}") eqn:Hc; [|by destruct Ho]. apply Ascii.eqb_eq in Hc. right. split; [done|]. by destruct l.
Qed.
Lemma after_key l c :
  (step (at_ EndValue (parseObjectKey :: l)) c).2 ≠ scanError → isSpace c = false →
  step (at_ EndValue (parseObjectKey :: l)) c = (at_ BeginValue (parseObjectValue :: l), scanObjectKey).
Proof. unfold step, stateEndValue. simpl. intros Ho Hsp. rewrite Hsp in *. destruct (same c ":"); [done|by destruct Ho]. Qed.

Lemma stateBeginValue_next f l c : isSpace c = false →
  stateBeginValue (at_ f l) c = stateBeginValue (at_ BeginValue l) c ∧
  (stateBeginValue (at_ f l) c).2 ≠ scanSkipSpace ∧ (stateBeginValue (at_ f l) c).2 ≠ scanEndArray.
Proof.
  intros Hsp. unfold stateBeginValue. rewrite Hsp. split; [done|]. unfold pushParseState.
  repeat match goal with |- context [if ?b then _ else _] => destruct b end; done.
Qed.

(** Before an element of an array, the first one or a later one. *)
Definition element_state (f : step_function) : Prop := f = BeginValueOrEmpty ∨ f = BeginValue.
Lemma begins_element f l c :
  element_state f →
  step (at_ f (parseArrayValue :: l)) c = (at_ f (parseArrayValue :: l), scanSkipSpace) ∨
  c = "]"%char ∧ step (at_ f (parseArrayValue :: l)) c = (popped l, scanEndArray) ∨
  step (at_ f (parseArrayValue :: l)) c = step (at_ BeginValue (parseArrayValue :: l)) c ∧
    (step (at_ f (parseArrayValue :: l)) c).2 ≠ scanSkipSpace ∧
    (step (at_ f (parseArrayValue :: l)) c).2 ≠ scanEndArray.
Proof.
  unfold step. intros [-> | ->]; cbn [next at_].
  - destruct (isSpace c) eqn:Hsp; [by left|]. destruct (same c "]") eqn:Hc.
    { right. left. apply Ascii.eqb_eq in Hc. split; [done|]. subst c. by destruct l. }
    right. right. by apply stateBeginValue_next.
  - destruct (isSpace c) eqn:Hsp; [left; unfold stateBeginValue; by rewrite Hsp|].
    right. right. by apply stateBeginValue_next.
Qed.
Definition key_state (f : step_function) : Prop := f = BeginStringOrEmpty ∨ f = BeginString.
Lemma begins_key f l c :
  key_state f → (step (at_ f (parseObjectKey :: l)) c).2 ≠ scanError →
  step (at_ f (parseObjectKey :: l)) c = (at_ f (parseObjectKey :: l), scanSkipSpace) ∨
  c = "}"%char ∧ step (at_ f (parseObjectKey :: l)) c = (popped l, scanEndObject) ∨
  c = quotation ∧ step (at_ f (parseObjectKey :: l)) c = (at_ InString (parseObjectKey :: l), scanBeginLiteral).
Proof.
  unfold step. intros [-> | ->] Ho; cbn [next at_] in *; unfold stateBeginString in *;
    (destruct (isSpace c) eqn:Hsp; [by left|]).
  - destruct (same c "}") eqn:Hc.
    { right. left. apply Ascii.eqb_eq in Hc. split; [done|]. subst c. by destruct l. }
    destruct (same c quotation) eqn:Hq; [|by destruct Ho]. apply Ascii.eqb_eq in Hq. by do 2 right.
  - destruct (same c quotation) eqn:Hq; [|by destruct Ho]. apply Ascii.eqb_eq in Hq. by do 2 right.
Qed.

(** What each of the three functions does on accepted text, with enough fuel. *)
Definition value_reads (n : nat) : Prop := ∀ l s,
  (2 * String.length s < n)%nat → accepts (at_ BeginValue l) s = true →
  op (read (at_ BeginValue l) s) ≠ scanSkipSpace →
  ∃ (j : V) d s', valueInterface n (read (at_ BeginValue l) s) = Some (j, d) ∧ follows l s' d ∧
    accepts (at_ EndValue l) s' = true ∧ (String.length s' < String.length s)%nat.
Definition array_reads (n : nat) : Prop := ∀ f l d,
  element_state f → scan d = at_ f (parseArrayValue :: l) →
  (2 * S (String.length (rest_of (unread d))) ≤ n)%nat →
  accepts (at_ f (parseArrayValue :: l)) (rest_of (unread d)) = true →
  ∃ (vs : list V) d' c s', arrayInterface n d = Some (vs, d') ∧ scan d' = popped l ∧ unread d' = String c s' ∧
    accepts (at_ EndValue l) s' = true ∧ (String.length s' < String.length (rest_of (unread d)))%nat.
Definition object_reads (n : nat) : Prop := ∀ f l d,
  key_state f → scan d = at_ f (parseObjectKey :: l) →
  (2 * S (String.length (rest_of (unread d))) ≤ n)%nat →
  accepts (at_ f (parseObjectKey :: l)) (rest_of (unread d)) = true →
  ∃ (ms : list (string * V)) d' c s', objectInterface n d = Some (ms, d') ∧ scan d' = popped l ∧ unread d' = String c s' ∧
    accepts (at_ EndValue l) s' = true ∧ (String.length s' < String.length (rest_of (unread d)))%nat.

Lemma value_reads_step n : array_reads n → object_reads n → value_reads (S n).
Proof.
  intros IHa IHo l [|c s] Hn Hacc Hsp; [done|]. pose proof Hacc as [Ho Hacc']%accepts_step.
  cbn [valueInterface]. destruct (begins_value l c Hsp Ho) as [Hop|[Hst|Hst]].
  - destruct (value_literal l c s Hacc Hop) as (j & d & s' & Hj & Hf & Hend & Hlen).
    exists j, d, s'. cbn [read op]. rewrite Hop. split_and!; [exact Hj|done|done|simpl; clear -Hlen; lia].
  - cbn [read op]. rewrite Hst in *. cbn [fst snd] in *.
    destruct (IHa BeginValueOrEmpty l (read (at_ BeginValue l) (String c s))) as (vs & d' & c' & s' & Hvs & Hsc & Hun & Hend & Hlen);
      [by left|simpl; by rewrite Hst|simpl in *; clear -Hn; lia|done|].
    simpl in Hvs. rewrite Hst in Hvs. simpl in Hvs. rewrite Hvs. simpl. eexists _, _, s'. split_and!; [done| |done|].
    + by eapply follows_popped.
    + simpl in Hlen. clear -Hlen. lia.
  - cbn [read op]. rewrite Hst in *. cbn [fst snd] in *.
    destruct (IHo BeginStringOrEmpty l (read (at_ BeginValue l) (String c s))) as (vs & d' & c' & s' & Hvs & Hsc & Hun & Hend & Hlen);
      [by left|simpl; by rewrite Hst|simpl in *; clear -Hn; lia|done|].
    simpl in Hvs. rewrite Hst in Hvs. simpl in Hvs. rewrite Hvs. simpl. eexists _, _, s'. split_and!; [done| |done|].
    + by eapply follows_popped.
    + simpl in Hlen. clear -Hlen. lia.
Qed.

(** The text after the spaces before an element or a key. *)
Lemma skip_to_element f l s :
  element_state f → accepts (at_ f (parseArrayValue :: l)) s = true →
  ∃ c r, read_while scanSkipSpace (at_ f (parseArrayValue :: l)) s = read (at_ f (parseArrayValue :: l)) (String c r) ∧
    accepts (at_ f (parseArrayValue :: l)) (String c r) = true ∧ (S (String.length r) ≤ String.length s)%nat ∧
    (step (at_ f (parseArrayValue :: l)) c).2 ≠ scanSkipSpace.
Proof.
  intros Hf Hacc. destruct (read_while_space (at_ f (parseArrayValue :: l)) s) as (s' & Hr & Hacc' & Hlen & Hns).
  - intros c Hop. destruct (begins_element f l c Hf) as [-> |[[_ Hst]|(_ & Hne & _)]]; [done| |done].
    by rewrite Hst in Hop.
  - done.
  - destruct s' as [|c r]; [by destruct Hf as [-> | ->]|]. exists c, r. by split_and!.
Qed.
Lemma skip_to_key f l s :
  key_state f → accepts (at_ f (parseObjectKey :: l)) s = true →
  ∃ c r, read_while scanSkipSpace (at_ f (parseObjectKey :: l)) s = read (at_ f (parseObjectKey :: l)) (String c r) ∧
    accepts (at_ f (parseObjectKey :: l)) (String c r) = true ∧ (S (String.length r) ≤ String.length s)%nat ∧
    (step (at_ f (parseObjectKey :: l)) c).2 ≠ scanSkipSpace.
Proof.
  intros Hf Hacc. destruct (read_while_space (at_ f (parseObjectKey :: l)) s) as (s' & Hr & Hacc' & Hlen & Hns).
  - intros c Hop. destruct (begins_key f l c Hf) as [-> |[[_ Hst]|[_ Hst]]]; [|done|by rewrite Hst in Hop..].
    by rewrite Hop.
  - done.
  - destruct s' as [|c r]; [by destruct Hf as [-> | ->]|]. exists c, r. by split_and!.
Qed.
Lemma skip_to_value l s :
  accepts (at_ BeginValue l) s = true →
  ∃ s', read_while scanSkipSpace (at_ BeginValue l) s = read (at_ BeginValue l) s' ∧
    accepts (at_ BeginValue l) s' = true ∧ (String.length s' ≤ String.length s)%nat ∧
    op (read (at_ BeginValue l) s') ≠ scanSkipSpace.
Proof.
  intros Hacc. destruct (read_while_space (at_ BeginValue l) s (BeginValue_skips l) Hacc) as (s' & Hr & Hacc' & Hlen & Hns).
  exists s'. split_and!; [done..|]. by destruct s'.
Qed.

Lemma array_reads_step n : value_reads n → array_reads n → array_reads (S n).
Proof.
  intros IHv IHa f l d Hf Hsc Hn Hacc. cbn [arrayInterface]. unfold scanWhile. rewrite Hsc.
  set (s := rest_of (unread d)) in *. clearbody s.
  destruct (skip_to_element f l s Hf Hacc) as (c & r & -> & Hacc1 & Hlen1 & Hns).
  pose proof Hacc1 as [Ho Hacc1']%accepts_step.
  destruct (begins_element f l c Hf) as [Hst|[[-> Hst]|(Hst & _ & Hne)]]; [by rewrite Hst in Hns| |].
  { cbn [read op]. rewrite Hst in *. simpl. eexists _, _, _, r. split_and!; [done|done|done| |clear -Hlen1; lia].
    by rewrite <- accepts_popped. }
  cbn [read op]. rewrite bool_decide_eq_false_2 by done. rewrite Hst in *.
  assert (Hacc2 : accepts (at_ BeginValue (parseArrayValue :: l)) (String c r) = true)
    by (rewrite <- Hacc1; simpl; by rewrite Hst).
  destruct (IHv (parseArrayValue :: l) (String c r)) as (v & d2 & s2 & Hv & Hf2 & Hacc3 & Hlen2);
    [simpl; clear -Hn Hlen1; lia|done|done|].
  simpl in Hv. rewrite Hv. cbn [mbind option_bind].
  destruct (skip_follows _ _ _ _ Hf2 Hacc3) as (c3 & r3 & -> & Hacc4 & Hsp & Hlen3).
  pose proof Hacc4 as [Ho4 Hacc4']%accepts_step. simpl in Hlen2. cbn [read op].
  destruct (after_element l c3 Ho4 Hsp) as [Hst3|[-> Hst3]]; rewrite Hst3 in *; cbn [fst snd] in *.
  - destruct (IHa BeginValue l {| unread := String c3 r3; op := scanArrayValue; scan := at_ BeginValue (parseArrayValue :: l) |})
      as (vs & d' & c' & s' & Hvs & Hsc' & Hun & Hend & Hlen); [by right|done|simpl; clear -Hn Hlen1 Hlen2 Hlen3; lia|done|].
    rewrite Hvs. simpl in *. eexists _, _, c', s'. split_and!; [done..|]. clear -Hlen Hlen1 Hlen2 Hlen3. lia.
  - eexists _, _, _, r3. split_and!; [done|done|done| |clear -Hlen1 Hlen2 Hlen3; lia]. by rewrite <- accepts_popped.
Qed.

Lemma object_reads_step n : value_reads n → object_reads n → object_reads (S n).
Proof.
  intros IHv IHo f l d Hf Hsc Hn Hacc. cbn [objectInterface].
  destruct (skip_to_key f l _ Hf Hacc) as (c & r & Hr & Hacc1 & Hlen1 & Hns).
  assert (Hd : scanWhile scanSkipSpace d = read (at_ f (parseObjectKey :: l)) (String c r))
    by (unfold scanWhile; by rewrite Hsc).
  rewrite Hd. set (s := rest_of (unread d)) in *. clearbody s.
  pose proof Hacc1 as [Ho Hacc1']%accepts_step.
  destruct (begins_key f l c Hf) as [Hst|[[-> Hst]|[-> Hst]]]; [done|by rewrite Hst in Hns| |].
  { cbn [read op]. rewrite Hst in *. simpl. eexists _, _, _, r. split_and!; [done|done|done| |clear -Hlen1; lia].
    by rewrite <- accepts_popped. }
  cbn [read op]. rewrite Hst in *. cbn [fst snd] in *.
  destruct (string_literal _ scanBeginLiteral r Hacc1') as (item & d1 & s1 & k & -> & -> & Hf1 & Hacc2 & Hlen2).
  cbn [mbind option_bind].
  destruct (skip_follows _ _ _ _ Hf1 Hacc2) as (c2 & r2 & -> & Hacc3 & Hsp & Hlen3).
  pose proof Hacc3 as [Ho3 Hacc3']%accepts_step. cbn [read op].
  pose proof (after_key l c2 Ho3 Hsp) as Hst2. rewrite Hst2 in *. cbn [fst snd] in *. rewrite bool_decide_eq_true_2 by done.
  unfold scanWhile. cbn [scan unread rest_of].
  destruct (skip_to_value _ _ Hacc3') as (s3 & -> & Hacc4 & Hlen4 & Hns4).
  destruct (IHv (parseObjectValue :: l) s3) as (v & d2 & s4 & -> & Hf2 & Hacc5 & Hlen5);
    [clear -Hn Hlen1 Hlen2 Hlen3 Hlen4; lia|done|done|]. cbn [mbind option_bind].
  destruct (skip_follows _ _ _ _ Hf2 Hacc5) as (c5 & r5 & -> & Hacc6 & Hsp6 & Hlen6).
  pose proof Hacc6 as [Ho6 Hacc6']%accepts_step. cbn [read op].
  destruct (after_member l c5 Ho6 Hsp6) as [Hst6|[-> Hst6]]; rewrite Hst6 in *; cbn [fst snd] in *.
  - destruct (IHo BeginString l {| unread := String c5 r5; op := scanObjectValue; scan := at_ BeginString (parseObjectKey :: l) |})
      as (ms & d' & c' & s' & Hms & Hsc' & Hun & Hend & Hlen);
      [by right|done|simpl; clear -Hn Hlen1 Hlen2 Hlen3 Hlen4 Hlen5 Hlen6; lia|done|].
    rewrite Hms. simpl in *. eexists _, _, c', s'. split_and!; [done..|].
    clear -Hlen Hlen1 Hlen2 Hlen3 Hlen4 Hlen5 Hlen6. lia.
  - eexists _, _, _, r5. split_and!; [done|done|done| |clear -Hlen1 Hlen2 Hlen3 Hlen4 Hlen5 Hlen6; lia].
    by rewrite <- accepts_popped.
Qed.

Lemma reads n : value_reads n ∧ array_reads n ∧ object_reads n.
Proof.
  induction n as [|n (IHv & IHa & IHo)].
  - split_and!; [intros l s Hn|intros f l d _ _ Hn|intros f l d _ _ Hn]; clear -Hn; lia.
  - split_and!; [by apply value_reads_step|by apply array_reads_step|by apply object_reads_step].
Qed.

Lemma decode_reads s : checkValid s = None → is_Some (decode (V := V) s).
Proof.
  intros Hs. unfold checkValid in Hs. apply scan_all_accepts in Hs; [|done]. change reset with (at_ BeginValue []) in Hs.
  unfold decode. change reset with (at_ BeginValue []).
  destruct (skip_to_value [] s Hs) as (s' & -> & Hacc & Hlen & Hns).
  destruct (proj1 (reads (decode_fuel s)) [] s') as (j & d & r & -> & _); [unfold decode_fuel; lia|done|done|].
  by eexists.
Qed.
End values.

(** *** What is read does not depend on what is made of it *)
Section related.
Context {V1 V2 : Type} `{Values V1} `{Values V2} (R : V1 → V2 → Prop).
Record related_values : Prop := {
  rel_null : R v_null v_null;
  rel_bool b : R (v_bool b) (v_bool b);
  rel_string s : R (v_string s) (v_string s);
  rel_number item : R (v_number item) (v_number item);
  rel_slice l1 l2 : Forall2 R l1 l2 → R (v_slice l1) (v_slice l2);
  rel_map ms1 ms2 : Forall2 (λ m1 m2, m1.1 = m2.1 ∧ R m1.2 m2.2) ms1 ms2 → R (v_map ms1) (v_map ms2);
}.
Hypothesis HR : related_values.
Hint Resolve rel_null rel_bool rel_string rel_number rel_slice rel_map : core.

(** Two results of a function of the decoder. *)
Definition same_reading {A B} (P : A → B → Prop) (r1 : option (A * decodeState)) (r2 : option (B * decodeState)) : Prop :=
  match r1, r2 with
  | Some (v1, d1), Some (v2, d2) => P v1 v2 ∧ d1 = d2
  | None, None => True
  | _, _ => False
  end.
Lemma same_reading_bind {A B A' B'} (P : A → B → Prop) (P' : A' → B' → Prop) r1 r2 f1 f2 :
  same_reading P r1 r2 → (∀ v1 v2 d, P v1 v2 → same_reading P' (f1 (v1, d)) (f2 (v2, d))) →
  same_reading P' (r1 ≫= f1) (r2 ≫= f2).
Proof. destruct r1 as [[v1 d1]|], r2 as [[v2 d2]|]; simpl; try done. intros [Hv ->] Hf. by apply Hf. Qed.

Lemma literal_related d : same_reading R (literalInterface d) (literalInterface d).
Proof.
  unfold literalInterface. destruct (rescanLiteral d) as [[|c item] d']; [done|]. unfold literal.
  repeat match goal with |- context [if ?b then _ else _] => destruct b end; try destruct (unquote _); try done;
    (split; [|done]); by destruct HR.
Qed.
Lemma interface_related n : 
  (∀ d, same_reading R (valueInterface n d) (valueInterface n d)) ∧
  (∀ d, same_reading (Forall2 R) (arrayInterface n d) (arrayInterface n d)) ∧
  (∀ d, same_reading (Forall2 (λ m1 m2, m1.1 = m2.1 ∧ R m1.2 m2.2)) (objectInterface n d) (objectInterface n d)).
Proof.
  induction n as [|n (IHv & IHa & IHo)]; [by split_and!|].
  split_and!; intros d; [cbn [valueInterface]|cbn [arrayInterface]|cbn [objectInterface]].
  - destruct (op d); try done; [apply literal_related|..];
      (eapply same_reading_bind; [done|]; intros v1 v2 d' Hv; by split; auto).
  - destruct (bool_decide _); [by split|]. eapply same_reading_bind; [done|]. intros v1 v2 d' Hv. cbn beta iota.
    destruct (op (skip_space d')); try done; try (by split; auto).
    eapply same_reading_bind; [done|]. intros l1 l2 d2 Hl. by split; auto.
  - destruct (op (scanWhile scanSkipSpace d)); try done; try (by split).
    destruct (rescanLiteral _) as [item d1]. destruct (unquote item) as [key|]; [|done]. cbn [mbind option_bind].
    destruct (bool_decide _); [|done]. eapply same_reading_bind; [done|]. intros v1 v2 d' Hv. cbn beta iota.
    destruct (op (skip_space d')); try done; try (by split; auto).
    eapply same_reading_bind; [done|]. intros l1 l2 d2 Hl. by split; auto.
Qed.
Lemma decode_related s v1 :
  decode (V := V1) s = Some v1 → ∃ v2, decode (V := V2) s = Some v2 ∧ R v1 v2.
Proof.
  unfold decode. destruct (interface_related (decode_fuel s)) as [Hv _]. specialize (Hv (read_while scanSkipSpace reset s)).
  destruct (valueInterface (V := V1) _ _) as [[w1 d1]|], (valueInterface (V := V2) _ _) as [[w2 d2]|]; simpl in *; try done.
  intros [= <-]. exists w2. tauto.
Qed.
End related.

(** The literals of the numbers in a text, in their order. *)
#[local] Instance literals : Values (list string) :=
  {| v_null := []; v_bool := λ _, []; v_string := λ _, []; v_number := λ item, [item];
     v_slice := mjoin; v_map := λ ms, mjoin ms.*2 |}.
Definition number_literals (s : string) : list string := default [] (decode (V := list string) s).

Lemma first_error_app l1 l2 :
  first_error (l1 ++ l2) = match first_error l1 with Some e => Some e | None => first_error l2 end.
Proof. induction l1 as [|[e|] l1 IH]; [done|done|apply IH]. Qed.

Lemma first_error_join (f : string → option error) es lss :
  Forall2 (λ e ls, e = first_error (f <$> ls)) es lss → first_error es = first_error (f <$> mjoin lss).
Proof.
  induction 1 as [|e ls es lss -> _ IH]; [done|].
  change (mjoin (ls :: lss)) with (ls ++ mjoin lss). rewrite fmap_app, first_error_app, <- IH.
  simpl. by destruct (first_error (f <$> ls)).
Qed.

(** The error that is saved is that of the first number that does not convert. *)
Lemma errors_of_literals o :
  related_values (V1 := any * option error) (H := interface_values o)
    (λ v ls, v.2 = first_error (snd ∘ convertNumber o <$> ls)).
Proof.
  split; try done.
  - intros item. simpl. by destruct (convertNumber o item) as [v [e|]].
  - intros l1 l2 Hl. apply first_error_join, Forall2_fmap_l. exact Hl.
  - intros l1 l2 Hl. apply first_error_join. apply Forall2_fmap.
    eapply Forall2_impl; [exact Hl|]. by intros [] [] [_ ?].
Qed.

(** C16: The decoder does not get out of step with the scanner.  Whatever the text
    is and however numbers are to be read, [Unmarshal] ends without its panic "JSON
    decoder out of sync" (and the model within its fuel).  A text in which the scanner
    finds an error is refused with this error.  Of any other text the decoder makes a
    value, and it returns no error but that of the first number, if there is one, that
    has no value (one that is too large for a float64). *)
Theorem Unmarshal_in_sync o s :
  match checkValid s with
  | Some msg => Unmarshal o s = Some (inl (plainError msg))
  | None => ∃ v, Unmarshal o s = Some (inr (v, first_error (snd ∘ convertNumber o <$> number_literals s)))
  end.
Proof.
  unfold Unmarshal, decode_valid. destruct (checkValid s) eqn:Hs; [done|].
  destruct (decode_reads (V := any * option error) (H := interface_values o) s Hs) as [[v e] Hv].
  destruct (decode_related _ (errors_of_literals o) s _ Hv) as (ls & Hls & He). simpl in He.
  exists v. unfold number_literals. rewrite Hv, Hls. simpl. by rewrite <- He.
Qed.
End Sync.
