(* ===== verification/JsonPrint.v ===== *)
(** * The text of JSON is read back

    What [encoding/json] writes for a tree, and that the scanner and the decoder
    of [JsonText] make the same tree of it, and the generic value of that tree. *)
From Stdlib Require DecimalString DecimalPos DecimalZ.
From S2P Require Import Prelude GoStrings GoErrors Json JsonText JsonSync.

Module Printer.
Import Scanner Strings Numbers Decoder Sync.

(** What [encoding/json] writes for a tree. *)
Definition print_number (z : Z) : string := DecimalString.NilZero.string_of_int (Z.to_int z).
Definition more (xs : list string) : string := foldr (λ x s, "," ++ x ++ s)%string "" xs.
Definition separated (xs : list string) : string :=
  match xs with [] => "" | x :: xs => (x ++ more xs)%string end.
Fixpoint print (j : json) : string :=
  match j with
  | JNull => "null"
  | JBool b => if b then "true" else "false"
  | JNumber z => print_number z
  | JFraction literal => literal
  | JString s => print_string s
  | JArray js => ("[" ++ separated (List.map print js) ++ "]")%string
  | JObject ms => ("{" ++ separated (List.map (λ m, print_string m.1 ++ ":" ++ print m.2) ms) ++ "}")%string
  end.

(** The tree that a reader sees: strings are well-formed UTF-8. *)
Fixpoint coerced (j : json) : json :=
  match j with
  | JString s => JString (Utf8.coerce s)
  | JArray js => JArray (List.map coerced js)
  | JObject ms => JObject (List.map (λ m, (Utf8.coerce m.1, coerced m.2)) ms)
  | _ => j
  end.

(** Nesting, and trees without literals that are not integers. *)
Fixpoint depth (j : json) : nat :=
  match j with
  | JArray js => S (max_list (List.map depth js))
  | JObject ms => S (max_list (List.map (λ m, depth m.2) ms))
  | _ => 0
  end.
Fixpoint integral (j : json) : bool :=
  match j with
  | JFraction _ => false
  | JArray js => forallb integral js
  | JObject ms => forallb (λ m, integral m.2) ms
  | _ => true
  end.

(** *** Strings *)
Lemma escape_byte_content c t : Utf8.one c = true → content t → content (escape_byte c ++ t).
Proof.
  intros Hc Ht. destruct c as [[] [] [] [] [] [] [] []]; try discriminate Hc; cbn;
    first [by apply content_byte|by apply content_escape|apply content_rune; [by repeat constructor|done]].
Qed.
Lemma unquote_escape m s out t :
  unescape (String "\" s) = Some (out, t) →
  unquote_from (S m) (String "\" s) = String.append out <$> unquote_from m t.
Proof. intros Hu. cbn [unquote_from]. change (same "\" "\") with true. cbv iota. by rewrite Hu. Qed.
Lemma escape_byte_cases c t : Utf8.one c = true →
  (escape_byte c = String c "" ∧ same c "\" = false ∧ same c quotation || Utf8.between 0 31 c = false) ∨
  ∃ s, (escape_byte c ++ t)%string = String "\" s ∧ unescape (String "\" s) = Some (String c "", t).
Proof.
  intros Hc. destruct c as [[] [] [] [] [] [] [] []]; try discriminate Hc;
    first [by left|right; eexists; split; [reflexivity|vm_compute; reflexivity]].
Qed.
Lemma unquote_escape_byte c m t : Utf8.one c = true →
  unquote_from (S m) (escape_byte c ++ t) = String c <$> unquote_from m t.
Proof.
  intros Hc. destruct (escape_byte_cases c t Hc) as [(-> & Hb & Hq)|(s & -> & Hu)].
  - simpl. by rewrite Hb, Hq, Hc.
  - by rewrite (unquote_escape m s _ _ Hu).
Qed.
Lemma length_append s t : String.length (s ++ t) = (String.length s + String.length t)%nat.
Proof. induction s; simpl; lia. Qed.
Lemma escape_byte_length c : (1 ≤ String.length (escape_byte c))%nat.
Proof. unfold escape_byte. repeat case_match; simpl; lia. Qed.

Lemma coerce_rune c r : Utf8.one c = false →
  Utf8.coerce (String c r) = (replaced (rune (String c r)).1 ++ Utf8.coerce (rune (String c r)).2)%string.
Proof.
  intros Hc. simpl. rewrite Hc. destruct r as [|c1 r1]; [done|]. destruct (Utf8.two c c1); [done|].
  destruct r1 as [|c2 r2]; [done|]. destruct (Utf8.three c c1 c2); [done|].
  destruct r2 as [|c3 r3]; [done|]. by destruct (Utf8.four c c1 c2 c3).
Qed.

(** The bytes of a rune. *)
Lemma rune_bytes c r p t : Utf8.one c = false → (rune (String c r)).1 = Some p →
  rune (p ++ t) = (Some p, t) ∧ (∃ p', p = String c p') ∧ high_before t (p ++ t).
Proof.
  intros Hc. assert (Hhigh : (128 ≤ nat_of_ascii c)%nat) by (clear -Hc; revert Hc; unfold Utf8.one, Utf8.between; lia).
  simpl. destruct r as [|c1 r1]; [done|]. destruct (Utf8.two c c1) eqn:H2.
  { intros [= <-]. pose proof (two_high _ _ H2). split_and!; [simpl; by rewrite H2|by eexists|by repeat constructor]. }
  destruct r1 as [|c2 r2]; [done|]. destruct (Utf8.three c c1 c2) eqn:H3.
  { intros [= <-]. destruct (three_high _ _ _ H3).
    split_and!; [simpl; by rewrite H2, H3|by eexists|by repeat constructor]. }
  destruct r2 as [|c3 r3]; [done|]. destruct (Utf8.four c c1 c2 c3) eqn:H4; [|done].
  intros [= <-]. destruct (four_high _ _ _ _ H4) as (? & ? & ?).
  split_and!; [simpl; by rewrite H2, H3, H4|by eexists|by repeat constructor].
Qed.

Lemma high_not_ascii c : (128 ≤ nat_of_ascii c)%nat →
  Utf8.one c = false ∧ same c "\" = false ∧ same c quotation = false ∧ Utf8.between 0 31 c = false.
Proof. destruct c as [[] [] [] [] [] [] [] []]; vm_compute; intros H; try done; lia. Qed.

Lemma high_content t s : high_before t s → content t → content s.
Proof. induction 1 as [|c s Hc _ IH]; [done|]. intros Ht. destruct (high_not_ascii c Hc) as (_ & ? & ? & ?). by constructor; auto. Qed.

(** What is written for a rune, or a byte that is none. *)
Lemma escape_rune_reads c r t : Utf8.one c = false → content t →
  content (escape_rune (rune (String c r)).1 ++ t) ∧
  (1 ≤ String.length (escape_rune (rune (String c r)).1))%nat ∧
  ∀ m, unquote_from (S m) (escape_rune (rune (String c r)).1 ++ t) =
       String.append (replaced (rune (String c r)).1) <$> unquote_from m t.
Proof.
  intros Hc Ht. destruct (rune (String c r)).1 as [p|] eqn:Hp.
  2: { split_and!; [apply content_rune; [by repeat constructor|done]|simpl; lia|]. intros m.
       by apply (unquote_escape m (String "u" (String "f" (String "f" (String "f" (String "d" t)))))). }
  assert (Hhigh : (128 ≤ nat_of_ascii c)%nat) by (clear -Hc; revert Hc; unfold Utf8.one, Utf8.between; lia).
  cbn [escape_rune]. destruct (bool_decide_reflect (p = separator 168)) as [->|_].
  { split_and!; [apply content_rune; [by repeat constructor|done]|simpl; lia|]. intros m.
    by apply (unquote_escape m (String "u" (String "2" (String "0" (String "2" (String "8" t)))))). }
  destruct (bool_decide_reflect (p = separator 169)) as [->|_].
  { split_and!; [apply content_rune; [by repeat constructor|done]|simpl; lia|]. intros m.
    by apply (unquote_escape m (String "u" (String "2" (String "0" (String "2" (String "9" t)))))). }
  destruct (rune_bytes c r p t Hc Hp) as (Hr & [p' ->] & Hh). destruct (high_not_ascii c Hhigh) as (_ & Hb & Hq & Hs).
  split_and!; [by eapply high_content|simpl; lia|]. intros m.
  change (String c p' ++ t)%string with (String c (p' ++ t)) in *. cbn [unquote_from].
  by rewrite Hb, Hq, Hs, Hc, Hr.
Qed.

Lemma escape_reads n s : (String.length s ≤ n)%nat →
  content (escape_from n s) ∧
  ∀ m, (String.length (escape_from n s) ≤ m)%nat → unquote_from m (escape_from n s) = Some (Utf8.coerce s).
Proof.
  revert s. induction n as [|n IH]; intros [|c s] Hn; simpl in Hn; [by split; [constructor|intros []]|lia|by split; [constructor|intros []]|].
  cbn [escape_from]. destruct (Utf8.one c) eqn:Hc.
  - destruct (IH s) as [Ht Hu]; [lia|]. split; [by apply escape_byte_content|]. intros m Hm.
    rewrite length_append in Hm. pose proof (escape_byte_length c). destruct m as [|m]; [lia|].
    rewrite unquote_escape_byte, Hu by (done || lia). simpl. by rewrite Hc.
  - pose proof (high_before_length _ _ (rune_high c s)) as Hlen.
    destruct (IH (rune (String c s)).2) as [Ht Hu]; [lia|].
    destruct (escape_rune_reads c s _ Hc Ht) as (Hcont & H1 & Hread). split; [done|]. intros m Hm.
    rewrite length_append in Hm. destruct m as [|m]; [lia|].
    rewrite Hread, Hu by lia. simpl fmap. by rewrite coerce_rune.
Qed.

(** A printed string is a literal that is read as the string, its bytes that are not
    UTF-8 replaced. *)
Lemma escape_content s : content (escape s).
Proof. by apply escape_reads. Qed.
Lemma unquote_print_string s : unquote (print_string s) = Some (Utf8.coerce s).
Proof. unfold unquote, print_string. rewrite without_last_app. by apply escape_reads. Qed.

(** *** Numbers *)
Definition stops (s : string) : bool := match s with String c _ => negb (number_byte c) | EmptyString => true end.
Fixpoint all_bytes (f : ascii → bool) (s : string) : bool :=
  match s with String c s => f c && all_bytes f s | EmptyString => true end.

Lemma number_end_app t s : all_bytes number_byte t = true → stops s = true → number_end (t ++ s) = (t, s).
Proof.
  intros Ht Hs. induction t as [|c t IH].
  - destruct s as [|c s]; [done|]. simpl in *. by rewrite (proj1 (negb_true_iff _) Hs).
  - simpl in *. apply andb_true_iff in Ht as [-> Ht]. by rewrite IH.
Qed.

Lemma accepts_next sc sc' o c s : step sc c = (sc', o) → o ≠ scanError → accepts sc (String c s) = accepts sc' s.
Proof. intros Hst Ho. simpl. rewrite Hst. simpl. by rewrite bool_decide_eq_false_2. Qed.

(** After the digits the scanner is where a value ends. *)
Lemma accepts_stops f l s : f = State1 ∨ f = State0 → stops s = true → accepts (at_ f l) s = accepts (at_ EndValue l) s.
Proof.
  intros Hf Hs. destruct s as [|c s]; [by destruct Hf as [-> | ->], l|]. simpl in Hs. apply negb_true_iff in Hs.
  unfold number_byte in Hs. rewrite !orb_false_iff in Hs. destruct Hs as [[[[[Hd H1] H2] H3] H4] H5].
  assert (Hst : step (at_ f l) c = step (at_ EndValue l) c); [|simpl; by rewrite Hst].
  unfold step at 1. destruct Hf as [-> | ->]; cbn [next at_]; unfold state0; by rewrite ?Hd, H1, H2, H3, stateEndValue_next.
Qed.
Lemma accepts_digits l t s : all_bytes digit t = true → accepts (at_ State1 l) (t ++ s) = accepts (at_ State1 l) s.
Proof.
  induction t as [|c t IH]; [done|]. simpl. intros [Hc Ht]%andb_true_iff.
  assert (Hst : step (at_ State1 l) c = (at_ State1 l, scanContinue)) by (unfold step; simpl; by rewrite Hc).
  rewrite Hst. simpl. by apply IH.
Qed.

Abbreviation uint_string := DecimalString.NilEmpty.string_of_uint.
Lemma uint_digits d : all_bytes digit (uint_string d) = true.
Proof. by induction d. Qed.

(** A number as it is printed: no leading zeros. *)
Lemma nzhead_no_zero d d' : Decimal.nzhead d ≠ Decimal.D0 d'.
Proof. by induction d. Qed.
Lemma pos_string p : ∃ c t, DecimalString.NilZero.string_of_uint (Pos.to_uint p) = String c t ∧
  digit19 c = true ∧ all_bytes digit t = true.
Proof.
  pose proof (DecimalPos.Unsigned.to_of (Pos.to_uint p)) as Hn. rewrite DecimalPos.Unsigned.of_to in Hn. simpl in Hn.
  pose proof (DecimalPos.Unsigned.to_uint_nonzero p) as Hz.
  unfold Decimal.unorm in Hn. pose proof (nzhead_no_zero (Pos.to_uint p)) as H0.
  destruct (Decimal.nzhead (Pos.to_uint p)) as [|d|d|d|d|d|d|d|d|d|d]; rewrite Hn in *; try done; simpl;
    try (eexists _, _; split; [reflexivity|]; split; [reflexivity|apply uint_digits]).
  by destruct (H0 d).
Qed.

Lemma print_number_cases z :
  print_number z = "0" ∨
  (∃ c t, print_number z = String c t ∧ digit19 c = true ∧ all_bytes digit t = true) ∨
  (∃ c t, print_number z = String "-" (String c t) ∧ digit19 c = true ∧ all_bytes digit t = true).
Proof.
  destruct z as [|p|p]; [by left|right; left|right; right]; unfold print_number; simpl;
    destruct (pos_string p) as (c & t & -> & Hc & Ht); by exists c, t.
Qed.

Lemma digit19_digit c : digit19 c = true → digit c = true ∧ number_byte c = true.
Proof.
  intros H. assert (Hd : digit c = true) by (revert H; unfold digit19, digit, Utf8.between; clear; lia).
  unfold number_byte. by rewrite Hd.
Qed.
Lemma digits_number t : all_bytes digit t = true → all_bytes number_byte t = true.
Proof.
  induction t as [|c t IH]; [done|]. simpl. intros [Hc Ht]%andb_true_iff.
  unfold number_byte at 1. by rewrite Hc, IH.
Qed.

Lemma number_print z : number (print_number z) = JNumber z.
Proof.
  unfold number, print_number. rewrite DecimalString.NilZero.isi.
  - by rewrite DecimalZ.of_to.
  - destruct z as [|p|p]; [done| |done]. simpl. intros [= Hp]. by apply (DecimalPos.Unsigned.to_uint_nonnil p).
  - destruct z as [|p|p]; [done|done|]. simpl. intros [= Hp]. by apply (DecimalPos.Unsigned.to_uint_nonnil p).
Qed.

(** *** Trees

    A text of which the decoder reads [j]: its bytes are those of a value, up to
    [s]. *)
Definition room (l : list parse) (n : nat) : Prop := Z.of_nat (length l + n) ≤ maxNestingDepth.
Definition reads_as (l : list parse) (t s : string) (j : json) : Prop :=
  accepts (at_ BeginValue l) (t ++ s) = accepts (at_ EndValue l) s ∧
  (accepts (at_ EndValue l) s = true → ∃ n d, follows l s d ∧
     ∀ m, (n ≤ m)%nat → valueInterface m (read (at_ BeginValue l) (t ++ s)) = Some (j, d)).
Definition begins_well (t : string) : Prop :=
  match t with String c _ => isSpace c = false ∧ same c "]" = false | EmptyString => False end.
Definition printed (j : json) : Prop :=
  begins_well (print j) ∧ ∀ l s, room l (depth j) → stops s = true → reads_as l (print j) s (coerced j).

Lemma literal_reads_as l f c t s j :
  step (at_ BeginValue l) c = (at_ f l, scanBeginLiteral) →
  accepts (at_ f l) (t ++ s) = accepts (at_ EndValue l) s →
  literal_end c (t ++ s) = (t, s) → literal (String c t) = Some j → reads_as l (String c t) s j.
Proof.
  intros Hst Hacc Hend Hlit. unfold reads_as. change (String c t ++ s)%string with (String c (t ++ s)).
  split; [by rewrite (accepts_next _ _ _ c _ Hst)|]. intros _.
  destruct (literal_reads l c (t ++ s) t s j) as (d & Hd & Hf); [by rewrite Hst|done|done|].
  exists 1%nat, d. split; [done|]. intros [|m] Hm; [lia|]. cbn [valueInterface].
  assert (Hop : op (read (at_ BeginValue l) (String c (t ++ s))) = scanBeginLiteral) by (simpl; by rewrite Hst).
  rewrite Hop. exact Hd.
Qed.

Lemma accepts_content l t s : content t → accepts (at_ InString l) (t ++ String quotation s) = accepts (at_ EndValue l) s.
Proof.
  induction 1 as [|c t Hb Hq Hs _ IH|e t He _ IH|h1 h2 h3 h4 t Hh _ IH].
  - done.
  - rewrite <- IH. apply (accepts_next _ _ scanContinue); [|done]. unfold step. simpl. by rewrite Hq, Hb, Hs.
  - rewrite <- IH. transitivity (accepts (at_ InStringEsc l) (String e (t ++ String quotation s))); [done|].
    apply (accepts_next _ _ scanContinue); [|done]. unfold step. cbn [next at_]. by rewrite He.
  - rewrite !Forall_cons in Hh. destruct Hh as (H1 & H2 & H3 & H4 & _). rewrite <- IH.
    assert (Hhex : ∀ f f' h r, (f, f') ∈ [(InStringEscU, InStringEscU1); (InStringEscU1, InStringEscU12);
              (InStringEscU12, InStringEscU123); (InStringEscU123, InString)] → hexadecimal h = true →
            accepts (at_ f l) (String h r) = accepts (at_ f' l) r).
    { intros f f' h r Hf Hh. apply (accepts_next _ _ scanContinue); [|done].
      rewrite !elem_of_cons, elem_of_nil in Hf. unfold step, expect.
      destruct Hf as [[= -> ->]|[[= -> ->]|[[= -> ->]|[[= -> ->]|[]]]]]; cbn [next at_]; by rewrite Hh. }
    transitivity (accepts (at_ InStringEscU l) (String h1 (String h2 (String h3 (String h4 (t ++ String quotation s)))))); [done|].
    etransitivity; [apply (Hhex InStringEscU InStringEscU1); [by constructor|done]|].
    etransitivity; [apply (Hhex InStringEscU1 InStringEscU12); [by repeat constructor|done]|].
    etransitivity; [apply (Hhex InStringEscU12 InStringEscU123); [by repeat constructor|done]|].
    apply (Hhex InStringEscU123 InString); [by repeat constructor|done].
Qed.

Lemma string_reads_as l k s : reads_as l (print_string k) s (JString (Utf8.coerce k)).
Proof.
  apply (literal_reads_as l InString); [done| | |].
  - rewrite string_app_assoc. apply accepts_content, escape_content.
  - rewrite string_app_assoc. apply string_end_content, escape_content.
  - unfold literal. change (same quotation "n") with false. change (same quotation "t") with false.
    change (same quotation "f") with false. change (same quotation quotation) with true. cbv iota beta. cbn [orb].
    fold (print_string k). by rewrite unquote_print_string.
Qed.

Lemma number_reads_as l z s : stops s = true → reads_as l (print_number z) s (JNumber z).
Proof.
  intros Hs. rewrite <- (number_print z).
  destruct (print_number_cases z) as [->|[(c & t & -> & Hc & Ht)|(c & t & -> & Hc & Ht)]].
  - apply (literal_reads_as l State0 "0" ""); [done|by apply accepts_stops; [right|]| |done].
    by apply (number_end_app "").
  - destruct (digit19_digit c Hc) as [Hd Hn].
    assert (Hno : isSpace c = false ∧ same c "{" = false ∧ same c "[" = false ∧ same c quotation = false ∧
              same c "-" = false ∧ same c "0" = false ∧ same c "t" = false ∧ same c "f" = false ∧ same c "n" = false).
    { clear -Hc. destruct c as [[] [] [] [] [] [] [] []]; by vm_compute in Hc. }
    destruct Hno as (H1 & H2 & H3 & H4 & H5 & H6 & H7 & H8 & H9).
    apply (literal_reads_as l State1).
    + unfold step, stateBeginValue. cbn [next at_]. by rewrite H1, H2, H3, H4, H5, H6, H7, H8, H9, Hc.
    + rewrite accepts_digits by done. by apply accepts_stops; [left|].
    + unfold literal_end. rewrite H4, Hd. simpl. apply number_end_app; [by apply digits_number|done].
    + unfold literal. by rewrite H9, H7, H8, H4, H5, Hd.
  - destruct (digit19_digit c Hc) as [Hd Hn]. apply (literal_reads_as l Neg "-" (String c t)); [done| | |done].
    + assert (Hst : step (at_ Neg l) c = (at_ State1 l, scanContinue)).
      { unfold step, expect. cbn [next at_]. rewrite Hc. destruct (same c "0") eqn:H0; [|done].
        apply Ascii.eqb_eq in H0. by subst c. }
      transitivity (accepts (at_ State1 l) (t ++ s)); [by apply (accepts_next _ _ scanContinue)|].
      rewrite accepts_digits by done. by apply accepts_stops; [left|].
    + apply (number_end_app (String c t)); [simpl; by rewrite Hn, digits_number|done].
Qed.

(** After an element or a member comes a byte that is not a space. *)
Lemma follows_read p l c s d :
  follows (p :: l) (String c s) d → isSpace c = false → skip_space d = read (at_ EndValue (p :: l)) (String c s).
Proof.
  intros [Hun Hop] Hsp. destruct d as [u o sc]. simpl in *. subst u. unfold skip_space. simpl.
  rewrite bool_decide_eq_false_2; [by rewrite <- Hop|]. intros ->. unfold step, stateEndValue in Hop. simpl in Hop.
  rewrite Hsp in Hop. by destruct p; repeat case_match.
Qed.
Lemma begins_read_while f l t :
  element_state f → begins_well t →
  read_while scanSkipSpace (at_ f (parseArrayValue :: l)) t = read (at_ BeginValue (parseArrayValue :: l)) t ∧
  accepts (at_ f (parseArrayValue :: l)) t = accepts (at_ BeginValue (parseArrayValue :: l)) t ∧
  op (read (at_ BeginValue (parseArrayValue :: l)) t) ≠ scanEndArray ∧
  op (read (at_ BeginValue (parseArrayValue :: l)) t) ≠ scanSkipSpace.
Proof.
  destruct t as [|c t]; [done|]. intros Hf [Hsp Hc].
  assert (Hst : step (at_ f (parseArrayValue :: l)) c = step (at_ BeginValue (parseArrayValue :: l)) c).
  { unfold step. destruct Hf as [-> | ->]; cbn [next at_]; [|done]. rewrite Hsp, Hc. by apply stateBeginValue_next. }
  destruct (stateBeginValue_next BeginValue (parseArrayValue :: l) c Hsp) as (_ & H1 & H2).
  cbn [read_while accepts]. rewrite Hst. cbn [read op]. rewrite bool_decide_eq_false_2 by done.
  split_and!; [|done|done|done]. cbn [read]. by rewrite Hst.
Qed.

Lemma stops_end xs c s : number_byte c = false → stops (more xs ++ String c s) = true.
Proof. intros Hc. destruct xs as [|x xs]; simpl; [by rewrite Hc|done]. Qed.

Definition array_reads_as (f : step_function) (l : list parse) (t s : string) (js : list json) : Prop :=
  accepts (at_ f (parseArrayValue :: l)) t = accepts (at_ EndValue l) s ∧
  (accepts (at_ EndValue l) s = true → ∃ n d c, scan d = popped l ∧ unread d = String c s ∧
     ∀ m d0, (n ≤ m)%nat → scan d0 = at_ f (parseArrayValue :: l) → rest_of (unread d0) = t →
             arrayInterface m d0 = Some (js, d)).

Lemma array_end l s : array_reads_as BeginValueOrEmpty l (String "]" s) s [].
Proof.
  assert (Hst : step (at_ BeginValueOrEmpty (parseArrayValue :: l)) "]" = (popped l, scanEndArray)) by (by destruct l).
  split; [by rewrite (accepts_next _ _ _ _ _ Hst), accepts_popped|]. intros _.
  exists 1%nat, {| unread := String "]" s; op := scanEndArray; scan := popped l |}, "]"%char. split_and!; [done|done|].
  intros [|m] d0 Hm Hsc Hr; [lia|]. cbn [arrayInterface]. unfold scanWhile. rewrite Hsc, Hr.
  assert (Hrw : read_while scanSkipSpace (at_ BeginValueOrEmpty (parseArrayValue :: l)) (String "]" s) =
                {| unread := String "]" s; op := scanEndArray; scan := popped l |}) by (by destruct l).
  by rewrite Hrw.
Qed.

Lemma array_elements f l x js s :
  element_state f → Forall printed (x :: js) → room (parseArrayValue :: l) (max_list (depth <$> (x :: js))) →
  array_reads_as f l (separated (print <$> (x :: js)) ++ String "]" s) s (coerced <$> (x :: js)).
Proof.
  revert f x. induction js as [|y js IH]; intros f x Hf [[Hw Hx] Hjs]%Forall_cons Hroom;
    assert (Hroomx : room (parseArrayValue :: l) (depth x)) by (unfold room in *; simpl in *; lia).
  - simpl. rewrite string_app_nil_r. destruct (Hx _ (String "]" s) Hroomx eq_refl) as [Hacc Hread].
    assert (Hw' : begins_well (print x ++ String "]" s)) by (by destruct (print x)).
    destruct (begins_read_while f l _ Hf Hw') as (Hrw & Ha & Hne & _).
    assert (Hst : step (at_ EndValue (parseArrayValue :: l)) "]" = (popped l, scanEndArray)) by (by destruct l).
    rewrite (accepts_next _ _ _ _ s Hst), accepts_popped in Hacc, Hread by done.
    split; [by rewrite Ha|]. intros Hs. destruct (Hread Hs) as (n & d & Hf' & Hv).
    exists (S n), (read (at_ EndValue (parseArrayValue :: l)) (String "]" s)), "]"%char.
    split_and!; [by destruct l|done|]. intros [|m] d0 Hm Hsc Hr; [lia|]. cbn [arrayInterface].
    assert (Hd0 : scanWhile scanSkipSpace d0 = read (at_ BeginValue (parseArrayValue :: l)) (print x ++ String "]" s))
      by (unfold scanWhile; by rewrite Hsc, Hr, Hrw).
    rewrite Hd0, bool_decide_eq_false_2 by done. rewrite Hv by lia. cbn [mbind option_bind].
    rewrite (follows_read _ _ _ _ _ Hf') by done. by destruct l.
  - change (separated (print <$> (x :: y :: js))) with (print x ++ "," ++ separated (print <$> (y :: js)))%string.
    rewrite !string_app_assoc.
    destruct (Hx _ (String "," (separated (print <$> (y :: js)) ++ String "]" s)) Hroomx eq_refl) as [Hacc Hread].
    set (t := (separated (print <$> (y :: js)) ++ String "]" s)%string) in *.
    assert (Hw' : begins_well (print x ++ String "," t)) by (by destruct (print x)).
    destruct (begins_read_while f l _ Hf Hw') as (Hrw & Ha & Hne & _).
    assert (Hst : step (at_ EndValue (parseArrayValue :: l)) "," = (at_ BeginValue (parseArrayValue :: l), scanArrayValue)) by done.
    rewrite (accepts_next _ _ _ _ _ Hst) in Hacc, Hread by done.
    destruct (IH BeginValue y) as [IHacc IHread]; [by right|done|unfold room in *; simpl in *; lia|]. fold t in IHacc, IHread.
    change ("," ++ t)%string with (String "," t). split; [by rewrite Ha, Hacc, IHacc|]. intros Hs.
    destruct (Hread ltac:(by rewrite IHacc)) as (n & d & Hf' & Hv). destruct (IHread Hs) as (n' & d' & c & Hsc' & Hun' & Hl).
    exists (S (n + n')), d', c. split_and!; [done|done|]. intros [|m] d0 Hm Hsc Hr; [lia|]. cbn [arrayInterface].
    assert (Hd0 : scanWhile scanSkipSpace d0 = read (at_ BeginValue (parseArrayValue :: l)) (print x ++ String "," t))
      by (unfold scanWhile; by rewrite Hsc, Hr, Hrw).
    rewrite Hd0, bool_decide_eq_false_2 by done. rewrite Hv by lia. cbn [mbind option_bind].
    rewrite (follows_read _ _ _ _ _ Hf') by done. cbn [read op]. rewrite Hst. cbn [fst snd].
    rewrite Hl by (done || lia). done.
Qed.

(** The same for objects. *)
Definition member (m : string * json) : string := (print_string m.1 ++ ":" ++ print m.2)%string.
Definition coerced_member (m : string * json) : string * json := (Utf8.coerce m.1, coerced m.2).

Lemma begins_read_value l t :
  begins_well t → read_while scanSkipSpace (at_ BeginValue l) t = read (at_ BeginValue l) t.
Proof.
  destruct t as [|c t]; [done|]. intros [Hsp Hc]. destruct (stateBeginValue_next BeginValue l c Hsp) as (_ & H1 & _).
  cbn [read_while]. by rewrite bool_decide_eq_false_2.
Qed.

Lemma key_reads f l k r :
  key_state f →
  accepts (at_ f (parseObjectKey :: l)) (print_string k ++ String ":" r) = accepts (at_ BeginValue (parseObjectValue :: l)) r ∧
  ∃ d0 d, read_while scanSkipSpace (at_ f (parseObjectKey :: l)) (print_string k ++ String ":" r) = d0 ∧
    op d0 = scanBeginLiteral ∧ rescanLiteral d0 = (print_string k, d) ∧
    skip_space d = {| unread := String ":" r; op := scanObjectKey; scan := at_ BeginValue (parseObjectValue :: l) |}.
Proof.
  intros Hf. set (r' := String ":" r).
  assert (Hst : step (at_ f (parseObjectKey :: l)) quotation = (at_ InString (parseObjectKey :: l), scanBeginLiteral))
    by (by destruct Hf as [-> | ->]).
  change (print_string k ++ r')%string with (String quotation ((escape k ++ String quotation "") ++ r')).
  rewrite string_app_assoc. change (String quotation "" ++ r')%string with (String quotation r'). split.
  - rewrite (accepts_next _ _ _ _ _ Hst) by done. by rewrite accepts_content by apply escape_content.
  - destruct (rescan (parseObjectKey :: l) InString scanBeginLiteral quotation _ _ _
      (string_end_content (escape k) r' (escape_content k))) as (d & Hd & Hfo).
    exists {| unread := String quotation (escape k ++ String quotation r'); op := scanBeginLiteral;
              scan := at_ InString (parseObjectKey :: l) |}, d.
    split_and!; [by destruct Hf as [-> | ->]|done|exact Hd|].
    by rewrite (follows_read _ _ _ _ _ Hfo).
Qed.

Definition object_reads_as (f : step_function) (l : list parse) (t s : string) (ms : list (string * json)) : Prop :=
  accepts (at_ f (parseObjectKey :: l)) t = accepts (at_ EndValue l) s ∧
  (accepts (at_ EndValue l) s = true → ∃ n d c, scan d = popped l ∧ unread d = String c s ∧
     ∀ m d0, (n ≤ m)%nat → scan d0 = at_ f (parseObjectKey :: l) → rest_of (unread d0) = t →
             objectInterface m d0 = Some (ms, d)).

Lemma object_end l s : object_reads_as BeginStringOrEmpty l (String "}" s) s [].
Proof.
  assert (Hst : step (at_ BeginStringOrEmpty (parseObjectKey :: l)) "}" = (popped l, scanEndObject)) by (by destruct l).
  split; [by rewrite (accepts_next _ _ _ _ _ Hst), accepts_popped|]. intros _.
  exists 1%nat, {| unread := String "}" s; op := scanEndObject; scan := popped l |}, "}"%char. split_and!; [done|done|].
  intros [|m] d0 Hm Hsc Hr; [lia|]. cbn [objectInterface]. unfold scanWhile at 1. rewrite Hsc, Hr.
  assert (Hrw : read_while scanSkipSpace (at_ BeginStringOrEmpty (parseObjectKey :: l)) (String "}" s) =
                {| unread := String "}" s; op := scanEndObject; scan := popped l |}) by (by destruct l).
  unfold scanWhile. by rewrite Hsc, Hr, Hrw.
Qed.

(** A member, and what comes after it. *)
Lemma object_member f l m r c t :
  key_state f → printed m.2 → room (parseObjectValue :: l) (depth m.2) → r = String c t →
  isSpace c = false → number_byte c = false →
  accepts (at_ f (parseObjectKey :: l)) (member m ++ r) = accepts (at_ EndValue (parseObjectValue :: l)) r ∧
  (accepts (at_ EndValue (parseObjectValue :: l)) r = true → ∃ n, ∀ k d0, (n ≤ k)%nat →
     scan d0 = at_ f (parseObjectKey :: l) → rest_of (unread d0) = (member m ++ r)%string →
     objectInterface (S k) d0 =
       match (step (at_ EndValue (parseObjectValue :: l)) c).2 with
       | scanEndObject => Some ([coerced_member m], read (at_ EndValue (parseObjectValue :: l)) r)
       | scanObjectValue => '(ms, d) ← objectInterface k (read (at_ EndValue (parseObjectValue :: l)) r);
                            Some (coerced_member m :: ms, d)
       | _ => None
       end).
Proof.
  intros Hf [Hw Hv] Hroom -> Hsp Hnum. unfold member. rewrite !string_app_assoc.
  change (":" ++ print m.2 ++ String c t)%string with (String ":" (print m.2 ++ String c t)).
  destruct (key_reads f l m.1 (print m.2 ++ String c t) Hf) as (Hacc & d0 & d1 & Hrw & Hop & Hres & Hskip).
  destruct (Hv _ (String c t) Hroom) as [Hacc' Hread]; [simpl; by rewrite Hnum|].
  split; [by rewrite Hacc|]. intros Hs. destruct (Hread Hs) as (n & d & Hfo & Hval). exists n.
  intros k d2 Hk Hsc Hr. cbn [objectInterface].
  assert (Hd2 : scanWhile scanSkipSpace d2 = d0) by (unfold scanWhile; by rewrite Hsc, Hr).
  rewrite Hd2, Hop, Hres, unquote_print_string. cbn [mbind option_bind]. rewrite Hskip. cbn [op].
  rewrite bool_decide_eq_true_2 by done. unfold scanWhile. cbn [scan unread rest_of].
  rewrite begins_read_value, Hval by (done || by destruct (print m.2)). cbn [mbind option_bind].
  rewrite (follows_read _ _ _ _ _ Hfo) by done. reflexivity.
Qed.

Lemma object_members f l x ms s :
  key_state f → Forall (λ m, printed m.2) (x :: ms) →
  room (parseObjectValue :: l) (max_list ((λ m, depth m.2) <$> (x :: ms))) →
  object_reads_as f l (separated (member <$> (x :: ms)) ++ String "}" s) s (coerced_member <$> (x :: ms)).
Proof.
  revert f x. induction ms as [|y ms IH]; intros f x Hf [Hx Hms]%Forall_cons Hroom;
    assert (Hroomx : room (parseObjectValue :: l) (depth x.2)) by (unfold room in *; simpl in *; lia).
  - change (separated (member <$> [x])) with (member x ++ "")%string. rewrite string_app_nil_r.
    destruct (object_member f l x _ _ s Hf Hx Hroomx (eq_refl (String "}" s))) as [Hacc Hread]; [done|done|].
    assert (Hst : step (at_ EndValue (parseObjectValue :: l)) "}" = (popped l, scanEndObject)) by (by destruct l).
    rewrite (accepts_next _ _ _ _ s Hst), accepts_popped in Hacc, Hread by done.
    split; [done|]. intros Hs. destruct (Hread Hs) as (n & Hn).
    exists (S n), (read (at_ EndValue (parseObjectValue :: l)) (String "}" s)), "}"%char.
    split_and!; [by destruct l|done|]. intros [|k] d0 Hk Hsc Hr; [lia|]. rewrite Hn by (done || lia). by rewrite Hst.
  - change (separated (member <$> (x :: y :: ms))) with (member x ++ "," ++ separated (member <$> (y :: ms)))%string.
    rewrite !string_app_assoc. set (t := (separated (member <$> (y :: ms)) ++ String "}" s)%string).
    change ("," ++ t)%string with (String "," t).
    destruct (object_member f l x _ _ t Hf Hx Hroomx (eq_refl (String "," t))) as [Hacc Hread]; [done|done|].
    assert (Hst : step (at_ EndValue (parseObjectValue :: l)) "," = (at_ BeginString (parseObjectKey :: l), scanObjectValue)) by done.
    rewrite (accepts_next _ _ _ _ _ Hst) in Hacc, Hread by done.
    destruct (IH BeginString y) as [IHacc IHread]; [by right|done|unfold room in *; simpl in *; lia|]. fold t in IHacc, IHread.
    split; [by rewrite Hacc|]. intros Hs.
    destruct (Hread ltac:(by rewrite IHacc)) as (n & Hn). destruct (IHread Hs) as (n' & d' & c & Hsc' & Hun' & Hl).
    exists (S (n + n')), d', c. split_and!; [done|done|]. intros [|k] d0 Hk Hsc Hr; [lia|].
    rewrite Hn by (done || lia). rewrite Hst. cbn [snd]. by rewrite Hl by (done || lia).
Qed.

Lemma begins_well_digit c t : digit19 c = true → begins_well (String c t).
Proof. intros Hc. destruct c as [[] [] [] [] [] [] [] []]; by vm_compute in Hc. Qed.

Section json_ind.
Variable P : json → Prop.
Hypothesis P_null : P JNull.
Hypothesis P_bool : ∀ b, P (JBool b).
Hypothesis P_number : ∀ z, P (JNumber z).
Hypothesis P_fraction : ∀ t, P (JFraction t).
Hypothesis P_string : ∀ s, P (JString s).
Hypothesis P_array : ∀ js, Forall P js → P (JArray js).
Hypothesis P_object : ∀ ms, Forall (λ m, P m.2) ms → P (JObject ms).
Fixpoint json_tree_ind (j : json) : P j :=
  match j with
  | JNull => P_null
  | JBool b => P_bool b
  | JNumber z => P_number z
  | JFraction t => P_fraction t
  | JString s => P_string s
  | JArray js => P_array js ((fix go js : Forall P js :=
      match js with [] => List.Forall_nil _ | j :: js => List.Forall_cons _ j js (json_tree_ind j) (go js) end) js)
  | JObject ms => P_object ms ((fix go ms : Forall (λ m, P m.2) ms :=
      match ms with [] => List.Forall_nil _ | m :: ms => List.Forall_cons _ m ms (json_tree_ind m.2) (go ms) end) ms)
  end.
End json_ind.

Lemma print_array js s :
  (print (JArray js) ++ s)%string = String "[" (separated (print <$> js) ++ String "]" s).
Proof. change (print (JArray js)) with (String "[" (separated (print <$> js) ++ "]")). simpl. by rewrite string_app_assoc. Qed.
Lemma print_object ms s :
  (print (JObject ms) ++ s)%string = String "{" (separated (member <$> ms) ++ String "}" s).
Proof. change (print (JObject ms)) with (String "{" (separated (member <$> ms) ++ "}")). simpl. by rewrite string_app_assoc. Qed.

Lemma room_push l n : room l (S n) → (Z.of_nat (S (length l)) <=? maxNestingDepth) = true.
Proof. unfold room. intros H. apply Z.leb_le. lia. Qed.

Lemma array_printed js : Forall printed js → printed (JArray js).
Proof.
  intros Hjs. split; [done|]. intros l s Hroom Hstop. unfold reads_as. rewrite print_array.
  assert (Hst : step (at_ BeginValue l) "[" = (at_ BeginValueOrEmpty (parseArrayValue :: l), scanBeginArray)).
  { unfold step, stateBeginValue, pushParseState. simpl. by rewrite (room_push _ _ Hroom). }
  assert (Hel : array_reads_as BeginValueOrEmpty l (separated (print <$> js) ++ String "]" s) s (coerced <$> js)).
  { destruct js as [|x js]; [apply array_end|]. apply array_elements; [by left|done|]. revert Hroom.
    change (depth (JArray (x :: js))) with (S (max_list (depth <$> (x :: js)))). unfold room. cbn [length]. lia. }
  destruct Hel as [Hacc Hread]. split; [by rewrite (accepts_next _ _ _ _ _ Hst), Hacc|]. intros Hs.
  destruct (Hread Hs) as (n & d & c & Hsc & Hun & Hl). exists (S n), (scanNext d).
  split; [by eapply follows_popped|]. intros [|m] Hm; [lia|]. cbn [valueInterface read op].
  rewrite Hst. cbn [snd fst]. by rewrite Hl by (done || lia).
Qed.
Lemma object_printed ms : Forall (λ m, printed m.2) ms → printed (JObject ms).
Proof.
  intros Hms. split; [done|]. intros l s Hroom Hstop. unfold reads_as. rewrite print_object.
  assert (Hst : step (at_ BeginValue l) "{" = (at_ BeginStringOrEmpty (parseObjectKey :: l), scanBeginObject)).
  { unfold step, stateBeginValue, pushParseState. simpl. by rewrite (room_push _ _ Hroom). }
  assert (Hel : object_reads_as BeginStringOrEmpty l (separated (member <$> ms) ++ String "}" s) s (coerced_member <$> ms)).
  { destruct ms as [|x ms]; [apply object_end|]. apply object_members; [by left|done|]. revert Hroom.
    change (depth (JObject (x :: ms))) with (S (max_list ((λ m, depth m.2) <$> (x :: ms)))). unfold room. cbn [length]. lia. }
  destruct Hel as [Hacc Hread]. split; [by rewrite (accepts_next _ _ _ _ _ Hst), Hacc|]. intros Hs.
  destruct (Hread Hs) as (n & d & c & Hsc & Hun & Hl). exists (S n), (scanNext d).
  split; [by eapply follows_popped|]. intros [|m] Hm; [lia|]. cbn [valueInterface read op].
  rewrite Hst. cbn [snd fst]. by rewrite Hl by (done || lia).
Qed.

Lemma all_printed j : integral j = true → printed j.
Proof.
  induction j as [|b|z|t|s|js IH|ms IH] using json_tree_ind; intros Hi.
  - split; [done|]. intros l s _ _. apply (literal_reads_as l StateN "n" "ull"); [done|done|by apply (take_drop_app 3)|done].
  - split; [by destruct b|]. intros l s _ _.
    destruct b.
    + apply (literal_reads_as l StateT "t" "rue"); [done|done|by apply (take_drop_app 3)|done].
    + apply (literal_reads_as l StateF "f" "alse"); [done|done|by apply (take_drop_app 4)|done].
  - split; [|intros l s _ Hs; by apply number_reads_as].
    simpl. destruct (print_number_cases z) as [->|[(c & t & -> & Hc & _)|(c & t & -> & _)]]; [done| |done].
    by apply begins_well_digit.
  - done.
  - split; [done|]. intros l r _ _. apply string_reads_as.
  - apply array_printed. simpl in Hi. rewrite forallb_forall in Hi. rewrite Forall_forall in IH |- *.
    intros x Hx. apply IH, Hi; [done|]. by apply list_elem_of_In.
  - apply object_printed. simpl in Hi. rewrite forallb_forall in Hi. rewrite Forall_forall in IH |- *.
    intros x Hx. apply IH, (Hi x); [done|]. by apply list_elem_of_In.
Qed.

(** A tree whose strings are UTF-8 is its own. *)
Fixpoint utf8 (j : json) : bool :=
  match j with
  | JString s => bool_decide (Utf8.coerce s = s)
  | JArray js => forallb utf8 js
  | JObject ms => forallb (λ m, bool_decide (Utf8.coerce m.1 = m.1) && utf8 m.2) ms
  | _ => true
  end.
Lemma utf8_coerced j : utf8 j = true → coerced j = j.
Proof.
  induction j as [|b|z|t|s|js IH|ms IH] using json_tree_ind; simpl; try done.
  - intros Hs%bool_decide_eq_true. by rewrite Hs.
  - intros Hjs. f_equal. induction IH as [|j js Hj _ IHjs]; [done|]. simpl in *.
    apply andb_true_iff in Hjs as [H1 H2]. by rewrite Hj, IHjs.
  - intros Hms. f_equal. induction IH as [|[k j] ms Hj _ IHms]; [done|]. simpl in *.
    rewrite !andb_true_iff, bool_decide_eq_true in Hms. destruct Hms as [[Hk H1] H2]. by rewrite Hk, Hj, IHms.
Qed.

(** More fuel does not change what is read. *)
Lemma more_fuel {V} `{Values V} n : ∀ m, (n ≤ m)%nat →
  (∀ d (r : V * _), valueInterface n d = Some r → valueInterface m d = Some r) ∧
  (∀ d (r : list V * _), arrayInterface n d = Some r → arrayInterface m d = Some r) ∧
  (∀ d (r : list (string * V) * _), objectInterface n d = Some r → objectInterface m d = Some r).
Proof.
  induction n as [|n IH]; intros m Hm; [by split_and!|]. destruct m as [|m]; [lia|].
  destruct (IH m) as (IHv & IHa & IHo); [lia|].
  split_and!; intros d r; [cbn [valueInterface]|cbn [arrayInterface]|cbn [objectInterface]]; intros Hr.
  - destruct (op d); try done.
    + destruct (objectInterface n d) as [[ms d']|] eqn:Ho; [|done]. by rewrite (IHo _ _ Ho).
    + destruct (arrayInterface n d) as [[ms d']|] eqn:Ha; [|done]. by rewrite (IHa _ _ Ha).
  - destruct (bool_decide _); [done|].
    destruct (valueInterface n _) as [[v d']|] eqn:Hv; [|done]. rewrite (IHv _ _ Hv). cbn [mbind option_bind] in *.
    destruct (op (skip_space d')); try done.
    destruct (arrayInterface n _) as [[l d'']|] eqn:Ha; [|done]. by rewrite (IHa _ _ Ha).
  - destruct (op (scanWhile scanSkipSpace d)); try done.
    destruct (rescanLiteral _) as [item d1]. destruct (unquote item) as [key|]; [|done]. cbn [mbind option_bind] in *.
    destruct (bool_decide _); [|done].
    destruct (valueInterface n _) as [[v d']|] eqn:Hv; [|done]. rewrite (IHv _ _ Hv). cbn [mbind option_bind] in *.
    destruct (op (skip_space d')); try done.
    destruct (objectInterface n _) as [[l d'']|] eqn:Ho; [|done]. by rewrite (IHo _ _ Ho).
Qed.

Lemma accepts_spaces s : all_bytes isSpace s = true → accepts (at_ EndValue []) s = true.
Proof.
  intros Hs. rewrite <- accepts_popped. induction s as [|c s IH]; [done|]. simpl in Hs.
  apply andb_true_iff in Hs as [Hc Hs].
  rewrite (accepts_next (popped []) (popped []) scanEnd) by (done || unfold step, stateEndTop; simpl; by rewrite Hc). auto.
Qed.
Lemma spaces_stop s : all_bytes isSpace s = true → stops s = true.
Proof.
  destruct s as [|c s]; [done|]. simpl. intros [Hc _]%andb_true_iff.
  destruct c as [[] [] [] [] [] [] [] []]; by vm_compute in Hc.
Qed.

(** Spaces before a text do not change what is read of it. *)
Lemma decode_space {V} `{Values V} c s (v : V) :
  isSpace c = true → decode_valid s = Some (inr v) → decode_valid (String c s) = Some (inr v).
Proof.
  intros Hc. unfold decode_valid.
  assert (Hst : step reset c = (reset, scanSkipSpace)) by (unfold step, stateBeginValue; simpl; by rewrite Hc).
  assert (Hcheck : checkValid (String c s) = checkValid s) by (unfold checkValid; cbn [scan_all]; by rewrite Hst).
  rewrite Hcheck. destruct (checkValid s); [done|]. unfold decode. cbn [read_while]. rewrite Hst. cbn [fst snd].
  rewrite bool_decide_eq_true_2 by done.
  destruct (valueInterface (decode_fuel s) _) as [r|] eqn:Hv; [|done]. intros [= <-].
  apply (more_fuel _ (decode_fuel (String c s))) in Hv; [by rewrite Hv|]. unfold decode_fuel. simpl. lia.
Qed.

Lemma Unmarshal_printed j s :
  integral j = true → Z.of_nat (depth j) ≤ maxNestingDepth → all_bytes isSpace s = true →
  read_tree (print j ++ s) = Some (inr (coerced j)).
Proof.
  intros Hi Hdepth Hs. destruct (all_printed j Hi) as [Hw Hj].
  destruct (Hj [] s) as [Hacc Hread]; [done|by apply spaces_stop|].
  destruct (Hread (accepts_spaces s Hs)) as (n & d & _ & Hn).
  rewrite accepts_spaces in Hacc by done.
  assert (Hcheck : checkValid (print j ++ s) = None) by (by apply scan_all_accepts).
  unfold read_tree, decode_valid. rewrite Hcheck. unfold decode. change reset with (at_ BeginValue []).
  assert (Hw' : begins_well (print j ++ s)) by (by destruct (print j)). rewrite begins_read_value by done.
  destruct (proj1 (reads (V := json) (decode_fuel (print j ++ s))) [] (print j ++ s)%string) as (j' & d' & r & Hj' & _);
    [unfold decode_fuel; lia|done| |].
  { destruct (print j) as [|c t]; [done|]. destruct Hw as [Hsp _].
    by destruct (stateBeginValue_next BeginValue [] c Hsp) as (_ & ? & _). }
  rewrite Hj'. set (m := decode_fuel (print j ++ s)) in *.
  apply (more_fuel m (m + n)) in Hj'; [|lia]. rewrite Hn in Hj' by lia. by injection Hj' as <- <-.
Qed.

(** *** The generic value of a tree

    With [PreserveInts], as Kubernetes decodes: integers are [int64]s. *)
Definition preserving : options := {| useNumber := false; preserveInts := true |}.
Fixpoint value_of (j : json) : any :=
  match j with
  | JNull => Nil
  | JBool b => Bool b
  | JNumber z => Int64 z
  | JFraction literal => (convertNumber preserving literal).1
  | JString s => Str s
  | JArray js => Slice (List.map value_of js)
  | JObject ms => Map (foldl (λ m '(k, v), <[k := v]> m) ∅ (List.map (λ m, (m.1, value_of m.2)) ms))
  end.
Fixpoint int64s (j : json) : bool :=
  match j with
  | JNumber z => int64 z
  | JArray js => forallb int64s js
  | JObject ms => forallb (λ m, int64s m.2) ms
  | _ => true
  end.

Lemma uint_no_dot s d : DecimalString.NilEmpty.uint_of_string s = Some d → contains "." s = false.
Proof.
  revert d. induction s as [|c s IH]; [done|]. intros d. cbn [DecimalString.NilEmpty.uint_of_string contains].
  destruct (DecimalString.NilEmpty.uint_of_string s) as [d'|].
  - rewrite (IH d') by done. destruct c as [[] [] [] [] [] [] [] []]; done.
  - destruct c as [[] [] [] [] [] [] [] []]; done.
Qed.
Lemma integer_no_dot s d : DecimalString.NilZero.int_of_string s = Some d → contains "." s = false.
Proof.
  unfold DecimalString.NilZero.int_of_string, DecimalString.NilZero.uint_of_string.
  destruct s as [|c s]; [done|]. destruct (Ascii.eqb_spec c "-") as [->|Hc]; intros H.
  - destruct s as [|c s]; [done|]. destruct (DecimalString.NilEmpty.uint_of_string (String c s)) as [u|] eqn:Hu; [|done].
    by apply uint_no_dot in Hu.
  - destruct (DecimalString.NilEmpty.uint_of_string (String c s)) as [u|] eqn:Hu; [|done]. by apply uint_no_dot in Hu.
Qed.
Lemma number_converts item z :
  number item = JNumber z → int64 z = true → convertNumber preserving item = (Int64 z, None).
Proof.
  unfold number, convertNumber, ParseInt. intros Hn Hz. simpl.
  destruct (DecimalString.NilZero.int_of_string item) as [d|] eqn:Hd; [|done]. injection Hn as <-.
  by rewrite (integer_no_dot _ _ Hd), Hz.
Qed.

(** The value that is made where the tree is [j]. *)
Definition has_value (j : json) (r : any * option error) : Prop :=
  integral j = true → int64s j = true → r = (value_of j, None).
Lemma has_value_number item : has_value (number item) (convertNumber preserving item).
Proof.
  unfold has_value. destruct (number item) as [| |z|t| | |] eqn:Hn; try (unfold number in Hn; by case_match).
  intros _ Hz. by apply number_converts.
Qed.
Lemma slice_values js l :
  Forall2 has_value js l → forallb integral js = true → forallb int64s js = true →
  l = (λ j, (value_of j, None)) <$> js.
Proof.
  induction 1 as [|j r js l Hj _ IH]; [done|]. simpl. intros [Hi1 Hi]%andb_true_iff [Hz1 Hz]%andb_true_iff.
  by rewrite (Hj Hi1 Hz1), (IH Hi Hz).
Qed.
Lemma map_values (ms : list (string * json)) l :
  Forall2 (λ m1 m2, m1.1 = m2.1 ∧ has_value m1.2 m2.2) ms l →
  forallb (λ m, integral m.2) ms = true → forallb (λ m, int64s m.2) ms = true →
  l = (λ m : string * json, (m.1, (value_of m.2, None))) <$> ms.
Proof.
  induction 1 as [|m [k r] ms l [Hk Hj] _ IH]; [done|]. simpl in *.
  intros [Hi1 Hi]%andb_true_iff [Hz1 Hz]%andb_true_iff. by rewrite Hk, (Hj Hi1 Hz1), (IH Hi Hz).
Qed.
Lemma no_errors {A} (f : A → option error) l : (∀ x, f x = None) → first_error (f <$> l) = None.
Proof. intros Hf. induction l as [|x l IH]; [done|]. simpl. by rewrite Hf. Qed.
Lemma values_of_trees : related_values (V1 := json) (V2 := any * option error) (H0 := interface_values preserving) has_value.
Proof.
  split; try done.
  - apply has_value_number.
  - intros js l Hl Hi Hz. rewrite (slice_values js l Hl Hi Hz). simpl. rewrite <- !list_fmap_compose.
    by rewrite no_errors.
  - intros ms l Hl Hi Hz. rewrite (map_values ms l Hl Hi Hz). simpl. rewrite <- !list_fmap_compose.
    rewrite no_errors by done. f_equal. f_equal. generalize (∅ : gmap string any). clear.
    induction ms as [|[k j] ms IH]; [done|]. intros m. apply IH.
Qed.

Lemma coerced_integral j : integral (coerced j) = integral j.
Proof.
  induction j as [|b|z|t|s|js IH|ms IH] using json_tree_ind; simpl; try done.
  - induction IH as [|j js Hj _ IHjs]; [done|]. simpl. by rewrite Hj, IHjs.
  - induction IH as [|m ms Hj _ IHms]; [done|]. simpl. by rewrite Hj, IHms.
Qed.
Lemma coerced_int64s j : int64s (coerced j) = int64s j.
Proof.
  induction j as [|b|z|t|s|js IH|ms IH] using json_tree_ind; simpl; try done.
  - induction IH as [|j js Hj _ IHjs]; [done|]. simpl. by rewrite Hj, IHjs.
  - induction IH as [|m ms Hj _ IHms]; [done|]. simpl. by rewrite Hj, IHms.
Qed.
Lemma Unmarshal_of_tree s j :
  integral j = true → int64s j = true → read_tree s = Some (inr j) →
  Unmarshal preserving s = Some (inr (value_of j, None)).
Proof.
  intros Hi Hz. unfold read_tree, Unmarshal, decode_valid. destruct (checkValid s); [done|].
  destruct (decode s) as [j'|] eqn:Hd; [|done]. intros [= ->].
  destruct (decode_related _ values_of_trees s j Hd) as (r & Hr & Hj). by rewrite Hr, (Hj Hi Hz).
Qed.

(** C17: What the encoder writes is read back.  Take the text that [json.Marshal]
    writes for a tree whose numbers are integers in the range of int64 and that is
    nested at most 10000 deep, with spaces before and after it (the encoder ends with
    a newline).  [Unmarshal] into an [interface{}], with the integers preserved, finds
    no error in it, and makes the value of that tree: the same constants, every
    integer the same int64, slices and maps of the values of the parts (of a repeated
    key, the last), and strings with the bytes that are not UTF-8 replaced. *)
Theorem print_Unmarshal j before after :
  integral j = true → int64s j = true → Z.of_nat (depth j) ≤ maxNestingDepth →
  all_bytes isSpace before = true → all_bytes isSpace after = true →
  Unmarshal preserving (before ++ print j ++ after) = Some (inr (value_of (coerced j), None)).
Proof.
  intros Hi Hz Hdepth Hb Ha. apply Unmarshal_of_tree; [by rewrite coerced_integral|by rewrite coerced_int64s|].
  pose proof (Unmarshal_printed j after Hi Hdepth Ha) as Hp.
  induction before as [|c before IH]; [done|]. simpl in Hb. apply andb_true_iff in Hb as [Hc Hb].
  by apply decode_space, IH.
Qed.

Lemma print_Unmarshal_witness :
  let j := JObject [("matchLabels", JObject [("a<b", JString "x"); ("n", JNumber (-12))]);
                    ("rules", JArray [JBool true; JNull; JArray []])] in
  Unmarshal preserving ("  " ++ print j ++ newline) = Some (inr (value_of (coerced j), None)).
Proof. intros j. by apply (print_Unmarshal j "  " newline). Defined.
End Printer.
