(* ===== verification/Types.v ===== *)
(** * The policy API types

    [ValidatingAdmissionPolicy] and [ValidatingAdmissionPolicyBinding] with
    everything they hold.  The types of the CRDs
    ([pkg/apis/admissionregistration.x-k8s.io/v1alpha1/types.go]) and the native
    types ([k8s.io/api/admissionregistration/v1alpha1]) have the same fields and
    differ in four [omitempty] tags only, so they share their records and have
    each a codec: [codec CRD] and [codec Native].  Nil slices, maps and pointers
    are [None]; named string types are strings. *)
From S2P Require Import Prelude GoStrings GoErrors TransformedClient Json.

(** ** Records *)
(** [metav1.TypeMeta]. *)
Record TypeMeta := {
  tm_Kind : string;
  tm_APIVersion : string;
}.

(** [metav1.OwnerReference]. *)
Record OwnerReference := {
  or_APIVersion : string;
  or_Kind : string;
  or_Name : string;
  or_UID : string;
  or_Controller : option bool;
  or_BlockOwnerDeletion : option bool;
}.

(** [metav1.ManagedFieldsEntry]. *)
Record ManagedFieldsEntry := {
  mf_Manager : string;
  mf_Operation : string;
  mf_APIVersion : string;
  mf_Time : option Time;
  mf_FieldsType : string;
  mf_FieldsV1 : option raw_json;
  mf_Subresource : string;
}.

(** [metav1.ObjectMeta]. *)
Record ObjectMeta := {
  om_Name : string;
  om_GenerateName : string;
  om_Namespace : string;
  om_SelfLink : string;
  om_UID : string;
  om_ResourceVersion : string;
  om_Generation : Z;
  om_CreationTimestamp : Time;
  om_DeletionTimestamp : option Time;
  om_DeletionGracePeriodSeconds : option Z;
  om_Labels : option (gmap string string);
  om_Annotations : option (gmap string string);
  om_OwnerReferences : option (list OwnerReference);
  om_Finalizers : option (list string);
  om_ManagedFields : option (list ManagedFieldsEntry);
}.

(** [metav1.Condition]. *)
Record Condition := {
  co_Type : string;
  co_Status : string;
  co_ObservedGeneration : Z;
  co_LastTransitionTime : Time;
  co_Reason : string;
  co_Message : string;
}.

(** [metav1.LabelSelectorRequirement]. *)
Record LabelSelectorRequirement := {
  lr_Key : string;
  lr_Operator : string;
  lr_Values : option (list string);
}.

(** [metav1.LabelSelector]. *)
Record LabelSelector := {
  ls_MatchLabels : option (gmap string string);
  ls_MatchExpressions : option (list LabelSelectorRequirement);
}.

(** [admissionregistrationv1.Rule]. *)
Record Rule := {
  ru_APIGroups : option (list string);
  ru_APIVersions : option (list string);
  ru_Resources : option (list string);
  ru_Scope : option string;
}.

(** [admissionregistrationv1.RuleWithOperations]. *)
Record RuleWithOperations := {
  ro_Operations : option (list string);
  ro_Rule : Rule;
}.

Record NamedRuleWithOperations := {
  nr_ResourceNames : option (list string);
  nr_RuleWithOperations : RuleWithOperations;
}.

Record MatchResources := {
  mr_NamespaceSelector : option LabelSelector;
  mr_ObjectSelector : option LabelSelector;
  mr_ResourceRules : option (list NamedRuleWithOperations);
  mr_ExcludeResourceRules : option (list NamedRuleWithOperations);
  mr_MatchPolicy : option string;
}.

Record ParamKind := {
  pk_APIVersion : string;
  pk_Kind : string;
}.

Record ParamRef := {
  pr_Name : string;
  pr_Namespace : string;
}.

Record Validation := {
  va_Expression : string;
  va_Message : string;
  va_Reason : option string;
  va_MessageExpression : string;
}.

Record AuditAnnotation := {
  aa_Key : string;
  aa_ValueExpression : string;
}.

Record MatchCondition := {
  mc_Name : string;
  mc_Expression : string;
}.

Record ExpressionWarning := {
  ew_FieldRef : string;
  ew_Warning : string;
}.

Record TypeChecking := {
  tc_ExpressionWarnings : option (list ExpressionWarning);
}.

Record ValidatingAdmissionPolicyStatus := {
  ps_ObservedGeneration : Z;
  ps_TypeChecking : option TypeChecking;
  ps_Conditions : option (list Condition);
}.

Record ValidatingAdmissionPolicySpec := {
  sp_ParamKind : option ParamKind;
  sp_MatchConstraints : option MatchResources;
  sp_Validations : option (list Validation);
  sp_FailurePolicy : option string;
  sp_AuditAnnotations : option (list AuditAnnotation);
  sp_MatchConditions : option (list MatchCondition);
}.

Record ValidatingAdmissionPolicy := {
  po_TypeMeta : TypeMeta;
  po_ObjectMeta : ObjectMeta;
  po_Spec : ValidatingAdmissionPolicySpec;
  po_Status : ValidatingAdmissionPolicyStatus;
}.

Record ValidatingAdmissionPolicyBindingSpec := {
  bs_PolicyName : string;
  bs_ParamRef : option ParamRef;
  bs_MatchResources : option MatchResources;
  bs_ValidationActions : option (list string);
}.

Record ValidatingAdmissionPolicyBinding := {
  bi_TypeMeta : TypeMeta;
  bi_ObjectMeta : ObjectMeta;
  bi_Spec : ValidatingAdmissionPolicyBindingSpec;
}.

(** ** Codecs: the struct tags

    [native_only]: the tag has [omitempty] in the native type only. *)
Inductive api := Native | CRD.
Definition native_only (a : api) : bool := match a with Native => true | CRD => false end.

Section codecs.
Context {kf : KeyFolding}.
Context (format : Z → string) (parse : string → error + Time).

Definition typeMeta_tuple (s : TypeMeta) :=
  (tm_Kind s, (tm_APIVersion s, tt)).
Definition typeMeta_struct t : TypeMeta :=
  let '(x0, (x1, tt)) := t in
  {| tm_Kind := x0; tm_APIVersion := x1 |}.
Definition typeMeta_fields : fields TypeMeta :=
  as_record typeMeta_tuple typeMeta_struct
   (field "kind" true string_codec
    (field "apiVersion" true string_codec
    no_fields)).
Definition typeMeta_codec : codec TypeMeta := struct_codec typeMeta_fields.

Definition ownerReference_tuple (s : OwnerReference) :=
  (or_APIVersion s, (or_Kind s, (or_Name s, (or_UID s, (or_Controller s,
    (or_BlockOwnerDeletion s, tt)))))).
Definition ownerReference_struct t : OwnerReference :=
  let '(x0, (x1, (x2, (x3, (x4, (x5, tt)))))) := t in
  {| or_APIVersion := x0; or_Kind := x1; or_Name := x2; or_UID := x3; or_Controller := x4;
    or_BlockOwnerDeletion := x5 |}.
Definition ownerReference_fields : fields OwnerReference :=
  as_record ownerReference_tuple ownerReference_struct
   (field "apiVersion" false string_codec
    (field "kind" false string_codec
    (field "name" false string_codec
    (field "uid" false string_codec
    (field "controller" true (ptr_codec bool_codec)
    (field "blockOwnerDeletion" true (ptr_codec bool_codec)
    no_fields)))))).
Definition ownerReference_codec : codec OwnerReference := struct_codec
  ownerReference_fields.

Definition managedFieldsEntry_tuple (s : ManagedFieldsEntry) :=
  (mf_Manager s, (mf_Operation s, (mf_APIVersion s, (mf_Time s, (mf_FieldsType s,
    (mf_FieldsV1 s, (mf_Subresource s, tt))))))).
Definition managedFieldsEntry_struct t : ManagedFieldsEntry :=
  let '(x0, (x1, (x2, (x3, (x4, (x5, (x6, tt))))))) := t in
  {| mf_Manager := x0; mf_Operation := x1; mf_APIVersion := x2; mf_Time := x3;
    mf_FieldsType := x4; mf_FieldsV1 := x5; mf_Subresource := x6 |}.
Definition managedFieldsEntry_fields : fields ManagedFieldsEntry :=
  as_record managedFieldsEntry_tuple managedFieldsEntry_struct
   (field "manager" true string_codec
    (field "operation" true string_codec
    (field "apiVersion" true string_codec
    (field "time" true (ptr_codec (time_codec format parse))
    (field "fieldsType" true string_codec
    (field "fieldsV1" true (ptr_codec raw_codec)
    (field "subresource" true string_codec
    no_fields))))))).
Definition managedFieldsEntry_codec : codec ManagedFieldsEntry := struct_codec
  managedFieldsEntry_fields.

Definition objectMeta_tuple (s : ObjectMeta) :=
  (om_Name s, (om_GenerateName s, (om_Namespace s, (om_SelfLink s, (om_UID s,
    (om_ResourceVersion s, (om_Generation s, (om_CreationTimestamp s, (om_DeletionTimestamp
    s, (om_DeletionGracePeriodSeconds s, (om_Labels s, (om_Annotations s,
    (om_OwnerReferences s, (om_Finalizers s, (om_ManagedFields s, tt))))))))))))))).
Definition objectMeta_struct t : ObjectMeta :=
  let '(x0, (x1, (x2, (x3, (x4, (x5, (x6, (x7, (x8, (x9, (x10, (x11, (x12, (x13, (x14,
    tt))))))))))))))) := t in
  {| om_Name := x0; om_GenerateName := x1; om_Namespace := x2; om_SelfLink := x3; om_UID
    := x4; om_ResourceVersion := x5; om_Generation := x6; om_CreationTimestamp := x7;
    om_DeletionTimestamp := x8; om_DeletionGracePeriodSeconds := x9; om_Labels := x10;
    om_Annotations := x11; om_OwnerReferences := x12; om_Finalizers := x13; om_ManagedFields
    := x14 |}.
Definition objectMeta_fields : fields ObjectMeta :=
  as_record objectMeta_tuple objectMeta_struct
   (field "name" true string_codec
    (field "generateName" true string_codec
    (field "namespace" true string_codec
    (field "selfLink" true string_codec
    (field "uid" true string_codec
    (field "resourceVersion" true string_codec
    (field "generation" true int64_codec
    (field "creationTimestamp" true (time_codec format parse)
    (field "deletionTimestamp" true (ptr_codec (time_codec format parse))
    (field "deletionGracePeriodSeconds" true (ptr_codec int64_codec)
    (field "labels" true (map_codec string_codec)
    (field "annotations" true (map_codec string_codec)
    (field "ownerReferences" true (slice_codec ownerReference_codec)
    (field "finalizers" true (slice_codec string_codec)
    (field "managedFields" true (slice_codec managedFieldsEntry_codec)
    no_fields))))))))))))))).
Definition objectMeta_codec : codec ObjectMeta := struct_codec objectMeta_fields.

Definition condition_tuple (s : Condition) :=
  (co_Type s, (co_Status s, (co_ObservedGeneration s, (co_LastTransitionTime s, (co_Reason
    s, (co_Message s, tt)))))).
Definition condition_struct t : Condition :=
  let '(x0, (x1, (x2, (x3, (x4, (x5, tt)))))) := t in
  {| co_Type := x0; co_Status := x1; co_ObservedGeneration := x2; co_LastTransitionTime :=
    x3; co_Reason := x4; co_Message := x5 |}.
Definition condition_fields : fields Condition :=
  as_record condition_tuple condition_struct
   (field "type" false string_codec
    (field "status" false string_codec
    (field "observedGeneration" true int64_codec
    (field "lastTransitionTime" false (time_codec format parse)
    (field "reason" false string_codec
    (field "message" false string_codec
    no_fields)))))).
Definition condition_codec : codec Condition := struct_codec condition_fields.

Definition labelSelectorRequirement_tuple (s : LabelSelectorRequirement) :=
  (lr_Key s, (lr_Operator s, (lr_Values s, tt))).
Definition labelSelectorRequirement_struct t : LabelSelectorRequirement :=
  let '(x0, (x1, (x2, tt))) := t in
  {| lr_Key := x0; lr_Operator := x1; lr_Values := x2 |}.
Definition labelSelectorRequirement_fields : fields LabelSelectorRequirement :=
  as_record labelSelectorRequirement_tuple labelSelectorRequirement_struct
   (field "key" false string_codec
    (field "operator" false string_codec
    (field "values" true (slice_codec string_codec)
    no_fields))).
Definition labelSelectorRequirement_codec : codec LabelSelectorRequirement :=
  struct_codec labelSelectorRequirement_fields.

Definition labelSelector_tuple (s : LabelSelector) :=
  (ls_MatchLabels s, (ls_MatchExpressions s, tt)).
Definition labelSelector_struct t : LabelSelector :=
  let '(x0, (x1, tt)) := t in
  {| ls_MatchLabels := x0; ls_MatchExpressions := x1 |}.
Definition labelSelector_fields : fields LabelSelector :=
  as_record labelSelector_tuple labelSelector_struct
   (field "matchLabels" true (map_codec string_codec)
    (field "matchExpressions" true (slice_codec labelSelectorRequirement_codec)
    no_fields)).
Definition labelSelector_codec : codec LabelSelector := struct_codec labelSelector_fields.

Definition rule_tuple (s : Rule) :=
  (ru_APIGroups s, (ru_APIVersions s, (ru_Resources s, (ru_Scope s, tt)))).
Definition rule_struct t : Rule :=
  let '(x0, (x1, (x2, (x3, tt)))) := t in
  {| ru_APIGroups := x0; ru_APIVersions := x1; ru_Resources := x2; ru_Scope := x3 |}.
Definition rule_fields : fields Rule :=
  as_record rule_tuple rule_struct
   (field "apiGroups" true (slice_codec string_codec)
    (field "apiVersions" true (slice_codec string_codec)
    (field "resources" true (slice_codec string_codec)
    (field "scope" true (ptr_codec string_codec)
    no_fields)))).
Definition rule_codec : codec Rule := struct_codec rule_fields.

Definition ruleWithOperations_tuple (s : RuleWithOperations) :=
  (ro_Operations s, (ro_Rule s, tt)).
Definition ruleWithOperations_struct t : RuleWithOperations :=
  let '(x0, (x1, tt)) := t in
  {| ro_Operations := x0; ro_Rule := x1 |}.
Definition ruleWithOperations_fields : fields RuleWithOperations :=
  as_record ruleWithOperations_tuple ruleWithOperations_struct
   (field "operations" true (slice_codec string_codec)
    (inline rule_fields
    no_fields)).
Definition ruleWithOperations_codec : codec RuleWithOperations := struct_codec
  ruleWithOperations_fields.

Definition namedRuleWithOperations_tuple (s : NamedRuleWithOperations) :=
  (nr_ResourceNames s, (nr_RuleWithOperations s, tt)).
Definition namedRuleWithOperations_struct t : NamedRuleWithOperations :=
  let '(x0, (x1, tt)) := t in
  {| nr_ResourceNames := x0; nr_RuleWithOperations := x1 |}.
Definition namedRuleWithOperations_fields : fields NamedRuleWithOperations :=
  as_record namedRuleWithOperations_tuple namedRuleWithOperations_struct
   (field "resourceNames" true (slice_codec string_codec)
    (inline ruleWithOperations_fields
    no_fields)).
Definition namedRuleWithOperations_codec : codec NamedRuleWithOperations := struct_codec
  namedRuleWithOperations_fields.

Definition matchResources_tuple (s : MatchResources) :=
  (mr_NamespaceSelector s, (mr_ObjectSelector s, (mr_ResourceRules s,
    (mr_ExcludeResourceRules s, (mr_MatchPolicy s, tt))))).
Definition matchResources_struct t : MatchResources :=
  let '(x0, (x1, (x2, (x3, (x4, tt))))) := t in
  {| mr_NamespaceSelector := x0; mr_ObjectSelector := x1; mr_ResourceRules := x2;
    mr_ExcludeResourceRules := x3; mr_MatchPolicy := x4 |}.
Definition matchResources_fields : fields MatchResources :=
  as_record matchResources_tuple matchResources_struct
   (field "namespaceSelector" true (ptr_codec labelSelector_codec)
    (field "objectSelector" true (ptr_codec labelSelector_codec)
    (field "resourceRules" true (slice_codec namedRuleWithOperations_codec)
    (field "excludeResourceRules" true (slice_codec namedRuleWithOperations_codec)
    (field "matchPolicy" true (ptr_codec string_codec)
    no_fields))))).
Definition matchResources_codec : codec MatchResources := struct_codec
  matchResources_fields.

Definition paramKind_tuple (s : ParamKind) :=
  (pk_APIVersion s, (pk_Kind s, tt)).
Definition paramKind_struct t : ParamKind :=
  let '(x0, (x1, tt)) := t in
  {| pk_APIVersion := x0; pk_Kind := x1 |}.
Definition paramKind_fields (a : api) : fields ParamKind :=
  as_record paramKind_tuple paramKind_struct
   (field "apiVersion" (native_only a) string_codec
    (field "kind" (native_only a) string_codec
    no_fields)).
Definition paramKind_codec (a : api) : codec ParamKind := struct_codec (paramKind_fields a).

Definition paramRef_tuple (s : ParamRef) :=
  (pr_Name s, (pr_Namespace s, tt)).
Definition paramRef_struct t : ParamRef :=
  let '(x0, (x1, tt)) := t in
  {| pr_Name := x0; pr_Namespace := x1 |}.
Definition paramRef_fields : fields ParamRef :=
  as_record paramRef_tuple paramRef_struct
   (field "name" true string_codec
    (field "namespace" true string_codec
    no_fields)).
Definition paramRef_codec : codec ParamRef := struct_codec paramRef_fields.

Definition validation_tuple (s : Validation) :=
  (va_Expression s, (va_Message s, (va_Reason s, (va_MessageExpression s, tt)))).
Definition validation_struct t : Validation :=
  let '(x0, (x1, (x2, (x3, tt)))) := t in
  {| va_Expression := x0; va_Message := x1; va_Reason := x2; va_MessageExpression := x3 |}.
Definition validation_fields : fields Validation :=
  as_record validation_tuple validation_struct
   (field "expression" false string_codec
    (field "message" true string_codec
    (field "reason" true (ptr_codec string_codec)
    (field "messageExpression" true string_codec
    no_fields)))).
Definition validation_codec : codec Validation := struct_codec validation_fields.

Definition auditAnnotation_tuple (s : AuditAnnotation) :=
  (aa_Key s, (aa_ValueExpression s, tt)).
Definition auditAnnotation_struct t : AuditAnnotation :=
  let '(x0, (x1, tt)) := t in
  {| aa_Key := x0; aa_ValueExpression := x1 |}.
Definition auditAnnotation_fields : fields AuditAnnotation :=
  as_record auditAnnotation_tuple auditAnnotation_struct
   (field "key" false string_codec
    (field "valueExpression" false string_codec
    no_fields)).
Definition auditAnnotation_codec : codec AuditAnnotation := struct_codec
  auditAnnotation_fields.

Definition matchCondition_tuple (s : MatchCondition) :=
  (mc_Name s, (mc_Expression s, tt)).
Definition matchCondition_struct t : MatchCondition :=
  let '(x0, (x1, tt)) := t in
  {| mc_Name := x0; mc_Expression := x1 |}.
Definition matchCondition_fields : fields MatchCondition :=
  as_record matchCondition_tuple matchCondition_struct
   (field "name" false string_codec
    (field "expression" false string_codec
    no_fields)).
Definition matchCondition_codec : codec MatchCondition := struct_codec
  matchCondition_fields.

Definition expressionWarning_tuple (s : ExpressionWarning) :=
  (ew_FieldRef s, (ew_Warning s, tt)).
Definition expressionWarning_struct t : ExpressionWarning :=
  let '(x0, (x1, tt)) := t in
  {| ew_FieldRef := x0; ew_Warning := x1 |}.
Definition expressionWarning_fields : fields ExpressionWarning :=
  as_record expressionWarning_tuple expressionWarning_struct
   (field "fieldRef" false string_codec
    (field "warning" false string_codec
    no_fields)).
Definition expressionWarning_codec : codec ExpressionWarning := struct_codec
  expressionWarning_fields.

Definition typeChecking_tuple (s : TypeChecking) :=
  (tc_ExpressionWarnings s, tt).
Definition typeChecking_struct t : TypeChecking :=
  let '(x0, tt) := t in
  {| tc_ExpressionWarnings := x0 |}.
Definition typeChecking_fields : fields TypeChecking :=
  as_record typeChecking_tuple typeChecking_struct
   (field "expressionWarnings" true (slice_codec expressionWarning_codec)
    no_fields).
Definition typeChecking_codec : codec TypeChecking := struct_codec typeChecking_fields.

Definition validatingAdmissionPolicyStatus_tuple (s : ValidatingAdmissionPolicyStatus) :=
  (ps_ObservedGeneration s, (ps_TypeChecking s, (ps_Conditions s, tt))).
Definition validatingAdmissionPolicyStatus_struct t : ValidatingAdmissionPolicyStatus :=
  let '(x0, (x1, (x2, tt))) := t in
  {| ps_ObservedGeneration := x0; ps_TypeChecking := x1; ps_Conditions := x2 |}.
Definition validatingAdmissionPolicyStatus_fields : fields
  ValidatingAdmissionPolicyStatus :=
  as_record validatingAdmissionPolicyStatus_tuple validatingAdmissionPolicyStatus_struct
   (field "observedGeneration" true int64_codec
    (field "typeChecking" true (ptr_codec typeChecking_codec)
    (field "conditions" true (slice_codec condition_codec)
    no_fields))).
Definition validatingAdmissionPolicyStatus_codec : codec ValidatingAdmissionPolicyStatus
  := struct_codec validatingAdmissionPolicyStatus_fields.

Definition validatingAdmissionPolicySpec_tuple (s : ValidatingAdmissionPolicySpec) :=
  (sp_ParamKind s, (sp_MatchConstraints s, (sp_Validations s, (sp_FailurePolicy s,
    (sp_AuditAnnotations s, (sp_MatchConditions s, tt)))))).
Definition validatingAdmissionPolicySpec_struct t : ValidatingAdmissionPolicySpec :=
  let '(x0, (x1, (x2, (x3, (x4, (x5, tt)))))) := t in
  {| sp_ParamKind := x0; sp_MatchConstraints := x1; sp_Validations := x2; sp_FailurePolicy
    := x3; sp_AuditAnnotations := x4; sp_MatchConditions := x5 |}.
Definition validatingAdmissionPolicySpec_fields (a : api) : fields
  ValidatingAdmissionPolicySpec :=
  as_record validatingAdmissionPolicySpec_tuple validatingAdmissionPolicySpec_struct
   (field "paramKind" true (ptr_codec (paramKind_codec a))
    (field "matchConstraints" (native_only a) (ptr_codec matchResources_codec)
    (field "validations" true (slice_codec validation_codec)
    (field "failurePolicy" true (ptr_codec string_codec)
    (field "auditAnnotations" true (slice_codec auditAnnotation_codec)
    (field "matchConditions" true (slice_codec matchCondition_codec)
    no_fields)))))).
Definition validatingAdmissionPolicySpec_codec (a : api) : codec
  ValidatingAdmissionPolicySpec := struct_codec (validatingAdmissionPolicySpec_fields a).

Definition validatingAdmissionPolicy_tuple (s : ValidatingAdmissionPolicy) :=
  (po_TypeMeta s, (po_ObjectMeta s, (po_Spec s, (po_Status s, tt)))).
Definition validatingAdmissionPolicy_struct t : ValidatingAdmissionPolicy :=
  let '(x0, (x1, (x2, (x3, tt)))) := t in
  {| po_TypeMeta := x0; po_ObjectMeta := x1; po_Spec := x2; po_Status := x3 |}.
Definition validatingAdmissionPolicy_fields (a : api) : fields ValidatingAdmissionPolicy :=
  as_record validatingAdmissionPolicy_tuple validatingAdmissionPolicy_struct
   (inline typeMeta_fields
    (field "metadata" true objectMeta_codec
    (field "spec" true (validatingAdmissionPolicySpec_codec a)
    (field "status" true validatingAdmissionPolicyStatus_codec
    no_fields)))).
Definition validatingAdmissionPolicy_codec (a : api) : codec ValidatingAdmissionPolicy
  := struct_codec (validatingAdmissionPolicy_fields a).

Definition validatingAdmissionPolicyBindingSpec_tuple (s :
  ValidatingAdmissionPolicyBindingSpec) :=
  (bs_PolicyName s, (bs_ParamRef s, (bs_MatchResources s, (bs_ValidationActions s, tt)))).
Definition validatingAdmissionPolicyBindingSpec_struct t :
  ValidatingAdmissionPolicyBindingSpec :=
  let '(x0, (x1, (x2, (x3, tt)))) := t in
  {| bs_PolicyName := x0; bs_ParamRef := x1; bs_MatchResources := x2; bs_ValidationActions
    := x3 |}.
Definition validatingAdmissionPolicyBindingSpec_fields (a : api) : fields
  ValidatingAdmissionPolicyBindingSpec :=
  as_record validatingAdmissionPolicyBindingSpec_tuple
    validatingAdmissionPolicyBindingSpec_struct
   (field "policyName" (native_only a) string_codec
    (field "paramRef" true (ptr_codec paramRef_codec)
    (field "matchResources" true (ptr_codec matchResources_codec)
    (field "validationActions" true (slice_codec string_codec)
    no_fields)))).
Definition validatingAdmissionPolicyBindingSpec_codec (a : api) : codec
  ValidatingAdmissionPolicyBindingSpec := struct_codec
  (validatingAdmissionPolicyBindingSpec_fields a).

Definition validatingAdmissionPolicyBinding_tuple (s : ValidatingAdmissionPolicyBinding) :=
  (bi_TypeMeta s, (bi_ObjectMeta s, (bi_Spec s, tt))).
Definition validatingAdmissionPolicyBinding_struct t : ValidatingAdmissionPolicyBinding :=
  let '(x0, (x1, (x2, tt))) := t in
  {| bi_TypeMeta := x0; bi_ObjectMeta := x1; bi_Spec := x2 |}.
Definition validatingAdmissionPolicyBinding_fields (a : api) : fields
  ValidatingAdmissionPolicyBinding :=
  as_record validatingAdmissionPolicyBinding_tuple validatingAdmissionPolicyBinding_struct
   (inline typeMeta_fields
    (field "metadata" true objectMeta_codec
    (field "spec" true (validatingAdmissionPolicyBindingSpec_codec a)
    no_fields))).
Definition validatingAdmissionPolicyBinding_codec (a : api) : codec
  ValidatingAdmissionPolicyBinding := struct_codec
  (validatingAdmissionPolicyBinding_fields a).

(** The list types: [metav1.ListMeta] and the items.  Both list types have the
    same tags. *)
Definition listMeta_tuple (s : ListMeta) :=
  (ListSelfLink s, (ListResourceVersion s, (ListContinue s, (RemainingItemCount s, tt)))).
Definition listMeta_struct t : ListMeta :=
  let '(x0, (x1, (x2, (x3, tt)))) := t in
  {| ListSelfLink := x0; ListResourceVersion := x1; ListContinue := x2; RemainingItemCount := x3 |}.
Definition listMeta_fields : fields ListMeta :=
  as_record listMeta_tuple listMeta_struct
   (field "selfLink" true string_codec
    (field "resourceVersion" true string_codec
    (field "continue" true string_codec
    (field "remainingItemCount" true (ptr_codec int64_codec)
    no_fields)))).
Definition listMeta_codec : codec ListMeta := struct_codec listMeta_fields.

Definition typedList_tuple {A} (s : TypedList A) :=
  ({| tm_Kind := list_kind s; tm_APIVersion := list_apiVersion s |}, (list_meta s, (Items s, tt))).
Definition typedList_struct {A} t : TypedList A :=
  let '(x0, (x1, (x2, tt))) := t in
  {| list_kind := tm_Kind x0; list_apiVersion := tm_APIVersion x0; list_meta := x1; Items := x2 |}.
Definition typedList_fields {A} (c : codec A) : fields (TypedList A) :=
  as_record typedList_tuple typedList_struct
   (inline typeMeta_fields
    (field "metadata" true listMeta_codec
    (field "items" true (slice_codec c)
    no_fields))).
Definition typedList_codec {A} (c : codec A) : codec (TypedList A) := struct_codec (typedList_fields c).

End codecs.

(** ** The codecs are lawful, from either API to either API

    The encoder and the decoder may look for fields in different ways. *)
Ltac solve_iso :=
  intros;
  repeat match goal with
         | x : (_ * _)%type |- _ => destruct x
         | x : unit |- _ => destruct x
         end; try reflexivity;
  match goal with |- _ = ?s => destruct s; reflexivity end.

Ltac solve_lawful :=
  repeat first
    [ exact lawful_string | exact lawful_bool | exact lawful_int64 | exact lawful_raw
    | apply lawful_time; eassumption
    | apply lawful_ptr | apply lawful_slice | apply lawful_map
    | apply lawful_struct; solve [auto with json] ].

Ltac solve_names := apply (bool_decide_unpack _); vm_compute; exact I.

Ltac solve_each_field :=
  repeat first
    [ exact lawful_no_fields
    | apply lawful_field; [solve_names | solve_lawful |]
    | apply lawful_inline; [solve_names | solve [auto with json] |] ].

Ltac solve_lawful_fields :=
  intros; apply lawful_as_record; [solve_iso | solve_iso |]; solve_each_field.

Section laws.
Context {kE kD : KeyFolding} (format : Z → string) (parse : string → error + Time).
Hypothesis parse_format : ∀ sec, representable sec → parse (format sec) = inr (Some (sec, 0)).

Lemma lawful_typeMeta_fields : lawful_fields typeMeta_fields typeMeta_fields.
Proof. solve_lawful_fields. Qed.
#[local] Hint Resolve lawful_typeMeta_fields : json.
Lemma lawful_ownerReference_fields : lawful_fields ownerReference_fields ownerReference_fields.
Proof. solve_lawful_fields. Qed.
#[local] Hint Resolve lawful_ownerReference_fields : json.
Lemma lawful_managedFieldsEntry_fields :
  lawful_fields (managedFieldsEntry_fields format parse)
    (managedFieldsEntry_fields format parse).
Proof. solve_lawful_fields. Qed.
#[local] Hint Resolve lawful_managedFieldsEntry_fields : json.
Lemma lawful_objectMeta_fields :
  lawful_fields (objectMeta_fields (kf := kE) format parse)
    (objectMeta_fields (kf := kD) format parse).
Proof. solve_lawful_fields. Qed.
#[local] Hint Resolve lawful_objectMeta_fields : json.
Lemma lawful_condition_fields : lawful_fields (condition_fields format parse) (condition_fields format parse).
Proof. solve_lawful_fields. Qed.
#[local] Hint Resolve lawful_condition_fields : json.
Lemma lawful_labelSelectorRequirement_fields :
  lawful_fields labelSelectorRequirement_fields labelSelectorRequirement_fields.
Proof. solve_lawful_fields. Qed.
#[local] Hint Resolve lawful_labelSelectorRequirement_fields : json.
Lemma lawful_labelSelector_fields :
  lawful_fields (labelSelector_fields (kf := kE))
    (labelSelector_fields (kf := kD)).
Proof. solve_lawful_fields. Qed.
#[local] Hint Resolve lawful_labelSelector_fields : json.
Lemma lawful_rule_fields : lawful_fields rule_fields rule_fields.
Proof. solve_lawful_fields. Qed.
#[local] Hint Resolve lawful_rule_fields : json.
Lemma lawful_ruleWithOperations_fields : lawful_fields ruleWithOperations_fields ruleWithOperations_fields.
Proof. solve_lawful_fields. Qed.
#[local] Hint Resolve lawful_ruleWithOperations_fields : json.
Lemma lawful_namedRuleWithOperations_fields :
  lawful_fields namedRuleWithOperations_fields namedRuleWithOperations_fields.
Proof. solve_lawful_fields. Qed.
#[local] Hint Resolve lawful_namedRuleWithOperations_fields : json.
Lemma lawful_matchResources_fields :
  lawful_fields (matchResources_fields (kf := kE))
    (matchResources_fields (kf := kD)).
Proof. solve_lawful_fields. Qed.
#[local] Hint Resolve lawful_matchResources_fields : json.
Lemma lawful_paramKind_fields a1 a2 : lawful_fields (paramKind_fields a1) (paramKind_fields a2).
Proof. solve_lawful_fields. Qed.
#[local] Hint Resolve lawful_paramKind_fields : json.
Lemma lawful_paramRef_fields : lawful_fields paramRef_fields paramRef_fields.
Proof. solve_lawful_fields. Qed.
#[local] Hint Resolve lawful_paramRef_fields : json.
Lemma lawful_validation_fields : lawful_fields validation_fields validation_fields.
Proof. solve_lawful_fields. Qed.
#[local] Hint Resolve lawful_validation_fields : json.
Lemma lawful_auditAnnotation_fields : lawful_fields auditAnnotation_fields auditAnnotation_fields.
Proof. solve_lawful_fields. Qed.
#[local] Hint Resolve lawful_auditAnnotation_fields : json.
Lemma lawful_matchCondition_fields : lawful_fields matchCondition_fields matchCondition_fields.
Proof. solve_lawful_fields. Qed.
#[local] Hint Resolve lawful_matchCondition_fields : json.
Lemma lawful_expressionWarning_fields : lawful_fields expressionWarning_fields expressionWarning_fields.
Proof. solve_lawful_fields. Qed.
#[local] Hint Resolve lawful_expressionWarning_fields : json.
Lemma lawful_typeChecking_fields :
  lawful_fields (typeChecking_fields (kf := kE))
    (typeChecking_fields (kf := kD)).
Proof. solve_lawful_fields. Qed.
#[local] Hint Resolve lawful_typeChecking_fields : json.
Lemma lawful_validatingAdmissionPolicyStatus_fields :
  lawful_fields (validatingAdmissionPolicyStatus_fields (kf := kE) format parse)
    (validatingAdmissionPolicyStatus_fields (kf := kD) format parse).
Proof. solve_lawful_fields. Qed.
#[local] Hint Resolve lawful_validatingAdmissionPolicyStatus_fields : json.
Lemma lawful_validatingAdmissionPolicySpec_fields a1 a2 :
  lawful_fields (validatingAdmissionPolicySpec_fields (kf := kE) a1)
    (validatingAdmissionPolicySpec_fields (kf := kD) a2).
Proof. solve_lawful_fields. Qed.
#[local] Hint Resolve lawful_validatingAdmissionPolicySpec_fields : json.
Lemma lawful_validatingAdmissionPolicy_fields a1 a2 :
  lawful_fields (validatingAdmissionPolicy_fields (kf := kE) format parse a1)
    (validatingAdmissionPolicy_fields (kf := kD) format parse a2).
Proof. solve_lawful_fields. Qed.
#[local] Hint Resolve lawful_validatingAdmissionPolicy_fields : json.
Lemma lawful_validatingAdmissionPolicyBindingSpec_fields a1 a2 :
  lawful_fields (validatingAdmissionPolicyBindingSpec_fields (kf := kE) a1)
    (validatingAdmissionPolicyBindingSpec_fields (kf := kD) a2).
Proof. solve_lawful_fields. Qed.
#[local] Hint Resolve lawful_validatingAdmissionPolicyBindingSpec_fields : json.
Lemma lawful_validatingAdmissionPolicyBinding_fields a1 a2 :
  lawful_fields (validatingAdmissionPolicyBinding_fields (kf := kE) format parse a1)
    (validatingAdmissionPolicyBinding_fields (kf := kD) format parse a2).
Proof. solve_lawful_fields. Qed.
#[local] Hint Resolve lawful_validatingAdmissionPolicyBinding_fields : json.

(** ** What they store is stable *)
Ltac solve_stable :=
  repeat first
    [ exact stable_string | exact stable_bool | exact stable_int64 | exact stable_raw
    | apply stable_time | apply stable_ptr | apply stable_slice | apply stable_map
    | apply stable_struct; solve [auto with json] ].

Ltac solve_strict :=
  intros; first [exact strict_string | apply strict_ptr | discriminate].

Ltac solve_stable_fields :=
  intros; apply stable_as_record; [solve_iso | solve_iso |];
  repeat first
    [ exact stable_no_fields
    | apply stable_field; [solve_strict | solve_stable |]
    | apply stable_inline; [solve [auto with json] |] ].

Lemma stable_typeMeta_fields : stable_fields typeMeta_fields typeMeta_fields.
Proof. solve_stable_fields. Qed.
#[local] Hint Resolve stable_typeMeta_fields : json.
Lemma stable_ownerReference_fields : stable_fields ownerReference_fields ownerReference_fields.
Proof. solve_stable_fields. Qed.
#[local] Hint Resolve stable_ownerReference_fields : json.
Lemma stable_managedFieldsEntry_fields :
  stable_fields (managedFieldsEntry_fields format parse)
    (managedFieldsEntry_fields format parse).
Proof. solve_stable_fields. Qed.
#[local] Hint Resolve stable_managedFieldsEntry_fields : json.
Lemma stable_objectMeta_fields :
  stable_fields (objectMeta_fields (kf := kE) format parse)
    (objectMeta_fields (kf := kD) format parse).
Proof. solve_stable_fields. Qed.
#[local] Hint Resolve stable_objectMeta_fields : json.
Lemma stable_condition_fields : stable_fields (condition_fields format parse) (condition_fields format parse).
Proof. solve_stable_fields. Qed.
#[local] Hint Resolve stable_condition_fields : json.
Lemma stable_labelSelectorRequirement_fields :
  stable_fields labelSelectorRequirement_fields labelSelectorRequirement_fields.
Proof. solve_stable_fields. Qed.
#[local] Hint Resolve stable_labelSelectorRequirement_fields : json.
Lemma stable_labelSelector_fields :
  stable_fields (labelSelector_fields (kf := kE))
    (labelSelector_fields (kf := kD)).
Proof. solve_stable_fields. Qed.
#[local] Hint Resolve stable_labelSelector_fields : json.
Lemma stable_rule_fields : stable_fields rule_fields rule_fields.
Proof. solve_stable_fields. Qed.
#[local] Hint Resolve stable_rule_fields : json.
Lemma stable_ruleWithOperations_fields : stable_fields ruleWithOperations_fields ruleWithOperations_fields.
Proof. solve_stable_fields. Qed.
#[local] Hint Resolve stable_ruleWithOperations_fields : json.
Lemma stable_namedRuleWithOperations_fields :
  stable_fields namedRuleWithOperations_fields namedRuleWithOperations_fields.
Proof. solve_stable_fields. Qed.
#[local] Hint Resolve stable_namedRuleWithOperations_fields : json.
Lemma stable_matchResources_fields :
  stable_fields (matchResources_fields (kf := kE))
    (matchResources_fields (kf := kD)).
Proof. solve_stable_fields. Qed.
#[local] Hint Resolve stable_matchResources_fields : json.
Lemma stable_paramKind_fields a1 a2 : stable_fields (paramKind_fields a1) (paramKind_fields a2).
Proof. solve_stable_fields. Qed.
#[local] Hint Resolve stable_paramKind_fields : json.
Lemma stable_paramRef_fields : stable_fields paramRef_fields paramRef_fields.
Proof. solve_stable_fields. Qed.
#[local] Hint Resolve stable_paramRef_fields : json.
Lemma stable_validation_fields : stable_fields validation_fields validation_fields.
Proof. solve_stable_fields. Qed.
#[local] Hint Resolve stable_validation_fields : json.
Lemma stable_auditAnnotation_fields : stable_fields auditAnnotation_fields auditAnnotation_fields.
Proof. solve_stable_fields. Qed.
#[local] Hint Resolve stable_auditAnnotation_fields : json.
Lemma stable_matchCondition_fields : stable_fields matchCondition_fields matchCondition_fields.
Proof. solve_stable_fields. Qed.
#[local] Hint Resolve stable_matchCondition_fields : json.
Lemma stable_expressionWarning_fields : stable_fields expressionWarning_fields expressionWarning_fields.
Proof. solve_stable_fields. Qed.
#[local] Hint Resolve stable_expressionWarning_fields : json.
Lemma stable_typeChecking_fields :
  stable_fields (typeChecking_fields (kf := kE))
    (typeChecking_fields (kf := kD)).
Proof. solve_stable_fields. Qed.
#[local] Hint Resolve stable_typeChecking_fields : json.
Lemma stable_validatingAdmissionPolicyStatus_fields :
  stable_fields (validatingAdmissionPolicyStatus_fields (kf := kE) format parse)
    (validatingAdmissionPolicyStatus_fields (kf := kD) format parse).
Proof. solve_stable_fields. Qed.
#[local] Hint Resolve stable_validatingAdmissionPolicyStatus_fields : json.
Lemma stable_validatingAdmissionPolicySpec_fields a1 a2 :
  stable_fields (validatingAdmissionPolicySpec_fields (kf := kE) a1)
    (validatingAdmissionPolicySpec_fields (kf := kD) a2).
Proof. solve_stable_fields. Qed.
#[local] Hint Resolve stable_validatingAdmissionPolicySpec_fields : json.
Lemma stable_validatingAdmissionPolicy_fields a1 a2 :
  stable_fields (validatingAdmissionPolicy_fields (kf := kE) format parse a1)
    (validatingAdmissionPolicy_fields (kf := kD) format parse a2).
Proof. solve_stable_fields. Qed.
#[local] Hint Resolve stable_validatingAdmissionPolicy_fields : json.
Lemma stable_validatingAdmissionPolicyBindingSpec_fields a1 a2 :
  stable_fields (validatingAdmissionPolicyBindingSpec_fields (kf := kE) a1)
    (validatingAdmissionPolicyBindingSpec_fields (kf := kD) a2).
Proof. solve_stable_fields. Qed.
#[local] Hint Resolve stable_validatingAdmissionPolicyBindingSpec_fields : json.
Lemma stable_validatingAdmissionPolicyBinding_fields a1 a2 :
  stable_fields (validatingAdmissionPolicyBinding_fields (kf := kE) format parse a1)
    (validatingAdmissionPolicyBinding_fields (kf := kD) format parse a2).
Proof. solve_stable_fields. Qed.
#[local] Hint Resolve stable_validatingAdmissionPolicyBinding_fields : json.

Lemma lawful_listMeta_fields : lawful_fields listMeta_fields listMeta_fields.
Proof. solve_lawful_fields. Qed.
#[local] Hint Resolve lawful_listMeta_fields : json.
Lemma lawful_typedList {A} (c c' : codec A) : lawful c c' → lawful (typedList_codec (kf := kE) c) (typedList_codec (kf := kD) c').
Proof.
  intros Hc. apply lawful_struct, lawful_as_record.
  - by intros [[] [? [? []]]].
  - by intros [].
  - solve_each_field. exact Hc.
Qed.

Lemma lawful_policy a1 a2 :
  lawful (validatingAdmissionPolicy_codec (kf := kE) format parse a1) (validatingAdmissionPolicy_codec (kf := kD) format parse a2).
Proof. apply lawful_struct, lawful_validatingAdmissionPolicy_fields. Qed.
Lemma lawful_binding a1 a2 :
  lawful (validatingAdmissionPolicyBinding_codec (kf := kE) format parse a1) (validatingAdmissionPolicyBinding_codec (kf := kD) format parse a2).
Proof. apply lawful_struct, lawful_validatingAdmissionPolicyBinding_fields. Qed.
Lemma stable_policy a1 a2 :
  stable (validatingAdmissionPolicy_codec (kf := kE) format parse a1) (validatingAdmissionPolicy_codec (kf := kD) format parse a2).
Proof. apply stable_struct, stable_validatingAdmissionPolicy_fields. Qed.
Lemma stable_binding a1 a2 :
  stable (validatingAdmissionPolicyBinding_codec (kf := kE) format parse a1) (validatingAdmissionPolicyBinding_codec (kf := kD) format parse a2).
Proof. apply stable_struct, stable_validatingAdmissionPolicyBinding_fields. Qed.
End laws.
