(* ===== verification/Conversion.v ===== *)
(** * The injected client
    ([pkg/controller/admissionregistration.x-k8s.io/v1alpha1/injected_client.go])

    Policies and bindings are converted between the CRD types and the native
    types through JSON, and the native client of both resources is replaced by a
    transforming client over the CRD client. *)
From S2P Require Import Prelude GoStrings GoErrors Admission TransformedClient Json Types.

Module Conversion.
Definition crd_apiVersion : string := "admissionregistration.x-k8s.io/v1alpha1".
(** What the code writes into native objects, and the version they are of. *)
Definition native_label : string := "apiregistration.k8s.io/v1alpha1".
Definition native_apiVersion : string := "admissionregistration.k8s.io/v1alpha1".

(** [if len(res.APIVersion) > 0 { res.APIVersion = v }]. *)
Definition relabel_TypeMeta (v : string) (tm : TypeMeta) : TypeMeta :=
  if is_empty (tm_APIVersion tm) then tm
  else {| tm_Kind := tm_Kind tm; tm_APIVersion := v |}.

Definition relabel (v : string) (p : ValidatingAdmissionPolicy) : ValidatingAdmissionPolicy :=
  {| po_TypeMeta := relabel_TypeMeta v (po_TypeMeta p); po_ObjectMeta := po_ObjectMeta p;
     po_Spec := po_Spec p; po_Status := po_Status p |}.

Definition relabel_binding (v : string) (b : ValidatingAdmissionPolicyBinding)
    : ValidatingAdmissionPolicyBinding :=
  {| bi_TypeMeta := relabel_TypeMeta v (bi_TypeMeta b); bi_ObjectMeta := bi_ObjectMeta b;
     bi_Spec := bi_Spec b |}.

Section conversion.
Context (format : Z → string) (parse : string → error + Time).

Abbreviation policy := (validatingAdmissionPolicy_codec format parse).
Abbreviation binding := (validatingAdmissionPolicyBinding_codec format parse).

(** The common body: encode with one codec, decode a new variable with another,
    relabel. *)
Definition convert {A} (from to : codec A) (label : A → A) (vap : option A) : returns error A :=
  match vap with
  | None => (None, None)
  | Some vap =>
      match Marshal from vap with
      | inl err => (None, Some err)
      | inr toJson =>
          let '(res, err) := Unmarshal to toJson (zero to) in (Some (label res), err)
      end
  end.

Definition NativeToCRDPolicy := convert (policy Native) (policy CRD) (relabel crd_apiVersion).
Definition CRDToNativePolicy := convert (policy CRD) (policy Native) (relabel native_label).
Definition NativeToCRDPolicyBinding :=
  convert (binding Native) (binding CRD) (relabel_binding crd_apiVersion).
Definition CRDToNativePolicyBinding :=
  convert (binding CRD) (binding Native) (relabel_binding native_label).

(** ** The clients *)
Section clients.
Context {W Options Watcher : Type}.

(** [replacedClient]: both resources come from the replacement. *)
Record replacement_client := {
  r_ValidatingAdmissionPolicies : ClientInterface W Options Watcher ValidatingAdmissionPolicy;
  r_ValidatingAdmissionPolicyBindings :
    ClientInterface W Options Watcher ValidatingAdmissionPolicyBinding;
}.

Definition ValidatingAdmissionPolicies (r : replacement_client) :=
  Transformed.TransformedClient (r_ValidatingAdmissionPolicies r)
    CRDToNativePolicy NativeToCRDPolicy.
Definition ValidatingAdmissionPolicyBindings (r : replacement_client) :=
  Transformed.TransformedClient (r_ValidatingAdmissionPolicyBindings r)
    CRDToNativePolicyBinding NativeToCRDPolicyBinding.

(** [wrappedClient]: a clientset whose [AdmissionregistrationV1alpha1] is made
    from the replacement; everything else of type [Rest] is the wrapped one's. *)
Record clientset (Rest Admissionregistration : Type) := {
  rest : Rest;
  AdmissionregistrationV1alpha1 : Admissionregistration;
}.

Definition NewWrappedClient {Rest N}
    (client : clientset Rest N) (customClient : clientset unit replacement_client)
    : clientset Rest
        (ClientInterface W Options _ ValidatingAdmissionPolicy *
         ClientInterface W Options _ ValidatingAdmissionPolicyBinding) :=
  {| rest := rest _ _ client;
     AdmissionregistrationV1alpha1 :=
       let replacement := AdmissionregistrationV1alpha1 _ _ customClient in
       (ValidatingAdmissionPolicies replacement, ValidatingAdmissionPolicyBindings replacement) |}.
End clients.

(** ** Lemmas *)
Hypothesis parse_format : ∀ sec, representable sec → parse (format sec) = inr (Some (sec, 0)).

Lemma convert_lawful {A} (E D : codec A) label a :
  lawful E D → encodable E a → convert E D label (Some a) = (Some (label (stored E a)), None).
Proof.
  intros [_ _ Hok] Ha. destruct (Hok a Ha) as (j & Hj & Hd).
  unfold convert, Marshal, Unmarshal. by rewrite Hj, Hd.
Qed.

(** Relabelling neither prevents encoding nor changes what is stored, up to the
    label itself. *)
Lemma encodable_relabel a v p :
  encodable (policy a) p → encodable (policy a) (relabel v p).
Proof.
  destruct p as [[k av] m s st]. unfold relabel, relabel_TypeMeta.
  cbn [po_TypeMeta tm_APIVersion tm_Kind]. destruct (is_empty av); [exact id|].
  intros [_ H]. split; [simpl; tauto|exact H].
Qed.

Lemma encodable_relabel_binding a v b :
  encodable (binding a) b → encodable (binding a) (relabel_binding v b).
Proof.
  destruct b as [[k av] m s]. unfold relabel_binding, relabel_TypeMeta.
  cbn [bi_TypeMeta tm_APIVersion tm_Kind]. destruct (is_empty av); [exact id|].
  intros [_ H]. split; [simpl; tauto|exact H].
Qed.

(** Relabelling, as seen on the stored [TypeMeta]. *)
Definition label_ok (v : string) : Prop := Utf8.coerce v = v ∧ is_empty v = false.

Lemma stored_relabel_TypeMeta v v' tm :
  label_ok v →
  relabel_TypeMeta v' (f_stored typeMeta_fields (relabel_TypeMeta v tm)) =
  relabel_TypeMeta v' (f_stored typeMeta_fields tm).
Proof.
  intros [Hc He]. destruct tm as [k av]. unfold relabel_TypeMeta. simpl.
  destruct (is_empty av) eqn:Hav; simpl; rewrite ?Hav; [done|].
  by rewrite He, !Utf8.coerce_is_empty, He, Hav.
Qed.

Lemma stored_relabel a v v' p :
  label_ok v →
  relabel v' (stored (policy a) (relabel v p)) = relabel v' (stored (policy a) p).
Proof.
  intros Hv. destruct p as [tm m s st]. unfold relabel. f_equal.
  by apply (stored_relabel_TypeMeta v v' tm).
Qed.

Lemma stored_relabel_binding a v v' b :
  label_ok v →
  relabel_binding v' (stored (binding a) (relabel_binding v b)) =
  relabel_binding v' (stored (binding a) b).
Proof.
  intros Hv. destruct b as [tm m s]. unfold relabel_binding. f_equal.
  by apply (stored_relabel_TypeMeta v v' tm).
Qed.

(** ** Theorems *)
(** C13: Converting never fails on an encodable object (integers in range, times
    of years 1 to 9999, well-formed managed fields) and changes nothing but what
    JSON does not hold ([stored]: nil and empty slices and maps behind
    [omitempty] are the same, times have no fraction of a second, strings are
    valid UTF-8) and the API version, if there is one; in both directions, for
    policies and bindings. *)
Theorem conversions_spec :
  (∀ p, encodable (policy Native) p →
     NativeToCRDPolicy (Some p) =
     (Some (relabel crd_apiVersion (stored (policy Native) p)), None)) ∧
  (∀ p, encodable (policy CRD) p →
     CRDToNativePolicy (Some p) =
     (Some (relabel native_label (stored (policy CRD) p)), None)) ∧
  (∀ b, encodable (binding Native) b →
     NativeToCRDPolicyBinding (Some b) =
     (Some (relabel_binding crd_apiVersion (stored (binding Native) b)), None)) ∧
  (∀ b, encodable (binding CRD) b →
     CRDToNativePolicyBinding (Some b) =
     (Some (relabel_binding native_label (stored (binding CRD) b)), None)).
Proof.
  split_and!; intros x Hx; apply convert_lawful; try done;
    by (apply lawful_policy || apply lawful_binding).
Qed.

Lemma roundtrip_policy a a' v v' p :
  label_ok v → encodable (policy a) p →
  convert (policy a') (policy a) (relabel v') (Some (relabel v (stored (policy a) p))) =
  (Some (relabel v' (stored (policy a) p)), None).
Proof.
  intros Hv Hp.
  destruct (st_ok _ _ (stable_policy format parse a a') p Hp) as [Henc Hst].
  rewrite (convert_lawful _ _ _ _ (lawful_policy format parse parse_format a' a)).
  - by rewrite stored_relabel, Hst.
  - by apply encodable_relabel.
Qed.

Lemma roundtrip_binding a a' v v' b :
  label_ok v → encodable (binding a) b →
  convert (binding a') (binding a) (relabel_binding v')
    (Some (relabel_binding v (stored (binding a) b))) =
  (Some (relabel_binding v' (stored (binding a) b)), None).
Proof.
  intros Hv Hb.
  destruct (st_ok _ _ (stable_binding format parse a a') b Hb) as [Henc Hst].
  rewrite (convert_lawful _ _ _ _ (lawful_binding format parse parse_format a' a)).
  - by rewrite stored_relabel_binding, Hst.
  - by apply encodable_relabel_binding.
Qed.

(** A string that is omitted when it is empty. *)
Lemma stored_omitted s : Utf8.coerce s = s → (if is_empty s then "" else Utf8.coerce s) = s.
Proof. destruct (is_empty s) eqn:He; [|done]. by apply is_empty_true in He as ->. Qed.

(** The API version of an object. *)
Definition version (p : ValidatingAdmissionPolicy) : string := tm_APIVersion (po_TypeMeta p).
Definition version_binding (b : ValidatingAdmissionPolicyBinding) : string := tm_APIVersion (bi_TypeMeta b).
Lemma stored_version a p : Utf8.coerce (version p) = version p → version (stored (policy a) p) = version p.
Proof. destruct p as [[k av] m s st]. apply stored_omitted. Qed.
Lemma stored_version_binding a b :
  Utf8.coerce (version_binding b) = version_binding b → version_binding (stored (binding a) b) = version_binding b.
Proof. destruct b as [[k av] m s]. apply stored_omitted. Qed.

Lemma relabel_version v p : is_empty (version p) = false → version (relabel v p) = v.
Proof. unfold version. destruct p as [[k av] m s st]. unfold relabel, relabel_TypeMeta. simpl. by intros ->. Qed.
Lemma relabel_binding_version v b :
  is_empty (version_binding b) = false → version_binding (relabel_binding v b) = v.
Proof. unfold version_binding. destruct b as [[k av] m s]. unfold relabel_binding, relabel_TypeMeta. simpl. by intros ->. Qed.
Lemma relabel_TypeMeta_own v tm : tm_APIVersion tm = "" ∨ tm_APIVersion tm = v → relabel_TypeMeta v tm = tm.
Proof. destruct tm as [k av]. unfold relabel_TypeMeta. simpl. intros [->| ->]; [done|]. by destruct (is_empty v). Qed.
Lemma relabel_own v p : version p = "" ∨ version p = v → relabel v p = p.
Proof. intros Hv. destruct p as [tm m s st]. unfold relabel. simpl. by rewrite relabel_TypeMeta_own. Qed.
Lemma relabel_binding_own v b : version_binding b = "" ∨ version_binding b = v → relabel_binding v b = b.
Proof. intros Hv. destruct b as [tm m s]. unfold relabel_binding. simpl. by rewrite relabel_TypeMeta_own. Qed.

(** C12: Round trips.  A CRD object converted to the native type and back is the
    stored object; only a foreign API version is replaced by that of the CRDs.  A
    native object converted to the CRD type and back is the stored object but for its
    API version, if it has one: it comes back as [apiregistration.k8s.io/v1alpha1],
    which is not the version of the native types, so that an object that came with
    the right version does not come back as it was.  For policies and bindings. *)
Theorem conversions_roundtrip :
  (∀ p, encodable (policy CRD) p → ∃ q p',
     CRDToNativePolicy (Some p) = (Some q, None) ∧ NativeToCRDPolicy (Some q) = (Some p', None) ∧
     p' = relabel "admissionregistration.x-k8s.io/v1alpha1" (stored (policy CRD) p) ∧
     (version p = "" ∨ version p = "admissionregistration.x-k8s.io/v1alpha1" → p' = stored (policy CRD) p)) ∧
  (∀ b, encodable (binding CRD) b → ∃ c b',
     CRDToNativePolicyBinding (Some b) = (Some c, None) ∧ NativeToCRDPolicyBinding (Some c) = (Some b', None) ∧
     b' = relabel_binding "admissionregistration.x-k8s.io/v1alpha1" (stored (binding CRD) b) ∧
     (version_binding b = "" ∨ version_binding b = "admissionregistration.x-k8s.io/v1alpha1" →
      b' = stored (binding CRD) b)) ∧
  (∀ p, encodable (policy Native) p → ∃ q p',
     NativeToCRDPolicy (Some p) = (Some q, None) ∧ CRDToNativePolicy (Some q) = (Some p', None) ∧
     p' = relabel "apiregistration.k8s.io/v1alpha1" (stored (policy Native) p) ∧
     (version p = native_apiVersion →
      version p' = "apiregistration.k8s.io/v1alpha1" ∧ p' ≠ stored (policy Native) p)) ∧
  (∀ b, encodable (binding Native) b → ∃ c b',
     NativeToCRDPolicyBinding (Some b) = (Some c, None) ∧ CRDToNativePolicyBinding (Some c) = (Some b', None) ∧
     b' = relabel_binding "apiregistration.k8s.io/v1alpha1" (stored (binding Native) b) ∧
     (version_binding b = native_apiVersion →
      version_binding b' = "apiregistration.k8s.io/v1alpha1" ∧ b' ≠ stored (binding Native) b)).
Proof.
  assert (Hl : label_ok native_label ∧ label_ok crd_apiVersion) by (by vm_compute).
  destruct Hl as [Hl1 Hl2].
  split_and!; intros x Hx; eexists _, _;
    (split; [apply convert_lawful; [by (apply lawful_policy || apply lawful_binding)|done]|]).
  - split_and!; [by apply roundtrip_policy|done|]. intros Hv. apply relabel_own.
    rewrite stored_version; [done|]. by destruct Hv as [->| ->].
  - split_and!; [by apply roundtrip_binding|done|]. intros Hv. apply relabel_binding_own.
    rewrite stored_version_binding; [done|]. by destruct Hv as [->| ->].
  - split_and!; [by apply roundtrip_policy|done|]. intros Hv.
    assert (Hs : version (stored (policy Native) x) = native_apiVersion) by (by rewrite stored_version; rewrite Hv).
    rewrite relabel_version by (by rewrite Hs). split; [done|]. intros Heq.
    apply (f_equal version) in Heq. by rewrite relabel_version in Heq; rewrite Hs in *.
  - split_and!; [by apply roundtrip_binding|done|]. intros Hv.
    assert (Hs : version_binding (stored (binding Native) x) = native_apiVersion)
      by (by rewrite stored_version_binding; rewrite Hv).
    rewrite relabel_binding_version by (by rewrite Hs). split; [done|]. intros Heq.
    apply (f_equal version_binding) in Heq. by rewrite relabel_binding_version in Heq; rewrite Hs in *.
Qed.

(** C33: Conversions stay among well-formed objects: of an object that the source API
    can encode, both directions give one that the target API can encode, so that no
    later conversion of it fails; for policies and bindings. *)
Theorem conversions_preserve_encodable :
  (∀ p, encodable (policy Native) p → ∃ q,
     NativeToCRDPolicy (Some p) = (Some q, None) ∧ encodable (policy CRD) q) ∧
  (∀ p, encodable (policy CRD) p → ∃ q,
     CRDToNativePolicy (Some p) = (Some q, None) ∧ encodable (policy Native) q) ∧
  (∀ b, encodable (binding Native) b → ∃ c,
     NativeToCRDPolicyBinding (Some b) = (Some c, None) ∧ encodable (binding CRD) c) ∧
  (∀ b, encodable (binding CRD) b → ∃ c,
     CRDToNativePolicyBinding (Some b) = (Some c, None) ∧ encodable (binding Native) c).
Proof.
  split_and!; intros x Hx; eexists;
    (split; [apply convert_lawful; [by (apply lawful_policy || apply lawful_binding)|done]|]).
  - by apply encodable_relabel, (st_ok _ _ (stable_policy format parse Native CRD)).
  - by apply encodable_relabel, (st_ok _ _ (stable_policy format parse CRD Native)).
  - by apply encodable_relabel_binding, (st_ok _ _ (stable_binding format parse Native CRD)).
  - by apply encodable_relabel_binding, (st_ok _ _ (stable_binding format parse CRD Native)).
Qed.

(** The API version given to native objects is not theirs: a CRD policy or
    binding with an API version becomes a native object whose API version names
    the group [apiregistration.k8s.io], which is not the group of the native
    types. *)
Theorem native_objects_mislabelled :
  (∀ p, encodable (policy CRD) p → is_empty (tm_APIVersion (po_TypeMeta p)) = false →
     ∃ q, CRDToNativePolicy (Some p) = (Some q, None) ∧
          tm_APIVersion (po_TypeMeta q) = native_label) ∧
  (∀ b, encodable (binding CRD) b → is_empty (tm_APIVersion (bi_TypeMeta b)) = false →
     ∃ c, CRDToNativePolicyBinding (Some b) = (Some c, None) ∧
          tm_APIVersion (bi_TypeMeta c) = native_label) ∧
  native_label ≠ native_apiVersion.
Proof.
  split_and!; [| |done]; intros x Hx Hv; eexists;
    (split; [apply convert_lawful; [by (apply lawful_policy || apply lawful_binding)|done]|]);
    destruct x as [[k av] m s]; simpl in *; rewrite Hv; unfold relabel_TypeMeta; simpl;
    by rewrite Utf8.coerce_is_empty, Hv.
Qed.

(** ** The injected clients as clients of the native API *)
Definition policy_name (p : ValidatingAdmissionPolicy) : string := om_Name (po_ObjectMeta p).
Definition binding_name (b : ValidatingAdmissionPolicyBinding) : string :=
  om_Name (bi_ObjectMeta b).

(** Encodable, with a name that is valid UTF-8. *)
Definition good_policy (a : api) (p : ValidatingAdmissionPolicy) : Prop :=
  encodable (policy a) p ∧ Utf8.coerce (policy_name p) = policy_name p.
Definition good_binding (a : api) (b : ValidatingAdmissionPolicyBinding) : Prop :=
  encodable (binding a) b ∧ Utf8.coerce (binding_name b) = binding_name b.

Lemma stored_policy_name a v p :
  Utf8.coerce (policy_name p) = policy_name p →
  policy_name (relabel v (stored (policy a) p)) = policy_name p.
Proof. destruct p as [tm [] s st]. apply stored_omitted. Qed.

Lemma stored_binding_name a v b :
  Utf8.coerce (binding_name b) = binding_name b →
  binding_name (relabel_binding v (stored (binding a) b)) = binding_name b.
Proof. destruct b as [tm [] s]. apply stored_omitted. Qed.

Lemma good_policy_stored a a' v p :
  good_policy a p → good_policy a' (relabel v (stored (policy a) p)).
Proof.
  intros [Henc Hn]. split; [|by rewrite stored_policy_name].
  by apply encodable_relabel, (st_ok _ _ (stable_policy format parse a a')).
Qed.

Lemma good_binding_stored a a' v b :
  good_binding a b → good_binding a' (relabel_binding v (stored (binding a) b)).
Proof.
  intros [Henc Hn]. split; [|by rewrite stored_binding_name].
  by apply encodable_relabel_binding, (st_ok _ _ (stable_binding format parse a a')).
Qed.

Section injected.
Context {W Options Watcher : Type} (r : replacement_client (W := W) (Options := Options) (Watcher := Watcher)).

(** What the injected clients show of a stored CRD object, and what they submit
    of a native object. *)
Definition shown (p : ValidatingAdmissionPolicy) := relabel native_label (stored (policy CRD) p).
Definition submitted (p : ValidatingAdmissionPolicy) := relabel crd_apiVersion (stored (policy Native) p).
Definition shown_binding (b : ValidatingAdmissionPolicyBinding) :=
  relabel_binding native_label (stored (binding CRD) b).
Definition submitted_binding (b : ValidatingAdmissionPolicyBinding) :=
  relabel_binding crd_apiVersion (stored (binding Native) b).

Lemma injected_policies_spec {VC VN} (viewC : _ → VC) (viewN : _ → VN) view_to (ok : W → Prop) abs admitted :
  (∀ p, viewN (shown p) = view_to (viewC p)) →
  Transformed.client_spec (r_ValidatingAdmissionPolicies r) ok viewC abs policy_name (good_policy CRD) admitted →
  Transformed.client_spec (ValidatingAdmissionPolicies r) ok viewN (λ w, view_to <$> abs w) policy_name
    (good_policy Native) (λ p p', ∃ q, admitted (submitted p) q ∧ p' = shown q).
Proof.
  intros Hview.
  refine (Transformed.transformed_client_spec _ _ _ shown submitted policy_name policy_name
    (good_policy CRD) (good_policy Native) viewC viewN view_to _ _ _ _ _ _ ok abs admitted).
  - intros p [Henc _]. by apply convert_lawful; [apply lawful_policy|].
  - intros p [Henc _]. by apply convert_lawful; [apply lawful_policy|].
  - intros p. apply good_policy_stored.
  - intros p. apply good_policy_stored.
  - intros p [_ Hn]. by apply stored_policy_name.
  - intros p _. apply Hview.
Qed.

Lemma injected_bindings_spec {VC VN} (viewC : _ → VC) (viewN : _ → VN) view_to (ok : W → Prop) abs admitted :
  (∀ b, viewN (shown_binding b) = view_to (viewC b)) →
  Transformed.client_spec (r_ValidatingAdmissionPolicyBindings r) ok viewC abs binding_name (good_binding CRD) admitted →
  Transformed.client_spec (ValidatingAdmissionPolicyBindings r) ok viewN (λ w, view_to <$> abs w) binding_name
    (good_binding Native) (λ b b', ∃ c, admitted (submitted_binding b) c ∧ b' = shown_binding c).
Proof.
  intros Hview.
  refine (Transformed.transformed_client_spec _ _ _ shown_binding submitted_binding binding_name binding_name
    (good_binding CRD) (good_binding Native) viewC viewN view_to _ _ _ _ _ _ ok abs admitted).
  - intros b [Henc _]. by apply convert_lawful; [apply lawful_binding|].
  - intros b [Henc _]. by apply convert_lawful; [apply lawful_binding|].
  - intros b. apply good_binding_stored.
  - intros b. apply good_binding_stored.
  - intros b [_ Hn]. by apply stored_binding_name.
  - intros b _. apply Hview.
Qed.

(** C11: The injected clients serve the native API from the CRDs: when the CRD
    client of policies reads and writes a collection of CRD policies, the client
    that [ValidatingAdmissionPolicies] gives reads and writes, under the same
    names, the collection of their native conversions (get, create, update,
    delete, list; errors included); the same for bindings. *)
Theorem injected_clients_refine (ok_p ok_b : W → Prop) abs_p abs_b admitted_p admitted_b :
  Transformed.client_spec (r_ValidatingAdmissionPolicies r) ok_p id abs_p policy_name (good_policy CRD) admitted_p →
  Transformed.client_spec (r_ValidatingAdmissionPolicyBindings r) ok_b id abs_b binding_name (good_binding CRD)
    admitted_b →
  Transformed.client_spec (ValidatingAdmissionPolicies r) ok_p id (λ w, shown <$> abs_p w) policy_name
    (good_policy Native) (λ p p', ∃ q, admitted_p (submitted p) q ∧ p' = shown q) ∧
  Transformed.client_spec (ValidatingAdmissionPolicyBindings r) ok_b id (λ w, shown_binding <$> abs_b w) binding_name
    (good_binding Native) (λ b b', ∃ c, admitted_b (submitted_binding b) c ∧ b' = shown_binding c).
Proof.
  intros Hp Hb. split; [by apply (injected_policies_spec id id)|by apply (injected_bindings_spec id id)].
Qed.
End injected.
End conversion.

(** ** A concrete time format (seconds in binary) and concrete objects *)
Module Demo.
Fixpoint pos_format (p : positive) : string :=
  match p with xH => "" | xO p => String "0" (pos_format p) | xI p => String "1" (pos_format p) end.
Fixpoint pos_parse (s : string) : positive :=
  match s with
  | EmptyString => xH
  | String c s => if bool_decide (c = "1"%char) then xI (pos_parse s) else xO (pos_parse s)
  end.
Lemma pos_parse_format p : pos_parse (pos_format p) = p.
Proof. induction p as [p IH|p IH|]; simpl; by rewrite ?IH. Qed.

(** Seconds since the zero time, as a positive number. *)
Definition demo_format (sec : Z) : string := pos_format (Z.to_pos (sec + 62135596800)).
Definition demo_parse (s : string) : error + Time :=
  inr (Some (Z.pos (pos_parse s) - 62135596800, 0)).

Lemma demo_parse_format sec :
  representable sec → demo_parse (demo_format sec) = inr (Some (sec, 0)).
Proof.
  intros Hs. unfold demo_parse, demo_format. rewrite pos_parse_format, Z2Pos.id by (unfold representable in Hs; lia).
  do 3 f_equal. lia.
Qed.

(** A native policy, with an API version, a time with nanoseconds and an empty
    slice of conditions. *)
Definition demo_policy (apiVersion : string) : ValidatingAdmissionPolicy :=
  let p := zero (validatingAdmissionPolicy_codec demo_format demo_parse Native) in
  {| po_TypeMeta := {| tm_Kind := "ValidatingAdmissionPolicy"; tm_APIVersion := apiVersion |};
     po_ObjectMeta :=
       let m := po_ObjectMeta p in
       {| om_Name := "replicas"; om_GenerateName := ""; om_Namespace := ""; om_SelfLink := "";
          om_UID := ""; om_ResourceVersion := "12"; om_Generation := 3;
          om_CreationTimestamp := Some (1700000000, 5); om_DeletionTimestamp := None;
          om_DeletionGracePeriodSeconds := None; om_Labels := Some {["team" := "infra"]};
          om_Annotations := None; om_OwnerReferences := None; om_Finalizers := Some [];
          om_ManagedFields := None |};
     po_Spec :=
       {| sp_ParamKind := None; sp_MatchConstraints := None;
          sp_Validations := Some [{| va_Expression := "object.spec.replicas <= 5";
            va_Message := ""; va_Reason := Some "Invalid"; va_MessageExpression := "" |}];
          sp_FailurePolicy := Some "Fail"; sp_AuditAnnotations := None;
          sp_MatchConditions := None |};
     po_Status := po_Status p |}.

Definition demo_binding : ValidatingAdmissionPolicyBinding :=
  {| bi_TypeMeta := {| tm_Kind := "ValidatingAdmissionPolicyBinding"; tm_APIVersion := "" |};
     bi_ObjectMeta := po_ObjectMeta (demo_policy "");
     bi_Spec := {| bs_PolicyName := "replicas"; bs_ParamRef := None; bs_MatchResources := None;
                   bs_ValidationActions := Some ["Deny"] |} |}.

Abbreviation policy := (validatingAdmissionPolicy_codec demo_format demo_parse).
Abbreviation binding := (validatingAdmissionPolicyBinding_codec demo_format demo_parse).

(** One conjunct per field. *)
Ltac field_ok :=
  lazymatch goal with
  | |- (_ = false → _) => intros _; field_ok
  | |- True => exact I
  | |- _ ≤ _ < _ => lia
  | |- representable _ => unfold representable; lia
  | |- Forall _ _ => try solve [repeat constructor]
  | |- _ => idtac
  end.
Ltac fields :=
  cbn -[Z.pow Z.lt Z.le];
  repeat lazymatch goal with
  | |- (_ = false → _) ∧ _ => refine (conj _ _); [field_ok|]
  end; try exact I.

Lemma demo_metadata_ok v :
  encodable (objectMeta_codec demo_format demo_parse) (po_ObjectMeta (demo_policy v)).
Proof.
  fields.
  by apply map_Forall_singleton.
Qed.

Lemma demo_policy_ok a v : encodable (policy a) (demo_policy v).
Proof.
  split; [fields|]. split; [intros _; apply demo_metadata_ok|].
  destruct a; fields.
Qed.

Lemma demo_binding_ok a : encodable (binding a) demo_binding.
Proof.
  split; [fields|]. split; [intros _; apply (demo_metadata_ok "")|].
  destruct a; fields; try (by repeat constructor).
Qed.

(** A cluster that holds the CRD objects in memory. *)
Definition cluster : Type :=
  gmap string ValidatingAdmissionPolicy * gmap string ValidatingAdmissionPolicyBinding.
Definition replacement : replacement_client (W := cluster) (Options := ()) (Watcher := ()) :=
  {| r_ValidatingAdmissionPolicies :=
       Transformed.part_client fst (λ ps w, (ps, w.2)) (Transformed.mem_client policy_name "");
     r_ValidatingAdmissionPolicyBindings :=
       Transformed.part_client snd (λ bs w, (w.1, bs)) (Transformed.mem_client binding_name "") |}.

(** What the demonstration policy is after the round trip: the nanoseconds and
    the empty list are gone. *)
Definition demo_returned (apiVersion : string) : ValidatingAdmissionPolicy :=
  let p := demo_policy apiVersion in
  let m := po_ObjectMeta p in
  {| po_TypeMeta := po_TypeMeta p; po_Spec := po_Spec p; po_Status := po_Status p;
     po_ObjectMeta :=
       {| om_Name := om_Name m; om_GenerateName := om_GenerateName m;
          om_Namespace := om_Namespace m; om_SelfLink := om_SelfLink m; om_UID := om_UID m;
          om_ResourceVersion := om_ResourceVersion m; om_Generation := om_Generation m;
          om_CreationTimestamp := Some (1700000000, 0);
          om_DeletionTimestamp := om_DeletionTimestamp m;
          om_DeletionGracePeriodSeconds := om_DeletionGracePeriodSeconds m;
          om_Labels := om_Labels m; om_Annotations := om_Annotations m;
          om_OwnerReferences := om_OwnerReferences m; om_Finalizers := None;
          om_ManagedFields := om_ManagedFields m |} |}.
End Demo.

Lemma conversions_spec_witness :
  NativeToCRDPolicy Demo.demo_format Demo.demo_parse (Some (Demo.demo_policy native_apiVersion)) =
    (Some (Demo.demo_returned crd_apiVersion), None) ∧
  CRDToNativePolicyBinding Demo.demo_format Demo.demo_parse (Some Demo.demo_binding) =
    (Some (stored (Demo.binding CRD) Demo.demo_binding), None).
Proof.
  destruct (conversions_spec Demo.demo_format Demo.demo_parse Demo.demo_parse_format)
    as (H1 & _ & _ & H4). split.
  - rewrite H1 by apply Demo.demo_policy_ok. vm_compute. reflexivity.
  - rewrite H4 by apply Demo.demo_binding_ok. reflexivity.
Defined.

Lemma conversions_roundtrip_witness :
  (∃ q, CRDToNativePolicy Demo.demo_format Demo.demo_parse (Some (Demo.demo_policy crd_apiVersion)) =
      (Some q, None) ∧
    NativeToCRDPolicy Demo.demo_format Demo.demo_parse (Some q) =
      (Some (Demo.demo_returned crd_apiVersion), None)) ∧
  (∃ q p', NativeToCRDPolicy Demo.demo_format Demo.demo_parse (Some (Demo.demo_policy native_apiVersion)) =
      (Some q, None) ∧
    CRDToNativePolicy Demo.demo_format Demo.demo_parse (Some q) = (Some p', None) ∧
    version p' = "apiregistration.k8s.io/v1alpha1").
Proof.
  destruct (conversions_roundtrip Demo.demo_format Demo.demo_parse Demo.demo_parse_format)
    as (HC & _ & HN & _). split.
  - destruct (HC (Demo.demo_policy crd_apiVersion) (Demo.demo_policy_ok CRD _)) as (q & p' & Hq & Hr & Hp & _).
    exists q. split; [exact Hq|]. rewrite Hr, Hp. vm_compute. reflexivity.
  - destruct (HN (Demo.demo_policy native_apiVersion) (Demo.demo_policy_ok Native _)) as (q & p' & Hq & Hr & _ & Hv).
    exists q, p'. split_and!; [exact Hq|exact Hr|]. by apply Hv.
Defined.

Lemma conversions_preserve_encodable_witness : ∃ q,
  CRDToNativePolicy Demo.demo_format Demo.demo_parse (Some (Demo.demo_policy crd_apiVersion)) =
    (Some q, None) ∧ encodable (Demo.policy Native) q.
Proof.
  destruct (conversions_preserve_encodable Demo.demo_format Demo.demo_parse Demo.demo_parse_format)
    as (_ & H & _).
  exact (H (Demo.demo_policy crd_apiVersion) (Demo.demo_policy_ok CRD _)).
Defined.

Lemma native_objects_mislabelled_witness : ∃ q,
  CRDToNativePolicy Demo.demo_format Demo.demo_parse (Some (Demo.demo_policy crd_apiVersion)) =
    (Some q, None) ∧ tm_APIVersion (po_TypeMeta q) = "apiregistration.k8s.io/v1alpha1".
Proof.
  apply (native_objects_mislabelled Demo.demo_format Demo.demo_parse Demo.demo_parse_format).
  - apply Demo.demo_policy_ok.
  - reflexivity.
Defined.

Lemma injected_clients_refine_witness :
  Transformed.client_spec
    (ValidatingAdmissionPolicies Demo.demo_format Demo.demo_parse Demo.replacement)
    (λ w, map_Forall (λ _, good_policy Demo.demo_format Demo.demo_parse CRD) w.1) id
    (λ w, shown Demo.demo_format Demo.demo_parse <$> w.1) policy_name
    (good_policy Demo.demo_format Demo.demo_parse Native)
    (λ p p', ∃ q, q = submitted Demo.demo_format Demo.demo_parse p ∧
                  p' = shown Demo.demo_format Demo.demo_parse q).
Proof.
  refine (proj1 (injected_clients_refine Demo.demo_format Demo.demo_parse Demo.demo_parse_format
    Demo.replacement (λ w, map_Forall (λ _, good_policy Demo.demo_format Demo.demo_parse CRD) w.1)
    (λ w, map_Forall (λ _, good_binding Demo.demo_format Demo.demo_parse CRD) w.2)
    fst snd (λ p p', p' = p) (λ b b', b' = b) _ _)).
  - exact (Transformed.part_client_spec fst (λ ps w, (ps, w.2)) (λ _ _, eq_refl) _ _ _ id _ _ _
             (Transformed.mem_client_spec policy_name "" _)).
  - exact (Transformed.part_client_spec snd (λ bs w, (w.1, bs)) (λ _ _, eq_refl) _ _ _ id _ _ _
             (Transformed.mem_client_spec binding_name "" _)).
Defined.
End Conversion.
