(* ===== verification/Rest.v ===== *)
(** * REST requests ([k8s.io/client-go/rest])

    The request builder that the generated clients use
    ([rest/request.go], [rest/client.go]), the check of path segments of
    [apimachinery/pkg/api/validation/path] and Go's [path.Join].  Sending a
    request is left to a transport. *)
From S2P Require Import Prelude GoStrings GoErrors Admission.

Module Path.
Definition slash : ascii := "/"%char.

(** [path.Clean] works on the elements between slashes; [stack] holds those
    kept so far, the last first. *)
Fixpoint clean_elements (rooted : bool) (stack elements : list string) : list string :=
  match elements with
  | [] => reverse stack
  | e :: elements =>
      if is_empty e || bool_decide (e = ".") then clean_elements rooted stack elements
      else if bool_decide (e = "..") then
        match stack with
        | top :: rest =>
            if bool_decide (top = "..") then clean_elements rooted (e :: stack) elements
            else clean_elements rooted rest elements
        | [] => clean_elements rooted (if rooted then [] else [e]) elements
        end
      else clean_elements rooted (e :: stack) elements
  end.

Definition is_rooted (s : string) : bool :=
  match s with String c _ => bool_decide (c = slash) | EmptyString => false end.

Definition Clean (s : string) : string :=
  let rooted := is_rooted s in
  let body := join "/" (clean_elements rooted [] (split_byte slash s)) in
  if rooted then ("/" ++ body)%string else if is_empty body then "." else body.

Definition Join (elements : list string) : string :=
  match filter (λ e, is_empty e = false) elements with
  | [] => ""
  | nonempty => Clean (join "/" nonempty)
  end.

(** [path.IsValidPathSegmentName] of [apimachinery]: the complaints. *)
Definition IsValidPathSegmentName (name : string) : list string :=
  if bool_decide (name = ".") then ["may not be '.'"]
  else if bool_decide (name = "..") then ["may not be '..'"]
  else (if has_byte slash name then ["may not contain '/'"] else []) ++
       (if has_byte "%" name then ["may not contain '%'"] else []).

(** ** Lemmas *)

(** Elements that [Clean] keeps as they are. *)
Definition plain (e : string) : Prop :=
  e ≠ "" ∧ e ≠ "." ∧ e ≠ ".." ∧ has_byte slash e = false.

#[export] Instance plain_dec e : Decision (plain e).
Proof. unfold plain. apply _. Defined.

Lemma valid_plain e : IsValidPathSegmentName e = [] → e ≠ "" → plain e.
Proof.
  unfold IsValidPathSegmentName. repeat case_bool_decide; [done..|].
  intros [Hs _]%app_nil Hne. split_and!; [done..|]. by destruct (has_byte slash e).
Qed.

Lemma clean_plain rooted stack es :
  Forall plain es → clean_elements rooted stack es = reverse stack ++ es.
Proof.
  intros Hes. revert stack. induction Hes as [|e es (He & Hd & Hdd & _) _ IH]; intros stack; simpl.
  { by rewrite app_nil_r. }
  rewrite (proj2 (is_empty_false e)), !bool_decide_eq_false_2 by done. simpl.
  by rewrite IH, reverse_cons, <- app_assoc.
Qed.

Lemma split_byte_join sep es :
  es ≠ [] → Forall (λ e, has_byte sep e = false) es → split_byte sep (join (String sep "") es) = es.
Proof.
  intros Hne Hes. induction Hes as [|e [|e' es] He Hes' IH]; [done| |].
  - simpl. by apply split_byte_no_sep.
  - change (join (String sep "") (e :: e' :: es)) with
      (e ++ String sep (join (String sep "") (e' :: es)))%string.
    rewrite split_byte_app by done. f_equal. by apply IH.
Qed.

(** The path with the given elements. *)
Definition render (es : list string) : string := ("/" ++ join "/" es)%string.

Lemma plain_no_slash es : Forall plain es → Forall (λ e, has_byte slash e = false) es.
Proof. intros Hes. by eapply Forall_impl; [exact Hes|intros e (_ & _ & _ & ?)]. Qed.

Lemma split_render es :
  Forall plain es → es ≠ [] → split_byte slash (render es) = "" :: es.
Proof.
  intros Hes Hne. unfold render.
  change ("/" ++ join "/" es)%string with ("" ++ String slash (join (String slash "") es))%string.
  rewrite split_byte_app by done. f_equal. by apply split_byte_join, plain_no_slash.
Qed.

(** The elements of a rendered path can be read off it. *)
Lemma render_inj es es' :
  Forall plain es → Forall plain es' → es ≠ [] → es' ≠ [] → render es = render es' → es = es'.
Proof.
  intros Hes Hes' Hne Hne' Heq. apply (f_equal (split_byte slash)) in Heq.
  rewrite !split_render in Heq by done. by injection Heq.
Qed.

Lemma join_cons sep e l : l ≠ [] → join sep (e :: l) = (e ++ sep ++ join sep l)%string.
Proof. by destruct l. Qed.

Lemma join_app sep l l' :
  l ≠ [] → l' ≠ [] → join sep (l ++ l') = (join sep l ++ sep ++ join sep l')%string.
Proof.
  intros Hl Hl'. induction l as [|e [|e' l] IH]; [done|by apply join_cons|].
  change ((e :: e' :: l) ++ l') with (e :: ((e' :: l) ++ l')).
  rewrite (join_cons sep e ((e' :: l) ++ l')), IH, (join_cons sep e (e' :: l)) by done.
  by rewrite !string_app_assoc.
Qed.

Lemma join_merge sep a b l : join sep (a :: b :: l) = join sep ((a ++ sep ++ b)%string :: l).
Proof.
  destruct l as [|e l]; [done|].
  rewrite (join_cons sep a), (join_cons sep b), (join_cons sep (a ++ sep ++ b)%string) by done.
  by rewrite !string_app_assoc.
Qed.

Lemma render_app es ls : es ≠ [] → ls ≠ [] → (render es ++ "/" ++ join "/" ls)%string = render (es ++ ls).
Proof. intros. unfold render. by rewrite join_app. Qed.

(** A relative path and its elements. *)
Definition elements (q : string) (ls : list string) : Prop := q = join "/" ls ∧ Forall plain ls.

Lemma elements_empty q ls : elements q ls → is_empty q = true ↔ ls = [].
Proof.
  intros [-> Hls]. rewrite is_empty_true. split; [|by intros ->].
  destruct Hls as [|e [|e' ls] (He & _) _]; [done|done|].
  rewrite join_cons by done. by destruct e.
Qed.

Lemma elements_plain e : plain e → elements e [e].
Proof. intros He. split; [done|by constructor]. Qed.

Lemma Clean_render es : Forall plain es → es ≠ [] → Clean (render es) = render es.
Proof.
  intros Hes Hne. unfold Clean. rewrite split_render by done. cbn [clean_elements is_rooted].
  change (is_empty "" || bool_decide ("" = ".")) with true. cbv iota.
  rewrite clean_plain by done. done.
Qed.

(** Joining relative paths to a plain path appends their elements. *)
Lemma Join_elements es qs lss :
  Forall plain es → es ≠ [] → Forall2 elements qs lss →
  Join (render es :: qs) = render (es ++ concat lss).
Proof.
  intros Hes Hne Hqs. unfold Join. rewrite filter_cons_True by done.
  transitivity (Clean (render (es ++ concat lss))).
  - f_equal. clear Hes. revert es Hne.
    induction Hqs as [|q ls qs lss Hq _ IH]; intros es Hne; [by rewrite app_nil_r|].
    pose proof (elements_empty q ls Hq) as He. destruct (is_empty q) eqn:Hem.
    + rewrite filter_cons_False by congruence. rewrite (proj1 He eq_refl). by apply IH.
    + rewrite filter_cons_True by done. rewrite join_merge.
      assert (Hls : ls ≠ []) by (intros ->; discriminate (proj2 He eq_refl)).
      destruct Hq as [-> _]. rewrite render_app by done.
      rewrite IH by (by destruct es). simpl. by rewrite app_assoc.
  - apply Clean_render; [|by destruct es]. apply Forall_app. split; [done|].
    induction Hqs as [|q ls qs lss [_ Hls] _ IH]; [constructor|]. simpl. by apply Forall_app.
Qed.

Lemma Join_relative ls :
  Forall plain (filter (λ e, is_empty e = false) ls) →
  elements (Join ls) (filter (λ e, is_empty e = false) ls).
Proof.
  intros Hls. split; [|done]. unfold Join.
  set (ne := filter _ ls) in *. destruct ne as [|e l] eqn:Hne; [done|].
  unfold Clean. rewrite <- Hne in *.
  assert (Hr : is_rooted (join "/" ne) = false).
  { rewrite Hne in *. apply Forall_cons in Hls as [(He & _ & _ & Hs) _].
    destruct e as [|a e]; [done|]. simpl in Hs. apply orb_false_iff in Hs as [Ha _].
    by destruct l. }
  rewrite Hr, split_byte_join, clean_plain; [|done|by rewrite Hne|by apply plain_no_slash].
  simpl. destruct (is_empty (join "/" ne)) eqn:Hem; [|done].
  by rewrite (proj1 (elements_empty _ ne (conj eq_refl Hls)) Hem) in Hne.
Qed.
End Path.

Module Rest.
Import Path.

(** ** The builder

    [Bytes] is the type of bodies on the wire. *)
Section builder.
Context {Bytes : Type}.

(** [RESTClient]: what requests take from it. *)
Record RESTClient := {
  basePath : string;              (** [base.Path] *)
  versionedAPIPath : string;
  ContentType : string;
  ClientTimeout : Z;
}.

Record Request := {
  verb : string;
  pathPrefix : string;
  resource : string;
  resourceName : string;
  subresource : string;
  params : gmap string (list string);
  contentType : string;           (** the Content-Type header *)
  timeout : Z;
  bodyBytes : option Bytes;
  err : option error;
}.

#[local] Instance Request_settable : Settable Request := λ r,
  {| verb := verb r; pathPrefix := pathPrefix r; resource := resource r;
     resourceName := resourceName r; subresource := subresource r; params := params r;
     contentType := contentType r; timeout := timeout r; bodyBytes := bodyBytes r; err := err r |}.
Definition set_resource : string → Request → Request := ltac:(setter_of Request resource).
Definition set_resourceName : string → Request → Request := ltac:(setter_of Request resourceName).
Definition set_subresource : string → Request → Request := ltac:(setter_of Request subresource).
Definition set_params : gmap string (list string) → Request → Request := ltac:(setter_of Request params).
Definition set_contentType : string → Request → Request := ltac:(setter_of Request contentType).
Definition set_timeout : Z → Request → Request := ltac:(setter_of Request timeout).
Definition set_bodyBytes : option Bytes → Request → Request := ltac:(setter_of Request bodyBytes).
Definition set_err : option error → Request → Request := ltac:(setter_of Request err).

(** [NewRequest(c).Verb(verb)]; headers other than Content-Type are left out. *)
Definition NewRequest (c : RESTClient) (v : string) : Request :=
  {| verb := v; pathPrefix := Join ["/"; basePath c; versionedAPIPath c]; resource := "";
     resourceName := ""; subresource := ""; params := ∅; contentType := "";
     timeout := ClientTimeout c; bodyBytes := None; err := None |}.

(** A method that does nothing once there is an error. *)
Definition unless_err (f : Request → Request) (r : Request) : Request :=
  match err r with Some _ => r | None => f r end.
Definition fails (msg : string) (r : Request) : Request := set_err (Some (plainError msg)) r.

(** One of the setters of a path segment. *)
Definition already (what old new : string) : string :=
  (what ++ " already set to " ++ quote old ++ ", cannot change to " ++ quote new)%string.
Definition invalid (what s : string) (msgs : list string) : string :=
  ("invalid " ++ what ++ " " ++ quote s ++ ": [" ++ join " " msgs ++ "]")%string.

Definition Resource (res : string) : Request → Request := unless_err (λ r,
  if negb (is_empty (resource r)) then fails (already "resource" (resource r) res) r
  else match IsValidPathSegmentName res with
       | _ :: _ as msgs => fails (invalid "resource" res msgs) r
       | [] => set_resource res r
       end).

Definition Name (name : string) : Request → Request := unless_err (λ r,
  if is_empty name then fails "resource name may not be empty" r
  else if negb (is_empty (resourceName r))
  then fails (already "resource name" (resourceName r) name) r
  else match IsValidPathSegmentName name with
       | _ :: _ as msgs => fails (invalid "resource name" name msgs) r
       | [] => set_resourceName name r
       end).

Definition SubResource (subresources : list string) : Request → Request := unless_err (λ r,
  let sub := Join subresources in
  if negb (is_empty (subresource r)) then fails (already "subresource" (subresource r) sub) r
  else match List.find (λ s, negb (bool_decide (IsValidPathSegmentName s = []))) subresources with
       | Some s => fails (invalid "subresource" s (IsValidPathSegmentName s)) r
       | None => set_subresource sub r
       end).

(** [VersionedParams]: [encoded] is what the parameter codec makes of the
    options. *)
Definition VersionedParams (encoded : error + gmap string (list string)) : Request → Request :=
  unless_err (λ r,
    match encoded with
    | inl e => set_err (Some e) r
    | inr ps => set_params (union_with (λ old new, Some (old ++ new)) (params r) ps) r
    end).

Definition Timeout (d : Z) : Request → Request := unless_err (set_timeout d).

(** [Body] of a [runtime.Object]: a nil pointer is no body; [encoded] is what the
    encoder of content type [ct] makes of the object. *)
Definition BodyObject (ct : string) (encoded : option (error + Bytes)) : Request → Request :=
  unless_err (λ r,
    match encoded with
    | None => r
    | Some (inl e) => set_err (Some e) r
    | Some (inr data) => set_contentType ct (set_bodyBytes (Some data) r)
    end).
Definition BodyBytes (data : Bytes) : Request → Request := unless_err (set_bodyBytes (Some data)).

(** [strings.ToLower] on ASCII. *)
Definition to_lower_byte (c : ascii) : ascii :=
  let n := nat_of_ascii c in
  if bool_decide (65 ≤ n ∧ n ≤ 90)%nat then ascii_of_nat (n + 32) else c.
Fixpoint ToLower (s : string) : string :=
  match s with EmptyString => "" | String c s => String (to_lower_byte c) (ToLower s) end.

(** The path of [URL()]. *)
Definition URL_path (r : Request) : string :=
  let p := pathPrefix r in
  let p := if negb (is_empty (resource r)) then Join [p; ToLower (resource r)] else p in
  if negb (is_empty (resourceName r)) || negb (is_empty (subresource r))
  then Join [p; resourceName r; subresource r] else p.

(** ** Sending

    The transport: a request without an error to the body of a successful
    response or an error, and the same for a watch. *)
Record Transport (W Watcher : Type) := {
  roundTrip : Context → Request → GO W (error + Bytes);
  openWatch : Context → Request → GO W (returns error Watcher);
}.
Arguments roundTrip {W Watcher}. Arguments openWatch {W Watcher}.

Definition Do {W Watcher} (rt : Transport W Watcher) (ctx : Context) (r : Request)
    : GO W (error + Bytes) :=
  match err r with
  | Some e => mret (inl e)
  | None => roundTrip rt ctx r
  end.

(** [Result.Into(obj)]: what [obj] is afterwards and the error. *)
Definition Into {A} (is_nil : Bytes → bool) (Decode : Bytes → A → A * option error)
    (result : error + Bytes) (obj : A) : A * option error :=
  match result with
  | inl e => (obj, Some e)
  | inr body => if is_nil body then (obj, Some (plainError "0-length response")) else Decode body obj
  end.
Definition Result_Error (result : error + Bytes) : option error :=
  match result with inl e => Some e | inr _ => None end.

Definition Watch {W Watcher} (rt : Transport W Watcher) (ctx : Context) (r : Request)
    : GO W (returns error Watcher) :=
  match err r with
  | Some e => mret (None, Some e)
  | None => openWatch rt ctx r
  end.

(** ** Lemmas *)
Implicit Types (c : RESTClient) (r : Request).

(** The server's side of a path: a client whose prefix is plain. *)
Definition prefix_is c (prefix : list string) : Prop :=
  Join ["/"; basePath c; versionedAPIPath c] = render prefix ∧ Forall plain prefix ∧ prefix ≠ [].

Lemma Resource_new c v res :
  plain res → has_byte "%" res = false →
  Resource res (NewRequest c v) = set_resource res (NewRequest c v).
Proof.
  intros (Hne & Hd & Hdd & Hs) Hp. unfold Resource, unless_err. simpl.
  unfold IsValidPathSegmentName. rewrite !bool_decide_eq_false_2 by done. by rewrite Hs, Hp.
Qed.

(** [Name] gives an error or a plain name that is the name asked for. *)
Lemma Name_cases name r :
  err r = None → resourceName r = "" →
  (∃ msg, Name name r = fails msg r) ∨ (plain name ∧ Name name r = set_resourceName name r).
Proof.
  intros He Hn. unfold Name, unless_err. rewrite He, Hn. cbn [negb].
  destruct (is_empty name) eqn:Hem; [left; by eexists|]. apply is_empty_false in Hem.
  change (negb (is_empty "")) with false. cbv iota.
  destruct (IsValidPathSegmentName name) eqn:Hv; [right|left; by eexists].
  split; [by apply valid_plain|done].
Qed.

(** The path of a request for a resource, a name and a subresource. *)
Lemma URL_path_render r prefix names subs :
  pathPrefix r = render prefix → Forall plain prefix → prefix ≠ [] →
  plain (resource r) → ToLower (resource r) = resource r →
  elements (resourceName r) names → elements (subresource r) subs →
  URL_path r = render (prefix ++ resource r :: names ++ subs).
Proof.
  intros Hp Hpl Hne Hr Hlow Hn Hs. unfold URL_path. rewrite Hp, Hlow.
  rewrite (proj2 (is_empty_false (resource r)) (proj1 Hr)). cbn [negb].
  rewrite (Join_elements prefix [resource r] [[resource r]]);
    [|done|done|constructor; [by apply elements_plain|constructor]].
  cbn [concat app].
  assert (Hpl' : Forall plain (prefix ++ [resource r])) by (apply Forall_app; split; [done|by constructor]).
  assert (Hj : Join [render (prefix ++ [resource r]); resourceName r; subresource r] =
               render (prefix ++ resource r :: names ++ subs)).
  { rewrite (Join_elements _ _ [names; subs]); [|done|by destruct prefix|].
    2: { constructor; [exact Hn|constructor; [exact Hs|constructor]]. }
    simpl. by rewrite app_nil_r, <- app_assoc. }
  destruct (is_empty (resourceName r)) eqn:Hen; [|done]. destruct (is_empty (subresource r)) eqn:Hes; [|done].
  rewrite (proj1 (elements_empty _ _ Hn) Hen), (proj1 (elements_empty _ _ Hs) Hes). done.
Qed.

(** [SubResource] gives an error or the valid elements among those asked for. *)
Lemma SubResource_cases subs r :
  err r = None → subresource r = "" →
  (∃ msg, SubResource subs r = fails msg r) ∨
  (Forall plain (filter (λ e, is_empty e = false) subs) ∧
   SubResource subs r = set_subresource (Join subs) r).
Proof.
  intros He Hs. unfold SubResource, unless_err. rewrite He, Hs.
  change (negb (is_empty "")) with false. cbv iota.
  destruct (List.find _ subs) eqn:Hf; [left; by eexists|right]. split; [|done].
  apply Forall_forall. intros e [Hne Hin]%list_elem_of_filter.
  apply valid_plain; [|by apply is_empty_false].
  apply list_elem_of_In in Hin. pose proof (List.find_none _ _ Hf e Hin) as Hv.
  apply negb_false_iff, bool_decide_eq_true in Hv. done.
Qed.
End builder.
Arguments Request : clear implicits.
Arguments Transport : clear implicits.
Arguments roundTrip {Bytes W Watcher}. Arguments openWatch {Bytes W Watcher}.
End Rest.
