(* ===== verification/Scheme.v ===== *)
(** * The registration of the API types

    [runtime.Scheme] ([apimachinery/pkg/runtime/scheme.go]), as far as it maps
    kinds to Go types and back, and what the repository registers with it:
    [zz_generated.register.go] and the [register.go] of the clientset's scheme
    and of its fake. *)
From S2P Require Import Prelude GoStrings GoErrors Admission.

Module Scheme.

(** A Go struct type, by package and name; objects are pointers to them. *)
Definition go_type : Type := string * string.

Record Scheme := {
  gvkToType : gmap GroupVersionKind go_type;
  typeToGVK : gmap go_type (list GroupVersionKind);
  unversionedTypes : gmap go_type GroupVersionKind;
  unversionedKinds : gmap string go_type;
}.
Definition NewScheme : Scheme :=
  {| gvkToType := ∅; typeToGVK := ∅; unversionedTypes := ∅; unversionedKinds := ∅ |}.

Definition with_kind (gv : string * string) (kind : string) : GroupVersionKind := mkGVK gv.1 gv.2 kind.

Definition AddKnownTypeWithName (gvk : GroupVersionKind) (t : go_type) : GO Scheme unit := λ s,
  if is_empty (Version gvk) then (Panic "version is required on all types", s)
  else if match gvkToType s !! gvk with Some oldT => negb (bool_decide (oldT = t)) | None => false end
  then (Panic "Double registration of different types", s)
  else
    let gvks := default [] (typeToGVK s !! t) in
    (Value tt,
     {| gvkToType := <[gvk := t]> (gvkToType s);
        typeToGVK := if bool_decide (gvk ∈ gvks) then typeToGVK s else <[t := gvks ++ [gvk]]> (typeToGVK s);
        unversionedTypes := unversionedTypes s; unversionedKinds := unversionedKinds s |}).

Fixpoint AddKnownTypes (gv : string * string) (types : list go_type) : GO Scheme unit :=
  match types with
  | [] => mret tt
  | t :: types => _ ← AddKnownTypeWithName (with_kind gv t.2) t; AddKnownTypes gv types
  end.

Definition set_unversioned (gvk : GroupVersionKind) (t : go_type) : GO Scheme unit := λ s,
  let types := <[t := gvk]> (unversionedTypes s) in
  if match unversionedKinds s !! Kind gvk with Some old => negb (bool_decide (t = old)) | None => false end
  then (Panic "kind name must be unique",
        {| gvkToType := gvkToType s; typeToGVK := typeToGVK s; unversionedTypes := types;
           unversionedKinds := unversionedKinds s |})
  else (Value tt,
        {| gvkToType := gvkToType s; typeToGVK := typeToGVK s; unversionedTypes := types;
           unversionedKinds := <[Kind gvk := t]> (unversionedKinds s) |}).
Fixpoint set_all_unversioned (version : string * string) (types : list go_type) : GO Scheme unit :=
  match types with
  | [] => mret tt
  | t :: types => _ ← set_unversioned (with_kind version t.2) t; set_all_unversioned version types
  end.
Definition AddUnversionedTypes (version : string * string) (types : list go_type) : GO Scheme unit :=
  _ ← AddKnownTypes version types; set_all_unversioned version types.

(** [metav1.AddToGroupVersion]; the conversions and defaults that it registers as
    well are not part of the model. *)
Definition metav1 (name : string) : go_type := ("k8s.io/apimachinery/pkg/apis/meta/v1", name).
Definition optionsTypes : list go_type :=
  metav1 <$> ["ListOptions"; "GetOptions"; "DeleteOptions"; "CreateOptions"; "UpdateOptions"; "PatchOptions"].
Definition AddToGroupVersion (gv : string * string) : GO Scheme unit :=
  _ ← AddKnownTypeWithName (with_kind gv "WatchEvent") (metav1 "WatchEvent");
  _ ← AddKnownTypeWithName (with_kind (gv.1, "__internal") "WatchEvent") (metav1 "InternalEvent");
  _ ← AddKnownTypes gv optionsTypes;
  AddUnversionedTypes ("", "v1")
    (metav1 <$> ["Status"; "APIVersions"; "APIGroupList"; "APIGroup"; "APIResourceList"]).

(** [ObjectKinds] and [New] give what is registered. *)
Definition ObjectKinds (t : go_type) (s : Scheme) : error + list GroupVersionKind :=
  match typeToGVK s !! t with
  | Some gvks => inr gvks
  | None => inl (notRegisteredErr "no kind is registered for the type")
  end.
Definition New (gvk : GroupVersionKind) (s : Scheme) : error + go_type :=
  match gvkToType s !! gvk with
  | Some t => inr t
  | None => match unversionedKinds s !! Kind gvk with
            | Some t => inr t
            | None => inl (notRegisteredErr "no kind is registered for the version")
            end
  end.

(** ** [zz_generated.register.go] *)
Definition GroupName : string := "admissionregistration.x-k8s.io".
Definition SchemeGroupVersion : string * string := (GroupName, "v1alpha1").
Definition v1alpha1 (name : string) : go_type :=
  ("k8s.io/cel-admission-webhook/pkg/apis/admissionregistration.x-k8s.io/v1alpha1", name).
Definition known : list string :=
  ["ValidatingAdmissionPolicy"; "ValidatingAdmissionPolicyBinding";
   "ValidatingAdmissionPolicyBindingList"; "ValidatingAdmissionPolicyList"].
Definition addKnownTypes : GO Scheme (option error) :=
  _ ← AddKnownTypes SchemeGroupVersion (v1alpha1 <$> known);
  _ ← AddToGroupVersion SchemeGroupVersion;
  mret None.

(** [runtime.SchemeBuilder]: functions run in order until one fails. *)
Fixpoint SchemeBuilder_AddToScheme (fs : list (GO Scheme (option error))) : GO Scheme (option error) :=
  match fs with
  | [] => mret None
  | f :: fs => err ← f; match err with Some e => mret (Some e) | None => SchemeBuilder_AddToScheme fs end
  end.
Definition AddToScheme : GO Scheme (option error) := SchemeBuilder_AddToScheme [addKnownTypes].

(** ** [scheme/register.go], and the same in [fake/register.go] *)
Definition clientset_AddToScheme : GO Scheme (option error) := SchemeBuilder_AddToScheme [AddToScheme].
(** [utilruntime.Must]. *)
Definition Must (err : option error) : GO Scheme unit :=
  match err with Some e => go_panic (Error e) | None => mret tt end.
Definition init : GO Scheme unit :=
  _ ← AddToGroupVersion ("", "v1");
  err ← clientset_AddToScheme;
  Must err.

(** ** Kinds and types determine each other *)
Definition consistent (s : Scheme) : Prop :=
  ∀ gvk t, gvkToType s !! gvk = Some t ↔ gvk ∈ default [] (typeToGVK s !! t).

Lemma consistent_new : consistent NewScheme.
Proof. intros gvk t. simpl. rewrite !lookup_empty. simpl. rewrite elem_of_nil. done. Qed.

Lemma consistent_AddKnownTypeWithName gvk t s s' :
  consistent s → AddKnownTypeWithName gvk t s = (Value tt, s') →
  consistent s' ∧ gvkToType s' !! gvk = Some t ∧
  ∀ gvk' t', gvkToType s !! gvk' = Some t' → gvkToType s' !! gvk' = Some t'.
Proof.
  intros Hs. unfold AddKnownTypeWithName. destruct (is_empty (Version gvk)); [done|].
  assert (Hold : ∀ old, gvkToType s !! gvk = Some old →
    (match gvkToType s !! gvk with Some oldT => negb (bool_decide (oldT = t)) | None => false end) = false →
    old = t).
  { intros old ->. case_bool_decide; by simpl. }
  destruct (match gvkToType s !! gvk with Some oldT => _ | None => false end) eqn:Hm; [done|].
  intros [= <-]. split_and!; simpl; [|by rewrite lookup_insert_eq|].
  - intros gvk' t'. simpl. pose proof (Hs gvk' t') as Hst.
    destruct (decide (gvk' = gvk)) as [->|Hne].
    + rewrite lookup_insert_eq. case_bool_decide as Hin.
      * split; [intros [= <-]; done|]. intros Hin'%Hst. by rewrite (Hold _ Hin' eq_refl).
      * destruct (decide (t' = t)) as [->|Hnt].
        { rewrite lookup_insert_eq. simpl. set_solver. }
        rewrite lookup_insert_ne by done. split; [congruence|]. intros Hin'%Hst.
        by rewrite (Hold _ Hin' eq_refl) in Hnt.
    + rewrite lookup_insert_ne by done. case_bool_decide as Hin; [done|].
      destruct (decide (t' = t)) as [->|Hnt].
      * rewrite lookup_insert_eq. simpl. rewrite Hst. set_solver.
      * by rewrite lookup_insert_ne.
  - intros gvk' t' Hg. destruct (decide (gvk' = gvk)) as [->|Hne]; [|by rewrite lookup_insert_ne].
    rewrite lookup_insert_eq. by rewrite (Hold _ Hg eq_refl).
Qed.

Definition keeps {A} (m : GO Scheme A) : Prop := ∀ s a s',
  consistent s → m s = (Value a, s') → consistent s'.

Lemma keeps_ret {A} (a : A) : keeps (mret a).
Proof. by intros s a' s' Hs [= _ <-]. Qed.
Lemma keeps_bind {A B} (m : GO Scheme A) (f : A → GO Scheme B) :
  keeps m → (∀ a, keeps (f a)) → keeps (m ≫= f).
Proof.
  intros Hm Hf s b s' Hs. unfold mbind, GO_bind. destruct (m s) as [[a|msg] s1] eqn:Hms; [|done].
  intros Hfs. eapply Hf; [by eapply Hm|done].
Qed.
Lemma keeps_AddKnownTypeWithName gvk t : keeps (AddKnownTypeWithName gvk t).
Proof. intros s [] s' Hs Ha. by eapply consistent_AddKnownTypeWithName. Qed.
Lemma keeps_AddKnownTypes gv types : keeps (AddKnownTypes gv types).
Proof.
  induction types as [|t types IH]; [apply keeps_ret|].
  apply keeps_bind; [apply keeps_AddKnownTypeWithName|done].
Qed.
Lemma keeps_set_all_unversioned v types : keeps (set_all_unversioned v types).
Proof.
  induction types as [|t types IH]; [apply keeps_ret|]. apply keeps_bind; [|done].
  intros s [] s' Hs. unfold set_unversioned. case_match; [done|]. by intros [= <-].
Qed.
Lemma keeps_AddUnversionedTypes v types : keeps (AddUnversionedTypes v types).
Proof. apply keeps_bind; [apply keeps_AddKnownTypes|]. intros _. apply keeps_set_all_unversioned. Qed.
Lemma keeps_AddToGroupVersion gv : keeps (AddToGroupVersion gv).
Proof.
  do 2 (apply keeps_bind; [apply keeps_AddKnownTypeWithName|intros _]).
  apply keeps_bind; [apply keeps_AddKnownTypes|intros _]. apply keeps_AddUnversionedTypes.
Qed.
Lemma keeps_AddToScheme : keeps AddToScheme.
Proof.
  apply keeps_bind; [|intros []; apply keeps_ret].
  apply keeps_bind; [apply keeps_AddKnownTypes|intros _].
  apply keeps_bind; [apply keeps_AddToGroupVersion|intros _]. apply keeps_ret.
Qed.
Lemma keeps_init : keeps init.
Proof.
  apply keeps_bind; [apply keeps_AddToGroupVersion|intros _]. apply keeps_bind.
  - apply keeps_bind; [apply keeps_AddToScheme|intros []; apply keeps_ret].
  - intros [e|]; [by intros s a s'|apply keeps_ret].
Qed.

(** The scheme that [init] makes of an empty one. *)
Definition Scheme_ : Scheme := (init NewScheme).2.

Lemma init_value : (init NewScheme).1 = Value tt.
Proof. reflexivity. Qed.

(** The registration of the API types does not panic and is right: in the scheme
    of the clientset kinds and types determine each other, each of the four API
    types of the CRDs has exactly one kind, its own name in the group and version of
    the CRDs, and that kind makes objects of the type; registering once more
    does not panic either. *)
Theorem init_registers :
  init NewScheme = (Value tt, Scheme_) ∧ consistent Scheme_ ∧
  (∀ name, name ∈ known →
     ObjectKinds (v1alpha1 name) Scheme_ = inr [with_kind SchemeGroupVersion name] ∧
     New (with_kind SchemeGroupVersion name) Scheme_ = inr (v1alpha1 name)) ∧
  (clientset_AddToScheme Scheme_).1 = Value None.
Proof.
  assert (Hinit : init NewScheme = (Value tt, Scheme_)).
  { unfold Scheme_. pose proof init_value as Hv. destruct (init NewScheme) as [v s]. simpl in Hv. by subst v. }
  split_and!; [done| | |].
  - by apply (keeps_init _ _ _ consistent_new Hinit).
  - intros name. unfold known. rewrite !elem_of_cons, elem_of_nil.
    intros [->|[->|[->|[->|[]]]]]; split; reflexivity.
  - reflexivity.
Qed.
End Scheme.
