(* ===== verification/Serializer.v ===== *)
(** * The JSON serializer of the clients

    The encoder and the decoder that the REST clients of the clientset are
    configured with, [scheme.Codecs.WithoutConversion()]: the JSON serializer of
    [apimachinery/pkg/runtime/serializer/json] between the two wrappers that set
    and clear the kind of an object ([runtime.WithVersionEncoder],
    [runtime.WithoutVersionDecoder]), and [Result.Into] of
    [client-go/rest/request.go], which looks at what was decoded. *)
From S2P Require Import Prelude GoStrings GoErrors Admission TransformedClient Json JsonText JsonSync JsonPrint Types Scheme.

(** ** Groups, versions and kinds as strings ([runtime/schema/group_version.go]) *)
Module Kinds.
Abbreviation slash := "/"%char.

(** [GroupVersion], as the pair of its group and its version. *)
Definition ParseGroupVersion (gv : string) : error + (string * string) :=
  if is_empty gv || bool_decide (gv = "/") then inr ("", "")
  else match split_byte slash gv with
       | [version] => inr ("", version)
       | [group; version] => inr (group, version)
       | _ => inl (plainError ("unexpected GroupVersion string: " ++ gv))
       end.

Definition GroupVersion_String (gv : string * string) : string :=
  if is_empty gv.1 then gv.2 else (gv.1 ++ "/" ++ gv.2)%string.

Definition no_kind : GroupVersionKind := mkGVK "" "" "".
Definition ToAPIVersionAndKind (gvk : GroupVersionKind) : string * string :=
  if bool_decide (gvk = no_kind) then ("", "")
  else (GroupVersion_String (Group gvk, Version gvk), Kind gvk).
Definition FromAPIVersionAndKind (apiVersion kind : string) : GroupVersionKind :=
  match ParseGroupVersion apiVersion with
  | inr gv => mkGVK gv.1 gv.2 kind
  | inl _ => mkGVK "" "" kind
  end.

(** [GroupVersion.KindForGroupVersionKinds]: the kind of the same group and
    version, else one of the same group in this version. *)
Definition KindForGroupVersionKinds (gv : string * string) (kinds : list GroupVersionKind)
    : option GroupVersionKind :=
  match List.find (λ k, bool_decide (Group k = gv.1 ∧ Version k = gv.2)) kinds with
  | Some k => Some k
  | None => match List.find (λ k, bool_decide (Group k = gv.1)) kinds with
            | Some k => Some (mkGVK gv.1 gv.2 (Kind k))
            | None => None
            end
  end.

(** [TypeMeta] as [schema.ObjectKind]. *)
Definition kind_TypeMeta (gvk : GroupVersionKind) : TypeMeta :=
  {| tm_Kind := (ToAPIVersionAndKind gvk).2; tm_APIVersion := (ToAPIVersionAndKind gvk).1 |}.
Definition TypeMeta_kind (tm : TypeMeta) : GroupVersionKind :=
  FromAPIVersionAndKind (tm_APIVersion tm) (tm_Kind tm).

(** ** Lemmas *)
(** A group and a version that a string can hold. *)
Definition plain_gv (gv : string * string) : Prop :=
  has_byte slash gv.1 = false ∧ has_byte slash gv.2 = false ∧ gv.2 ≠ "".
#[export] Instance plain_gv_dec gv : Decision (plain_gv gv).
Proof. unfold plain_gv. apply _. Defined.

Lemma ParseGroupVersion_String gv :
  plain_gv gv → ParseGroupVersion (GroupVersion_String gv) = inr gv.
Proof.
  destruct gv as [g v]. intros (Hg & Hv & Hne). simpl in *. unfold GroupVersion_String. simpl.
  destruct (is_empty g) eqn:He.
  - apply is_empty_true in He as ->. unfold ParseGroupVersion.
    rewrite (proj2 (is_empty_false v)), bool_decide_eq_false_2 by (by intros ->). simpl.
    by rewrite split_byte_no_sep.
  - apply is_empty_false in He. unfold ParseGroupVersion.
    replace (g ++ "/" ++ v)%string with (g ++ String slash v)%string by done.
    rewrite (proj2 (is_empty_false (g ++ String slash v))) by (by destruct g).
    rewrite split_byte_app, split_byte_no_sep by done.
    rewrite bool_decide_eq_false_2; [done|]. destruct g as [|c g]; [done|]. intros [= _ Heq].
    by destruct g.
Qed.

(** A kind that an object can carry. *)
Definition plain_kind (gvk : GroupVersionKind) : Prop := plain_gv (Group gvk, Version gvk).

Lemma plain_kind_some gvk : plain_kind gvk → gvk ≠ no_kind.
Proof. intros (_ & _ & Hv) ->. by apply Hv. Qed.

Lemma TypeMeta_kind_of gvk : plain_kind gvk → TypeMeta_kind (kind_TypeMeta gvk) = gvk.
Proof.
  intros Hp. unfold TypeMeta_kind, kind_TypeMeta, ToAPIVersionAndKind.
  rewrite bool_decide_eq_false_2 by (by apply plain_kind_some). simpl.
  unfold FromAPIVersionAndKind. rewrite ParseGroupVersion_String by done. by destruct gvk.
Qed.

(** Reading a version and writing it back gives it back, if it can be read and
    its group is not empty before a slash. *)
Lemma GroupVersion_String_Parse apiVersion gv :
  (∀ v, apiVersion ≠ String slash v) → ParseGroupVersion apiVersion = inr gv →
  GroupVersion_String gv = apiVersion.
Proof.
  unfold ParseGroupVersion. intros Hs Hp. destruct (is_empty apiVersion) eqn:He.
  { apply is_empty_true in He as ->. by injection Hp as <-. }
  simpl in Hp. rewrite bool_decide_eq_false_2 in Hp by apply Hs.
  pose proof (join_split_byte slash apiVersion) as Hj.
  destruct (split_byte slash apiVersion) as [|g [|v [|? ?]]]; [done| | |done]; injection Hp as <-.
  - done.
  - unfold GroupVersion_String. simpl in *. destruct (is_empty g) eqn:Hg; [|done].
    apply is_empty_true in Hg as ->. by destruct (Hs v).
Qed.
(** Reading the kind of an object and setting it again changes nothing, under the
    same condition. *)
Lemma kind_TypeMeta_of tm gv :
  (∀ v, tm_APIVersion tm ≠ String slash v) → ParseGroupVersion (tm_APIVersion tm) = inr gv →
  kind_TypeMeta (TypeMeta_kind tm) = tm.
Proof.
  intros Hs Hp. pose proof (GroupVersion_String_Parse _ _ Hs Hp) as Hg. destruct tm as [k av].
  unfold kind_TypeMeta, TypeMeta_kind, FromAPIVersionAndKind, ToAPIVersionAndKind. simpl in *. rewrite Hp.
  case_bool_decide as He; simpl.
  - injection He as Hg1 Hg2 ->. destruct gv as [g v]. simpl in *. subst. f_equal.
  - destruct gv. simpl in *. by rewrite Hg.
Qed.
End Kinds.

(** ** Objects that carry their kind *)
Class KindHolder (R : Type) := {
  GetTypeMeta : R → TypeMeta;
  SetTypeMeta : TypeMeta → R → R;
}.

Section kind_holder.
Context `{KindHolder R}.
Definition GetGroupVersionKind (r : R) : GroupVersionKind := Kinds.TypeMeta_kind (GetTypeMeta r).
Definition SetGroupVersionKind (gvk : GroupVersionKind) (r : R) : R :=
  SetTypeMeta (Kinds.kind_TypeMeta gvk) r.
(** Without a kind, as decoders leave their objects. *)
Definition untyped (r : R) : R := SetGroupVersionKind Kinds.no_kind r.
End kind_holder.

#[export] Instance policy_kind : KindHolder ValidatingAdmissionPolicy :=
  {| GetTypeMeta := po_TypeMeta;
     SetTypeMeta := λ tm p, {| po_TypeMeta := tm; po_ObjectMeta := po_ObjectMeta p;
                               po_Spec := po_Spec p; po_Status := po_Status p |} |}.
#[export] Instance binding_kind : KindHolder ValidatingAdmissionPolicyBinding :=
  {| GetTypeMeta := bi_TypeMeta;
     SetTypeMeta := λ tm b, {| bi_TypeMeta := tm; bi_ObjectMeta := bi_ObjectMeta b; bi_Spec := bi_Spec b |} |}.
#[export] Instance list_kinds {A} : KindHolder (TypedList A) :=
  {| GetTypeMeta := λ l, {| tm_Kind := list_kind l; tm_APIVersion := list_apiVersion l |};
     SetTypeMeta := λ tm l, {| list_kind := tm_Kind tm; list_apiVersion := tm_APIVersion tm;
                               list_meta := list_meta l; Items := Items l |} |}.

(** What the serializer needs of an object type and its codec: the kind is held
    in an embedded [TypeMeta], encoded before the other fields, whose names are
    not mistaken for its own. *)
Definition kind_key (k : string) : bool := bool_decide (fold_key k ∈ ["apiversion"; "kind"]).
Record holds_kind {R} `{KindHolder R} (c : codec R) : Prop := {
  hk_encode r j : encode c r = inr j → ∃ ms1 ms2,
    f_encode typeMeta_fields (GetTypeMeta r) = inr ms1 ∧ j = JObject (ms1 ++ ms2) ∧
    Forall (λ k, kind_key k = false) ms2.*1;
  hk_encodable tm r : encodable c r → encodable c (SetTypeMeta tm r);
  hk_stored tm r : stored c (SetTypeMeta tm r) = SetTypeMeta (f_stored typeMeta_fields tm) (stored c r);
  hk_get tm r : GetTypeMeta (SetTypeMeta tm r) = tm;
  hk_set tm tm' r : SetTypeMeta tm (SetTypeMeta tm' r) = SetTypeMeta tm r;
  hk_same r : SetTypeMeta (GetTypeMeta r) r = r;
}.

(** *** A struct that starts with an embedded [TypeMeta] holds its kind *)
Definition names_ok {A} (fs : fields A) : Prop :=
  ∀ a ms, f_encode fs a = inr ms → Forall (λ k, k ∈ f_names fs) ms.*1.

Lemma names_no_fields : names_ok no_fields.
Proof. intros [] ms [= <-]. constructor. Qed.
Lemma names_field {A B} name om (c : codec A) (fs : fields B) : names_ok fs → names_ok (field name om c fs).
Proof.
  intros Hfs [a b] ms. simpl.
  assert (Hb : ∀ ms', f_encode fs b = inr ms' → Forall (λ k, k ∈ name :: f_names fs) ms'.*1).
  { intros ms' Hms. eapply Forall_impl; [by apply Hfs in Hms|]. intros k Hk. by right. }
  destruct (om && isEmptyValue c a); [by apply Hb|]. destruct (encode c a) as [|j]; [done|].
  destruct (f_encode fs b) as [|ms'] eqn:Hms; [done|]. intros [= <-]. constructor; [by left|by apply Hb].
Qed.

Section embedded.
Context {R B : Type} `{KindHolder R} (rest_of : R → B) (mk : TypeMeta * B → R) (rest : fields B).
Hypothesis to_mk : ∀ tm b, (GetTypeMeta (mk (tm, b)), rest_of (mk (tm, b))) = (tm, b).
Hypothesis mk_to : ∀ r, mk (GetTypeMeta r, rest_of r) = r.
Hypothesis set_mk : ∀ tm r, SetTypeMeta tm r = mk (tm, rest_of r).
Hypothesis rest_names : names_ok rest.
Hypothesis rest_keys : Forall (λ k, kind_key k = false) (f_names rest).

Lemma embedded_holds_kind {kf : KeyFolding} :
  holds_kind (struct_codec (as_record (λ r, (GetTypeMeta r, rest_of r)) mk (inline typeMeta_fields rest))).
Proof.
  assert (Hget : ∀ tm r, GetTypeMeta (SetTypeMeta tm r) = tm ∧ rest_of (SetTypeMeta tm r) = rest_of r).
  { intros tm r. rewrite set_mk. pose proof (to_mk tm (rest_of r)) as Hm. split; congruence. }
  split.
  - intros r j. cbn -[typeMeta_fields].
    destruct (f_encode typeMeta_fields (GetTypeMeta r)) as [|ms1]; [done|].
    destruct (f_encode rest (rest_of r)) as [|ms2] eqn:Hms; [done|]. intros [= <-].
    exists ms1, ms2. split_and!; [done..|]. apply rest_names in Hms.
    eapply Forall_impl; [exact Hms|]. intros k Hk. by apply (proj1 (Forall_forall _ _) rest_keys k).
  - intros tm r Hr. destruct (Hget tm r) as [H1 H2].
    change (f_encodable typeMeta_fields (GetTypeMeta (SetTypeMeta tm r)) ∧
            f_encodable rest (rest_of (SetTypeMeta tm r))).
    rewrite H2. split; [|exact (proj2 Hr)]. by destruct (GetTypeMeta _).
  - intros tm r. destruct (Hget tm r) as [H1 H2].
    change (mk (f_stored typeMeta_fields (GetTypeMeta (SetTypeMeta tm r)), f_stored rest (rest_of (SetTypeMeta tm r))) =
      SetTypeMeta (f_stored typeMeta_fields tm) (mk (f_stored typeMeta_fields (GetTypeMeta r), f_stored rest (rest_of r)))).
    rewrite H1, H2, set_mk. do 2 f_equal.
    pose proof (to_mk (f_stored typeMeta_fields (GetTypeMeta r)) (f_stored rest (rest_of r))) as Hm. congruence.
  - intros tm r. apply Hget.
  - intros tm tm' r. rewrite !set_mk. do 2 f_equal. rewrite <- set_mk. apply Hget.
  - intros r. by rewrite set_mk.
Qed.
End embedded.

Ltac solve_names_ok := repeat first [apply names_no_fields | apply names_field].
Ltac solve_holds_kind rest mk :=
  refine (embedded_holds_kind (λ r, snd (rest r)) mk _ _ _ _ _ _);
  [ intros []; intros; repeat match goal with x : (_ * _)%type |- _ => destruct x | x : unit |- _ => destruct x end;
    reflexivity
  | by intros [] | by intros ? [] | solve_names_ok
  | by apply (bool_decide_unpack (Forall (λ k, kind_key k = false) _)); vm_compute].

Section holders.
Context {kf : KeyFolding} (format : Z → string) (parse : string → error + Time).

Lemma policy_holds_kind a : holds_kind (validatingAdmissionPolicy_codec format parse a).
Proof. unfold validatingAdmissionPolicy_codec, validatingAdmissionPolicy_fields. solve_holds_kind validatingAdmissionPolicy_tuple validatingAdmissionPolicy_struct. Qed.
Lemma binding_holds_kind a : holds_kind (validatingAdmissionPolicyBinding_codec format parse a).
Proof. unfold validatingAdmissionPolicyBinding_codec, validatingAdmissionPolicyBinding_fields. solve_holds_kind validatingAdmissionPolicyBinding_tuple validatingAdmissionPolicyBinding_struct. Qed.
Lemma list_holds_kind {A} (c : codec A) : holds_kind (typedList_codec c).
Proof. unfold typedList_codec, typedList_fields. solve_holds_kind (@typedList_tuple A) (@typedList_struct A). Qed.
End holders.

(** ** The serializer *)
Module Serializer.
Import Kinds.

(** The body of a request or a response: nothing, text that is not JSON, the tree
    of a JSON text, or one of a content type that there is no decoder for. *)
Inductive body := NoBody | NotJSON (text : string) | Tree (j : json) | NoDecoder (contentType : string).
Definition body_empty (b : body) : bool := match b with NoBody => true | _ => false end.

(** The body that a JSON text is; what the encoder writes of a tree ends with a
    newline. *)
Definition body_of_text (text : string) : body :=
  if is_empty text then NoBody
  else match Decoder.read_tree text with Some (inr j) => Tree j | _ => NotJSON text end.
Definition text_of_tree (j : json) : string := (Printer.print j ++ newline)%string.

Lemma body_of_printed j :
  Printer.integral j = true → Z.of_nat (Printer.depth j) ≤ Scanner.maxNestingDepth →
  body_of_text (text_of_tree j) = Tree (Printer.coerced j).
Proof.
  intros Hi Hd. unfold body_of_text, text_of_tree. rewrite Printer.Unmarshal_printed by done.
  destruct (Printer.all_printed j Hi) as [Hw _]. by destruct (Printer.print j).
Qed.

(** *** [metav1.Status] on the wire *)
Record APIStatus := { as_TypeMeta : TypeMeta; as_ListMeta : ListMeta; as_Status : Status }.
#[export] Instance status_kind : KindHolder APIStatus :=
  {| GetTypeMeta := as_TypeMeta;
     SetTypeMeta := λ tm s, {| as_TypeMeta := tm; as_ListMeta := as_ListMeta s; as_Status := as_Status s |} |}.

Section status.
Context {kf : KeyFolding}.
Definition int32_codec : codec Z :=
  {| zero := 0; isEmptyValue := Z.eqb 0; encode := λ n, inr (JNumber n);
     decode := λ old j, match j with
                        | JNull => (old, no_error)
                        | JNumber n =>
                            if bool_decide (- 2 ^ 31 ≤ n < 2 ^ 31) then (n, no_error)
                            else (old, UnmarshalTypeError "number")
                        | _ => (old, UnmarshalTypeError (describe j))
                        end;
     encodable := λ n, - 2 ^ 31 ≤ n < 2 ^ 31; stored := id; nullish := λ _, false |}.

Definition statusCause_fields : fields StatusCause :=
  as_record (λ s, (CauseType s, (CauseMessage s, (CauseField s, tt))))
    (λ '(x0, (x1, (x2, tt))), {| CauseType := x0; CauseMessage := x1; CauseField := x2 |})
   (field "reason" true string_codec
    (field "message" true string_codec
    (field "field" true string_codec
    no_fields))).
Definition statusDetails_fields : fields StatusDetails :=
  as_record (λ s, (DetailsName s, (DetailsGroup s, (DetailsKind s, (DetailsUID s,
                  (DetailsCauses s, (DetailsRetryAfterSeconds s, tt)))))))
    (λ '(x0, (x1, (x2, (x3, (x4, (x5, tt)))))),
      {| DetailsName := x0; DetailsGroup := x1; DetailsKind := x2; DetailsUID := x3;
         DetailsCauses := x4; DetailsRetryAfterSeconds := x5 |})
   (field "name" true string_codec
    (field "group" true string_codec
    (field "kind" true string_codec
    (field "uid" true string_codec
    (field "causes" true (slice_codec (struct_codec statusCause_fields))
    (field "retryAfterSeconds" true int32_codec
    no_fields)))))).
Definition status_tuple (s : APIStatus) :=
  let t := as_Status s in
  (as_TypeMeta s, (as_ListMeta s, (StatusStatus t, (Message t, (Reason t, (Details t, (Code t, tt))))))).
Definition status_struct t : APIStatus :=
  let '(x0, (x1, (x2, (x3, (x4, (x5, (x6, tt))))))) := t in
  {| as_TypeMeta := x0; as_ListMeta := x1;
     as_Status := {| StatusStatus := x2; Message := x3; Reason := x4; Details := x5; Code := x6 |} |}.
Definition status_fields : fields APIStatus :=
  as_record status_tuple status_struct
   (inline typeMeta_fields
    (field "metadata" true listMeta_codec
    (field "status" true string_codec
    (field "message" true string_codec
    (field "reason" true string_codec
    (field "details" true (ptr_codec (struct_codec statusDetails_fields))
    (field "code" true int32_codec
    no_fields))))))).
Definition status_codec : codec APIStatus := struct_codec status_fields.
End status.

(** *** [SimpleMetaFactory.Interpret] ([serializer/json/meta.go])

    Reads the two fields with [encoding/json]. *)
Definition findKind_fields : fields (string * (string * unit)) :=
  field "apiVersion" true string_codec (field "kind" true string_codec no_fields).
Definition findKind_codec := struct_codec (kf := encoding_json) findKind_fields.
Definition json_parse_error (b : body) : error :=
  plainError match b with
             | NoBody => "unexpected end of JSON input"
             | NotJSON text => default "" (Scanner.checkValid text)
             | _ => ""
             end.
Definition unmarshal_body {A} (c : codec A) (b : body) (old : A) : A * option error :=
  match b with
  | Tree j => Unmarshal c j old
  | _ => (old, Some (json_parse_error b))
  end.
Definition Interpret (data : body) : error + GroupVersionKind :=
  match unmarshal_body findKind_codec data (zero findKind_codec) with
  | (_, Some err) => inl (plainError ("couldn't get version/kind; json parse error: " ++ Error err))
  | ((apiVersion, (kind, tt)), None) =>
      match ParseGroupVersion apiVersion with
      | inl err => inl err
      | inr gv => inr (mkGVK gv.1 gv.2 kind)
      end
  end.

(** *** [json.go] *)
Definition gvkWithDefaults (actual defaultGVK : GroupVersionKind) : GroupVersionKind :=
  let actual := if is_empty (Kind actual)
                then mkGVK (Group actual) (Version actual) (Kind defaultGVK) else actual in
  let actual := if is_empty (Version actual) && is_empty (Group actual)
                then mkGVK (Group defaultGVK) (Version defaultGVK) (Kind actual) else actual in
  if is_empty (Version actual) && bool_decide (Group actual = Group defaultGVK)
  then mkGVK (Group actual) (Version defaultGVK) (Kind actual) else actual.

(** The errors, without the data they quote. *)
Definition missingKindErr : error := plainError "Object 'Kind' is missing".
Definition missingVersionErr : error := plainError "Object 'apiVersion' is missing".
Definition missing (actual : GroupVersionKind) : option error :=
  if is_empty (Kind actual) then Some missingKindErr
  else if is_empty (Version actual) then Some missingVersionErr else None.

(** A new object, of another type than the target. *)
Inductive object := StatusObject (s : APIStatus) | ObjectOf (t : Scheme.go_type).
Definition untyped_object (o : object) : object :=
  match o with StatusObject s => StatusObject (untyped s) | ObjectOf t => ObjectOf t end.
(** What [Decode] returns: nil, the target or a new object.  The kind that it
    returns as well is left out. *)
Inductive decoded := Nothing | Target | Another (o : object).

Section serializer.
(** [unmarshal_type]: the error of decoding into a new value of one of the types
    that are neither the target's nor [Status]. *)
Context (scheme : Scheme.Scheme) (unmarshal_type : Scheme.go_type → json → option error).

Definition unmarshal_new (t : Scheme.go_type) (j : json) : object * option error :=
  if bool_decide (t = Scheme.metav1 "Status")
  then let '(s, err) := Unmarshal (status_codec (kf := case_sensitive)) j (zero status_codec) in
       (StatusObject s, err)
  else (ObjectOf t, unmarshal_type t j).

Definition decode_new (actual : GroupVersionKind) (data : body) : decoded * option error :=
  match Scheme.New actual scheme with
  | inl err => (Nothing, Some err)
  | inr t => match data with
             | Tree j => match unmarshal_new t j with
                         | (_, Some err) => (Nothing, Some err)
                         | (o, None) => (Another o, None)
                         end
             | _ => (Nothing, Some (json_parse_error data))
             end
  end.

(** [Decode(data, defaults, nil)]. *)
Definition json_Decode_nil (data : body) (defaults : option GroupVersionKind) : decoded * option error :=
  match Interpret data with
  | inl err => (Nothing, Some err)
  | inr actual =>
      let actual := match defaults with Some d => gvkWithDefaults actual d | None => actual end in
      match missing actual with
      | Some err => (Nothing, Some err)
      | None => decode_new actual data
      end
  end.

Section target.
(** The target: a type with its codec. *)
Context {R : Type} `{KindHolder R} (t : Scheme.go_type) (c : codec R).

(** The target as it is afterwards, what is returned and the error. *)
Definition unmarshal_target (data : body) (into : R) : R * decoded * option error :=
  match unmarshal_body c data into with
  | (into, Some err) => (into, Nothing, Some err)
  | (into, None) => (into, Target, None)
  end.

(** [types[0]]: a registered type has a kind, registering only adds to them. *)
Definition first_kind (types : list GroupVersionKind) : GroupVersionKind := default no_kind (head types).

Definition json_Decode (data : body) (defaults : option GroupVersionKind) (into : R)
    : R * decoded * option error :=
  match Interpret data with
  | inl err => (into, Nothing, Some err)
  | inr actual =>
      let actual := match defaults with Some d => gvkWithDefaults actual d | None => actual end in
      match Scheme.ObjectKinds t scheme with
      | inl err =>
          if IsNotRegisteredError (Some err) then unmarshal_target data into
          else (into, Nothing, Some err)
      | inr types =>
          let actual := gvkWithDefaults actual (first_kind types) in
          match missing actual with
          | Some err => (into, Nothing, Some err)
          | None =>
              if bool_decide (actual ∈ types) then unmarshal_target data into
              else let '(obj, err) := decode_new actual data in (into, obj, err)
          end
      end
  end.

(** [WithoutVersionDecoder.Decode] clears the kind of what is returned. *)
Definition Decode (data : body) (defaults : option GroupVersionKind) (into : R)
    : R * decoded * option error :=
  let '(into, obj, err) := json_Decode data defaults into in
  match obj with
  | Nothing => (into, Nothing, err)
  | Target => (untyped into, Target, err)
  | Another o => (into, Another (untyped_object o), err)
  end.

(** [WithVersionEncoder.Encode]: the object as it is afterwards and its
    encoding. *)
Definition json_Encode (obj : R) : error + body :=
  match Marshal c obj with inl err => inl err | inr j => inr (Tree j) end.
Definition Encode (version : string * string) (obj : R) : R * (error + body) :=
  match Scheme.ObjectKinds t scheme with
  | inl err => (obj, if IsNotRegisteredError (Some err) then json_Encode obj else inl err)
  | inr gvks =>
      let oldGVK := GetGroupVersionKind obj in
      let gvk := match KindForGroupVersionKinds version gvks with
                 | Some preferredGVK => preferredGVK
                 | None => first_kind gvks
                 end in
      let obj := SetGroupVersionKind gvk obj in
      (SetGroupVersionKind oldGVK obj, json_Encode obj)
  end.

(** [Result.Into] of the body of a successful response, without its check for an
    empty one: any status besides [Success] is an error. *)
Definition Into_error (out : decoded) (err : option error) : option error :=
  match err, out with
  | None, Another (StatusObject s) =>
      if bool_decide (StatusStatus (as_Status s) = "Success") then None
      else Some (StatusError (as_Status s))
  | _, _ => err
  end.
Definition Into (data : body) (obj : R) : R * option error :=
  match data with
  | NoDecoder contentType =>
      (obj, Some (plainError ("serializer for " ++ contentType ++ " doesn't exist")))
  | _ =>
      let '(obj, out, err) := Decode data None obj in (obj, Into_error out err)
  end.
End target.

(** ** Lemmas *)
Lemma resolve_other_key k : kind_key k = false → resolve (f_names findKind_fields) k = None.
Proof.
  unfold kind_key. rewrite bool_decide_eq_false, !elem_of_cons, elem_of_nil. intros Hk.
  unfold resolve, folds_keys, encoding_json. simpl. rewrite bool_decide_eq_false_2.
  - rewrite !filter_cons_False; [done|intros Heq..]; apply Hk; rewrite <- Heq; vm_compute; tauto.
  - rewrite !elem_of_cons, elem_of_nil. intros [->|[->|[]]]; apply Hk; vm_compute; tauto.
Qed.

Lemma decode_other_keys a ms :
  Forall (λ k, kind_key k = false) ms.*1 →
  decode_struct (kf := encoding_json) findKind_fields a ms = (a, no_error).
Proof.
  induction ms as [|[k j] ms IH]; [done|]. intros [Hk Hms]%Forall_cons. simpl.
  change (f_names _) with (f_names findKind_fields). rewrite resolve_other_key by done. by apply IH.
Qed.

(** A document says which kind it was encoded with. *)
Definition utf8_kind (gvk : GroupVersionKind) : Prop :=
  f_stored typeMeta_fields (kind_TypeMeta gvk) = kind_TypeMeta gvk.

Lemma Interpret_document gvk ms1 ms2 :
  plain_kind gvk → utf8_kind gvk → f_encode typeMeta_fields (kind_TypeMeta gvk) = inr ms1 →
  Forall (λ k, kind_key k = false) ms2.*1 → Interpret (Tree (JObject (ms1 ++ ms2))) = inr gvk.
Proof.
  intros Hp Hu He Hms2.
  assert (Hdec : decode findKind_codec (zero findKind_codec) (JObject (ms1 ++ ms2)) =
    ((tm_APIVersion (kind_TypeMeta gvk), (tm_Kind (kind_TypeMeta gvk), tt)), no_error)).
  { unfold utf8_kind in Hu. destruct (kind_TypeMeta gvk) as [k av]. revert Hu He. simpl.
    destruct (is_empty k) eqn:Hk; [apply is_empty_true in Hk as ->|];
      (destruct (is_empty av) eqn:Hav; [apply is_empty_true in Hav as ->|]); intros Heq [= <-];
      cbn [app decode findKind_codec struct_codec decode_struct];
      repeat match goal with
             | H : {| tm_Kind := _; tm_APIVersion := _ |} = _ |- _ => injection H as
             | H : Utf8.coerce _ = _ |- _ => rewrite H; clear H
             end; simpl; rewrite ?(decode_other_keys _ ms2) by done; done. }
  unfold Interpret, unmarshal_body, Unmarshal. rewrite Hdec.
  pose proof (TypeMeta_kind_of gvk Hp) as Hk. unfold TypeMeta_kind, FromAPIVersionAndKind in Hk.
  assert (Hpar : ∃ gv, ParseGroupVersion (tm_APIVersion (kind_TypeMeta gvk)) = inr gv).
  { unfold kind_TypeMeta, ToAPIVersionAndKind. simpl.
    rewrite bool_decide_eq_false_2 by (by apply plain_kind_some).
    eexists. by apply ParseGroupVersion_String. }
  destruct Hpar as [gv Hgv]. rewrite Hgv in Hk |- *. f_equal. exact Hk.
Qed.

Lemma gvkWithDefaults_full g d : Kind g ≠ "" → Version g ≠ "" → gvkWithDefaults g d = g.
Proof.
  intros Hk Hv. unfold gvkWithDefaults. rewrite (proj2 (is_empty_false (Kind g)) Hk).
  rewrite (proj2 (is_empty_false (Version g)) Hv). simpl. by rewrite (proj2 (is_empty_false (Version g)) Hv).
Qed.

Lemma decode_new_cases actual data :
  match decode_new actual data with
  | (Nothing, Some _) | (Another _, None) => True
  | _ => False
  end.
Proof.
  unfold decode_new. destruct (Scheme.New actual scheme); [done|]. destruct data as [| |j|]; [done|done| |done].
  by destruct (unmarshal_new _ j) as [o [err|]].
Qed.

(** A type of objects that is registered, with one kind, and that holds it. *)
Section registered.
Context {R : Type} `{KindHolder R} (t : Scheme.go_type) (c d : codec R) (gvk : GroupVersionKind).

Record registered : Prop := {
  reg_kinds : Scheme.ObjectKinds t scheme = inr [gvk];
  reg_plain : plain_kind gvk;
  reg_utf8 : utf8_kind gvk;
  reg_named : Kind gvk ≠ "";
  reg_holds : holds_kind c;
}.
Hypothesis Hreg : registered.

(** The body is a document of the type: it says so and decodes to the object. *)
Definition document (b : body) (x : R) : Prop :=
  Interpret b = inr gvk ∧ unmarshal_body d b (zero d) = (x, None).

Lemma missing_registered : missing gvk = None.
Proof.
  unfold missing. rewrite (proj2 (is_empty_false _) (reg_named Hreg)).
  destruct (reg_plain Hreg) as (_ & _ & Hv). simpl in Hv. by rewrite (proj2 (is_empty_false _) Hv).
Qed.

Lemma defaults_registered : gvkWithDefaults gvk gvk = gvk.
Proof. apply gvkWithDefaults_full; [apply Hreg|]. apply (reg_plain Hreg). Qed.

Lemma json_Decode_kind data g obj :
  Interpret data = inr g → gvkWithDefaults g gvk = gvk →
  json_Decode t d data None obj = unmarshal_target d data obj.
Proof.
  intros Hi Hd. unfold json_Decode. rewrite Hi, (reg_kinds Hreg).
  change (first_kind [gvk]) with gvk. by rewrite Hd, missing_registered, bool_decide_eq_true_2 by set_solver.
Qed.

Lemma Decode_document b x : document b x → Decode t d b None (zero d) = (untyped x, Target, None).
Proof.
  intros [Hi Hu]. unfold Decode. rewrite (json_Decode_kind _ gvk) by (done || apply defaults_registered).
  unfold unmarshal_target. by rewrite Hu.
Qed.

Lemma Into_document b x : document b x → Into t d b (zero d) = (untyped x, None).
Proof.
  intros Hd. pose proof (Decode_document b x Hd) as He. unfold Into. rewrite He.
  destruct Hd as [Hi _]. by destruct b.
Qed.

Lemma Into_interpreted data g obj :
  Interpret data = inr g →
  Into t d data obj = let '(obj, out, err) := Decode t d data None obj in (obj, Into_error out err).
Proof. by destruct data. Qed.

Lemma untyped_set r gvk' : untyped (SetGroupVersionKind gvk' r) = untyped r.
Proof. apply (hk_set c (reg_holds Hreg)). Qed.
Lemma untyped_untyped r : untyped (untyped r) = untyped r.
Proof. apply untyped_set. Qed.
Lemma untyped_stored gvk' r : untyped (stored c (SetGroupVersionKind gvk' r)) = untyped (stored c r).
Proof.
  rewrite <- (hk_same c (reg_holds Hreg) r) at 2. unfold untyped, SetGroupVersionKind.
  by rewrite !(hk_stored c (reg_holds Hreg)), !(hk_set c (reg_holds Hreg)).
Qed.
Lemma stored_untyped r : stored c (untyped r) = untyped (stored c r).
Proof.
  rewrite <- (hk_same c (reg_holds Hreg) r) at 2. unfold untyped, SetGroupVersionKind.
  by rewrite !(hk_stored c (reg_holds Hreg)), !(hk_set c (reg_holds Hreg)).
Qed.

Lemma Encode_kind obj :
  Encode t c (Group gvk, Version gvk) obj =
  (SetTypeMeta (kind_TypeMeta (GetGroupVersionKind obj)) obj, json_Encode c (SetGroupVersionKind gvk obj)).
Proof.
  unfold Encode. rewrite (reg_kinds Hreg).
  assert (HK : KindForGroupVersionKinds (Group gvk, Version gvk) [gvk] = Some gvk).
  { unfold KindForGroupVersionKinds. simpl. by rewrite bool_decide_eq_true_2. }
  rewrite HK. f_equal. apply (hk_set c (reg_holds Hreg)).
Qed.

(** An encodable object becomes a document of what is stored of it. *)
Lemma Encode_document obj :
  lawful c d → encodable c obj →
  ∃ b, (Encode t c (Group gvk, Version gvk) obj).2 = inr b ∧
       document b (stored c (SetGroupVersionKind gvk obj)).
Proof.
  intros Hlaw Hobj. rewrite Encode_kind. simpl. unfold json_Encode, Marshal.
  destruct (law_ok _ _ Hlaw (SetGroupVersionKind gvk obj)) as (j & Hj & Hd).
  { by apply (hk_encodable c (reg_holds Hreg)). }
  rewrite Hj. exists (Tree j). split; [done|]. split.
  - destruct (hk_encode c (reg_holds Hreg) _ _ Hj) as (ms1 & ms2 & Hms1 & -> & Hms2).
    unfold SetGroupVersionKind in Hms1. rewrite (hk_get c (reg_holds Hreg)) in Hms1.
    apply Interpret_document; [apply Hreg|apply Hreg|done|done].
  - unfold unmarshal_body, Unmarshal. by rewrite Hd.
Qed.

(** C39: What reading an answer can do: an answer that does not say its kind is an
    error; one of the kind of the target (a missing kind or version is taken to
    be the target's) is decoded into it, and its kind is cleared when that
    succeeds; any other answer leaves the target as it was, and is an error
    unless it is an object of another registered type and not a failing
    [Status], whose reason and message the error then has. *)
Theorem Into_target data obj :
  match Interpret data with
  | inl _ => (Into t d data obj).1 = obj ∧ is_Some (Into t d data obj).2
  | inr g =>
      let actual := gvkWithDefaults g gvk in
      (actual = gvk →
       Into t d data obj = match unmarshal_body d data obj with
                           | (x, None) => (untyped x, None)
                           | (x, Some err) => (x, Some err)
                           end) ∧
      (actual ≠ gvk →
       (Into t d data obj).1 = obj ∧
       ((Into t d data obj).2 = None ↔
          missing actual = None ∧ ∃ o, decode_new actual data = (Another o, None) ∧
            ∀ s, o = StatusObject s → StatusStatus (as_Status s) = "Success") ∧
       (∀ s, missing actual = None → decode_new actual data = (Another (StatusObject s), None) →
          StatusStatus (as_Status s) ≠ "Success" →
          (Into t d data obj).2 = Some (StatusError (as_Status s))))
  end.
Proof.
  destruct (Interpret data) as [err|g] eqn:Hi.
  { unfold Into, Decode, json_Decode. rewrite Hi. by destruct data. }
  rewrite (Into_interpreted data g obj Hi). split.
  - intros Hd. unfold Decode. rewrite (json_Decode_kind data g) by done. unfold unmarshal_target.
    by destruct (unmarshal_body d data obj) as [x [err|]].
  - intros Hne. unfold Decode, json_Decode. rewrite Hi, (reg_kinds Hreg).
    change (first_kind [gvk]) with gvk.
    rewrite (bool_decide_eq_false_2 (gvkWithDefaults g gvk ∈ [gvk])) by set_solver.
    destruct (missing (gvkWithDefaults g gvk)) as [err|]; [by split_and!; [|split; [|intros []]|]|].
    pose proof (decode_new_cases (gvkWithDefaults g gvk) data) as Hcases.
    destruct (decode_new (gvkWithDefaults g gvk) data) as [[| |[s|t']] [err|]]; try done; simpl.
    + split_and!; [done|split; [done|by intros (_ & o & ? & _)]|done].
    + split_and!; [done| |intros s' _ [= <-] Hs; by rewrite bool_decide_eq_false_2].
      case_bool_decide as Hs; split; [|done|done|].
      * intros _. split; [done|]. eexists. split; [done|]. by intros s' [= <-].
      * intros (_ & o & [= <-] & Ho). by destruct (Hs (Ho s eq_refl)).
    + split_and!; [done|split; [|done]|done]. intros _. split; [done|]. by eexists.
Qed.
End registered.
End serializer.

(** ** The types of the clientset's scheme *)
Section crds.
Context (unmarshal_type : Scheme.go_type → json → option error).
Context (format : Z → string) (parse : string → error + Time).
Hypothesis parse_format : ∀ sec, representable sec → parse (format sec) = inr (Some (sec, 0)).

(** Objects are encoded by [encoding/json] and decoded by [sigs.k8s.io/json]. *)
Abbreviation policy := (validatingAdmissionPolicy_codec format parse CRD).
Abbreviation binding := (validatingAdmissionPolicyBinding_codec format parse CRD).
Definition policy_wire : codec ValidatingAdmissionPolicy :=
  validatingAdmissionPolicy_codec (kf := case_sensitive) format parse CRD.
Definition binding_wire : codec ValidatingAdmissionPolicyBinding :=
  validatingAdmissionPolicyBinding_codec (kf := case_sensitive) format parse CRD.
Definition list_wire {A} (c : codec A) : codec (TypedList A) := typedList_codec (kf := case_sensitive) c.

Lemma lawful_policy_wire : lawful policy policy_wire.
Proof. exact (lawful_policy format parse parse_format CRD CRD). Qed.
Lemma lawful_binding_wire : lawful binding binding_wire.
Proof. exact (lawful_binding format parse parse_format CRD CRD). Qed.
Lemma lawful_list_wire {A} (c d : codec A) : lawful c d → lawful (typedList_codec c) (list_wire d).
Proof. exact (lawful_typedList c d). Qed.

Definition crd_kind (name : string) : GroupVersionKind := Scheme.with_kind Scheme.SchemeGroupVersion name.

(** What is common to the four types: [c] encodes, [d] decodes. *)
Definition sent_and_read {R} `{KindHolder R} (name : string) (c d : codec R) : Prop :=
  let t := Scheme.v1alpha1 name in
  ∀ obj, encodable c obj → ∃ b,
    (Encode Scheme.Scheme_ t c Scheme.SchemeGroupVersion obj).2 = inr b ∧
    Interpret b = inr (crd_kind name) ∧
    Into Scheme.Scheme_ unmarshal_type t d b (zero d) = (untyped (stored c obj), None).

Lemma crd_registered {R} `{KindHolder R} name (c : codec R) :
  name ∈ Scheme.known → holds_kind c → registered Scheme.Scheme_ (Scheme.v1alpha1 name) c (crd_kind name).
Proof.
  intros Hn Hc. assert (Hall : Forall (λ name,
    Scheme.ObjectKinds (Scheme.v1alpha1 name) Scheme.Scheme_ = inr [crd_kind name] ∧
    plain_kind (crd_kind name) ∧ utf8_kind (crd_kind name) ∧ name ≠ "") Scheme.known).
  { repeat constructor; try done. }
  apply (proj1 (Forall_forall _ _) Hall) in Hn as (H1 & H2 & H3 & H4). by split.
Qed.

Lemma crd_sent_and_read {R} `{KindHolder R} name (c d : codec R) :
  name ∈ Scheme.known → holds_kind c → lawful c d → sent_and_read name c d.
Proof.
  intros Hn Hc Hlaw obj Hobj. pose proof (crd_registered name c Hn Hc) as Hreg.
  destruct (Encode_document _ _ _ d _ Hreg obj Hlaw Hobj) as (b & Hb & Hdoc).
  exists b. split_and!; [exact Hb|apply Hdoc|].
  rewrite (Into_document _ unmarshal_type _ _ d _ Hreg b _ Hdoc). by rewrite (untyped_stored _ _ _ _ Hreg).
Qed.

(** C38: What a client sends it can read: encoding a policy, a binding or a list of
    them with the clientset's serializer gives a document of its own kind, in the
    group and version of the CRDs whatever kind the object carried, and decoding
    this document gives back the object as JSON stores it, without a kind (the
    items of a list keep theirs). *)
Theorem sent_is_read :
  sent_and_read "ValidatingAdmissionPolicy" policy policy_wire ∧
  sent_and_read "ValidatingAdmissionPolicyBinding" binding binding_wire ∧
  sent_and_read "ValidatingAdmissionPolicyList" (typedList_codec policy) (list_wire policy_wire) ∧
  sent_and_read "ValidatingAdmissionPolicyBindingList" (typedList_codec binding) (list_wire binding_wire).
Proof.
  pose proof lawful_policy_wire as Hp. pose proof lawful_binding_wire as Hb.
  split_and!; apply crd_sent_and_read.
  1, 4, 7, 10: set_solver.
  - exact (policy_holds_kind format parse CRD).
  - exact Hp.
  - exact (binding_holds_kind format parse CRD).
  - exact Hb.
  - exact (list_holds_kind policy).
  - exact (lawful_list_wire _ _ Hp).
  - exact (list_holds_kind binding).
  - exact (lawful_list_wire _ _ Hb).
Qed.
End crds.
End Serializer.
