(* ===== verification/Review.v ===== *)
(** * [AdmissionReview] as JSON

    The types of [k8s.io/api/admission/v1] with their JSON, and with them the two
    operations that the handlers of [Webhook] have as parameters: reading the
    review in the body of a request and writing the one that answers it. *)
From stdpp Require Import sorting.
From S2P Require Import Prelude GoStrings GoErrors Admission Webhook TransformedClient Json JsonText JsonSync JsonPrint Types Scheme Serializer.

(** ** [[]byte] as [encoding/json] treats it: base64 *)
Module Base64.
Definition byte (c : ascii) : Z := Z.of_nat (nat_of_ascii c).
Definition chr (n : Z) : ascii := ascii_of_nat (Z.to_nat n).

(** [base64.StdEncoding]: the letter of six bits and back. *)
Definition digit (n : Z) : ascii :=
  chr (if bool_decide (n < 26) then n + 65
       else if bool_decide (n < 52) then n + 71
       else if bool_decide (n < 62) then n - 4
       else if bool_decide (n = 62) then 43 else 47).
Definition value (c : ascii) : option Z :=
  let n := byte c in
  if bool_decide (65 ≤ n ≤ 90) then Some (n - 65)
  else if bool_decide (97 ≤ n ≤ 122) then Some (n - 71)
  else if bool_decide (48 ≤ n ≤ 57) then Some (n + 4)
  else if bool_decide (n = 43) then Some 62
  else if bool_decide (n = 47) then Some 63
  else None.
Definition pad : ascii := "=".

Fixpoint Encode (s : string) : string :=
  match s with
  | EmptyString => ""
  | String a EmptyString =>
      String (digit (byte a / 4)) (String (digit (byte a `mod` 4 * 16)) (String pad (String pad "")))
  | String a (String b EmptyString) =>
      String (digit (byte a / 4)) (String (digit (byte a `mod` 4 * 16 + byte b / 16))
        (String (digit (byte b `mod` 16 * 4)) (String pad "")))
  | String a (String b (String c s)) =>
      String (digit (byte a / 4)) (String (digit (byte a `mod` 4 * 16 + byte b / 16))
        (String (digit (byte b `mod` 16 * 4 + byte c / 64)) (String (digit (byte c `mod` 64)) (Encode s))))
  end.

(** Decoding goes by four letters; the bits left over by padding are ignored. *)
Definition byte1 (v1 v2 : Z) : ascii := chr (v1 * 4 + v2 / 16).
Definition byte2 (v2 v3 : Z) : ascii := chr (v2 `mod` 16 * 16 + v3 / 4).
Definition byte3 (v3 v4 : Z) : ascii := chr (v3 `mod` 4 * 64 + v4).
Fixpoint decode_quanta (s : string) : option string :=
  match s with
  | EmptyString => Some ""
  | String c1 (String c2 (String c3 (String c4 rest))) =>
      match value c1, value c2, value c3, value c4 with
      | Some v1, Some v2, Some v3, Some v4 =>
          (λ out, String (byte1 v1 v2) (String (byte2 v2 v3) (String (byte3 v3 v4) out))) <$> decode_quanta rest
      | Some v1, Some v2, Some v3, None =>
          if bool_decide (c4 = pad) && is_empty rest
          then Some (String (byte1 v1 v2) (String (byte2 v2 v3) "")) else None
      | Some v1, Some v2, None, None =>
          if bool_decide (c3 = pad) && bool_decide (c4 = pad) && is_empty rest
          then Some (String (byte1 v1 v2) "") else None
      | _, _, _, _ => None
      end
  | _ => None
  end.
(** Line ends are skipped. *)
Definition line_end (c : ascii) : bool := bool_decide (nat_of_ascii c ∈ [10; 13]%nat).
Fixpoint strip (s : string) : string :=
  match s with
  | EmptyString => ""
  | String c s => if line_end c then strip s else String c (strip s)
  end.
Definition Decode (s : string) : option string := decode_quanta (strip s).

Lemma byte_range c : 0 ≤ byte c < 256.
Proof. unfold byte. pose proof (nat_ascii_bounded c). lia. Qed.
Lemma chr_byte c : chr (byte c) = c.
Proof. unfold chr, byte. by rewrite Nat2Z.id, ascii_nat_embedding. Qed.

Lemma value_digit v : 0 ≤ v < 64 → value (digit v) = Some v ∧ line_end (digit v) = false.
Proof.
  intros Hv.
  assert (H : forallb (λ n, bool_decide (value (digit (Z.of_nat n)) = Some (Z.of_nat n) ∧
                                         line_end (digit (Z.of_nat n)) = false)) (seq 0 64) = true)
    by by vm_compute.
  rewrite forallb_forall in H. specialize (H (Z.to_nat v)). rewrite Z2Nat.id in H by lia.
  apply bool_decide_eq_true in H; [done|]. apply in_seq. lia.
Qed.

Ltac bits := repeat match goal with |- context [byte ?c] =>
  lazymatch goal with H : 0 ≤ byte c < 256 |- _ => fail | _ => pose proof (byte_range c) end end;
  Z.div_mod_to_equations; lia.
Lemma bytes_back a b c :
  byte1 (byte a / 4) (byte a `mod` 4 * 16 + byte b / 16) = a ∧
  byte2 (byte a `mod` 4 * 16 + byte b / 16) (byte b `mod` 16 * 4 + byte c / 64) = b ∧
  byte3 (byte b `mod` 16 * 4 + byte c / 64) (byte c `mod` 64) = c.
Proof.
  split_and!; [rewrite <- (chr_byte a) at 3|rewrite <- (chr_byte b) at 3|rewrite <- (chr_byte c) at 3];
    unfold byte1, byte2, byte3; f_equal; bits.
Qed.

Lemma Decode_Encode s : Decode (Encode s) = Some s.
Proof.
  unfold Decode. remember (String.length s) as n eqn:Hn. revert s Hn.
  induction n as [n IH] using lt_wf_ind. intros s ->.
  assert (Hd : ∀ v, 0 ≤ v < 64 → value (digit v) = Some v ∧ line_end (digit v) = false) by apply value_digit.
  destruct s as [|a [|b [|c s]]]; [done|..].
  - destruct (Hd (byte a / 4)) as [H1 L1]; [bits|]. destruct (Hd (byte a `mod` 4 * 16)) as [H2 L2]; [bits|].
    cbn [Encode strip]. rewrite L1, L2. cbn. rewrite H1, H2. do 2 f_equal.
    rewrite <- (chr_byte a) at 3. unfold byte1. f_equal. bits.
  - destruct (Hd (byte a / 4)) as [H1 L1]; [bits|].
    destruct (Hd (byte a `mod` 4 * 16 + byte b / 16)) as [H2 L2]; [bits|].
    destruct (Hd (byte b `mod` 16 * 4)) as [H3 L3]; [bits|].
    cbn [Encode strip]. rewrite L1, L2, L3. cbn. rewrite H1, H2, H3. do 2 f_equal; [apply (bytes_back a b "000")|].
    f_equal. rewrite <- (chr_byte b) at 3. unfold byte2. f_equal. bits.
  - destruct (Hd (byte a / 4)) as [H1 L1]; [bits|].
    destruct (Hd (byte a `mod` 4 * 16 + byte b / 16)) as [H2 L2]; [bits|].
    destruct (Hd (byte b `mod` 16 * 4 + byte c / 64)) as [H3 L3]; [bits|].
    destruct (Hd (byte c `mod` 64)) as [H4 L4]; [bits|].
    destruct (bytes_back a b c) as (E1 & E2 & E3).
    cbn [Encode strip]. rewrite L1, L2, L3, L4. cbn [decode_quanta]. rewrite H1, H2, H3, H4, E1, E2, E3.
    by rewrite (IH (String.length s)) by (simpl; lia || done).
Qed.

(** Letters are ASCII. *)
Lemma digit_one v : Utf8.one (digit v) = true.
Proof.
  assert (H : ∀ n, n < 128 → Utf8.one (chr n) = true).
  { intros n Hn. unfold Utf8.one, Utf8.between, chr. rewrite nat_ascii_embedding by lia. lia. }
  unfold digit. repeat case_bool_decide; apply H; lia.
Qed.
Lemma coerce_Encode s : Utf8.coerce (Encode s) = Encode s.
Proof.
  remember (String.length s) as n eqn:Hn. revert s Hn.
  induction n as [n IH] using lt_wf_ind. intros s ->.
  destruct s as [|a [|b [|c s]]]; cbn [Encode]; rewrite ?Utf8.coerce_one by apply digit_one; try reflexivity.
  by rewrite (IH (String.length s)) by (simpl; lia || done).
Qed.
End Base64.

(** ** The types and their codecs ([admission/v1/types.go]) *)
Module Review.
Import Serializer.

(** A slice of bytes: a base64 string, or an array of numbers. *)
Definition uint8_codec : codec Z :=
  {| zero := 0; isEmptyValue := Z.eqb 0; encode := λ n, inr (JNumber n);
     decode := λ old j, match j with
                        | JNull => (old, no_error)
                        | JNumber n => if bool_decide (0 ≤ n < 256) then (n, no_error)
                                       else (old, UnmarshalTypeError "number")
                        | _ => (old, UnmarshalTypeError (describe j))
                        end;
     encodable := λ n, 0 ≤ n < 256; stored := id; nullish := λ _, false |}.
Fixpoint bytes_of (l : list Z) : string :=
  match l with [] => "" | n :: l => String (Base64.chr n) (bytes_of l) end.
Fixpoint numbers_of (s : string) : list Z :=
  match s with EmptyString => [] | String c s => Base64.byte c :: numbers_of s end.
Definition bytes_codec : codec (option string) :=
  {| zero := None;
     isEmptyValue := λ b, match b with None => true | Some s => is_empty s end;
     encode := λ b, inr match b with None => JNull | Some s => JString (Base64.Encode s) end;
     decode := λ old j,
       match j with
       | JNull => (None, no_error)
       | JString s => match Base64.Decode s with
                      | Some b => (Some b, no_error)
                      | None => (old, saved (plainError "illegal base64 data"))
                      end
       | JArray js => let '(l, e) := decode_elements uint8_codec (numbers_of (default "" old)) js in
                      (Some (bytes_of l), e)
       | _ => (old, UnmarshalTypeError (describe j))
       end;
     encodable := λ _, True; stored := id; nullish := λ b, bool_decide (b = None) |}.

(** [authentication/v1]: the user of a request. *)
Record UserInfo := {
  us_Username : string;
  us_UID : string;
  us_Groups : option (list string);
  us_Extra : option (gmap string (option (list string)));
}.
Record AdmissionRequest := {
  rq_UID : string;
  rq_Kind : GroupVersionKind;
  rq_Resource : GroupVersionResource;
  rq_SubResource : string;
  rq_RequestKind : option GroupVersionKind;
  rq_RequestResource : option GroupVersionResource;
  rq_RequestSubResource : string;
  rq_Name : string;
  rq_Namespace : string;
  rq_Operation : string;
  rq_UserInfo : UserInfo;
  rq_Object : raw_json;
  rq_OldObject : raw_json;
  rq_DryRun : option bool;
  rq_Options : raw_json;
}.
Record AdmissionResponse := {
  rs_UID : string;
  rs_Allowed : bool;
  rs_Result : option APIStatus;
  rs_Patch : option string;
  rs_PatchType : option string;
  rs_AuditAnnotations : option (gmap string string);
  rs_Warnings : option (list string);
}.
Record AdmissionReview := {
  rv_TypeMeta : TypeMeta;
  rv_Request : option AdmissionRequest;
  rv_Response : option AdmissionResponse;
}.
#[export] Instance review_kind : KindHolder AdmissionReview :=
  {| GetTypeMeta := rv_TypeMeta;
     SetTypeMeta := λ tm r, {| rv_TypeMeta := tm; rv_Request := rv_Request r; rv_Response := rv_Response r |} |}.

Section codecs.
Context {kf : KeyFolding}.

Definition gvk_fields : fields GroupVersionKind :=
  as_record (λ g, (Group g, (Version g, (Kind g, tt)))) (λ '(x0, (x1, (x2, tt))), mkGVK x0 x1 x2)
   (field "group" false string_codec
    (field "version" false string_codec
    (field "kind" false string_codec
    no_fields))).
Definition gvk_codec : codec GroupVersionKind := struct_codec gvk_fields.
Definition gvr_fields : fields GroupVersionResource :=
  as_record (λ g, (gvrGroup g, (gvrVersion g, (gvrResource g, tt)))) (λ '(x0, (x1, (x2, tt))), mkGVR x0 x1 x2)
   (field "group" false string_codec
    (field "version" false string_codec
    (field "resource" false string_codec
    no_fields))).
Definition gvr_codec : codec GroupVersionResource := struct_codec gvr_fields.

Definition userInfo_fields : fields UserInfo :=
  as_record (λ u, (us_Username u, (us_UID u, (us_Groups u, (us_Extra u, tt)))))
    (λ '(x0, (x1, (x2, (x3, tt)))), {| us_Username := x0; us_UID := x1; us_Groups := x2; us_Extra := x3 |})
   (field "username" true string_codec
    (field "uid" true string_codec
    (field "groups" true (slice_codec string_codec)
    (field "extra" true (map_codec (slice_codec string_codec))
    no_fields)))).
Definition userInfo_codec : codec UserInfo := struct_codec userInfo_fields.

Definition request_tuple (r : AdmissionRequest) :=
  (rq_UID r, (rq_Kind r, (rq_Resource r, (rq_SubResource r, (rq_RequestKind r, (rq_RequestResource r,
  (rq_RequestSubResource r, (rq_Name r, (rq_Namespace r, (rq_Operation r, (rq_UserInfo r, (rq_Object r,
  (rq_OldObject r, (rq_DryRun r, (rq_Options r, tt))))))))))))))).
Definition request_struct t : AdmissionRequest :=
  let '(x0, (x1, (x2, (x3, (x4, (x5, (x6, (x7, (x8, (x9, (x10, (x11, (x12, (x13, (x14, tt))))))))))))))) := t in
  {| rq_UID := x0; rq_Kind := x1; rq_Resource := x2; rq_SubResource := x3; rq_RequestKind := x4;
     rq_RequestResource := x5; rq_RequestSubResource := x6; rq_Name := x7; rq_Namespace := x8;
     rq_Operation := x9; rq_UserInfo := x10; rq_Object := x11; rq_OldObject := x12; rq_DryRun := x13;
     rq_Options := x14 |}.
Definition request_fields : fields AdmissionRequest :=
  as_record request_tuple request_struct
   (field "uid" false string_codec
    (field "kind" false gvk_codec
    (field "resource" false gvr_codec
    (field "subResource" true string_codec
    (field "requestKind" true (ptr_codec gvk_codec)
    (field "requestResource" true (ptr_codec gvr_codec)
    (field "requestSubResource" true string_codec
    (field "name" true string_codec
    (field "namespace" true string_codec
    (field "operation" false string_codec
    (field "userInfo" false userInfo_codec
    (field "object" true raw_codec
    (field "oldObject" true raw_codec
    (field "dryRun" true (ptr_codec bool_codec)
    (field "options" true raw_codec
    no_fields))))))))))))))).
Definition request_codec : codec AdmissionRequest := struct_codec request_fields.

Definition response_tuple (r : AdmissionResponse) :=
  (rs_UID r, (rs_Allowed r, (rs_Result r, (rs_Patch r, (rs_PatchType r, (rs_AuditAnnotations r,
  (rs_Warnings r, tt))))))).
Definition response_struct t : AdmissionResponse :=
  let '(x0, (x1, (x2, (x3, (x4, (x5, (x6, tt))))))) := t in
  {| rs_UID := x0; rs_Allowed := x1; rs_Result := x2; rs_Patch := x3; rs_PatchType := x4;
     rs_AuditAnnotations := x5; rs_Warnings := x6 |}.
Definition response_fields : fields AdmissionResponse :=
  as_record response_tuple response_struct
   (field "uid" false string_codec
    (field "allowed" false bool_codec
    (field "status" true (ptr_codec status_codec)
    (field "patch" true bytes_codec
    (field "patchType" true (ptr_codec string_codec)
    (field "auditAnnotations" true (map_codec string_codec)
    (field "warnings" true (slice_codec string_codec)
    no_fields))))))).
Definition response_codec : codec AdmissionResponse := struct_codec response_fields.

Definition review_tuple (r : AdmissionReview) := (rv_TypeMeta r, (rv_Request r, (rv_Response r, tt))).
Definition review_struct t : AdmissionReview :=
  let '(x0, (x1, (x2, tt))) := t in {| rv_TypeMeta := x0; rv_Request := x1; rv_Response := x2 |}.
Definition review_fields : fields AdmissionReview :=
  as_record review_tuple review_struct
   (inline typeMeta_fields
    (field "request" true (ptr_codec request_codec)
    (field "response" true (ptr_codec response_codec)
    no_fields))).
Definition review_codec : codec AdmissionReview := struct_codec review_fields.

Lemma review_holds_kind : holds_kind review_codec.
Proof. unfold review_codec, review_fields. solve_holds_kind review_tuple review_struct. Qed.
End codecs.

(** *** The codecs are lawful *)
Lemma lawful_int32 : lawful int32_codec int32_codec.
Proof.
  split; [done|by intros a j [= <-]|]. intros a Ha. eexists. split; [done|]. simpl.
  by rewrite bool_decide_eq_true_2.
Qed.
Lemma lawful_bytes : lawful bytes_codec bytes_codec.
Proof.
  split; [done|by intros [s|] j [= <-]|]. intros [s|] _; simpl; eexists; (split; [done|]); simpl; [|done].
  by rewrite Base64.Decode_Encode.
Qed.

Section laws.
Context {kE kD : KeyFolding}.
Ltac each_field :=
  repeat first
    [ exact lawful_no_fields
    | apply lawful_field;
      [ solve_names
      | repeat first [exact lawful_int32 | exact lawful_bytes | progress solve_lawful
                     | solve [eauto using lawful_struct with json]] |]
    | apply lawful_inline; [solve_names | solve [auto with json] |] ].
Ltac solve_fields := apply lawful_as_record; [solve_iso | solve_iso | each_field].

Lemma lawful_kind_fields : lawful_fields typeMeta_fields typeMeta_fields.
Proof. solve_fields. Qed.
#[local] Hint Resolve lawful_kind_fields : json.
Lemma lawful_meta_fields : lawful_fields listMeta_fields listMeta_fields.
Proof. solve_fields. Qed.
#[local] Hint Resolve lawful_meta_fields : json.
Lemma lawful_statusCause_fields : lawful_fields statusCause_fields statusCause_fields.
Proof. solve_fields. Qed.
#[local] Hint Resolve lawful_statusCause_fields : json.
Lemma lawful_statusDetails_fields :
  lawful_fields (statusDetails_fields (kf := kE)) (statusDetails_fields (kf := kD)).
Proof. solve_fields. Qed.
#[local] Hint Resolve lawful_statusDetails_fields : json.
Lemma lawful_status_fields : lawful_fields (status_fields (kf := kE)) (status_fields (kf := kD)).
Proof.
  apply lawful_as_record; [by intros ([] & [] & ? & ? & ? & ? & ? & [])|by intros [[] [] []]|each_field].
Qed.
#[local] Hint Resolve lawful_status_fields : json.
Lemma lawful_gvk_fields : lawful_fields gvk_fields gvk_fields.
Proof. solve_fields. Qed.
#[local] Hint Resolve lawful_gvk_fields : json.
Lemma lawful_gvr_fields : lawful_fields gvr_fields gvr_fields.
Proof. solve_fields. Qed.
#[local] Hint Resolve lawful_gvr_fields : json.
Lemma lawful_userInfo_fields : lawful_fields userInfo_fields userInfo_fields.
Proof. solve_fields. Qed.
#[local] Hint Resolve lawful_userInfo_fields : json.
Lemma lawful_request_fields : lawful_fields (request_fields (kf := kE)) (request_fields (kf := kD)).
Proof. solve_fields. Qed.
#[local] Hint Resolve lawful_request_fields : json.
Lemma lawful_response_fields : lawful_fields (response_fields (kf := kE)) (response_fields (kf := kD)).
Proof. solve_fields. Qed.
#[local] Hint Resolve lawful_response_fields : json.
Lemma lawful_review : lawful (review_codec (kf := kE)) (review_codec (kf := kD)).
Proof. apply lawful_struct. solve_fields. Qed.
End laws.

(** *** What is written of a review can be read back

    A tree of limited depth, without literals that are not integers and with
    strings that are UTF-8. *)
Definition fits (n : nat) (j : json) : Prop :=
  (Printer.depth j ≤ n)%nat ∧ Printer.integral j = true ∧ Printer.utf8 j = true.
Definition codec_fits (n : nat) {A} (c : codec A) (a : A) : Prop := ∀ j, encode c a = inr j → fits n j.
Definition member_fits (n : nat) (m : string * json) : Prop := Utf8.coerce m.1 = m.1 ∧ fits n m.2.
Definition fields_fits (n : nat) {A} (fs : fields A) (a : A) : Prop :=
  ∀ ms, f_encode fs a = inr ms → Forall (member_fits n) ms.

Lemma fits_array n js : Forall (fits n) js → fits (S n) (JArray js).
Proof.
  intros H. unfold fits. cbn [Printer.depth Printer.integral Printer.utf8].
  induction H as [|j js (Hd & Hi & Hu) _ (IHd & IHi & IHu)]; [split_and!; [simpl; lia|done..]|]. cbn.
  rewrite Hi, Hu. split_and!; [|done..]. simpl in IHd. lia.
Qed.
Lemma fits_object n ms : Forall (member_fits n) ms → fits (S n) (JObject ms).
Proof.
  intros H. unfold fits. cbn [Printer.depth Printer.integral Printer.utf8].
  induction H as [|[k j] ms (Hk & Hd & Hi & Hu) _ (IHd & IHi & IHu)]; [split_and!; [simpl; lia|done..]|]. cbn in *.
  rewrite Hi, Hu, (bool_decide_eq_true_2 _ Hk). split_and!; [|done..]. lia.
Qed.

Lemma fits_string n s : codec_fits n string_codec s.
Proof.
  intros j [= <-]. split_and!; [simpl; lia|done|]. simpl. apply bool_decide_eq_true, Utf8.coerce_coerce.
Qed.
Lemma fits_bool n b : codec_fits n bool_codec b.
Proof. intros j [= <-]. split_and!; [simpl; lia|done..]. Qed.
Lemma fits_int32 n z : codec_fits n int32_codec z.
Proof. intros j [= <-]. split_and!; [simpl; lia|done..]. Qed.
Lemma fits_int64 n z : codec_fits n int64_codec z.
Proof. intros j [= <-]. split_and!; [simpl; lia|done..]. Qed.
Definition raw_fits (n : nat) (r : raw_json) : Prop := match r with RawJson j => fits n j | _ => True end.
Lemma fits_raw n r : raw_fits n r → codec_fits n raw_codec r.
Proof. intros Hr j. destruct r; [|by intros [= <-]|done]. intros [= <-]. split_and!; [simpl; lia|done..]. Qed.
Lemma fits_ptr n {A} (c : codec A) p : (∀ a, p = Some a → codec_fits n c a) → codec_fits n (ptr_codec c) p.
Proof.
  intros Hc j. destruct p as [a|]; [by apply Hc|]. intros [= <-]. split_and!; [simpl; lia|done..].
Qed.
Lemma fits_slice n {A} (c : codec A) l : (∀ a, codec_fits n c a) → codec_fits (S n) (slice_codec c) l.
Proof.
  intros Hc j. destruct l as [l|]; simpl; [|intros [= <-]; split_and!; [simpl; lia|done..]].
  destruct (encode_elements c l) as [|js] eqn:He; [done|]. intros [= <-]. apply fits_array. revert js He.
  induction l as [|a l IH]; intros js; simpl; [by intros [= <-]|].
  destruct (encode c a) as [|j] eqn:Ha; [done|]. destruct (encode_elements c l) as [|js']; [done|].
  intros [= <-]. constructor; [by apply (Hc a)|by apply IH].
Qed.
Lemma fits_map n {A} (c : codec A) m : (∀ a, codec_fits n c a) → codec_fits (S n) (map_codec c) m.
Proof.
  intros Hc j. destruct m as [m|]; simpl; [|intros [= <-]; split_and!; [simpl; lia|done..]].
  destruct (encode_members c (map_to_list m)) as [|ms] eqn:He; [done|]. intros [= <-]. apply fits_object.
  rewrite merge_sort_Permutation. revert ms He.
  induction (map_to_list m) as [|[k a] l IH]; intros ms; simpl; [by intros [= <-]|].
  destruct (encode c a) as [|j] eqn:Ha; [done|]. destruct (encode_members c l) as [|ms']; [done|].
  intros [= <-]. constructor; [|by apply IH]. split; [apply Utf8.coerce_coerce|by apply (Hc a)].
Qed.

Lemma fits_no_fields n : fields_fits n no_fields ().
Proof. intros ms [= <-]. constructor. Qed.
Lemma fits_field n {A B} name om (c : codec A) (fs : fields B) a b :
  Utf8.coerce name = name → codec_fits n c a → fields_fits n fs b → fields_fits n (field name om c fs) (a, b).
Proof.
  intros Hn Hc Hfs ms. simpl. destruct (om && isEmptyValue c a); [by apply Hfs|].
  destruct (encode c a) as [|j] eqn:Ha; [done|]. destruct (f_encode fs b) as [|ms'] eqn:Hb; [done|].
  intros [= <-]. constructor; [split; [done|by apply Hc]|by apply Hfs].
Qed.
Lemma fits_inline n {A B} (f1 : fields A) (f2 : fields B) a b :
  fields_fits n f1 a → fields_fits n f2 b → fields_fits n (inline f1 f2) (a, b).
Proof.
  intros H1 H2 ms. simpl. destruct (f_encode f1 a) as [|ms1] eqn:E1; [done|].
  destruct (f_encode f2 b) as [|ms2] eqn:E2; [done|]. intros [= <-].
  apply Forall_app. split; [by apply H1|by apply H2].
Qed.
Lemma fits_record n {A R} (to : R → A) (mk : A → R) (fs : fields A) r :
  fields_fits n fs (to r) → fields_fits n (as_record to mk fs) r.
Proof. done. Qed.
Lemma fits_struct {kf : KeyFolding} n {A} (fs : fields A) a :
  fields_fits n fs a → codec_fits (S n) (struct_codec fs) a.
Proof.
  intros Hfs j. simpl. destruct (f_encode fs a) as [|ms] eqn:Hms; [done|]. intros [= <-]. apply fits_object. by apply Hfs.
Qed.

(** The depth of each struct is written down; everything else is found. *)
Ltac solve_fits :=
  repeat first
    [ apply fits_string | apply fits_bool | apply fits_int32 | apply fits_int64 | apply fits_no_fields
    | apply fits_record | apply fits_field; [reflexivity| |] | apply fits_inline
    | apply fits_ptr; intros ? ? | apply fits_slice; intros ? | apply fits_map; intros ?
    | apply fits_struct | assumption ].

Section fits.
Context {kf : KeyFolding}.

Lemma fits_bytes n b : codec_fits n bytes_codec b.
Proof.
  intros j [= <-]. destruct b as [b|]; (split_and!; [simpl; lia|done|]); [|done].
  simpl. apply bool_decide_eq_true, Base64.coerce_Encode.
Qed.

Lemma fits_gvk n g : codec_fits (S n) gvk_codec g.
Proof. solve_fits. Qed.
Lemma fits_gvr n g : codec_fits (S n) gvr_codec g.
Proof. solve_fits. Qed.
Lemma fits_userInfo n u : codec_fits (S (S (S n))) userInfo_codec u.
Proof. solve_fits. Qed.
Lemma fits_status n s : codec_fits (S (S (S (S n)))) status_codec s.
Proof. solve_fits. Qed.

(** The documents of a request leave room for the two objects around them. *)
Definition documents_fit (n : nat) (r : AdmissionRequest) : Prop :=
  raw_fits n (rq_Object r) ∧ raw_fits n (rq_OldObject r) ∧ raw_fits n (rq_Options r).
Lemma fits_request n r : documents_fit (S (S (S n))) r → codec_fits (S (S (S (S n)))) request_codec r.
Proof.
  intros (Ho & Hold & Hopts). solve_fits; first [apply fits_gvk|apply fits_gvr|apply fits_userInfo|by apply fits_raw].
Qed.
Lemma fits_response n r : codec_fits (S (S (S (S (S n))))) response_codec r.
Proof. solve_fits; first [apply fits_status|apply fits_bytes]. Qed.
Lemma fits_review n r :
  (∀ q, rv_Request r = Some q → documents_fit (S (S (S (S n)))) q) →
  codec_fits (S (S (S (S (S (S n)))))) review_codec r.
Proof.
  intros Hq. apply fits_struct, fits_record, fits_inline; [solve_fits|].
  apply fits_field; [reflexivity| |apply fits_field; [reflexivity| |apply fits_no_fields]];
    apply fits_ptr; intros a Ha.
  - apply fits_request. by apply Hq.
  - apply fits_response.
Qed.
End fits.

(** ** Reading and writing the reviews of the handlers

    What the handlers see of a review.  A document is handed on as the encoder
    writes it; the bytes that came may differ from this in spaces and in how the
    characters of strings are escaped. *)
Definition raw_text (r : raw_json) : string :=
  match r with RawNil => "" | RawJson j => Printer.print j | RawInvalid text => text end.
Definition user_of (u : UserInfo) : Webhook.AdmissionUserInfo :=
  {| Webhook.Username := us_Username u; Webhook.UserUID := us_UID u;
     Webhook.Groups := default [] (us_Groups u);
     Webhook.Extra := (λ m : gmap string (option (list string)), default [] <$> m) <$> us_Extra u |}.
Definition request_of (q : AdmissionRequest) : Webhook.AdmissionRequest :=
  {| Webhook.UID := rq_UID q; Webhook.ReqKind := rq_Kind q; Webhook.Resource := rq_Resource q;
     Webhook.SubResource := rq_SubResource q; Webhook.ReqName := rq_Name q;
     Webhook.ReqNamespace := rq_Namespace q; Webhook.Operation := rq_Operation q;
     Webhook.ReqUserInfo := user_of (rq_UserInfo q); Webhook.ObjectRaw := raw_text (rq_Object q);
     Webhook.OldObjectRaw := raw_text (rq_OldObject q); Webhook.DryRun := rq_DryRun q;
     Webhook.OptionsRaw := raw_text (rq_Options q) |}.
Definition result_of (s : option APIStatus) : Webhook.ResultStatus :=
  match s with
  | Some s => {| Webhook.ResultCode := Code (as_Status s); Webhook.ResultMessage := Message (as_Status s);
                 Webhook.ResultReason := Reason (as_Status s) |}
  | None => {| Webhook.ResultCode := 0; Webhook.ResultMessage := ""; Webhook.ResultReason := "" |}
  end.
Definition review_of (r : AdmissionReview) : Webhook.AdmissionReview :=
  {| Webhook.ReviewKind := tm_Kind (rv_TypeMeta r); Webhook.ReviewAPIVersion := tm_APIVersion (rv_TypeMeta r);
     Webhook.Request_ := request_of <$> rv_Request r;
     Webhook.Response_ := (λ s, {| Webhook.ResponseUID := rs_UID s; Webhook.Allowed := rs_Allowed s;
                                   Webhook.Result := result_of (rs_Result s) |}) <$> rv_Response r |}.

(** [json.Unmarshal(body, &a)].  That the decoder does not panic is shown for
    [Decoder.read_tree]. *)
Definition UnmarshalReview (body : string) : error + Webhook.AdmissionReview :=
  match Decoder.read_tree body with
  | Some (inr j) =>
      match Unmarshal (review_codec (kf := encoding_json)) j (zero review_codec) with
      | (r, None) => inr (review_of r)
      | (_, Some err) => inl err
      end
  | Some (inl err) => inl err
  | None => inl (plainError "JSON decoder out of sync - data changing underfoot?")
  end.

(** What [reviewResponse] makes, which has no request. *)
Definition status_of (s : Webhook.ResultStatus) : APIStatus :=
  {| as_TypeMeta := zero typeMeta_codec; as_ListMeta := zero listMeta_codec;
     as_Status := {| StatusStatus := ""; Message := Webhook.ResultMessage s; Reason := Webhook.ResultReason s;
                     Details := None; Code := Webhook.ResultCode s |} |}.
Definition response_of (s : Webhook.AdmissionResponse) : AdmissionResponse :=
  {| rs_UID := Webhook.ResponseUID s; rs_Allowed := Webhook.Allowed s;
     rs_Result := Some (status_of (Webhook.Result s)); rs_Patch := None; rs_PatchType := None;
     rs_AuditAnnotations := None; rs_Warnings := None |}.
Definition wire_of (r : Webhook.AdmissionReview) : AdmissionReview :=
  {| rv_TypeMeta := {| tm_Kind := Webhook.ReviewKind r; tm_APIVersion := Webhook.ReviewAPIVersion r |};
     rv_Request := None; rv_Response := response_of <$> Webhook.Response_ r |}.
(** [json.Marshal(response)]. *)
Definition MarshalReview (r : Webhook.AdmissionReview) : error + string :=
  match Marshal (review_codec (kf := encoding_json)) (wire_of r) with
  | inl err => inl err
  | inr j => inr (Printer.print j)
  end.

(** *** Laws *)
Definition room : nat := Z.to_nat Scanner.maxNestingDepth.

(** What one codec encodes, another decodes from the text. *)
Lemma written_is_read {A} (E D : codec A) a after :
  lawful E D → encodable E a → codec_fits room E a → Printer.all_bytes Scanner.isSpace after = true →
  ∃ j, encode E a = inr j ∧ Decoder.read_tree (Printer.print j ++ after) = Some (inr j) ∧
       Unmarshal D j (zero D) = (stored E a, None).
Proof.
  intros Hlaw Ha Hfits Hafter. destruct (law_ok _ _ Hlaw a Ha) as (j & Hj & Hd).
  destruct (Hfits j Hj) as (Hdepth & Hi & Hu). exists j. split_and!; [done| |by unfold Unmarshal; rewrite Hd].
  rewrite Printer.Unmarshal_printed; [by rewrite Printer.utf8_coerced|done| |done].
  unfold room in Hdepth. change Scanner.maxNestingDepth with 10000 in *. lia.
Qed.

(** A request that can be sent: its documents are well-formed and leave room, and
    its map has UTF-8 keys. *)
Definition raw_ok (r : raw_json) : Prop := match r with RawInvalid _ => False | _ => True end.
Definition utf8_keys (u : UserInfo) : Prop :=
  match us_Extra u with Some m => map_Forall (λ k _, Utf8.coerce k = k) m | None => True end.
Definition request_ok (q : AdmissionRequest) : Prop :=
  documents_fit (room - 2) q ∧ raw_ok (rq_Object q) ∧ raw_ok (rq_OldObject q) ∧ raw_ok (rq_Options q) ∧
  utf8_keys (rq_UserInfo q).

Section encodable.
Context {kf : KeyFolding}.
Lemma encodable_gvk g : encodable gvk_codec g.
Proof. by repeat split. Qed.
Lemma encodable_gvr g : encodable gvr_codec g.
Proof. by repeat split. Qed.
Lemma encodable_strings l : encodable (slice_codec string_codec) l.
Proof. destruct l; [|done]. by apply Forall_true. Qed.
Lemma encodable_userInfo u : utf8_keys u → encodable userInfo_codec u.
Proof.
  intros Hu. split; [done|]. split; [done|]. split; [intros _; apply encodable_strings|]. split; [|done].
  intros _. unfold utf8_keys in Hu. simpl. destruct (us_Extra u) as [m|]; [|done].
  intros k l Hk. split; [by apply (Hu k l)|apply encodable_strings].
Qed.
Lemma encodable_request q : request_ok q → encodable request_codec q.
Proof.
  intros (_ & Ho & Hold & Hopts & Hu).
  split; [done|]. split; [intros _; apply encodable_gvk|]. split; [intros _; apply encodable_gvr|].
  split; [done|]. split; [intros _; by destruct (rq_RequestKind q)|].
  split; [intros _; by destruct (rq_RequestResource q)|]. do 4 (split; [done|]).
  split; [intros _; by apply encodable_userInfo|]. split; [intros _; exact Ho|]. split; [intros _; exact Hold|].
  split; [intros _; by destruct (rq_DryRun q)|]. split; [intros _; exact Hopts|done].
Qed.
End encodable.

Lemma UnmarshalReview_sent {kf : KeyFolding} q tm after :
  let rv := {| rv_TypeMeta := tm; rv_Request := Some q; rv_Response := None |} in
  request_ok q → Printer.all_bytes Scanner.isSpace after = true →
  ∃ j, encode review_codec rv = inr j ∧
       UnmarshalReview (Printer.print j ++ after) = inr (review_of (stored review_codec rv)).
Proof.
  intros rv Hq Hafter. pose proof Hq as [Hfit _].
  destruct (written_is_read (review_codec (kf := kf)) (review_codec (kf := encoding_json)) rv after)
    as (j & Hj & Hu & Hd).
  - apply lawful_review.
  - split; [by repeat split|]. split; [intros _; by apply encodable_request|]. by split.
  - replace room with (S (S (S (S (S (S (room - 6))))))) by (unfold room; change Scanner.maxNestingDepth with 10000; lia).
    apply fits_review. intros q' [= <-].
    replace (S (S (S (S (room - 6))))) with (room - 2)%nat; [done|]. unfold room.
    change Scanner.maxNestingDepth with 10000. lia.
  - done.
  - exists j. split; [done|]. unfold UnmarshalReview. by rewrite Hu, Hd.
Qed.

(** What is received of a request. *)
Definition received (q : AdmissionRequest) : Webhook.AdmissionRequest :=
  request_of (stored (request_codec (kf := encoding_json)) q).

Lemma parseRequest_sent q tm after j :
  request_ok q → Printer.all_bytes Scanner.isSpace after = true →
  encode (review_codec (kf := encoding_json)) {| rv_TypeMeta := tm; rv_Request := Some q; rv_Response := None |} = inr j →
  Webhook.parseRequest UnmarshalReview
    {| Http.ContentType := "application/json"; Http.Body := (Printer.print j ++ after)%string |} = inr (received q).
Proof.
  intros Hq Hafter Hj. destruct (UnmarshalReview_sent q tm after Hq Hafter) as (j' & Hj' & Hu).
  rewrite Hj in Hj'. injection Hj' as <-. unfold Webhook.parseRequest. cbn [Http.ContentType Http.Body].
  rewrite bool_decide_eq_true_2 by done. cbn [negb]. rewrite Hu.
  destruct (is_empty _) eqn:He; [|reflexivity]. apply is_empty_true in He. by rewrite He in Hu.
Qed.

(** *** The answer *)
Definition int32 (z : Z) : Prop := - 2 ^ 31 ≤ z < 2 ^ 31.
(** The result as it is sent. *)
Definition sent_result (s : Webhook.ResultStatus) : APIStatus :=
  status_of {| Webhook.ResultCode := Webhook.ResultCode s; Webhook.ResultMessage := Utf8.coerce (Webhook.ResultMessage s);
               Webhook.ResultReason := Utf8.coerce (Webhook.ResultReason s) |}.
Definition sent_response (s : Webhook.AdmissionResponse) : AdmissionResponse :=
  {| rs_UID := Utf8.coerce (Webhook.ResponseUID s); rs_Allowed := Webhook.Allowed s;
     rs_Result := Some (sent_result (Webhook.Result s)); rs_Patch := None; rs_PatchType := None;
     rs_AuditAnnotations := None; rs_Warnings := None |}.

Lemma coerce_or_empty s : (if is_empty s then "" else Utf8.coerce s) = Utf8.coerce s.
Proof. by destruct s. Qed.

Section answer.
Context {kf : KeyFolding} (tm : TypeMeta) (s : Webhook.AdmissionResponse).
Let rv : AdmissionReview := {| rv_TypeMeta := tm; rv_Request := None; rv_Response := Some (response_of s) |}.

Lemma stored_status r : stored status_codec (status_of r) = sent_result r.
Proof.
  unfold sent_result, status_of. destruct r as [c m re]. cbn. unfold status_tuple. cbn.
  rewrite !coerce_or_empty. f_equal. f_equal. by destruct c.
Qed.
Lemma stored_answer :
  stored review_codec rv = {| rv_TypeMeta := f_stored typeMeta_fields tm; rv_Request := None;
                              rv_Response := Some (sent_response s) |}.
Proof.
  unfold sent_response. rewrite <- stored_status. reflexivity.
Qed.
Lemma encodable_status r : int32 (Webhook.ResultCode r) → encodable status_codec (status_of r).
Proof.
  intros Hr. split; [by repeat split|]. split; [intros _; by repeat split|]. do 4 (split; [done|]).
  split; [|done]. intros _. exact Hr.
Qed.
Lemma encodable_answer : int32 (Webhook.ResultCode (Webhook.Result s)) → encodable review_codec rv.
Proof.
  intros Hs. split; [by repeat split|]. split; [done|]. split; [|done]. intros _.
  split; [done|]. split; [done|]. split; [intros _; by apply encodable_status|]. by repeat split.
Qed.
End answer.

Lemma append_nil s : (s ++ "")%string = s.
Proof. induction s as [|c s IH]; [done|]. simpl. by rewrite IH. Qed.

(** The answer never fails to be written, and any decoder reads the result back. *)
Lemma MarshalReview_read {kf : KeyFolding} r s :
  Webhook.Response_ r = Some s → int32 (Webhook.ResultCode (Webhook.Result s)) →
  ∃ j, MarshalReview r = inr (Printer.print j) ∧ Decoder.read_tree (Printer.print j) = Some (inr j) ∧
       encode (review_codec (kf := encoding_json)) (wire_of r) = inr j ∧
       Unmarshal review_codec j (zero review_codec) =
       ({| rv_TypeMeta := f_stored typeMeta_fields (rv_TypeMeta (wire_of r)); rv_Request := None;
           rv_Response := Some (sent_response s) |}, None).
Proof.
  intros Hs Hcode.
  destruct (written_is_read (review_codec (kf := encoding_json)) (review_codec (kf := kf)) (wire_of r) "")
    as (j & Hj & Hu & Hd).
  - apply lawful_review.
  - unfold wire_of. rewrite Hs. by apply encodable_answer.
  - replace room with (S (S (S (S (S (S (room - 6))))))) by (unfold room; change Scanner.maxNestingDepth with 10000; lia).
    by apply fits_review.
  - done.
  - exists j. rewrite append_nil in Hu. split_and!; [|done|done|].
    + unfold MarshalReview, Marshal. by rewrite Hj.
    + rewrite Hd. unfold wire_of. rewrite Hs. by rewrite (stored_answer _ s).
Qed.
End Review.
