(* ===== verification/Clientset.v ===== *)
(** * The generated typed clients ([pkg/generated/clientset/versioned])

    The client of one resource over REST, and the clientset that is made from a
    configuration.  The clients of policies and of bindings are generated from
    one template and differ in the name of the resource, the type of the objects
    and the method [UpdateStatus], so they are one definition here. *)
From S2P Require Import Prelude GoStrings GoErrors Admission TransformedClient Rest.

(** ** What an API server promises for a collection

    The requests below the path of a collection: [abs] is the stored collection,
    of what [view] shows of its objects; a request that fails changes nothing.
    [one b x]: the body [b] is the object [x]; [page b l]: it is a list of the
    objects [l]; [sent b x]: what a client sends to store [x]. *)
Module Server.
Import Path Rest.
Section server.
Context {Bytes W Watcher : Type} (rt : Transport Bytes W Watcher) (prefix : list string) (res : string).

Record serves {R V} (one : Bytes → R → Prop) (page : Bytes → list R → Prop) (sent : Bytes → R → Prop)
    (key : R → string) (ok : W → Prop) (view : R → V) (abs : W → gmap string V)
    (good : R → Prop) (admitted : R → R → Prop) : Prop := {
  serves_get ctx r w name :
    ok w → plain name → err r = None → verb r = "GET" →
    URL_path r = render (prefix ++ [res; name]) →
    wp (roundTrip rt ctx r) w (λ a w', ok w' ∧ abs w' = abs w ∧
      match a with
      | inr b => ∃ x, one b x ∧ good x ∧ abs w !! name = Some (view x)
      | inl e => IsNotFound (Some e) = true → abs w !! name = None
      end);
  serves_list ctx r w :
    ok w → err r = None → verb r = "GET" → URL_path r = render (prefix ++ [res]) →
    wp (roundTrip rt ctx r) w (λ a w', ok w' ∧ abs w' = abs w ∧
      match a with
      | inr b => ∃ l, page b l ∧ Forall good l ∧ view <$> l ≡ₚ (map_to_list (abs w)).*2
      | inl e => True
      end);
  serves_post ctx r w x b :
    ok w → good x → err r = None → verb r = "POST" → URL_path r = render (prefix ++ [res]) →
    sent b x → bodyBytes r = Some b →
    wp (roundTrip rt ctx r) w (λ a w', ok w' ∧
      match a with
      | inr b => ∃ x', one b x' ∧ good x' ∧ admitted x x' ∧ abs w !! key x' = None ∧
                       abs w' = <[key x' := view x']> (abs w)
      | inl e => abs w' = abs w
      end);
  serves_put ctx r w x b :
    ok w → good x → plain (key x) → err r = None → verb r = "PUT" →
    URL_path r = render (prefix ++ [res; key x]) → sent b x → bodyBytes r = Some b →
    wp (roundTrip rt ctx r) w (λ a w', ok w' ∧
      match a with
      | inr b => ∃ x', one b x' ∧ good x' ∧ admitted x x' ∧ is_Some (abs w !! key x') ∧
                       abs w' = <[key x' := view x']> (abs w)
      | inl e => abs w' = abs w
      end);
  serves_delete ctx r w name :
    ok w → plain name → err r = None → verb r = "DELETE" →
    URL_path r = render (prefix ++ [res; name]) →
    wp (roundTrip rt ctx r) w (λ a w', ok w' ∧
      match a with
      | inr b => is_Some (abs w !! name) ∧ abs w' = delete name (abs w)
      | inl e => abs w' = abs w
      end);
}.

(** The same server, its objects read in another way: [sent_as x y], what is sent
    to store [x] stores [y]; an object [y] of an answer is read as [read y] and
    one of a list as [read_item y]. *)
Section reread.
Context {R1 R2 V : Type}.
Context (one1 : Bytes → R1 → Prop) (page1 : Bytes → list R1 → Prop) (sent1 : Bytes → R1 → Prop).
Context (one2 : Bytes → R2 → Prop) (page2 : Bytes → list R2 → Prop) (sent2 : Bytes → R2 → Prop).
Context (key1 : R1 → string) (key2 : R2 → string) (good1 : R1 → Prop) (good2 : R2 → Prop).
Context (view1 : R1 → V) (view2 : R2 → V) (sent_as : R2 → R1 → Prop) (read read_item : R1 → R2).
Hypothesis sends : ∀ b x, sent2 b x → good2 x →
  ∃ y, sent1 b y ∧ good1 y ∧ key1 y = key2 x ∧ sent_as x y.
Hypothesis reads : ∀ b y, one1 b y → good1 y →
  one2 b (read y) ∧ good2 (read y) ∧ key2 (read y) = key1 y ∧ view2 (read y) = view1 y.
Hypothesis reads_page : ∀ b l, page1 b l → Forall good1 l → page2 b (read_item <$> l).
Hypothesis reads_item : ∀ y, good1 y → good2 (read_item y) ∧ view2 (read_item y) = view1 y.

Lemma serves_reread (ok : W → Prop) abs admitted1 (admitted2 : R2 → R2 → Prop) :
  (∀ x y y', sent_as x y → admitted1 y y' → admitted2 x (read y')) →
  serves one1 page1 sent1 key1 ok view1 abs good1 admitted1 →
  serves one2 page2 sent2 key2 ok view2 abs good2 admitted2.
Proof.
  intros Hadmit [HG HL HC HU HD]. split; intros ctx r w.
  - intros name Hok Hpl He Hv Hurl. eapply wp_mono; [exact (HG ctx r w name Hok Hpl He Hv Hurl)|].
    intros [e|b] w' (Hok' & Habs & Ha); [by split_and!|]. destruct Ha as (y & Hy & Hg & Hl).
    destruct (reads b y Hy Hg) as (? & ? & _ & Hview). split_and!; [done|done|].
    exists (read y). by rewrite Hview.
  - intros Hok He Hv Hurl. eapply wp_mono; [exact (HL ctx r w Hok He Hv Hurl)|].
    intros [e|b] w' (Hok' & Habs & Ha); [by split_and!|]. destruct Ha as (l & Hl & Hg & Hp).
    split_and!; [done|done|]. exists (read_item <$> l). split; [by apply reads_page|]. split.
    + apply Forall_fmap. eapply Forall_impl; [exact Hg|]. intros y Hy. by apply reads_item.
    + rewrite <- Hp, <- list_fmap_compose. apply reflexive_eq, Forall_fmap_ext_1.
      eapply Forall_impl; [exact Hg|]. intros y Hy. by apply reads_item.
  - intros x b Hok Hg He Hv Hurl Hs Hb. destruct (sends b x Hs Hg) as (y & Hs1 & Hg1 & _ & Has).
    eapply wp_mono; [exact (HC ctx r w y b Hok Hg1 He Hv Hurl Hs1 Hb)|].
    intros [e|b'] w' (Hok' & Ha); [by split_and!|]. destruct Ha as (y' & Hy & Hgy & Hadm & Hn & Hw).
    destruct (reads b' y' Hy Hgy) as (? & ? & Hkey & Hview). split; [done|].
    exists (read y'). rewrite Hkey, Hview. split_and!; try done. by eapply Hadmit.
  - intros x b Hok Hg Hpl He Hv Hurl Hs Hb. destruct (sends b x Hs Hg) as (y & Hs1 & Hg1 & Hk & Has).
    rewrite <- Hk in Hpl, Hurl. eapply wp_mono; [exact (HU ctx r w y b Hok Hg1 Hpl He Hv Hurl Hs1 Hb)|].
    intros [e|b'] w' (Hok' & Ha); [by split_and!|]. destruct Ha as (y' & Hy & Hgy & Hadm & Hn & Hw).
    destruct (reads b' y' Hy Hgy) as (? & ? & Hkey & Hview). split; [done|].
    exists (read y'). rewrite Hkey, Hview. split_and!; try done. by eapply Hadmit.
  - intros name Hok Hpl He Hv Hurl. exact (HD ctx r w name Hok Hpl He Hv Hurl).
Qed.
End reread.

(** The same server, of which less is shown. *)
Lemma serves_view {R V V'} (f : V → V') one page sent key ok (view : R → V) abs good admitted :
  serves one page sent key ok view abs good admitted →
  serves one page sent key ok (λ x, f (view x)) (λ w, f <$> abs w) good admitted.
Proof.
  intros [HG HL HC HU HD]. split; intros ctx r w.
  - intros name Hok Hpl He Hv Hurl. eapply wp_mono; [exact (HG ctx r w name Hok Hpl He Hv Hurl)|].
    intros [e|b] w' (Hok' & -> & Ha); rewrite lookup_fmap; (split_and!; [done..|]).
    + intros Hnf. by rewrite Ha.
    + destruct Ha as (x & ? & ? & ->). by exists x.
  - intros Hok He Hv Hurl. eapply wp_mono; [exact (HL ctx r w Hok He Hv Hurl)|].
    intros [e|b] w' (Hok' & -> & Ha); (split_and!; [done..|]); [done|]. destruct Ha as (l & ? & ? & Hp).
    exists l. split_and!; [done..|]. rewrite map_to_list_fmap, <- list_fmap_compose.
    rewrite (list_fmap_compose view f), Hp, <- list_fmap_compose. done.
  - intros x b Hok Hg He Hv Hurl Hs Hb. eapply wp_mono; [exact (HC ctx r w x b Hok Hg He Hv Hurl Hs Hb)|].
    intros [e|b'] w' (Hok' & Ha); (split; [done|]); [by rewrite Ha|].
    destruct Ha as (x' & ? & ? & ? & Hn & ->). exists x'. by rewrite lookup_fmap, Hn, fmap_insert.
  - intros x b Hok Hg Hpl He Hv Hurl Hs Hb.
    eapply wp_mono; [exact (HU ctx r w x b Hok Hg Hpl He Hv Hurl Hs Hb)|].
    intros [e|b'] w' (Hok' & Ha); (split; [done|]); [by rewrite Ha|].
    destruct Ha as (x' & ? & ? & ? & Hn & ->). exists x'. by rewrite lookup_fmap, fmap_is_Some, fmap_insert.
  - intros name Hok Hpl He Hv Hurl. eapply wp_mono; [exact (HD ctx r w name Hok Hpl He Hv Hurl)|].
    intros [e|b] w' (Hok' & Ha); (split; [done|]); [by rewrite Ha|].
    destruct Ha as [? ->]. by rewrite lookup_fmap, fmap_is_Some, fmap_delete.
Qed.
End server.
End Server.

Module Typed.
Import Path Rest.

(** What the generated code reads and sets of [metav1.ListOptions]. *)
Class ListOptions (Options : Type) := {
  TimeoutSeconds : Options → option Z;
  with_Watch : Options → Options;     (** [opts.Watch = true] *)
}.

(** The codecs of a client: its REST content configuration and
    [scheme.ParameterCodec]. *)
Record Codecs (Bytes Options R : Type) := {
  client_contentType : string;
  is_nil : Bytes → bool;
  Encode : R → error + Bytes;
  EncodeOptions : Options → error + Bytes;
  EncodeParameters : Options → error + gmap string (list string);
  Decode : Bytes → R → R * option error;
  DecodeList : Bytes → TypedList R → TypedList R * option error;
}.
Arguments client_contentType {Bytes Options R}. Arguments is_nil {Bytes Options R}.
Arguments Encode {Bytes Options R}. Arguments EncodeOptions {Bytes Options R}.
Arguments EncodeParameters {Bytes Options R}. Arguments Decode {Bytes Options R}.
Arguments DecodeList {Bytes Options R}.

Section typed.
Context {Bytes W Options Watcher R : Type} `{!ListOptions Options}.
Variable codecs : Codecs Bytes Options R.
Variable client : RESTClient.
Variable rt : Transport Bytes W Watcher.
(** The name of the resource, the zero object and the [Name] of an object. *)
Variables (resource_name : string) (zero_object : R) (object_name : R → string).

Definition zero_list : TypedList R :=
  {| list_kind := ""; list_apiVersion := ""; list_meta := zero_ListMeta; Items := None |}.

(** The timeout in nanoseconds, an [int64] product; zero without one. *)
Definition list_timeout (opts : Options) : Z :=
  match TimeoutSeconds opts with Some s => wrap64 (s * 1000000000) | None => 0 end.

Definition into_object (result : error + Bytes) : returns error R :=
  let '(obj, err) := Into (is_nil codecs) (Decode codecs) result zero_object in (Some obj, err).

Definition Get_request (name : string) (options : Options) : Request Bytes :=
  VersionedParams (EncodeParameters codecs options)
    (Name name (Resource resource_name (NewRequest client "GET"))).
Definition Typed_Get (ctx : Context) (name : string) (options : Options) : GO W (returns error R) :=
  result ← Do rt ctx (Get_request name options);
  mret (into_object result).

Definition List_request (opts : Options) : Request Bytes :=
  Timeout (list_timeout opts) (VersionedParams (EncodeParameters codecs opts)
    (Resource resource_name (NewRequest client "GET"))).
Definition Typed_List (ctx : Context) (opts : Options) : GO W (returns error (TypedList R)) :=
  result ← Do rt ctx (List_request opts);
  let '(list, err) := Into (is_nil codecs) (DecodeList codecs) result zero_list in
  mret (Some list, err).

Definition Watch_request (opts : Options) : Request Bytes :=
  Timeout (list_timeout opts) (VersionedParams (EncodeParameters codecs (with_Watch opts))
    (Resource resource_name (NewRequest client "GET"))).
Definition Typed_Watch (ctx : Context) (opts : Options) : GO W (returns error Watcher) :=
  Rest.Watch rt ctx (Watch_request opts).

Definition body_of (object : option R) : Request Bytes → Request Bytes :=
  BodyObject (client_contentType codecs) (Encode codecs <$> object).

Definition Create_request (object : option R) (opts : Options) : Request Bytes :=
  body_of object (VersionedParams (EncodeParameters codecs opts)
    (Resource resource_name (NewRequest client "POST"))).
Definition Typed_Create (ctx : Context) (object : option R) (opts : Options) : GO W (returns error R) :=
  result ← Do rt ctx (Create_request object opts);
  mret (into_object result).

(** [Update] and [UpdateStatus] read the object's name: a nil object panics. *)
Definition Put_request (subresources : option string) (object : R) (opts : Options) : Request Bytes :=
  let r := Name (object_name object) (Resource resource_name (NewRequest client "PUT")) in
  let r := match subresources with Some s => SubResource [s] r | None => r end in
  body_of (Some object) (VersionedParams (EncodeParameters codecs opts) r).
Definition put (subresource : option string) (ctx : Context) (object : option R) (opts : Options)
    : GO W (returns error R) :=
  match object with
  | None => go_panic nil_dereference
  | Some object =>
      result ← Do rt ctx (Put_request subresource object opts);
      mret (into_object result)
  end.
Definition Typed_Update := put None.
Definition Typed_UpdateStatus := put (Some "status").

Definition Delete_request (name : string) (opts : Options) : Request Bytes :=
  BodyObject (client_contentType codecs) (Some (EncodeOptions codecs opts))
    (Name name (Resource resource_name (NewRequest client "DELETE"))).
Definition Typed_Delete (ctx : Context) (name : string) (opts : Options) : GO W (option error) :=
  result ← Do rt ctx (Delete_request name opts);
  mret (Result_Error result).

Definition DeleteCollection_request (opts listOpts : Options) : Request Bytes :=
  BodyObject (client_contentType codecs) (Some (EncodeOptions codecs opts))
    (Timeout (list_timeout listOpts) (VersionedParams (EncodeParameters codecs listOpts)
      (Resource resource_name (NewRequest client "DELETE")))).
Definition Typed_DeleteCollection (ctx : Context) (opts listOpts : Options) : GO W (option error) :=
  result ← Do rt ctx (DeleteCollection_request opts listOpts);
  mret (Result_Error result).

(** [data_bytes]: the bytes of the patch. *)
Definition Patch_request (data_bytes : string → Bytes) (name pt data : string) (opts : Options)
    (subresources : list string) : Request Bytes :=
  BodyBytes (data_bytes data) (VersionedParams (EncodeParameters codecs opts)
    (SubResource subresources (Name name (Resource resource_name
      (set_contentType pt (NewRequest client "PATCH")))))).
Definition Typed_Patch (data_bytes : string → Bytes) (ctx : Context) (name pt data : string)
    (opts : Options) (subresources : list string) : GO W (returns error R) :=
  result ← Do rt ctx (Patch_request data_bytes name pt data opts subresources);
  mret (into_object result).

(** The client as [ClientInterface]; [has_status]: the type has a [Status]. *)
Definition typed_client (has_status : bool) (data_bytes : string → Bytes)
    : ClientInterface W Options Watcher R :=
  {| Create := Typed_Create; Update := Typed_Update;
     UpdateStatus := if has_status then Some Typed_UpdateStatus else None;
     Delete := Typed_Delete; DeleteCollection := Typed_DeleteCollection;
     Get := Typed_Get; ListObjects := Typed_List; TransformedClient.Watch := Typed_Watch;
     Patch := Typed_Patch data_bytes |}.

(** ** Where requests go *)
Section address.
Variable prefix : list string.
Hypothesis client_prefix : prefix_is client prefix.
Hypothesis resource_plain :
  plain resource_name ∧ has_byte "%" resource_name = false ∧ ToLower resource_name = resource_name.
Implicit Types r : Request Bytes.

(** The request is for the resource, with these elements after it. *)
Definition addressed (v : string) (names subs : list string) r : Prop :=
  verb r = v ∧ (err r = None →
  pathPrefix r = render prefix ∧ resource r = resource_name ∧
  elements (resourceName r) names ∧ elements (subresource r) subs).

Lemma addressed_Resource v r :
  verb r = v → err r = None → resource r = "" → pathPrefix r = render prefix →
  resourceName r = "" → subresource r = "" → addressed v [] [] (Resource resource_name r).
Proof.
  intros Hv He Hr Hpr Hn Hs. destruct resource_plain as ((Hne & Hd & Hdd & Hsl) & Hperc & Hlow).
  unfold Resource, unless_err. rewrite He, Hr. unfold IsValidPathSegmentName.
  rewrite !bool_decide_eq_false_2, Hsl, Hperc by done. split; [done|]. intros _.
  split_and!; [done|done|by simpl; rewrite Hn|by simpl; rewrite Hs].
Qed.

Lemma addressed_new v : addressed v [] [] (Resource resource_name (NewRequest client v)).
Proof. by apply addressed_Resource; try apply client_prefix. Qed.
Lemma addressed_patch v ct :
  addressed v [] [] (Resource resource_name (set_contentType ct (NewRequest client v))).
Proof. by apply addressed_Resource; try apply client_prefix. Qed.

Lemma addressed_unless_err v names subs f r :
  (err r = None → addressed v names subs r → addressed v names subs (f r)) →
  addressed v names subs r → addressed v names subs (unless_err f r).
Proof. unfold unless_err. destruct (err r) eqn:He; naive_solver. Qed.

Lemma addressed_VersionedParams v names subs ps r :
  addressed v names subs r → addressed v names subs (VersionedParams ps r).
Proof. apply addressed_unless_err. intros He [Hv Ha]. by destruct ps. Qed.

Lemma addressed_Timeout v names subs d r :
  addressed v names subs r → addressed v names subs (Timeout d r).
Proof. by apply addressed_unless_err. Qed.

Lemma addressed_BodyObject v names subs ct b r :
  addressed v names subs r → addressed v names subs (BodyObject ct b r).
Proof. apply addressed_unless_err. intros He [Hv Ha]. by destruct b as [[]|]. Qed.

Lemma addressed_BodyBytes v names subs b r :
  addressed v names subs r → addressed v names subs (BodyBytes b r).
Proof. by apply addressed_unless_err. Qed.

Lemma addressed_Name v name subs r :
  resourceName r = "" → addressed v [] subs r → addressed v [name] subs (Name name r).
Proof.
  intros Hn [Hv Ha]. destruct (err r) eqn:He.
  - unfold Name, unless_err. rewrite He. split; [done|congruence].
  - destruct (Name_cases name r He Hn) as [[msg ->]|[Hp ->]]; (split; [done|]); [done|].
    intros _. destruct Ha as (? & ? & _ & ?); [done|]. split_and!; [done..| |done].
    by apply elements_plain.
Qed.

Lemma addressed_SubResource v names subs r :
  subresource r = "" → addressed v names [] r →
  addressed v names (filter (λ e, is_empty e = false) subs) (SubResource subs r).
Proof.
  intros Hs [Hv Ha]. destruct (err r) eqn:He.
  - unfold SubResource, unless_err. rewrite He. split; [done|congruence].
  - destruct (SubResource_cases subs r He Hs) as [[msg ->]|[Hp ->]]; (split; [done|]); [done|].
    intros _. destruct Ha as (? & ? & ? & _); [done|]. split_and!; [done..|].
    by apply Join_relative.
Qed.

Lemma Name_keeps name r : subresource (Name name r) = subresource r.
Proof. unfold Name, unless_err. by repeat case_match. Qed.
Lemma Resource_keeps res r :
  resourceName (Resource res r) = resourceName r ∧ subresource (Resource res r) = subresource r.
Proof. unfold Resource, unless_err. by repeat case_match. Qed.

(** The request has the given verb, and when it is sent its path is the resource
    and exactly these elements, none of which can be taken for another path. *)
Definition goes_to (v : string) (names subs : list string) r : Prop :=
  verb r = v ∧ (err r = None →
  URL_path r = render (prefix ++ resource_name :: names ++ subs) ∧ Forall plain (names ++ subs)).

Lemma addressed_goes_to v names subs r : addressed v names subs r → goes_to v names subs r.
Proof.
  intros [Hv Ha]. split; [done|]. intros He. destruct (Ha He) as (Hp & Hr & Hn & Hs).
  destruct resource_plain as (Hpl & _ & Hlow). destruct client_prefix as (_ & Hpre & Hne). split.
  - rewrite <- Hr in Hlow, Hpl |- *. by apply URL_path_render.
  - apply Forall_app. by destruct Hn, Hs.
Qed.

Ltac address :=
  apply addressed_goes_to;
  repeat first [apply addressed_VersionedParams | apply addressed_Timeout
               | apply addressed_BodyObject | apply addressed_BodyBytes];
  repeat lazymatch goal with
  | |- addressed _ _ _ (SubResource _ _) => apply addressed_SubResource
  | |- addressed _ _ _ (Name _ _) => apply addressed_Name
  | |- addressed _ _ _ (Resource _ _) => first [apply addressed_new | apply addressed_patch]
  | |- resourceName _ = "" => by rewrite (proj1 (Resource_keeps _ _))
  | |- subresource _ = "" => by rewrite ?Name_keeps, (proj2 (Resource_keeps _ _))
  end.

Lemma Get_goes name o : goes_to "GET" [name] [] (Get_request name o).
Proof. unfold Get_request. address. Qed.
Lemma List_goes o : goes_to "GET" [] [] (List_request o).
Proof. unfold List_request. address. Qed.
Lemma Create_goes object o : goes_to "POST" [] [] (Create_request object o).
Proof. unfold Create_request, body_of. address. Qed.
Lemma Put_goes obj o : goes_to "PUT" [object_name obj] [] (Put_request None obj o).
Proof. unfold Put_request, body_of. address. Qed.
Lemma Delete_goes name o : goes_to "DELETE" [name] [] (Delete_request name o).
Proof. unfold Delete_request. address. Qed.

(** C21: No name leaves its collection: whatever strings a caller passes for a
    name or a subresource, a request that is sent has the verb of the method and
    the path of the resource followed by exactly that name and that subresource;
    names that could be read as another path (empty, [.], [..], with a slash) are
    refused before anything is sent. *)
Theorem requests_confined name pt data data_bytes subs object o o' :
  goes_to "GET" [name] [] (Get_request name o) ∧
  goes_to "GET" [] [] (List_request o) ∧
  goes_to "GET" [] [] (Watch_request o) ∧
  goes_to "POST" [] [] (Create_request object o) ∧
  (∀ obj, goes_to "PUT" [object_name obj] [] (Put_request None obj o) ∧
          goes_to "PUT" [object_name obj] ["status"] (Put_request (Some "status") obj o)) ∧
  goes_to "DELETE" [name] [] (Delete_request name o) ∧
  goes_to "DELETE" [] [] (DeleteCollection_request o o') ∧
  goes_to "PATCH" [name] (filter (λ e, is_empty e = false) subs)
    (Patch_request data_bytes name pt data o subs).
Proof.
  split_and!; [apply Get_goes|apply List_goes| |apply Create_goes| |apply Delete_goes| |].
  - unfold Watch_request. address.
  - intros obj. split; [apply Put_goes|]. unfold Put_request, body_of.
    change ["status"] with (filter (λ e, is_empty e = false) ["status"]). address.
  - unfold DeleteCollection_request. address.
  - unfold Patch_request. address.
Qed.

(** ** The client over a server of the collection

    [holds b obj]: the body decodes to the object; [lists b l]: to a list. *)
Definition holds (b : Bytes) (obj : R) : Prop :=
  is_nil codecs b = false ∧ Decode codecs b zero_object = (obj, None).
Definition lists (b : Bytes) (items : list R) : Prop :=
  ∃ l, is_nil codecs b = false ∧ DecodeList codecs b zero_list = (l, None) ∧
       items = default [] (Items l).

Record serves {V} (ok : W → Prop) (view : R → V) (abs : W → gmap string V) (good : R → Prop)
    (admitted : R → R → Prop) : Prop := {
  serves_params o e : EncodeParameters codecs o = inl e → IsNotFound (Some e) = false;
  serves_collection : Server.serves rt prefix resource_name holds lists
    (λ b obj, Encode codecs obj = inr b) object_name ok view abs good admitted;
}.

(** Sending a request either fails at once or is a round trip. *)
Lemma wp_Do ctx r w (Q : error + Bytes → W → Prop) :
  (∀ e, err r = Some e → Q (inl e) w) →
  (err r = None → wp (roundTrip rt ctx r) w Q) → wp (Do rt ctx r) w Q.
Proof.
  intros He Hr. unfold Do. destruct (err r) as [e|]; [|by apply Hr]. apply wp_ret. by apply He.
Qed.

Lemma into_holds b obj : holds b obj → into_object (inr b) = (Some obj, None).
Proof. intros [Hn Hd]. unfold into_object, Into. by rewrite Hn, Hd. Qed.

(** The body of a request that is sent. *)
Lemma body_of_sent obj (r : Request Bytes) :
  err (body_of (Some obj) r) = None →
  ∃ b, Encode codecs obj = inr b ∧ bodyBytes (body_of (Some obj) r) = Some b.
Proof.
  unfold body_of, BodyObject, unless_err. simpl. destruct (err r) eqn:He; [congruence|].
  destruct (Encode codecs obj) as [e|b]; [done|]. intros _. by exists b.
Qed.

Lemma Get_request_err {V} ok (view : R → V) abs good admitted name o e :
  serves ok view abs good admitted → err (Get_request name o) = Some e → IsNotFound (Some e) = false.
Proof.
  intros Hs. destruct resource_plain as (Hp & Hperc & _).
  unfold Get_request. rewrite Resource_new by done.
  destruct (Name_cases name (set_resource resource_name (NewRequest (Bytes := Bytes) client "GET")))
    as [[msg ->]|[_ ->]]; [done..|by intros [= <-]|].
  unfold VersionedParams, unless_err. simpl.
  destruct (EncodeParameters codecs o) eqn:Hps; [|done]. intros [= <-]. by eapply serves_params.
Qed.

(** Over a server of the collection, the generated client is a client of the
    collection: what it reads is what is stored, what it writes is stored under
    the name of the object, its errors leave the collection as it was and
    "not found" is only said of what is not there. *)
Lemma typed_client_spec {V} ok (view : R → V) abs good admitted has_status data_bytes :
  serves ok view abs good admitted →
  Transformed.client_spec (typed_client has_status data_bytes) ok view abs object_name good admitted.
Proof.
  intros Hs. pose proof (serves_collection _ _ _ _ _ Hs) as Hserves. split; simpl.
  - intros ctx name o w Hok. destruct (Get_goes name o) as [Hv Hgo].
    apply wp_bind, wp_Do.
    + intros e He. apply wp_ret. split_and!; [done..|]. intros Hnf.
      by rewrite (Get_request_err _ _ _ _ _ _ _ _ Hs He) in Hnf.
    + intros He. destruct (Hgo He) as [Hurl [Hpl _]%Forall_cons].
      eapply wp_mono; [exact (Server.serves_get _ _ _ _ _ _ _ _ _ _ _ _ Hserves ctx _ w name Hok Hpl He Hv Hurl)|].
      intros [e|b] w' (Hok' & Habs & Ha); apply wp_ret.
      * split_and!; done.
      * destruct Ha as (obj & Hh & Hg & Hobj). rewrite (into_holds _ _ Hh). split_and!; [done|done|].
        by exists obj.
  - intros ctx obj o w Hok Hg. destruct (Create_goes (Some obj) o) as [Hv Hgo].
    apply wp_bind, wp_Do; [by intros e He; apply wp_ret|].
    intros He. destruct (body_of_sent _ _ He) as (b & Hb & Hbody).
    destruct (Hgo He) as [Hurl _]. eapply wp_mono; 
      [exact (Server.serves_post _ _ _ _ _ _ _ _ _ _ _ _ Hserves ctx _ w obj b Hok Hg He Hv Hurl Hb Hbody)|].
    intros [e|b'] w' (Hok' & Ha); apply wp_ret; [done|].
    destruct Ha as (obj' & Hh & ?). rewrite (into_holds _ _ Hh). split; [done|]. by exists obj'.
  - intros ctx obj o w Hok Hg. destruct (Put_goes obj o) as [Hv Hgo].
    apply wp_bind, wp_Do; [by intros e He; apply wp_ret|].
    intros He. destruct (body_of_sent _ _ He) as (b & Hb & Hbody).
    destruct (Hgo He) as [Hurl [Hpl _]%Forall_cons].
    eapply wp_mono; 
      [exact (Server.serves_put _ _ _ _ _ _ _ _ _ _ _ _ Hserves ctx _ w obj b Hok Hg Hpl He Hv Hurl Hb Hbody)|].
    intros [e|b'] w' (Hok' & Ha); apply wp_ret; [done|].
    destruct Ha as (obj' & Hh & ?). rewrite (into_holds _ _ Hh). split; [done|]. by exists obj'.
  - intros ctx name o w Hok. destruct (Delete_goes name o) as [Hv Hgo].
    apply wp_bind, wp_Do; [by intros e He; apply wp_ret|].
    intros He. destruct (Hgo He) as [Hurl [Hpl _]%Forall_cons].
    eapply wp_mono; 
      [exact (Server.serves_delete _ _ _ _ _ _ _ _ _ _ _ _ Hserves ctx _ w name Hok Hpl He Hv Hurl)|].
    by intros [e|b'] w' (Hok' & Ha); apply wp_ret.
  - intros ctx o w Hok. destruct (List_goes o) as [Hv Hgo].
    apply wp_bind, wp_Do; [by intros e He; apply wp_ret|].
    intros He. destruct (Hgo He) as [Hurl _]. eapply wp_mono; 
      [exact (Server.serves_list _ _ _ _ _ _ _ _ _ _ _ _ Hserves ctx _ w Hok He Hv Hurl)|].
    intros [e|b'] w' (Hok' & Habs & Ha); [by apply wp_ret|].
    destruct Ha as (items & (l & Hn & Hd & ->) & Hitems). unfold Into. rewrite Hn, Hd. apply wp_ret.
    split_and!; [done..|]. by exists l.
Qed.
End address.

End typed.
End Typed.

(** ** An API server in memory

    It stores collections and answers the requests that go to them. *)
Module MemoryServer.
Import Path Rest Typed.

(** What a path says after a given beginning. *)
Fixpoint strip (start path : list string) : option (list string) :=
  match start, path with
  | [], _ => Some path
  | e :: start, e' :: path => if bool_decide (e = e') then strip start path else None
  | _ :: _, [] => None
  end.

Lemma strip_app l l' : strip l (l ++ l') = Some l'.
Proof. induction l; simpl; [done|]. by rewrite bool_decide_eq_true_2. Qed.

Lemma strip_path prefix res es :
  Forall plain (prefix ++ [res]) → Forall plain es →
  strip ("" :: prefix ++ [res]) (split_byte slash (render (prefix ++ res :: es))) = Some es.
Proof.
  intros Hp Hes. replace (prefix ++ res :: es) with ((prefix ++ [res]) ++ es) by (by rewrite <- app_assoc).
  rewrite split_render; [|by apply Forall_app|by destruct prefix].
  apply (strip_app ("" :: prefix ++ [res])).
Qed.

(** A path below one collection is not below another. *)
Lemma strip_other prefix res res' es :
  res' ≠ res → Forall plain (prefix ++ [res]) → Forall plain es →
  strip ("" :: prefix ++ [res']) (split_byte slash (render (prefix ++ res :: es))) = None.
Proof.
  intros Hne Hp Hes. replace (prefix ++ res :: es) with ((prefix ++ [res]) ++ es) by (by rewrite <- app_assoc).
  rewrite split_render; [|by apply Forall_app|by destruct prefix].
  simpl. clear Hp. induction prefix as [|e prefix IH]; simpl.
  - by rewrite bool_decide_eq_false_2.
  - by rewrite bool_decide_eq_true_2.
Qed.

#[global] Instance no_options : ListOptions () := {| TimeoutSeconds := λ _, None; with_Watch := id |}.

(** One collection: the bodies of an object, of a list and of the answer to a
    deletion, and the object that a body asks to store. *)
Section collection.
Context {Bytes R V : Type} (one : R → Bytes) (page : list R → Bytes) (sent : Bytes → option R).
Context (deleted : Bytes) (get : V → gmap string R) (put : gmap string R → V → V).
Context (key : R → string) (prefix : list string) (res : string).

Definition respond {A} (answer : A → Bytes) (m : GO (gmap string R) (returns error A))
    : GO (gmap string R) (error + Bytes) :=
  '(v, e) ← m;
  mret match e with
       | Some e => inl e
       | None => inr match v with Some a => answer a | None => deleted end
       end.
Definition items_page (l : TypedList R) : Bytes := page (default [] (Items l)).

(** The answer to a request below the collection. *)
Definition answer (r : Request Bytes) (es : list string) : GO (gmap string R) (error + Bytes) :=
  let object := bodyBytes r ≫= sent in
  match es with
  | [] => if bool_decide (verb r = "GET") then respond items_page (Transformed.mem_List "")
          else respond one (Transformed.mem_write key false object)
  | name :: _ =>
      if bool_decide (verb r = "GET") then respond one (Transformed.mem_Get name)
      else if bool_decide (verb r = "DELETE")
           then e ← Transformed.mem_Delete name;
                mret (match e with Some e => inl e | None => inr deleted end)
      else respond one (Transformed.mem_write key true object)
  end.

(** The answer of the collection, if the request is below it. *)
Definition handle (r : Request Bytes) : option (GO V (error + Bytes)) :=
  Transformed.part get put ∘ answer r <$> strip ("" :: prefix ++ [res]) (split_byte slash (URL_path r)).

Hypothesis get_put : ∀ w v, get (put w v) = w.

Lemma wp_respond {A} (m : GO (gmap string R) (returns error A)) w (f : A → Bytes)
    (P : returns error A → gmap string R → Prop) (Q : error + Bytes → gmap string R → Prop) :
  wp m w P →
  (∀ v e w', P (v, e) w' → Q (match e with
                              | Some e => inl e
                              | None => inr match v with Some a => f a | None => deleted end
                              end) w') →
  wp (respond f m) w Q.
Proof.
  intros Hm HQ. apply wp_bind. eapply wp_mono; [exact Hm|]. intros [v e] w' HP. apply wp_ret. by apply HQ.
Qed.

Lemma wp_collection {A} (m : GO (gmap string R) A) v (P : A → V → Prop) :
  wp m (get v) (λ a w, ∀ v', get v' = w → P a v') → wp (Transformed.part get put m) v P.
Proof. intros Hm. eapply Transformed.wp_part; [exact get_put|exact Hm|]. eauto. Qed.

(** A server that answers the requests below the collection as [handle] does
    serves the collection. *)
Lemma memory_serves {Watcher} (rt : Transport Bytes V Watcher) (good : R → Prop) :
  Forall plain (prefix ++ [res]) →
  (∀ ctx r es m, Forall plain es → URL_path r = render (prefix ++ res :: es) →
                 handle r = Some m → roundTrip rt ctx r = m) →
  Server.serves rt prefix res (λ b x, b = one x) (λ b l, b = page l) (λ b x, sent b = Some x) key
    (λ v, map_Forall (λ _, good) (get v)) id get good (λ r r', r' = r).
Proof.
  intros Hp Hrt. pose proof (Transformed.mem_client_spec key "" good) as [HG HC HU HD HL].
  assert (Hans : ∀ ctx (r : Request Bytes) es, Forall plain es → URL_path r = render (prefix ++ res :: es) →
    roundTrip rt ctx r = Transformed.part get put (answer r es)).
  { intros ctx r es Hes Hurl. eapply Hrt; [done..|]. unfold handle.
    by rewrite Hurl, strip_path. }
  split; intros ctx r v.
  - intros name Hok Hpl _ Hv Hurl. rewrite (Hans ctx r [name]) by eauto using Forall_cons, Forall_nil.
    unfold answer. rewrite Hv. apply wp_collection, (wp_respond _ _ _ _ _ (HG ctx name () _ Hok)).
    intros a e w' (Hok' & Habs & Ha) v' <-. destruct e as [e|]; [done|].
    destruct Ha as (x & -> & ? & ?). split_and!; [done|done|]. by exists x.
  - intros Hok _ Hv Hurl. rewrite (Hans ctx r []) by eauto using Forall_nil.
    unfold answer. rewrite Hv. apply wp_collection, (wp_respond _ _ _ _ _ (HL ctx () _ Hok)).
    intros a e w' (Hok' & Habs & Ha) v' <-. destruct e as [e|]; [done|].
    destruct Ha as (l & -> & ? & ?). split_and!; [done|done|]. by exists (default [] (Items l)).
  - intros x b Hok Hgood _ Hv Hurl Hs Hb. rewrite (Hans ctx r []) by eauto using Forall_nil.
    unfold answer. rewrite Hv, Hb. simpl. rewrite Hs.
    apply wp_collection, (wp_respond _ _ _ _ _ (HC ctx x () _ Hok Hgood)).
    intros a e w' (Hok' & Ha) v' <-. destruct e as [e|]; [done|].
    destruct Ha as (x' & -> & ?). split; [done|]. by exists x'.
  - intros x b Hok Hgood Hpl _ Hv Hurl Hs Hb.
    rewrite (Hans ctx r [key x]) by eauto using Forall_cons, Forall_nil.
    unfold answer. rewrite Hv, Hb. simpl. rewrite Hs.
    apply wp_collection, (wp_respond _ _ _ _ _ (HU ctx x () _ Hok Hgood)).
    intros a e w' (Hok' & Ha) v' <-. destruct e as [e|]; [done|].
    destruct Ha as (x' & -> & ?). split; [done|]. by exists x'.
  - intros name Hok Hpl _ Hv Hurl. rewrite (Hans ctx r [name]) by eauto using Forall_cons, Forall_nil.
    unfold answer. rewrite Hv. apply wp_collection, wp_bind.
    eapply wp_mono; [exact (HD ctx name () _ Hok)|]. intros e w' (Hok' & Ha). apply wp_ret.
    intros v' <-. by destruct e.
Qed.
End collection.

(** Objects that are strings, sent as they are. *)
Definition text_codecs : Codecs string () string :=
  {| client_contentType := "text/plain"; is_nil := is_empty; Encode := inr; EncodeOptions := λ _, inr "";
     EncodeParameters := λ _, inr ∅; Decode := λ b _, (b, None);
     DecodeList := λ b _, (Transformed.mem_page "" [b], None) |}.
End MemoryServer.

(** ** The group client and the clientset

    [typed/admissionregistration.x-k8s.io/v1alpha1/admissionregistration.x-k8s.io_client.go]
    and [clientset.go]: from a configuration to clients. *)
Module Clientset.
Section config.
(** Numbers of type [float32], HTTP clients, rate limiters, serializers, REST and
    discovery clients, with the library functions that make them. *)
Context {Float HTTPClient Limiter Serializer RESTInterface DiscoveryClient : Type}.
Context (positive : Float → bool).

Record Config := {
  UserAgent : string;
  RateLimiter : option Limiter;
  QPS : Float;
  Burst : Z;
  GroupVersion : option (string * string);
  APIPath : string;
  NegotiatedSerializer : option Serializer;
}.
#[local] Instance Config_settable : Settable Config := λ c,
  {| UserAgent := UserAgent c; RateLimiter := RateLimiter c; QPS := QPS c; Burst := Burst c;
     GroupVersion := GroupVersion c; APIPath := APIPath c;
     NegotiatedSerializer := NegotiatedSerializer c |}.
Definition set_UserAgent : string → Config → Config := ltac:(setter_of Config UserAgent).
Definition set_RateLimiter : option Limiter → Config → Config := ltac:(setter_of Config RateLimiter).

Context (DefaultKubernetesUserAgent : string).
Context (NewTokenBucketRateLimiter : Float → Z → Limiter).
Context (scheme_Codecs_WithoutConversion : Serializer).
Context (HTTPClientFor : Config → error + HTTPClient).
Context (RESTClientForConfigAndClient : Config → HTTPClient → error + RESTInterface).
Context (NewDiscoveryClientForConfigAndClient : Config → HTTPClient → error + DiscoveryClient).
Context (NewDiscoveryClient : RESTInterface → DiscoveryClient).

(** [register.go]: the group and version of the CRDs. *)
Definition SchemeGroupVersion : string * string := ("admissionregistration.x-k8s.io", "v1alpha1").

Definition default_UserAgent (c : Config) : Config :=
  if is_empty (UserAgent c) then set_UserAgent DefaultKubernetesUserAgent c else c.

(** The config with its defaults; the error is always nil. *)
Definition setConfigDefaults (c : Config) : Config :=
  default_UserAgent
    {| UserAgent := UserAgent c; RateLimiter := RateLimiter c; QPS := QPS c; Burst := Burst c;
       GroupVersion := Some SchemeGroupVersion; APIPath := "/apis";
       NegotiatedSerializer := Some scheme_Codecs_WithoutConversion |}.

(** [AdmissionregistrationV1alpha1Client] is its REST client. *)
Definition group_NewForConfigAndClient (c : Config) (h : HTTPClient) : error + RESTInterface :=
  RESTClientForConfigAndClient (setConfigDefaults c) h.
Definition group_NewForConfig (c : Config) : error + RESTInterface :=
  let config := setConfigDefaults c in
  match HTTPClientFor config with
  | inl err => inl err
  | inr httpClient => group_NewForConfigAndClient config httpClient
  end.

Definition group_NewForConfigOrDie (c : Config) : outcome RESTInterface :=
  match group_NewForConfig c with
  | inl err => Panic (GoErrors.Error err)
  | inr client => Value client
  end.
Definition group_New (c : RESTInterface) : RESTInterface := c.
(** Of a nil client, the nil interface. *)
Definition group_RESTClient (c : option RESTInterface) : option RESTInterface := c.

Record Clientset := {
  Discovery : DiscoveryClient;
  AdmissionregistrationV1alpha1 : RESTInterface;
}.

Definition burst_error : error :=
  plainError "burst is required to be greater than 0 when RateLimiter is not set and QPS is set to greater than 0".

(** The rate limiter of the shallow copy, or the error of a missing burst. *)
Definition with_RateLimiter (c : Config) : error + Config :=
  match RateLimiter c with
  | None =>
      if positive (QPS c) then
        if bool_decide (Burst c ≤ 0) then inl burst_error
        else inr (set_RateLimiter (Some (NewTokenBucketRateLimiter (QPS c) (Burst c))) c)
      else inr c
  | Some _ => inr c
  end.

Definition NewForConfigAndClient (c : Config) (httpClient : HTTPClient) : error + Clientset :=
  match with_RateLimiter c with
  | inl err => inl err
  | inr configShallowCopy =>
      match group_NewForConfigAndClient configShallowCopy httpClient with
      | inl err => inl err
      | inr group =>
          match NewDiscoveryClientForConfigAndClient configShallowCopy httpClient with
          | inl err => inl err
          | inr disco => inr {| Discovery := disco; AdmissionregistrationV1alpha1 := group |}
          end
      end
  end.

Definition NewForConfig (c : Config) : error + Clientset :=
  let configShallowCopy := default_UserAgent c in
  match HTTPClientFor configShallowCopy with
  | inl err => inl err
  | inr httpClient => NewForConfigAndClient configShallowCopy httpClient
  end.

Definition NewForConfigOrDie (c : Config) : outcome Clientset :=
  match NewForConfig c with
  | inl err => Panic (GoErrors.Error err)
  | inr cs => Value cs
  end.

Definition New (c : RESTInterface) : Clientset :=
  {| Discovery := NewDiscoveryClient c; AdmissionregistrationV1alpha1 := c |}.

(** The methods of a clientset that may be nil: [Discovery] of nil is nil, the
    group client of nil is a dereference. *)
Definition get_Discovery (c : option Clientset) : option DiscoveryClient := Discovery <$> c.
Definition get_AdmissionregistrationV1alpha1 (c : option Clientset) : outcome RESTInterface :=
  match c with
  | Some c => Value (AdmissionregistrationV1alpha1 c)
  | None => Panic nil_dereference
  end.

(** ** Lemmas *)
Lemma setConfigDefaults_idempotent c :
  setConfigDefaults (setConfigDefaults c) = setConfigDefaults c.
Proof.
  unfold setConfigDefaults, default_UserAgent. simpl.
  destruct (is_empty (UserAgent c)) eqn:He; simpl; [|by rewrite He].
  by destruct (is_empty DefaultKubernetesUserAgent).
Qed.

(** What a clientset is made of: one HTTP client and, when the rate is limited,
    one limiter for both of its clients, the group client of the CRDs' group
    under [/apis]; the error of a missing burst comes before any client is
    made. *)
Lemma NewForConfig_spec c cs :
  NewForConfig c = inr cs ↔
  ∃ http config,
    HTTPClientFor (default_UserAgent c) = inr http ∧
    with_RateLimiter (default_UserAgent c) = inr config ∧
    RESTClientForConfigAndClient (setConfigDefaults config) http = inr (AdmissionregistrationV1alpha1 cs) ∧
    NewDiscoveryClientForConfigAndClient config http = inr (Discovery cs).
Proof.
  unfold NewForConfig, NewForConfigAndClient, group_NewForConfigAndClient.
  destruct (HTTPClientFor (default_UserAgent c)) as [e|http]; [by split; [|intros (h & c' & ? & ? & ? & ?); congruence]|].
  destruct (with_RateLimiter (default_UserAgent c)) as [e|config]; [by split; [|intros (h & c' & ? & ? & ? & ?); congruence]|].
  destruct (RESTClientForConfigAndClient (setConfigDefaults config) http) as [e|g] eqn:Hg; [by split; [|intros (h & c' & ? & ? & ? & ?); congruence]|].
  destruct (NewDiscoveryClientForConfigAndClient config http) as [e|d] eqn:Hd; [by split; [|intros (h & c' & ? & ? & ? & ?); congruence]|].
  split.
  - intros [= <-]. by exists http, config.
  - intros (h & c' & [= <-] & [= <-] & Hg' & Hd'). destruct cs. simpl in *. congruence.
Qed.
End config.
End Clientset.

(** ** The clients of the two resources *)
Module Resources.
Import Typed.
Section resources.
Context {Bytes W Options Watcher R : Type} `{!ListOptions Options}.
Variables (codecs : Codecs Bytes Options R) (client : Rest.RESTClient).
Variables (rt : Rest.Transport Bytes W Watcher) (zero_object : R) (object_name : R → string).
Variable data_bytes : string → Bytes.

(** [newValidatingAdmissionPolicies]: the type has a status. *)
Definition policies_client : ClientInterface W Options Watcher R :=
  typed_client codecs client rt "validatingadmissionpolicies" zero_object object_name true data_bytes.
(** [newValidatingAdmissionPolicyBindings]: it has none. *)
Definition bindings_client : ClientInterface W Options Watcher R :=
  typed_client codecs client rt "validatingadmissionpolicybindings" zero_object object_name false
    data_bytes.
End resources.

(** The path of the CRDs' API. *)
Definition crd_prefix : list string := ["apis"; "admissionregistration.x-k8s.io"; "v1alpha1"].

Lemma resources_plain :
  (Path.plain "validatingadmissionpolicies" ∧ has_byte "%" "validatingadmissionpolicies" = false ∧
   Rest.ToLower "validatingadmissionpolicies" = "validatingadmissionpolicies") ∧
  (Path.plain "validatingadmissionpolicybindings" ∧
   has_byte "%" "validatingadmissionpolicybindings" = false ∧
   Rest.ToLower "validatingadmissionpolicybindings" = "validatingadmissionpolicybindings").
Proof. by vm_compute. Qed.

(** A client whose server is at the root of its host. *)
Lemma crd_prefix_is ct timeout :
  Rest.prefix_is {| Rest.basePath := ""; Rest.versionedAPIPath := "/apis/admissionregistration.x-k8s.io/v1alpha1";
                    Rest.ContentType := ct; Rest.ClientTimeout := timeout |} crd_prefix.
Proof.
  split; [by vm_compute|]. split; [|done].
  by apply (bool_decide_unpack (Forall Path.plain crd_prefix)); vm_compute.
Qed.
End Resources.

Lemma requests_confined_witness :
  let client := {| Rest.basePath := ""; Rest.versionedAPIPath := "/apis/admissionregistration.x-k8s.io/v1alpha1";
                   Rest.ContentType := "application/json"; Rest.ClientTimeout := 0 |} in
  let codecs := MemoryServer.text_codecs in
  Typed.goes_to "validatingadmissionpolicies" Resources.crd_prefix "GET" ["replicas"] []
    (Typed.Get_request codecs client "validatingadmissionpolicies" "replicas" ()) ∧
  Rest.URL_path (Typed.Get_request codecs client "validatingadmissionpolicies" "replicas" ()) =
    "/apis/admissionregistration.x-k8s.io/v1alpha1/validatingadmissionpolicies/replicas" ∧
  is_Some (Rest.err (Typed.Get_request codecs client "validatingadmissionpolicies" "../replicas" ())).
Proof.
  intros client codecs.
  destruct (Typed.requests_confined codecs client "validatingadmissionpolicies" "" id Resources.crd_prefix
    (Resources.crd_prefix_is _ _) (proj1 Resources.resources_plain) "replicas" "" "" (λ _, EmptyString)
    [] None () ()) as [H _].
  split_and!; [exact H|reflexivity|by eexists].
Defined.
