(* ===== verification/Send.v ===== *)
(** * Sending REST requests ([k8s.io/client-go/rest])

    What becomes of a request of [Rest]: the attempts to send it
    ([request.go], [with_retry.go]), the answer that is made of the response,
    with the errors of [apimachinery/pkg/api/errors], and the transport that the
    generated clients of [Clientset] use. *)
From stdpp Require Import pretty.
From S2P Require Import Prelude GoStrings GoErrors Admission Json Types Rest Scheme Serializer Clientset.

(** ** The errors that a client makes of responses *)
Module ServerErrors.
Definition int32 (z : Z) : Z := (z + 2 ^ 31) `mod` 2 ^ 32 - 2 ^ 31.

Definition UnexpectedServerResponse : string := "UnexpectedServerResponse".

Definition NewInternalError (err : error) : error :=
  StatusError {| StatusStatus := "Failure"; Code := StatusInternalServerError; Reason := "InternalError";
    Details := Some {| DetailsName := ""; DetailsGroup := ""; DetailsKind := ""; DetailsUID := "";
      DetailsCauses := Some [{| CauseType := ""; CauseMessage := Error err; CauseField := "" |}];
      DetailsRetryAfterSeconds := 0 |};
    Message := ("Internal error occurred: " ++ Error err)%string |}.

(** The reason and the message for a status code. *)
Definition reason_and_message (code : Z) (verb serverMessage : string) : string * string :=
  if bool_decide (code = 409) then
    (if bool_decide (verb = "POST") then "AlreadyExists" else "Conflict", "the server reported a conflict")
  else if bool_decide (code = 404) then ("NotFound", "the server could not find the requested resource")
  else if bool_decide (code = 400) then ("BadRequest", "the server rejected our request for an unknown reason")
  else if bool_decide (code = 401) then
    ("Unauthorized", "the server has asked for the client to provide credentials")
  else if bool_decide (code = 403) then ("Forbidden", serverMessage)
  else if bool_decide (code = 406) then
    ("NotAcceptable",
     if is_empty serverMessage || bool_decide (serverMessage = "unknown")
     then "the server was unable to respond with a content type that the client supports"
     else serverMessage)
  else if bool_decide (code = 415) then ("UnsupportedMediaType", serverMessage)
  else if bool_decide (code = 405) then
    ("MethodNotAllowed", "the server does not allow this method on the requested resource")
  else if bool_decide (code = 422) then
    ("Invalid", "the server rejected our request due to an error in our request")
  else if bool_decide (code = 503) then
    ("ServiceUnavailable", "the server is currently unable to handle the request")
  else if bool_decide (code = 504) then
    ("Timeout", "the server was unable to return a response in the time allotted, but may still be processing the request")
  else if bool_decide (code = 429) then
    ("TooManyRequests", "the server has received too many requests and has asked us to try again later")
  else if bool_decide (500 ≤ code) then
    ("InternalError",
     "an error on the server (" ++ quote serverMessage ++ ") has prevented the request from succeeding")%string
  else (StatusReasonUnknown,
        "the server responded with the status code " ++ pretty code ++ " but did not return more information")%string.

Definition NewGenericServerResponse (code : Z) (verb : string) (qualifiedResource : GroupResource)
    (name serverMessage : string) (retryAfterSeconds : Z) (isUnexpectedResponse : bool) : error :=
  let '(reason, message) := reason_and_message code verb serverMessage in
  let about := (Rest.ToLower verb ++ " " ++ GroupResource_String qualifiedResource)%string in
  let message :=
    if GroupResource_Empty qualifiedResource then message
    else if is_empty name then (message ++ " (" ++ about ++ ")")%string
    else (message ++ " (" ++ about ++ " " ++ name ++ ")")%string in
  let causes :=
    if isUnexpectedResponse
    then Some [{| CauseType := UnexpectedServerResponse; CauseMessage := serverMessage; CauseField := "" |}]
    else None in
  StatusError {| StatusStatus := "Failure"; Code := int32 code; Reason := reason;
    Details := Some {| DetailsName := name; DetailsGroup := grGroup qualifiedResource;
      DetailsKind := grResource qualifiedResource; DetailsUID := ""; DetailsCauses := causes;
      DetailsRetryAfterSeconds := int32 retryAfterSeconds |};
    Message := message |}.

Definition IsUnexpectedServerError (err : error) : bool :=
  match errors_As (Some err) with
  | Some s => match Details s with
              | Some d => existsb (λ c, bool_decide (CauseType c = UnexpectedServerResponse))
                            (default [] (DetailsCauses d))
              | None => false
              end
  | None => false
  end.
End ServerErrors.

Module Send.
Import Rest Serializer ServerErrors.

(** ** Responses and attempts

    A response: its status code, its Content-Type header, its Retry-After header
    when this is a number, and its body, or the error of reading it. *)
Record Response := {
  StatusCode : Z;
  ContentTypeHeader : string;
  RetryAfter : option Z;
  Text : error + string;
}.

(** What [http.Client.Do] returns; of an error, what [net.IsConnectionReset],
    [net.IsProbableEOF] and [net.IsTimeout] say of it. *)
Record net_error := {
  ne_error : error;
  IsConnectionReset : bool;
  IsProbableEOF : bool;
  IsTimeout : bool;
}.
Inductive attempt := Failed (e : net_error) | Answered (resp : Response).
Definition attempt_err (a : attempt) : option error :=
  match a with Failed e => Some (ne_error e) | Answered _ => None end.

(** The connection to a server and the client's rate limiter. *)
Record Network (W : Type) := {
  ctx_Err : Context → GO W (option error);
  limiter_Wait : option (Context → GO W (option error));
  newHTTPRequest : Request body → option error;
  client_Do : Context → Request body → GO W attempt;
}.
Arguments ctx_Err {W}. Arguments limiter_Wait {W}. Arguments newHTTPRequest {W}. Arguments client_Do {W}.

(** ** [with_retry.go] *)
Record withRetry := { previousErr : option error; currentErr : option error }.
Definition no_errors : withRetry := {| previousErr := None; currentErr := None |}.
Definition trackPreviousError (err : option error) (s : withRetry) : withRetry :=
  {| previousErr := match currentErr s with Some e => Some e | None => previousErr s end;
     currentErr := err |}.

(** The text of the error inside of a [*url.Error] is left to [inner]. *)
Definition WrapPreviousError (inner : error → error) (s : withRetry) (currentErr : error) : error :=
  match previousErr s with
  | None => currentErr
  | Some previousErr =>
      if bool_decide (Error currentErr = Error previousErr) then currentErr
      else wrapError (Error currentErr ++ " - error from a previous attempt: " ++ Error (inner previousErr))
             currentErr
  end.

(** [checkWait]. *)
Definition asks_to_wait (resp : Response) : bool :=
  (bool_decide (StatusCode resp = 429) || bool_decide (500 ≤ StatusCode resp)) &&
  bool_decide (is_Some (RetryAfter resp)).

(** [IsNextRetry] while there are attempts left; the request has no opaque
    reader. *)
Definition IsNextRetry (retryable : net_error → bool) (a : attempt) : bool :=
  match a with Failed e => retryable e | Answered resp => asks_to_wait resp end.

Section send.
Context {W : Type} (net : Network W) (inner : error → error).
(** [mime.ParseMediaType], whether the negotiated serializer has a decoder for a
    media type, and JSON texts as trees; YAML is decoded as the JSON that it
    stands for. *)
Context (ParseMediaType : string → error + string) (Negotiator : string → bool) (parse_body : string → body).
Context (unmarshal_type : Scheme.go_type → json → option error).
(** The content configuration of the client. *)
Context (content_type content_group : string).
Implicit Types (r : Request body) (ctx : Context).

Definition tryThrottle ctx : GO W (option error) :=
  match limiter_Wait net with
  | None => mret None
  | Some Wait =>
      err ← Wait ctx;
      mret ((λ e, wrapError ("client rate limiter Wait returned an error: " ++ Error e) e) <$> err)
  end.

(** [Before]: an error ends the request; the back-off of the client does not
    sleep. *)
Definition Before (first : bool) (s : withRetry) ctx : GO W (withRetry * option error) :=
  err ← ctx_Err net ctx;
  match err with
  | Some err => mret (trackPreviousError (Some err) s, Some err)
  | None =>
      if first then mret (s, None)
      else err ← tryThrottle ctx;
           match err with
           | Some err => cerr ← ctx_Err net ctx; mret (trackPreviousError cerr s, Some err)
           | None => mret (s, None)
           end
  end.

(** The loop of [Request.request] and [Request.Watch]: what it ends with, an
    error before an attempt or the last attempt.  [retries]: [maxRetries] less
    the attempts made. *)
Inductive ending := Aborted (err : error) | Ended (s : withRetry) (a : attempt).
Fixpoint attempts (accept : Response → bool) (retryable : net_error → bool) (retries : nat) (first : bool)
    (s : withRetry) ctx r : GO W ending :=
  '(s, err) ← Before first s ctx;
  match err with
  | Some err => mret (Aborted (WrapPreviousError inner s err))
  | None =>
      match newHTTPRequest net r with
      | Some err => mret (Aborted err)
      | None =>
          a ← client_Do net ctx r;
          if match a with Answered resp => accept resp | Failed _ => false end then mret (Ended s a)
          else
            let s := trackPreviousError (attempt_err a) s in
            match retries with
            | S retries => if IsNextRetry retryable a then attempts accept retryable retries false s ctx r
                           else mret (Ended s a)
            | O => mret (Ended s a)
            end
      end
  end.

Definition maxRetries : nat := 10.

(** [context.WithTimeout] if the request has one. *)
Definition request_context ctx r : Context := if bool_decide (0 < timeout r) then Cancellable else ctx.

(** Only a read is repeated after an error of the connection. *)
Definition request_retryable r (e : net_error) : bool :=
  bool_decide (verb r = "GET") && (IsConnectionReset e || IsProbableEOF e).

(** [Request.request], from the first throttling on: the response that its function is
    called with, or the error. *)
Definition request ctx r : GO W (error + Response) :=
  err ← tryThrottle ctx;
  match err with
  | Some err => mret (inl err)
  | None =>
      e ← attempts (λ _, false) (request_retryable r) maxRetries true no_errors (request_context ctx r) r;
      mret match e with
           | Aborted err => inl err
           | Ended s (Failed e) => inl (WrapPreviousError inner s (ne_error e))
           | Ended _ (Answered resp) => inr resp
           end
  end.

(** ** [transformResponse]

    Errors of reading the body have one message, also those of HTTP/2 streams. *)
Definition is_space (c : ascii) : bool := bool_decide (nat_of_ascii c ∈ [9; 10; 11; 12; 13; 32]%nat).
Fixpoint trim_left (s : string) : string :=
  match s with String c s' => if is_space c then trim_left s' else s | EmptyString => "" end.
(** [strings.TrimSpace] on ASCII text. *)
Definition TrimSpace (s : string) : string := rev_string (trim_left (rev_string (trim_left s) "")) "".

Definition isTextResponse (resp : Response) : bool :=
  if is_empty (ContentTypeHeader resp) then true
  else match ParseMediaType (ContentTypeHeader resp) with
       | inl _ => false
       | inr media => String.prefix "text/" media
       end.

Definition maxUnstructuredResponseTextBytes : nat := 2048.
Definition newUnstructuredResponseError r (text : string) (resp : Response) : error :=
  let text := String.substring 0 maxUnstructuredResponseTextBytes text in
  let message := if isTextResponse resp then TrimSpace text else "unknown" in
  let groupResource := if is_empty (resource r) then {| grGroup := ""; grResource := "" |}
                       else {| grGroup := content_group; grResource := resource r |} in
  NewGenericServerResponse (StatusCode resp) (verb r) groupResource (resourceName r) message
    (default 0 (RetryAfter resp)) true.

(** [Result]: the text of the body, whether there is a decoder for it, its content
    type and the error. *)
Record Result := { result_text : string; decoder : bool; result_type : string; result_err : option error }.

(** Status codes of an error: no [SwitchingProtocols], none of 200 to 206. *)
Definition unsuccessful (code : Z) : bool :=
  bool_decide (code ≠ 101) && (bool_decide (code < 200) || bool_decide (206 < code)).

Definition transformResponse r (resp : Response) : Result :=
  match Text resp with
  | inl err =>
      {| result_text := ""; decoder := false; result_type := "";
         result_err := Some (wrapError
           ("unexpected error when reading response body. Please retry. Original error: " ++ Error err) err) |}
  | inr text =>
      let contentType := if is_empty (ContentTypeHeader resp) then content_type else ContentTypeHeader resp in
      let err := if unsuccessful (StatusCode resp) then Some (newUnstructuredResponseError r text resp) else None in
      if is_empty contentType
      then {| result_text := text; decoder := false; result_type := contentType; result_err := err |}
      else match ParseMediaType contentType with
           | inl err => {| result_text := ""; decoder := false; result_type := "";
                           result_err := Some (NewInternalError err) |}
           | inr media =>
               if Negotiator media
               then {| result_text := text; decoder := true; result_type := contentType; result_err := err |}
               else match err with
                    | Some err => {| result_text := ""; decoder := false; result_type := ""; result_err := Some err |}
                    | None => {| result_text := text; decoder := false; result_type := contentType;
                                 result_err := None |}
                    end
           end
  end.

(** [Result.Error]: the status that the body of an unexpected answer holds, if it
    holds a failure. *)
Definition Result_Error (res : Result) : option error :=
  match result_err res with
  | None => None
  | Some err =>
      if IsUnexpectedServerError err && negb (is_empty (result_text res)) && decoder res then
        match json_Decode_nil Scheme.Scheme_ unmarshal_type (parse_body (result_text res))
                (Some (mkGVK "" "v1" "")) with
        | (Another (StatusObject s), None) =>
            if bool_decide (StatusStatus (as_Status s) = "Failure") then Some (StatusError (as_Status s))
            else Some err
        | _ => Some err
        end
      else Some err
  end.

(** The answer as the clients see it, [Result.Error] or the body. *)
Definition answer_of (res : Result) : error + body :=
  match Result_Error res with
  | Some err => inl err
  | None => inr (if decoder res then parse_body (result_text res) else NoDecoder (result_type res))
  end.

(** ** The transport of the clients *)
Definition Do ctx r : GO W (error + body) :=
  resp ← request ctx r;
  mret match resp with inl err => inl err | inr resp => answer_of (transformResponse r resp) end.

(** [Request.Watch]: [newStreamWatcher] and the watch that is closed at once are
    the network's. *)
Section watch.
Context {Watcher : Type} (newStreamWatcher : Response → GO W (returns error Watcher)) (emptyWatch : Watcher).
Definition watch_retryable (e : net_error) : bool := IsProbableEOF e || IsTimeout e.
Definition Watch ctx r : GO W (returns error Watcher) :=
  e ← attempts (λ resp, bool_decide (StatusCode resp = 200)) watch_retryable maxRetries true no_errors ctx r;
  match e with
  | Aborted err => mret (None, Some err)
  | Ended s (Failed e) =>
      mret (if watch_retryable e then (Some emptyWatch, None)
            else (None, Some (WrapPreviousError inner s (ne_error e))))
  | Ended s (Answered resp) =>
      if bool_decide (StatusCode resp = 200) then newStreamWatcher resp
      else mret (None, Some (WrapPreviousError inner s
             match result_err (transformResponse r resp) with
             | Some err => err
             | None => plainError ("for request " ++ URL_path r ++ ", got status: " ++ pretty (StatusCode resp))
             end))
  end.

Definition transport : Transport body W Watcher := {| roundTrip := Do; openWatch := Watch |}.
End watch.
End send.

(** ** Lemmas *)

(** What wrapping an error, once or with the one before it, leaves as it is. *)
Definition closed_under_wrapping (A : error → Prop) : Prop := ∀ msg e, A e → A (wrapError msg e).
Lemma closed_WrapPreviousError A inner s e :
  closed_under_wrapping A → A e → A (WrapPreviousError inner s e).
Proof. intros HA He. unfold WrapPreviousError. destruct (previousErr s); [|done]. case_bool_decide; auto. Qed.

Lemma errors_As_WrapPreviousError inner s e :
  errors_As (Some (WrapPreviousError inner s e)) = errors_As (Some e).
Proof.
  apply (closed_WrapPreviousError (λ e', errors_As (Some e') = errors_As (Some e)) inner s e); [|done].
  by intros msg e' He.
Qed.
Lemma IsNotFound_WrapPreviousError inner s e :
  IsNotFound (Some (WrapPreviousError inner s e)) = IsNotFound (Some e).
Proof. unfold IsNotFound, reasonAndCodeForError. by rewrite errors_As_WrapPreviousError. Qed.

Section loop.
Context {W : Type} (net : Network W) (inner : error → error).
Implicit Types (r : Request body) (ctx : Context) (a : attempt).

(** A computation that keeps [I] and whose errors satisfy [A]. *)
Definition keeps (I : W → Prop) (A : error → Prop) (m : GO W (option error)) : Prop :=
  ∀ w, I w → wp m w (λ err w', I w' ∧ ∀ e, err = Some e → A e).

(** What the parts of the client other than the attempts themselves do. *)
Record bystanders (I : W → Prop) (A : error → Prop) : Prop := {
  by_ctx ctx : keeps I A (ctx_Err net ctx);
  by_limiter Wait ctx : limiter_Wait net = Some Wait → keeps I A (Wait ctx);
  by_wrapping : closed_under_wrapping A;
}.

Lemma keeps_tryThrottle I A ctx : bystanders I A → keeps I A (tryThrottle net ctx).
Proof.
  intros HB w HI. unfold tryThrottle. destruct (limiter_Wait net) as [Wait|] eqn:HW; [|by apply wp_ret].
  apply wp_bind. eapply wp_mono; [exact (by_limiter _ _ HB _ _ HW w HI)|].
  intros err w' [HI' He]. apply wp_ret. split; [done|].
  intros e (e' & -> & ->)%fmap_Some. pose proof (by_wrapping _ _ HB) as Hwrap. by apply Hwrap, He.
Qed.

Lemma wp_Before I A first s ctx w :
  bystanders I A → I w →
  wp (Before net first s ctx) w (λ after w', I w' ∧ ∀ e, after.2 = Some e → A e).
Proof.
  intros HB HI. apply wp_bind. eapply wp_mono; [exact (by_ctx _ _ HB ctx w HI)|].
  intros [e|] w1 [HI1 He]; [by apply wp_ret|]. destruct first; [by apply wp_ret|].
  apply wp_bind. eapply wp_mono; [exact (keeps_tryThrottle _ _ ctx HB w1 HI1)|].
  intros [e|] w2 [HI2 He2]; [|by apply wp_ret].
  apply wp_bind. eapply wp_mono; [exact (by_ctx _ _ HB ctx w2 HI2)|].
  intros cerr w3 [HI3 _]. by apply wp_ret.
Qed.

(** The rule of the loop: [I n] holds before each attempt, when [n] more may follow
    it. *)
Definition attempt_rule (accept : Response → bool) retryable ctx r (I : nat → W → Prop)
    (Q : ending → W → Prop) : Prop :=
  ∀ n w, I n w → wp (client_Do net ctx r) w (λ a w',
    if match a with Answered resp => accept resp | Failed _ => false end then ∀ s, Q (Ended s a) w'
    else match n with
         | S n => if IsNextRetry retryable a then I n w' else ∀ s, Q (Ended s a) w'
         | O => ∀ s, Q (Ended s a) w'
         end).

Lemma wp_attempts accept retryable ctx r I A Q :
  (∀ n, bystanders (I n) A) → (∀ e, newHTTPRequest net r = Some e → A e) →
  (∀ n e w, I n w → A e → Q (Aborted e) w) →
  attempt_rule accept retryable ctx r I Q →
  ∀ n first s w, I n w → wp (attempts net inner accept retryable n first s ctx r) w Q.
Proof.
  intros HB Hreq HQ Hdo n. induction n as [|n IH]; intros first s w HI;
    simpl; (apply wp_bind; eapply wp_mono; [exact (wp_Before _ _ first s ctx w (HB _) HI)|]);
    intros [s1 [e|]] w1 [HI1 He]; simpl in *;
    try (apply wp_ret; eapply HQ, closed_WrapPreviousError; [exact HI1|apply (HB 0%nat)|by apply He]);
    (destruct (newHTTPRequest net r) as [e|]; [apply wp_ret; eauto|]);
    (apply wp_bind; eapply wp_mono; [exact (Hdo _ w1 HI1)|]); intros a w2 Ha; simpl in Ha;
    (destruct (match a with Answered _ => _ | _ => _ end); [apply wp_ret, Ha|]).
  - apply wp_ret, Ha.
  - destruct (IsNextRetry retryable a); [by apply IH|apply wp_ret, Ha].
Qed.

(** The same for a whole request. *)
Lemma wp_request ctx r I A (Q : error + Response → W → Prop) w :
  (∀ n, bystanders (I n) A) → (∀ e, newHTTPRequest net r = Some e → A e) →
  (∀ n e w, I n w → A e → Q (inl e) w) →
  attempt_rule (λ _, false) (request_retryable r) (request_context ctx r) r I
    (λ e w, match e with
            | Aborted e => Q (inl e) w
            | Ended s (Failed e) => Q (inl (WrapPreviousError inner s (ne_error e))) w
            | Ended _ (Answered resp) => Q (inr resp) w
            end) →
  I maxRetries w → wp (request net inner ctx r) w Q.
Proof.
  intros HB Hreq HQ Hdo HI. apply wp_bind.
  eapply wp_mono; [exact (keeps_tryThrottle _ _ ctx (HB maxRetries) w HI)|].
  intros [e|] w1 [HI1 He]; [apply wp_ret; eauto|].
  apply wp_bind. eapply wp_mono;
    [exact (wp_attempts _ _ _ _ I A _ HB Hreq (λ n e w HI HA, HQ n e w HI HA) Hdo _ true no_errors w1 HI1)|].
  intros [e|s [e|resp]] w2 H2; by apply wp_ret.
Qed.
End loop.

(** ** Which attempts are made *)
Section log.
Context {W : Type} (net : Network W) (inner : error → error).
(** The attempts made so far, as something in the world records them. *)
Context (sent : W → list attempt).
Hypothesis sent_Do : ∀ ctx r w, wp (client_Do net ctx r) w (λ a w', sent w' = sent w ++ [a]).
Hypothesis sent_others : ∀ l, bystanders net (λ w, sent w = l) (λ _, True).

(** An attempt that may be followed by another one. *)
Definition may_repeat (r : Request body) (a : attempt) : Prop :=
  match a with
  | Answered resp => (StatusCode resp = 429 ∨ 500 ≤ StatusCode resp) ∧ is_Some (RetryAfter resp)
  | Failed e => verb r = "GET" ∧ (IsConnectionReset e = true ∨ IsProbableEOF e = true)
  end.
Lemma IsNextRetry_may_repeat r a : IsNextRetry (request_retryable r) a = true ↔ may_repeat r a.
Proof.
  destruct a as [e|resp]; simpl; unfold request_retryable, asks_to_wait;
    by rewrite andb_true_iff, orb_true_iff, !bool_decide_eq_true.
Qed.

(** C15: A request is sent at most eleven times; every attempt that is followed by
    another was answered with 429 or a server error and asked to be repeated
    later, or was a read that the connection broke: a write is never sent again
    after an error of the connection.  A response that is returned is that of the
    last attempt, and is returned although it asks to be repeated only after
    eleven attempts; an error says that the next attempt was not made, or is that
    of the last attempt, which was not to be repeated or was the eleventh. *)
Theorem request_attempts ctx r w :
  wp (request net inner ctx r) w (λ answer w', ∃ repeated rest,
    sent w' = sent w ++ repeated ++ rest ∧ (length repeated ≤ 10)%nat ∧
    Forall (may_repeat r) repeated ∧
    match answer with
    | inr resp => rest = [Answered resp] ∧ (may_repeat r (Answered resp) → length repeated = 10%nat)
    | inl err => rest = [] ∨
        ∃ e, rest = [Failed e] ∧ errors_As (Some err) = errors_As (Some (ne_error e)) ∧
             (may_repeat r (Failed e) → length repeated = 10%nat)
    end).
Proof.
  apply (wp_request net inner ctx r (λ n w', ∃ repeated, sent w' = sent w ++ repeated ∧
           length repeated = (10 - n)%nat ∧ (n ≤ 10)%nat ∧ Forall (may_repeat r) repeated) (λ _, True)).
  - intros n. split; [| |done]; [intros ctx' w1 (l & Hl & H)|intros Wait ctx' HW w1 (l & Hl & H)].
    + eapply wp_mono; [exact (by_ctx _ _ _ (sent_others _) ctx' w1 Hl)|]. intros e w2 [Hw2 _]. eauto.
    + eapply wp_mono; [exact (by_limiter _ _ _ (sent_others _) _ ctx' HW w1 Hl)|]. intros e w2 [Hw2 _]. eauto.
  - done.
  - intros n e w' (l & Hl & ? & ? & ?) _. exists l, []. rewrite app_nil_r. split_and!; [done|lia|done|by left].
  - intros n w1 (l & Hl & Hlen & Hn & Hall). eapply wp_mono; [exact (sent_Do _ _ w1)|].
    intros a w2 Ha. rewrite Hl, <- app_assoc in Ha.
    assert (Hlast : (may_repeat r a → length l = 10%nat) → ∀ s : withRetry, ∃ repeated rest,
              sent w2 = sent w ++ repeated ++ rest ∧ (length repeated ≤ 10)%nat ∧ Forall (may_repeat r) repeated ∧
              match a with
              | Answered resp => rest = [Answered resp] ∧ (may_repeat r (Answered resp) → length repeated = 10%nat)
              | Failed e => rest = [] ∨ ∃ e', rest = [Failed e'] ∧
                  errors_As (Some (WrapPreviousError inner s (ne_error e))) = errors_As (Some (ne_error e')) ∧
                  (may_repeat r (Failed e') → length repeated = 10%nat)
              end).
    { intros Hmay s. exists l, [a]. split_and!; [done|lia|done|]. destruct a as [e|resp]; [right|done].
      exists e. by rewrite errors_As_WrapPreviousError. }
    assert (Hacc : (match a with Answered _ => false | Failed _ => false end) = false) by (by destruct a).
    rewrite Hacc. destruct n as [|n].
    + assert (length l = 10%nat) by lia. intros s. by destruct a; apply Hlast.
    + destruct (IsNextRetry _ a) eqn:Hretry.
      * apply IsNextRetry_may_repeat in Hretry. exists (l ++ [a]).
        rewrite length_app, Forall_app, Forall_singleton. simpl. split_and!; [done|lia|lia|done|done].
      * assert (¬ may_repeat r a) by (rewrite <- IsNextRetry_may_repeat; congruence).
        intros s. by destruct a; apply Hlast.
  - exists []. rewrite app_nil_r. split_and!; [done|done|done|constructor].
Qed.
End log.

(** Only 404 is read as "not found". *)
Lemma NotFound_reason code v reason :
  0 ≤ code < 2 ^ 31 → reason = (reason_and_message code v "").1 → 
  bool_decide (reason = StatusReasonNotFound) ||
    (bool_decide (reason ∉ knownReasons) && bool_decide (int32 code = StatusNotFound)) =
  bool_decide (code = 404).
Proof.
  intros Hc ->. assert (Hi : int32 code = code) by (unfold int32; rewrite Z.mod_small; lia). rewrite Hi.
  destruct (decide (code = 404)) as [->|Hne]; [done|].
  rewrite (bool_decide_eq_false_2 (code = 404)), (bool_decide_eq_false_2 (code = StatusNotFound)) by done.
  rewrite andb_false_r, orb_false_r. apply bool_decide_eq_false_2.
  unfold reason_and_message. by repeat case_bool_decide.
Qed.

(** ** What is made of a response, and the server seen through the requests *)
Section answers.
Context {W : Type} (net : Network W) (inner : error → error).
Context (ParseMediaType : string → error + string) (Negotiator : string → bool) (parse_body : string → body).
Context (unmarshal_type : Scheme.go_type → json → option error) (content_type content_group : string).
Implicit Types (r : Request body) (ctx : Context) (resp : Response).
Abbreviation transformed := (transformResponse ParseMediaType Negotiator content_type content_group).
Abbreviation answered := (answer_of parse_body unmarshal_type).

(** The media type of a response, and whether its body can be decoded. *)
Definition media_type resp : string :=
  if is_empty (ContentTypeHeader resp) then content_type else ContentTypeHeader resp.
Definition decodes resp : bool :=
  match ParseMediaType (media_type resp) with
  | inr media => negb (is_empty (media_type resp)) && Negotiator media
  | inl _ => false
  end.
(** The body is a failure that the server reports. *)
Definition reports_failure resp (text : string) (s : Status) : Prop :=
  decodes resp = true ∧ text ≠ "" ∧ StatusStatus s = "Failure" ∧
  ∃ o, json_Decode_nil Scheme.Scheme_ unmarshal_type (parse_body text) (Some (mkGVK "" "v1" "")) =
         (Another (StatusObject o), None) ∧ as_Status o = s.

Lemma unstructured_error r text resp :
  ∃ s, newUnstructuredResponseError ParseMediaType content_group r text resp = StatusError s ∧
       Code s = int32 (StatusCode resp) ∧ IsUnexpectedServerError (StatusError s) = true ∧
       Reason s = (reason_and_message (StatusCode resp) (verb r) "").1.
Proof.
  unfold newUnstructuredResponseError, NewGenericServerResponse.
  destruct (reason_and_message _ _ _) as [reason message] eqn:Hrm. eexists. split; [reflexivity|].
  split_and!; [done|done|]. simpl. apply (f_equal fst) in Hrm. simpl in Hrm. rewrite <- Hrm.
  unfold reason_and_message. by repeat case_bool_decide.
Qed.

Lemma unstructured_NotFound r text resp : 0 ≤ StatusCode resp < 2 ^ 31 →
  IsNotFound (Some (newUnstructuredResponseError ParseMediaType content_group r text resp)) =
  bool_decide (StatusCode resp = 404).
Proof.
  intros Hcode. destruct (unstructured_error r text resp) as (s & -> & Hs & _ & Hreason).
  unfold IsNotFound, reasonAndCodeForError. simpl. rewrite Hs. by apply (NotFound_reason _ (verb r)).
Qed.

(** A response whose body can be read and whose media type, if it has one, can be
    parsed. *)
Definition readable resp (text : string) : Prop :=
  Text resp = inr text ∧ (media_type resp ≠ "" → ∃ media, ParseMediaType (media_type resp) = inr media).

Lemma transformResponse_readable r resp text :
  readable resp text →
  let err := if unsuccessful (StatusCode resp)
             then Some (newUnstructuredResponseError ParseMediaType content_group r text resp) else None in
  result_err (transformed r resp) = err ∧
  decoder (transformed r resp) = decodes resp ∧
  (decodes resp = true ∨ err = None →
   result_text (transformed r resp) = text ∧ result_type (transformed r resp) = media_type resp).
Proof.
  intros [Ht Hm]. unfold transformResponse, decodes. rewrite Ht. fold (media_type resp).
  destruct (is_empty (media_type resp)) eqn:Hem.
  { simpl. by destruct (ParseMediaType _). }
  apply is_empty_false in Hem. destruct (Hm Hem) as [media ->]. simpl.
  destruct (Negotiator media); [done|]. destruct (unsuccessful _); simpl; [|done].
  split_and!; [done|done|]. by intros [|].
Qed.

(** C18: What a response is answered with, when its body can be read and its media
    type parsed: of a successful one the body; of any other one an error, the
    failure that the body reports if it reports one, else an error with the
    response's status code, which is "not found" exactly for 404. *)
Theorem answer_of_response r resp text :
  readable resp text → 0 ≤ StatusCode resp < 2 ^ 31 →
  match answered (transformed r resp) with
  | inr b => unsuccessful (StatusCode resp) = false ∧
             b = if decodes resp then parse_body text else NoDecoder (media_type resp)
  | inl e => unsuccessful (StatusCode resp) = true ∧ ∃ s, e = StatusError s ∧
      (reports_failure resp text s ∨
       (∀ s', ¬ reports_failure resp text s') ∧ Code s = StatusCode resp ∧
       IsNotFound (Some e) = bool_decide (StatusCode resp = 404))
  end.
Proof.
  intros Hr Hcode. pose proof (transformResponse_readable r resp text Hr) as (He & Hd & Ht).
  unfold answer_of, Result_Error. rewrite He, Hd. destruct (unsuccessful (StatusCode resp)) eqn:Hu.
  2: { destruct Ht as [-> ->]; [by right|]. done. }
  pose proof (unstructured_NotFound r text resp Hcode) as Hnf.
  destruct (unstructured_error r text resp) as (s & Herr & Hs & Hunexp & _). rewrite Herr in Hnf |- *. rewrite Hunexp.
  assert (Hown : (∀ s', ¬ reports_failure resp text s') → true = true ∧ ∃ s', StatusError s = StatusError s' ∧
      (reports_failure resp text s' ∨ (∀ s'', ¬ reports_failure resp text s'') ∧ Code s' = StatusCode resp ∧
       IsNotFound (Some (StatusError s)) = bool_decide (StatusCode resp = 404))).
  { intros Hno. split; [done|]. exists s. split; [done|right]. split_and!; [done| |].
    - rewrite Hs. unfold int32. rewrite Z.mod_small; lia.
    - done. }
  destruct (decodes resp) eqn:Hdec.
  2: { rewrite andb_false_r. apply Hown. intros s' [Hd' _]. congruence. }
  destruct Ht as [-> _]; [by left|]. destruct (is_empty text) eqn:Hem; simpl.
  { apply is_empty_true in Hem. apply Hown. by intros s' (_ & Hne & _). }
  apply is_empty_false in Hem.
  destruct (json_Decode_nil _ _ _ _) as [[| |[o|t]] [err|]] eqn:Hj;
    try (apply Hown; intros s' (_ & _ & _ & o' & Ho & _); rewrite Ho in Hj; discriminate Hj).
  destruct (bool_decide_reflect (StatusStatus (as_Status o) = "Failure")) as [Hf|Hf].
  - split; [done|]. exists (as_Status o). split; [done|left]. split_and!; [done..|]. by exists o.
  - apply Hown. intros s' (_ & _ & Hf' & o' & Ho & <-). rewrite Ho in Hj. congruence.
Qed.

(** A response that asks to be repeated is an error. *)
Lemma asks_to_wait_error r resp : asks_to_wait resp = true → ∃ e, answered (transformed r resp) = inl e.
Proof.
  intros [Hc _]%andb_true_iff.
  assert (Hu : unsuccessful (StatusCode resp) = true).
  { unfold unsuccessful. apply orb_true_iff in Hc. rewrite !bool_decide_eq_true in Hc.
    rewrite andb_true_iff, orb_true_iff, !bool_decide_eq_true. lia. }
  assert (He : ∃ e, result_err (transformed r resp) = Some e).
  { unfold transformResponse. rewrite Hu. destruct (Text resp); [by eexists|]. repeat case_match; by eexists. }
  destruct He as [e He]. unfold answer_of, Result_Error. rewrite He.
  repeat case_match; simplify_eq; by eexists.
Qed.

(** One attempt, seen as a transport; [once] does not repeat it. *)
Definition answer_of_attempt r (a : attempt) : error + body :=
  match a with Failed e => inl (ne_error e) | Answered resp => answered (transformed r resp) end.
Definition once {Watcher} (openWatch : Context → Request body → GO W (returns error Watcher))
    : Transport body W Watcher :=
  {| roundTrip := λ ctx r, a ← client_Do net ctx r; mret (answer_of_attempt r a); Rest.openWatch := openWatch |}.

Abbreviation do_request := (Do net inner ParseMediaType Negotiator parse_body unmarshal_type content_type content_group).

(** The request does what each attempt does, if an attempt that fails leaves the
    server as it was. *)
Lemma wp_Do_once (I : W → Prop) (N : Prop) (P : error + body → W → Prop) ctx r w :
  bystanders net I (λ e, IsNotFound (Some e) = false) →
  (∀ e, newHTTPRequest net r = Some e → IsNotFound (Some e) = false) →
  (∀ e w', P (inl e) w' ↔ I w' ∧ (IsNotFound (Some e) = true → N)) →
  (∀ ctx w', I w' → wp (a ← client_Do net ctx r; mret (answer_of_attempt r a)) w' P) →
  I w → wp (do_request ctx r) w P.
Proof.
  intros HB Hreq HP Honce HI. apply wp_bind.
  assert (Haborted : ∀ (n : nat) e w', I w' → IsNotFound (Some e) = false → P (inl e) w').
  { intros _ e w' HI' He. apply HP. split; [done|congruence]. }
  eapply wp_mono; [refine (wp_request net inner ctx r (λ _, I) _
    (λ a w', P match a with inl err => inl err | inr resp => answered (transformed r resp) end w') w
    (λ _, HB) Hreq Haborted _ HI)|].
  - intros n w' HI'. destruct (Honce (request_context ctx r) w' HI') as (b & w2 & Hb & HPb).
    unfold mbind, GO_bind in Hb. destruct (client_Do net _ r w') as [[a|msg] w3] eqn:Ha; [|done].
    injection Hb as <- ->. exists a, w2. split; [done|].
    assert (Hend : ∀ s, match Ended s a with
                        | Aborted e => P (inl e) w2
                        | Ended s (Failed e) => P (inl (WrapPreviousError inner s (ne_error e))) w2
                        | Ended _ (Answered resp) => P (answered (transformed r resp)) w2
                        end).
    { intros s. destruct a as [e|resp]; [|done]. apply HP in HPb. apply HP.
      by rewrite IsNotFound_WrapPreviousError. }
    assert (Hacc : (match a with Answered _ => false | Failed _ => false end) = false) by (by destruct a).
    rewrite Hacc. destruct n as [|n]; [exact Hend|].
    destruct (IsNextRetry _ a) eqn:Hretry; [|exact Hend].
    destruct a as [e|resp]; [by apply HP in HPb as [? _]|].
    destruct (asks_to_wait_error r resp Hretry) as [e He]. unfold answer_of_attempt in HPb. rewrite He in HPb.
    by apply HP in HPb as [? _].
  - intros a w' Ha. by apply wp_ret.
Qed.

(** The requests of a client, repeated as [request] repeats them, see a server of a
    collection as single attempts see it: with errors of the context, of the rate
    limiter and of making the request that are not "not found", what a read returns
    is what is stored, what is written is stored once, and after an error, also one
    that follows repeated attempts, the collection is as it was. *)
Lemma transport_serves {R V Watcher} prefix res one page sent key (ok : W → Prop) (view : R → V)
    (abs : W → gmap string V) (good : R → Prop) (admitted : R → R → Prop)
    (openWatch : Context → Request body → GO W (returns error Watcher))
    (newStreamWatcher : Response → GO W (returns error Watcher)) (emptyWatch : Watcher) :
  (∀ m, bystanders net (λ w, ok w ∧ abs w = m) (λ e, IsNotFound (Some e) = false)) →
  (∀ r e, newHTTPRequest net r = Some e → IsNotFound (Some e) = false) →
  Server.serves (once openWatch) prefix res one page sent key ok view abs good admitted →
  Server.serves (transport net inner ParseMediaType Negotiator parse_body unmarshal_type content_type content_group
                   newStreamWatcher emptyWatch) prefix res one page sent key ok view abs good admitted.
Proof.
  intros HB Hreq [HG HL HC HU HD].
  assert (Hrule : ∀ (N : Prop) (P : error + body → W → Prop) ctx r w,
    (∀ e w', P (inl e) w' ↔ (ok w' ∧ abs w' = abs w) ∧ (IsNotFound (Some e) = true → N)) → ok w →
    (∀ ctx w', ok w' → abs w' = abs w → wp (roundTrip (once openWatch) ctx r) w' P) →
    wp (do_request ctx r) w P).
  { intros N P ctx r w HP Hok Honce.
    apply (wp_Do_once (λ w', ok w' ∧ abs w' = abs w) N); [done|by apply Hreq|done| |done].
    intros ctx' w' [Hok' Habs]. by apply Honce. }
  split; intros ctx r w.
  - intros name Hok Hpl He Hv Hurl. apply (Hrule (abs w !! name = None)); [naive_solver|done|].
    intros ctx' w' Hok' <-. by apply HG.
  - intros Hok He Hv Hurl. apply (Hrule True); [naive_solver|done|].
    intros ctx' w' Hok' <-. by apply HL.
  - intros x b Hok Hg He Hv Hurl Hs Hb. apply (Hrule True); [naive_solver|done|].
    intros ctx' w' Hok' <-. by eapply HC.
  - intros x b Hok Hg Hpl He Hv Hurl Hs Hb. apply (Hrule True); [naive_solver|done|].
    intros ctx' w' Hok' <-. by eapply HU.
  - intros name Hok Hpl He Hv Hurl. apply (Hrule True); [naive_solver|done|].
    intros ctx' w' Hok' <-. by apply HD.
Qed.
End answers.

(** ** Witness: a server that asks three times to wait, and a log of the attempts *)
Module Demo.
Definition overloaded : Response :=
  {| StatusCode := 429; ContentTypeHeader := "application/json"; RetryAfter := Some 1; Text := inr "" |}.
Definition created : Response :=
  {| StatusCode := 201; ContentTypeHeader := "application/json"; RetryAfter := None; Text := inr "{}" |}.
Definition logged : Network (list attempt) :=
  {| ctx_Err := λ _, mret None; limiter_Wait := None; newHTTPRequest := λ _, None;
     client_Do := λ _ _ w, let a := Answered (if bool_decide (length w < 3)%nat then overloaded else created) in
                           (Value a, w ++ [a]) |}.
Definition post : Request body :=
  NewRequest {| basePath := ""; versionedAPIPath := "/apis"; ContentType := ""; ClientTimeout := 0 |} "POST".
End Demo.

Lemma request_attempts_witness :
  wp (request Demo.logged id TODO Demo.post) [] (λ answer w', ∃ repeated rest,
    w' = repeated ++ rest ∧ (length repeated ≤ 10)%nat ∧ Forall (may_repeat Demo.post) repeated ∧
    match answer with
    | inr resp => rest = [Answered resp] ∧ (may_repeat Demo.post (Answered resp) → length repeated = 10%nat)
    | inl err => rest = [] ∨
        ∃ e, rest = [Failed e] ∧ errors_As (Some err) = errors_As (Some (ne_error e)) ∧
             (may_repeat Demo.post (Failed e) → length repeated = 10%nat)
    end).
Proof.
  apply (request_attempts Demo.logged id (λ w, w)).
  - intros ctx r w. by eexists _, _.
  - intros l. split; [intros ctx w Hw; by apply wp_ret|done|done].
Defined.
End Send.
