(* ===== verification/Stack.v ===== *)
(** * The native client over the REST API of the CRDs

    [main.go] makes a clientset of the CRDs and injects it into the clientset of
    the native types: the native client of policies converts each object and
    calls the generated client, which sends requests to the API server.  Here the
    parts are put together and their contracts composed. *)
From S2P Require Import Prelude GoStrings GoErrors Admission TransformedClient Json Types Conversion Rest Clientset.

Module Stack.
Import Typed Conversion.

Section stack.
Context {Bytes W Options Watcher : Type} `{!ListOptions Options}.
Context (format : Z → string) (parse : string → error + Time).
Context (policy_codecs : Codecs Bytes Options ValidatingAdmissionPolicy).
Context (binding_codecs : Codecs Bytes Options ValidatingAdmissionPolicyBinding).
Context (client : Rest.RESTClient) (rt : Rest.Transport Bytes W Watcher).
Context (data_bytes : string → Bytes).

Abbreviation policy := (validatingAdmissionPolicy_codec format parse).
Abbreviation binding := (validatingAdmissionPolicyBinding_codec format parse).

(** [AdmissionregistrationV1alpha1Client]: the clients of both resources over one
    REST client. *)
Definition AdmissionregistrationV1alpha1Client : replacement_client (W := W) (Options := Options) (Watcher := Watcher) :=
  {| r_ValidatingAdmissionPolicies :=
       Resources.policies_client policy_codecs client rt (zero (policy CRD)) policy_name data_bytes;
     r_ValidatingAdmissionPolicyBindings :=
       Resources.bindings_client binding_codecs client rt (zero (binding CRD)) binding_name data_bytes |}.

Hypothesis parse_format : ∀ sec, representable sec → parse (format sec) = inr (Some (sec, 0)).

(** The whole stack: with a server that serves the two collections of CRDs under
    the group's path, the injected native clients are clients of the native API:
    they read and write, under the same names, the native conversions of the
    stored policies and bindings, as far as these are shown ([viewC], [viewN]). *)
Lemma native_api_over_rest {VP VPn VB VBn} prefix (ok_p ok_b : W → Prop) abs_p abs_b admitted_p admitted_b
    (viewP : _ → VP) (viewPn : _ → VPn) toP (viewB : _ → VB) (viewBn : _ → VBn) toB :
  (∀ p, viewPn (shown format parse p) = toP (viewP p)) →
  (∀ b, viewBn (shown_binding format parse b) = toB (viewB b)) →
  Rest.prefix_is client prefix →
  serves policy_codecs rt "validatingadmissionpolicies" (zero (policy CRD)) policy_name prefix
    ok_p viewP abs_p (good_policy format parse CRD) admitted_p →
  serves binding_codecs rt "validatingadmissionpolicybindings" (zero (binding CRD)) binding_name prefix
    ok_b viewB abs_b (good_binding format parse CRD) admitted_b →
  let native := AdmissionregistrationV1alpha1Client in
  Transformed.client_spec (ValidatingAdmissionPolicies format parse native) ok_p viewPn
    (λ w, toP <$> abs_p w) policy_name (good_policy format parse Native)
    (λ p p', ∃ q, admitted_p (submitted format parse p) q ∧ p' = shown format parse q) ∧
  Transformed.client_spec (ValidatingAdmissionPolicyBindings format parse native) ok_b viewBn
    (λ w, toB <$> abs_b w) binding_name (good_binding format parse Native)
    (λ b b', ∃ c, admitted_b (submitted_binding format parse b) c ∧ b' = shown_binding format parse c).
Proof.
  intros HvP HvB Hprefix Hp Hb native. destruct Resources.resources_plain as [Hpl Hbl]. split.
  - refine (injected_policies_spec format parse parse_format native viewP viewPn _ _ _ _ HvP _).
    by eapply typed_client_spec.
  - refine (injected_bindings_spec format parse parse_format native viewB viewBn _ _ _ _ HvB _).
    by eapply typed_client_spec.
Qed.
End stack.

(** The client of a server at the root of its host, and the paths of the two
    collections. *)
Module Demo.
Definition client : Rest.RESTClient :=
  {| Rest.basePath := ""; Rest.versionedAPIPath := "/apis/admissionregistration.x-k8s.io/v1alpha1";
     Rest.ContentType := "application/json"; Rest.ClientTimeout := 0 |}.

Lemma crd_plain res : Path.plain res → Forall Path.plain (Resources.crd_prefix ++ [res]).
Proof.
  intros Hres. apply Forall_app. split; [|by apply Forall_singleton].
  apply (Resources.crd_prefix_is "" 0).
Qed.
End Demo.
End Stack.
