(* ===== verification/Wire.v ===== *)
(** * The native client over JSON

    The codecs of the REST clients are those of [Serializer], and their transport
    is that of [Send]: the bodies of requests and responses are JSON documents.
    An API server that keeps a collection of documents, seen through single
    attempts to send a request, is then a server for the generated clients, and
    the native clients of [Stack] are clients of the native API over it. *)
From S2P Require Import Prelude GoStrings GoErrors Admission TransformedClient Json JsonText JsonSync JsonPrint Types Conversion Rest Scheme Serializer Clientset Send Stack.

Module Wire.
Import Typed Conversion Serializer.

Definition policy_kind_name : string := "ValidatingAdmissionPolicy".
Definition binding_kind_name : string := "ValidatingAdmissionPolicyBinding".
Definition list_name (name : string) : string := (name ++ "List")%string.
Lemma policy_names : policy_kind_name ∈ Scheme.known ∧ list_name policy_kind_name ∈ Scheme.known.
Proof. vm_compute. set_solver. Qed.
Lemma binding_names : binding_kind_name ∈ Scheme.known ∧ list_name binding_kind_name ∈ Scheme.known.
Proof. vm_compute. set_solver. Qed.

Section wire.
Context {W Options Watcher : Type} `{!ListOptions Options}.
Context (unmarshal_type : Scheme.go_type → json → option error).
Context (format : Z → string) (parse : string → error + Time).
(** The encodings of options and parameters, which are not of the CRDs. *)
Context (contentType : string) (encode_options : Options → error + body).
Context (encode_parameters : Options → error + gmap string (list string)).
Context (rt : Rest.Transport body W Watcher) (client : Rest.RESTClient) (data_bytes : string → body).

(** ** One resource *)
Section resource.
Context {R V : Type} `{KindHolder R} (name : string) (c d : codec R).

(** The codecs of the client: what the REST client is configured with. *)
Definition json_codecs : Codecs body Options R :=
  {| client_contentType := contentType;
     is_nil := body_empty;
     Typed.Encode := λ obj, (Serializer.Encode Scheme.Scheme_ (Scheme.v1alpha1 name) c Scheme.SchemeGroupVersion obj).2;
     EncodeOptions := encode_options;
     EncodeParameters := encode_parameters;
     Typed.Decode := Into Scheme.Scheme_ unmarshal_type (Scheme.v1alpha1 name) d;
     DecodeList := Into Scheme.Scheme_ unmarshal_type (Scheme.v1alpha1 (list_name name)) (list_wire d) |}.

(** The documents of a server: an object, and a list with its items. *)
Definition object_document (b : body) (x : R) : Prop := document d (crd_kind name) b x.
Definition list_document (b : body) (l : list R) : Prop :=
  ∃ tl, document (list_wire d) (crd_kind (list_name name)) b tl ∧ l = default [] (Items tl).

Variables (key : R → string) (good : R → Prop).

(** A server of a collection of documents: it shows its objects without the
    kinds that they carry. *)
Definition json_serves (prefix : list string) (res : string) (ok : W → Prop) (abs : W → gmap string R)
    (admitted : R → R → Prop) : Prop :=
  Server.serves rt prefix res object_document list_document object_document key ok untyped abs good admitted.

(** What the server gets of an object that is sent to it. *)
Definition as_sent (x : R) : R := stored c (SetGroupVersionKind (crd_kind name) x).
Definition json_admitted (admitted : R → R → Prop) (x x' : R) : Prop :=
  ∃ y, admitted (as_sent x) y ∧ x' = untyped y.

Hypothesis names_known : name ∈ Scheme.known ∧ (list_name name) ∈ Scheme.known.
Hypothesis c_kind : holds_kind c.
Hypothesis c_d : lawful c d.
Hypothesis good_encodable : ∀ x, good x → encodable c x.
Hypothesis good_sent : ∀ x, good x → good (as_sent x) ∧ key (as_sent x) = key x.
Hypothesis good_untyped : ∀ x, good x → good (untyped x) ∧ key (untyped x) = key x.
Hypothesis parameters_found : ∀ o e, encode_parameters o = inl e → IsNotFound (Some e) = false.

Lemma document_not_empty {A} (f : codec A) gvk b x : document f gvk b x → body_empty b = false.
Proof. intros [_ Hu]. by destruct b. Qed.

Lemma json_typed_serves prefix res ok abs admitted :
  json_serves prefix res ok abs admitted →
  serves json_codecs rt res (zero d) key prefix ok untyped abs good (json_admitted admitted).
Proof.
  destruct names_known as [Hn Hln]. intros Hs. split; [exact parameters_found|].
  pose proof (crd_registered name c Hn c_kind) as Hreg.
  pose proof (crd_registered (list_name name) (typedList_codec c) Hln (list_holds_kind c)) as Hlreg.
  refine (Server.serves_reread rt prefix res object_document list_document object_document _ _ _
    key key good good untyped untyped (λ x y, y = as_sent x) untyped id _ _ _ _ ok abs admitted _ _ Hs).
  - intros b x Hb Hg.
    destruct (Encode_document _ _ _ d _ Hreg x c_d (good_encodable x Hg)) as (b' & Hb' & Hdoc).
    exists (as_sent x). destruct (good_sent x Hg). split_and!; [|done..].
    pose proof (eq_trans (eq_sym Hb) Hb') as [= <-]. exact Hdoc.
  - intros b y Hdoc Hg. destruct (good_untyped y Hg). split_and!; [|done..|].
    + split; [by eapply document_not_empty|]. exact (Into_document _ unmarshal_type _ _ d _ Hreg b y Hdoc).
    + exact (untyped_untyped _ _ _ _ Hreg y).
  - intros b l (tl & Hdoc & ->) _. exists (untyped tl). split_and!.
    + by eapply document_not_empty.
    + exact (Into_document _ unmarshal_type _ _ _ _ Hlreg b tl Hdoc).
    + by rewrite list_fmap_id.
  - done.
  - intros x y y' -> Hadm. by exists y'.
Qed.
End resource.

(** ** Policies and bindings *)
Abbreviation policy := (validatingAdmissionPolicy_codec format parse).
Abbreviation binding := (validatingAdmissionPolicyBinding_codec format parse).
Abbreviation policy_wire := (policy_wire format parse).
Abbreviation binding_wire := (binding_wire format parse).
Hypothesis parse_format : ∀ sec, representable sec → parse (format sec) = inr (Some (sec, 0)).

Definition policy_codecs := json_codecs policy_kind_name (policy CRD) policy_wire.
Definition binding_codecs := json_codecs binding_kind_name (binding CRD) binding_wire.

Lemma good_policy_set tm p :
  good_policy format parse CRD p → good_policy format parse CRD (SetTypeMeta tm p).
Proof. intros [He Hn]. split; [|exact Hn]. by apply (hk_encodable _ (policy_holds_kind format parse CRD)). Qed.
Lemma good_binding_set tm b :
  good_binding format parse CRD b → good_binding format parse CRD (SetTypeMeta tm b).
Proof. intros [He Hn]. split; [|exact Hn]. by apply (hk_encodable _ (binding_holds_kind format parse CRD)). Qed.

Lemma good_policy_sent p :
  good_policy format parse CRD p →
  good_policy format parse CRD (as_sent policy_kind_name (policy CRD) p) ∧
  policy_name (as_sent policy_kind_name (policy CRD) p) = policy_name p.
Proof.
  intros Hg. apply (good_policy_set (Kinds.kind_TypeMeta (crd_kind policy_kind_name))) in Hg as [He Hn].
  pose proof (stored_policy_name format parse CRD "" _ Hn) as Hname. split; [|exact Hname]. split.
  - exact (proj1 (st_ok _ _ (stable_policy format parse CRD CRD) _ He)).
  - exact (eq_trans (f_equal _ Hname) (eq_trans Hn (eq_sym Hname))).
Qed.
Lemma good_binding_sent b :
  good_binding format parse CRD b →
  good_binding format parse CRD (as_sent binding_kind_name (binding CRD) b) ∧
  binding_name (as_sent binding_kind_name (binding CRD) b) = binding_name b.
Proof.
  intros Hg. apply (good_binding_set (Kinds.kind_TypeMeta (crd_kind binding_kind_name))) in Hg as [He Hn].
  pose proof (stored_binding_name format parse CRD "" _ Hn) as Hname. split; [|exact Hname]. split.
  - exact (proj1 (st_ok _ _ (stable_binding format parse CRD CRD) _ He)).
  - exact (eq_trans (f_equal _ Hname) (eq_trans Hn (eq_sym Hname))).
Qed.

(** Without a kind there is no version to relabel. *)
Lemma untyped_shown p : untyped (shown format parse p) = shown format parse (untyped p).
Proof.
  unfold shown. rewrite (stored_untyped _ _ _ _ (crd_registered policy_kind_name (policy CRD)
    (proj1 policy_names) (policy_holds_kind format parse CRD))).
  by destruct (stored (policy CRD) p).
Qed.
Lemma untyped_shown_binding b :
  untyped (shown_binding format parse b) = shown_binding format parse (untyped b).
Proof.
  unfold shown_binding. rewrite (stored_untyped _ _ _ _ (crd_registered binding_kind_name (binding CRD)
    (proj1 binding_names) (binding_holds_kind format parse CRD))).
  by destruct (stored (binding CRD) b).
Qed.

Definition native :=
  Stack.AdmissionregistrationV1alpha1Client format parse policy_codecs binding_codecs client rt data_bytes.

Section served.
Variable prefix : list string.
Hypothesis parameters_found : ∀ o e, encode_parameters o = inl e → IsNotFound (Some e) = false.

Lemma serves_policies_json ok abs admitted :
  json_serves policy_kind_name policy_wire policy_name (good_policy format parse CRD) prefix
    "validatingadmissionpolicies" ok abs admitted →
  serves policy_codecs rt "validatingadmissionpolicies" (zero (policy CRD)) policy_name prefix ok untyped abs
    (good_policy format parse CRD) (json_admitted policy_kind_name (policy CRD) admitted).
Proof.
  pose proof (lawful_policy_wire format parse parse_format) as Hl. intros Hs. rewrite <- (law_zero _ _ Hl).
  refine (json_typed_serves _ (policy CRD) policy_wire _ _ policy_names _ Hl _ _ _ parameters_found _ _ _ _ _ Hs).
  - apply policy_holds_kind.
  - by intros p [He _].
  - apply good_policy_sent.
  - intros p Hg. split; [by apply good_policy_set|done].
Qed.
Lemma serves_bindings_json ok abs admitted :
  json_serves binding_kind_name binding_wire binding_name (good_binding format parse CRD) prefix
    "validatingadmissionpolicybindings" ok abs admitted →
  serves binding_codecs rt "validatingadmissionpolicybindings" (zero (binding CRD)) binding_name prefix ok untyped
    abs (good_binding format parse CRD) (json_admitted binding_kind_name (binding CRD) admitted).
Proof.
  pose proof (lawful_binding_wire format parse parse_format) as Hl. intros Hs. rewrite <- (law_zero _ _ Hl).
  refine (json_typed_serves _ (binding CRD) binding_wire _ _ binding_names _ Hl _ _ _ parameters_found _ _ _ _ _ Hs).
  - apply binding_holds_kind.
  - by intros b [He _].
  - apply good_binding_sent.
  - intros b Hg. split; [by apply good_binding_set|done].
Qed.
End served.

(** The whole stack over a transport of JSON documents. *)
Lemma native_over_json prefix (ok_p ok_b : W → Prop) abs_p abs_b admitted_p admitted_b :
  Rest.prefix_is client prefix →
  (∀ o e, encode_parameters o = inl e → IsNotFound (Some e) = false) →
  json_serves policy_kind_name policy_wire policy_name (good_policy format parse CRD) prefix
    "validatingadmissionpolicies" ok_p abs_p admitted_p →
  json_serves binding_kind_name binding_wire binding_name (good_binding format parse CRD) prefix
    "validatingadmissionpolicybindings" ok_b abs_b admitted_b →
  Transformed.client_spec (ValidatingAdmissionPolicies format parse native) ok_p untyped
    (λ w, shown format parse <$> abs_p w) policy_name (good_policy format parse Native)
    (λ p p', ∃ q, json_admitted policy_kind_name (policy CRD) admitted_p (submitted format parse p) q ∧
                  p' = shown format parse q) ∧
  Transformed.client_spec (ValidatingAdmissionPolicyBindings format parse native) ok_b untyped
    (λ w, shown_binding format parse <$> abs_b w) binding_name (good_binding format parse Native)
    (λ b b', ∃ q, json_admitted binding_kind_name (binding CRD) admitted_b (submitted_binding format parse b) q ∧
                  b' = shown_binding format parse q).
Proof.
  intros Hprefix Hparams Hp Hb.
  refine (Stack.native_api_over_rest format parse policy_codecs binding_codecs client rt data_bytes parse_format
    prefix ok_p ok_b abs_p abs_b _ _ untyped untyped _ untyped untyped _ untyped_shown untyped_shown_binding
    Hprefix _ _).
  - apply serves_policies_json; done.
  - apply serves_bindings_json; done.
Qed.
End wire.

(** ** Over a network *)
Section network.
Context {W Options Watcher : Type} `{!ListOptions Options}.
Context (net : Send.Network W) (inner : error → error).
Context (ParseMediaType : string → error + string) (Negotiator : string → bool) (parse_body : string → body).
Context (unmarshal_type : Scheme.go_type → json → option error) (content_type content_group : string).
Context (newStreamWatcher : Send.Response → GO W (returns error Watcher)) (emptyWatch : Watcher).
Context (format : Z → string) (parse : string → error + Time).
Context (contentType : string) (encode_options : Options → error + body).
Context (encode_parameters : Options → error + gmap string (list string)).
Context (client : Rest.RESTClient) (data_bytes : string → body).

(** The transport of the clients, and a single attempt of it. *)
Definition network_transport : Rest.Transport body W Watcher :=
  Send.transport net inner ParseMediaType Negotiator parse_body unmarshal_type content_type content_group
    newStreamWatcher emptyWatch.
Definition attempt : Rest.Transport body W Watcher :=
  Send.once net ParseMediaType Negotiator parse_body unmarshal_type content_type content_group
    (Rest.openWatch network_transport).

(** C14: The whole stack over a network: with an API server that keeps JSON
    documents of policies and of bindings under the group's path (in every attempt
    it stores what it decodes from the body that it is sent, answers with
    documents that decode to what it stores, and changes nothing when it fails),
    and a context, a rate limiter and an HTTP client whose own errors are not "not
    found", the injected native clients are clients of the native API: they read
    and write, under the same names, the native conversions of the stored objects,
    kinds aside; what is stored of an object that is written is what the server
    admits of its conversion, marked with the kind of the CRD and as JSON holds it;
    errors, also after repeated attempts, change nothing and "not found" is said
    only of what is not stored. *)
Theorem native_api_over_network prefix (ok_p ok_b : W → Prop) abs_p abs_b admitted_p admitted_b :
  (∀ sec, representable sec → parse (format sec) = inr (Some (sec, 0))) →
  Rest.prefix_is client prefix →
  (∀ o e, encode_parameters o = inl e → IsNotFound (Some e) = false) →
  (∀ r e, Send.newHTTPRequest net r = Some e → IsNotFound (Some e) = false) →
  (∀ m, Send.bystanders net (λ w, ok_p w ∧ abs_p w = m) (λ e, IsNotFound (Some e) = false)) →
  (∀ m, Send.bystanders net (λ w, ok_b w ∧ abs_b w = m) (λ e, IsNotFound (Some e) = false)) →
  json_serves attempt policy_kind_name (policy_wire format parse) policy_name (good_policy format parse CRD)
    prefix "validatingadmissionpolicies" ok_p abs_p admitted_p →
  json_serves attempt binding_kind_name (binding_wire format parse) binding_name (good_binding format parse CRD)
    prefix "validatingadmissionpolicybindings" ok_b abs_b admitted_b →
  let injected := native unmarshal_type format parse contentType encode_options encode_parameters
                    network_transport client data_bytes in
  Transformed.client_spec (ValidatingAdmissionPolicies format parse injected) ok_p untyped
    (λ w, shown format parse <$> abs_p w) policy_name (good_policy format parse Native)
    (λ p p', ∃ q, json_admitted policy_kind_name (validatingAdmissionPolicy_codec format parse CRD) admitted_p
                    (submitted format parse p) q ∧ p' = shown format parse q) ∧
  Transformed.client_spec (ValidatingAdmissionPolicyBindings format parse injected) ok_b untyped
    (λ w, shown_binding format parse <$> abs_b w) binding_name (good_binding format parse Native)
    (λ b b', ∃ q, json_admitted binding_kind_name (validatingAdmissionPolicyBinding_codec format parse CRD) admitted_b
                    (submitted_binding format parse b) q ∧ b' = shown_binding format parse q).
Proof.
  intros Hformat Hprefix Hparams Hreq Hby_p Hby_b Hp Hb injected.
  apply (native_over_json unmarshal_type format parse contentType encode_options encode_parameters
    network_transport client data_bytes Hformat prefix); [done|done| |].
  - exact (Send.transport_serves net inner ParseMediaType Negotiator parse_body unmarshal_type content_type content_group
      prefix _ _ _ _ _ _ _ _ _ _ _ newStreamWatcher emptyWatch Hby_p Hreq Hp).
  - exact (Send.transport_serves net inner ParseMediaType Negotiator parse_body unmarshal_type content_type content_group
      prefix _ _ _ _ _ _ _ _ _ _ _ newStreamWatcher emptyWatch Hby_b Hreq Hb).
Qed.
End network.

(** ** An API server that keeps JSON documents *)
Section documents.
Context {R V : Type} `{KindHolder R} (name : string) (c d : codec R) (key : R → string) (good : R → Prop).
Context (prefix : list string) (res : string).

(** A document is known by the object that it decodes to. *)
Definition read (j : json) : R := (unmarshal_body d (Tree j) (zero d)).1.
Definition well_formed (j : json) : Prop :=
  document d (crd_kind name) (Tree j) (read j) ∧ good (read j).
Definition list_of (js : list json) : body :=
  Tree (JObject [("kind", JString (list_name name)); ("apiVersion", JString crd_apiVersion);
                 ("items", JArray js)]).
Definition body_tree (b : body) : option json := match b with Tree j => Some j | _ => None end.

Definition handle_documents (get : V → gmap string json) (put : gmap string json → V → V)
    : Rest.Request body → option (GO V (error + body)) :=
  MemoryServer.handle Tree list_of body_tree NoBody get put (λ j, key (read j)) prefix res.

Lemma kind_members n :
  n ∈ Scheme.known →
  f_encode typeMeta_fields (Kinds.kind_TypeMeta (crd_kind n)) =
  inr [("kind", JString n); ("apiVersion", JString crd_apiVersion)].
Proof.
  unfold Scheme.known. rewrite !elem_of_cons, elem_of_nil. by intros [->|[->|[->|[->|[]]]]].
Qed.

Lemma decode_documents js :
  Forall well_formed js → decode_elements d [] js = (read <$> js, no_error).
Proof.
  induction 1 as [|j js [[_ Hj] _] _ IH]; [done|]. simpl. unfold read at 1. revert Hj. simpl.
  unfold Unmarshal. destruct (decode d (zero d) j) as [x [|e|e]]; [|done|done]. intros _.
  simpl. by rewrite IH.
Qed.

Hypothesis names_known : name ∈ Scheme.known ∧ list_name name ∈ Scheme.known.

Lemma documents_list js :
  Forall well_formed js → list_document name d (list_of js) (read <$> js).
Proof.
  intros Hjs. pose proof (crd_registered (list_name name) (typedList_codec d) (proj2 names_known)
    (list_holds_kind d)) as Hreg. eexists. split; [split|].
  - unfold list_of. set (av := crd_apiVersion).
    change (JObject _) with (JObject ([("kind", JString (list_name name)); ("apiVersion", JString av)] ++
                                      [("items", JArray js)])).
    apply Interpret_document; [apply Hreg|apply Hreg|exact (kind_members _ (proj2 names_known))|by repeat constructor].
  - unfold unmarshal_body, Unmarshal, list_of. simpl. rewrite (decode_documents js Hjs). simpl. reflexivity.
  - done.
Qed.

(** A server that keeps documents as they are is a server of the objects that they
    decode to. *)
Lemma documents_reread {W Watcher} (rt : Rest.Transport body W Watcher) (ok : W → Prop) (docs : W → gmap string json) :
  Server.serves rt prefix res (λ b j, b = Tree j) (λ b js, b = list_of js) (λ b j, body_tree b = Some j)
    (λ j, key (read j)) ok id docs well_formed (λ j j', j' = j) →
  json_serves rt name d key good prefix res ok (λ w, (λ j, untyped (read j)) <$> docs w) (λ x x', x' = x).
Proof.
  intros Hs. apply (Server.serves_view rt prefix res (λ j, untyped (read j))) in Hs.
  refine (Server.serves_reread rt prefix res _ _ _ _ _ _ _ key _ good _ untyped
    (λ x j, read j = x) read read _ _ _ _ _ _ _ _ _ Hs).
  - intros b x [Hi Hu] Hg. destruct b as [| |j|]; [done|done| |done]. exists j.
    assert (Hr : read j = x) by (unfold read; by rewrite Hu).
    unfold well_formed. rewrite Hr. by split_and!.
  - intros b j -> [Hd Hg]. by split_and!.
  - intros b js -> Hjs. by apply documents_list.
  - intros j [Hd Hg]. by split.
  - intros x j j' <- ->. done.
Qed.

(** *** Over a network

    A server that keeps documents of limited depth whose strings are UTF-8 and
    whose numbers are integers, so that their texts are read back. *)
Definition clean (j : json) : bool :=
  Printer.integral j && Printer.utf8 j && bool_decide (Z.of_nat (Printer.depth j) + 2 ≤ Scanner.maxNestingDepth).
Definition text_of (b : body) : string := match b with Tree j => text_of_tree j | _ => "" end.

Lemma clean_text j : clean j = true → body_of_text (text_of (Tree j)) = Tree j.
Proof.
  unfold clean. rewrite !andb_true_iff, bool_decide_eq_true. intros [[Hi Hu] Hd].
  simpl. rewrite body_of_printed by (done || lia). by rewrite Printer.utf8_coerced.
Qed.
Lemma clean_list js : Forall (λ j, clean j = true) js → body_of_text (text_of (list_of js)) = list_of js.
Proof.
  intros Hjs. unfold list_of, text_of.
  assert (Hparts : forallb Printer.integral js = true ∧ forallb Printer.utf8 js = true ∧
            Z.of_nat (max_list (Printer.depth <$> js)) + 2 ≤ Scanner.maxNestingDepth).
  { induction Hjs as [|j js Hj _ IH]; [done|]. unfold clean in Hj. rewrite !andb_true_iff, bool_decide_eq_true in Hj.
    change (max_list (Printer.depth <$> j :: js)) with (Printer.depth j `max` max_list (Printer.depth <$> js))%nat.
    cbn [forallb]. destruct Hj as [[-> ->] ?], IH as (-> & -> & ?). unfold Scanner.maxNestingDepth in *.
    split_and!; [done|done|lia]. }
  destruct Hparts as (Hi & Hu & Hd).
  assert (Hname : Utf8.coerce (list_name name) = list_name name).
  { destruct names_known as [_ Hn]. revert Hn. unfold Scheme.known. rewrite !elem_of_cons, elem_of_nil.
    by intros [->|[->|[->|[->|[]]]]]. }
  rewrite body_of_printed.
  - rewrite Printer.utf8_coerced; [done|]. simpl. rewrite Hu. by rewrite bool_decide_eq_true_2.
  - simpl. by rewrite Hi.
  - change (Printer.depth _) with (S (0 `max` (0 `max` (S (max_list (Printer.depth <$> js)) `max` 0)))%nat).
    unfold Scanner.maxNestingDepth in *. lia.
Qed.

(** A server behind a network that is overloaded for a number of attempts; bodies
    travel as texts, those that are not clean are refused. *)
Section flaky.
Context {Watcher : Type} (rt : Rest.Transport body V Watcher) (openWatch : Context → Rest.Request body → GO (nat * V) (returns error Watcher)).

Definition response (code : Z) (text : string) : Send.Response :=
  {| Send.StatusCode := code; Send.ContentTypeHeader := "application/json";
     Send.RetryAfter := if bool_decide (code = 429) then Some 1 else None; Send.Text := inr text |}.
Definition respond (a : error + body) : Send.Response :=
  match a with
  | inl e => response (if IsNotFound (Some e) then 404 else 409) ""
  | inr b => response 200 (text_of b)
  end.
Definition request_clean (r : Rest.Request body) : bool :=
  match Rest.bodyBytes r with Some (Tree j) => clean j | _ => true end.
Definition flaky_Do ctx (r : Rest.Request body) : GO (nat * V) Send.attempt := λ w,
  match w.1 with
  | S n => (Value (Send.Answered (response 429 "")), (n, w.2))
  | O => if request_clean r
         then let '(a, v) := Rest.roundTrip rt ctx r w.2 in
              (match a with Value a => Value (Send.Answered (respond a)) | Panic msg => Panic msg end, (O, v))
         else (Value (Send.Answered (response 409 "")), w)
  end.
Definition flaky : Send.Network (nat * V) :=
  {| Send.ctx_Err := λ _, mret None; Send.limiter_Wait := None; Send.newHTTPRequest := λ _, None;
     Send.client_Do := flaky_Do |}.
Definition flaky_attempt : Rest.Transport body (nat * V) Watcher :=
  Send.once flaky inr (λ _, true) body_of_text (λ _ _, None) "application/json" "" openWatch.

Lemma flaky_bystanders (I : nat * V → Prop) : Send.bystanders flaky I (λ e, IsNotFound (Some e) = false).
Proof. split; [intros ctx w HI; by apply wp_ret|done|by intros msg e]. Qed.

Lemma answer_error code r :
  code ∈ [404; 409; 429] →
  ∃ e, Send.answer_of_attempt inr (λ _, true) body_of_text (λ _ _, None) "application/json" "" r
         (Send.Answered (response code "")) = inl e ∧ IsNotFound (Some e) = bool_decide (code = 404).
Proof.
  intros Hc. exists (Send.newUnstructuredResponseError inr "" r "" (response code "")).
  rewrite !elem_of_cons, elem_of_nil in Hc.
  split; [by destruct Hc as [->|[->|[->|[]]]]|]. apply Send.unstructured_NotFound. simpl. lia.
Qed.
Lemma answer_text text r :
  Send.answer_of_attempt inr (λ _, true) body_of_text (λ _ _, None) "application/json" "" r
    (Send.Answered (response 200 text)) = inr (body_of_text text).
Proof. done. Qed.

(** An attempt does what the server does, up to errors. *)
Lemma wp_flaky (I : nat * V → Prop) (N : Prop) (P : error + body → nat * V → Prop) ctx r w :
  (∀ e w', P (inl e) w' ↔ I w' ∧ (IsNotFound (Some e) = true → N)) →
  (∀ n n' v, I (n, v) → I (n', v)) →
  (∀ b w', P (inr b) w' → P (inr (body_of_text (text_of b))) w') →
  I w → (request_clean r = true → wp (Rest.roundTrip rt ctx r) w.2 (λ a v, P a (O, v))) →
  wp (Rest.roundTrip flaky_attempt ctx r) w P.
Proof.
  intros HP HI Htext Hw Hrt. apply wp_bind. unfold flaky, Send.client_Do, flaky_Do.
  assert (Hfail : ∀ code w', code ∈ [404; 409; 429] → I w' → (code = 404 → N) →
    wp (mret (Send.answer_of_attempt inr (λ _, true) body_of_text (λ _ _, None) "application/json" "" r
         (Send.Answered (response code "")))) w' P).
  { intros code w' Hc HI' HN. destruct (answer_error code r Hc) as (e & -> & He). apply wp_ret, HP.
    split; [done|]. rewrite He, bool_decide_eq_true. exact HN. }
  destruct w as [[|n] v]; simpl in *.
  - destruct (request_clean r).
    + destruct (Hrt eq_refl) as (a & v' & Hm & Ha). exists (Send.Answered (respond a)), (O, v').
      split; [unfold Send.client_Do, flaky, flaky_Do; simpl; by rewrite Hm|].
      destruct a as [e|b]; simpl.
      * apply HP in Ha as [HI' He]. destruct (IsNotFound (Some e)); apply Hfail; [set_solver|done|auto|set_solver|done|done].
      * apply wp_ret. by apply Htext.
    + eexists _, (O, v). split; [reflexivity|]. apply Hfail; [set_solver|done|done].
  - eexists _, (n, v). split; [reflexivity|]. apply Hfail; [set_solver|by eapply HI|done].
Qed.

(** A server of clean documents, seen through the network. *)
Lemma flaky_serves (ok : V → Prop) (docs : V → gmap string json) :
  Server.serves rt prefix res (λ b j, b = Tree j) (λ b js, b = list_of js) (λ b j, body_tree b = Some j)
    (λ j, key (read j)) ok id docs (λ j, well_formed j ∧ clean j = true) (λ j j', j' = j) →
  json_serves flaky_attempt name d key good prefix res (λ w, ok w.2)
    (λ w, (λ j, untyped (read j)) <$> docs w.2) (λ x x', x' = x).
Proof.
  intros [HG HL HC HU HD]. apply (documents_reread flaky_attempt (λ w, ok w.2) (λ w, docs w.2)). split; intros ctx r w.
  - intros n Hok Hpl He Hv Hurl. eapply wp_mono.
    + apply (wp_flaky (λ w', ok w'.2 ∧ docs w'.2 = docs w.2) (docs w.2 !! n = None) (λ a w', ok w'.2 ∧ docs w'.2 = docs w.2 ∧
        match a with
        | inr b => ∃ j, b = Tree j ∧ (well_formed j ∧ clean j = true) ∧ docs w.2 !! n = Some (id j)
        | inl e => IsNotFound (Some e) = true → docs w.2 !! n = None
        end)); [naive_solver|done| |done|by intros _; apply HG].
      intros b w' (H1 & H2 & j & -> & [Hwf Hcl] & Hj). rewrite clean_text by done. split_and!; [done|done|]. by exists j.
    + intros [e|b] w' (H1 & H2 & Ha); [done|]. destruct Ha as (j & -> & [Hwf _] & Hj). split_and!; [done|done|]. by exists j.
  - intros Hok He Hv Hurl. eapply wp_mono.
    + apply (wp_flaky (λ w', ok w'.2 ∧ docs w'.2 = docs w.2) True (λ a w', ok w'.2 ∧ docs w'.2 = docs w.2 ∧
        match a with
        | inr b => ∃ js, b = list_of js ∧ Forall (λ j, well_formed j ∧ clean j = true) js ∧ id <$> js ≡ₚ (map_to_list (docs w.2)).*2
        | inl e => True
        end)); [naive_solver|done| |done|by intros _; apply HL].
      intros b w' (H1 & H2 & js & -> & Hjs & Hp). rewrite clean_list by (eapply Forall_impl; [exact Hjs|by intros ? []]).
      split_and!; [done|done|]. by exists js.
    + intros [e|b] w' (H1 & H2 & Ha); [done|]. destruct Ha as (js & -> & Hjs & Hp). split_and!; [done|done|].
      exists js. split_and!; [done| |done]. by eapply Forall_impl; [exact Hjs|intros ? []].
  - intros j b Hok Hg He Hv Hurl Hs Hb. eapply wp_mono.
    + apply (wp_flaky (λ w', ok w'.2 ∧ docs w'.2 = docs w.2) True (λ a w', ok w'.2 ∧
        match a with
        | inr b => ∃ j', b = Tree j' ∧ (well_formed j' ∧ clean j' = true) ∧ j' = j ∧ docs w.2 !! key (read j') = None ∧
                         docs w'.2 = <[key (read j') := id j']> (docs w.2)
        | inl e => docs w'.2 = docs w.2
        end)); [naive_solver|done| |done|].
      * intros b' w' (H1 & j' & -> & [Hwf Hcl] & ?). rewrite clean_text by done. split; [done|]. by exists j'.
      * intros Hclean. eapply (HC ctx r w.2 j b); try done. split; [done|]. unfold request_clean in Hclean.
        rewrite Hb in Hclean. destruct b as [| |j'|]; [done|done| |done]. by injection Hs as ->.
    + intros [e|b'] w' (H1 & Ha); [done|]. destruct Ha as (j' & -> & [Hwf _] & ?). split; [done|]. by exists j'.
  - intros j b Hok Hg Hpl He Hv Hurl Hs Hb. eapply wp_mono.
    + apply (wp_flaky (λ w', ok w'.2 ∧ docs w'.2 = docs w.2) True (λ a w', ok w'.2 ∧
        match a with
        | inr b => ∃ j', b = Tree j' ∧ (well_formed j' ∧ clean j' = true) ∧ j' = j ∧ is_Some (docs w.2 !! key (read j')) ∧
                         docs w'.2 = <[key (read j') := id j']> (docs w.2)
        | inl e => docs w'.2 = docs w.2
        end)); [naive_solver|done| |done|].
      * intros b' w' (H1 & j' & -> & [Hwf Hcl] & ?). rewrite clean_text by done. split; [done|]. by exists j'.
      * intros Hclean. eapply (HU ctx r w.2 j b); try done. split; [done|]. unfold request_clean in Hclean.
        rewrite Hb in Hclean. destruct b as [| |j'|]; [done|done| |done]. by injection Hs as ->.
    + intros [e|b'] w' (H1 & Ha); [done|]. destruct Ha as (j' & -> & [Hwf _] & ?). split; [done|]. by exists j'.
  - intros n Hok Hpl He Hv Hurl.
    apply (wp_flaky (λ w', ok w'.2 ∧ docs w'.2 = docs w.2) True); [naive_solver|done| |done|by intros _; apply HD].
    intros b w' Hb. exact Hb.
Qed.
End flaky.
End documents.

(** ** A server of both collections, and the witnesses *)
Module Demo.
Import Conversion.Demo.
Definition cluster : Type := gmap string json * gmap string json.
Abbreviation policy_wire := (policy_wire demo_format demo_parse).
Abbreviation binding_wire := (binding_wire demo_format demo_parse).
Definition handle_policies :=
  handle_documents (V := cluster) policy_kind_name policy_wire policy_name
    Resources.crd_prefix "validatingadmissionpolicies" fst (λ ps w, (ps, w.2)).
Definition handle_bindings :=
  handle_documents (V := cluster) binding_kind_name binding_wire binding_name
    Resources.crd_prefix "validatingadmissionpolicybindings" snd (λ bs w, (w.1, bs)).
Definition server : Rest.Transport body cluster () :=
  {| Rest.roundTrip := λ _ r,
       match handle_policies r with
       | Some m => m
       | None => match handle_bindings r with
                 | Some m => m
                 | None => mret (inl Transformed.not_found)
                 end
       end;
     Rest.openWatch := λ _ _, mret (Some (), None) |}.

(** What the server keeps, and the server as it is seen through a network. *)
Definition policies_ok (v : cluster) : Prop :=
  map_Forall (λ _ j, well_formed policy_kind_name policy_wire (good_policy demo_format demo_parse CRD) j ∧
                     clean j = true) v.1.
Definition bindings_ok (v : cluster) : Prop :=
  map_Forall (λ _ j, well_formed binding_kind_name binding_wire (good_binding demo_format demo_parse CRD) j ∧
                     clean j = true) v.2.
Lemma serves_policies openWatch :
  json_serves (flaky_attempt server openWatch) policy_kind_name policy_wire policy_name
    (good_policy demo_format demo_parse CRD) Resources.crd_prefix "validatingadmissionpolicies"
    (λ w, policies_ok w.2) (λ w, (λ j, untyped (read policy_wire j)) <$> w.2.1) (λ x x', x' = x).
Proof.
  apply (flaky_serves _ _ _ _ _ _ policy_names server openWatch policies_ok fst).
  apply (MemoryServer.memory_serves Tree _ body_tree NoBody fst (λ ps w, (ps, w.2))); [done| |].
  - apply Stack.Demo.crd_plain, Resources.resources_plain.
  - intros ctx r es m Hes Hurl Hm. simpl.
    replace (handle_policies r) with (Some m) by (symmetry; exact Hm). done.
Qed.

Lemma serves_bindings openWatch :
  json_serves (flaky_attempt server openWatch) binding_kind_name binding_wire binding_name
    (good_binding demo_format demo_parse CRD) Resources.crd_prefix "validatingadmissionpolicybindings"
    (λ w, bindings_ok w.2) (λ w, (λ j, untyped (read binding_wire j)) <$> w.2.2) (λ x x', x' = x).
Proof.
  apply (flaky_serves _ _ _ _ _ _ binding_names server openWatch bindings_ok snd).
  apply (MemoryServer.memory_serves Tree _ body_tree NoBody snd (λ bs w, (w.1, bs))); [done| |].
  - apply Stack.Demo.crd_plain, Resources.resources_plain.
  - intros ctx r es m Hes Hurl Hm. simpl.
    replace (handle_bindings r) with (Some m) by (symmetry; exact Hm).
    unfold handle_policies, handle_documents, MemoryServer.handle.
    rewrite Hurl, MemoryServer.strip_other; [done|done| |done].
    apply Stack.Demo.crd_plain, Resources.resources_plain.
Qed.

(** A failure, as a server writes it. *)
Definition failure : json :=
  JObject [("kind", JString "Status"); ("apiVersion", JString "v1"); ("metadata", JObject []);
           ("status", JString "Failure"); ("message", JString "quota exceeded");
           ("reason", JString "Forbidden"); ("code", JNumber 403)].
Definition failure_status : APIStatus :=
  {| as_TypeMeta := {| tm_Kind := "Status"; tm_APIVersion := "v1" |}; as_ListMeta := zero_ListMeta;
     as_Status := {| StatusStatus := "Failure"; Message := "quota exceeded"; Reason := "Forbidden";
                     Details := None; Code := 403 |} |}.

Lemma status_registered : Scheme.New (mkGVK "" "v1" "Status") Scheme.Scheme_ = inr (Scheme.metav1 "Status").
Proof. vm_compute. reflexivity. Qed.

Lemma decode_failure :
  decode_new Scheme.Scheme_ (λ _ _, None) (mkGVK "" "v1" "Status") (Tree failure) =
  (Another (StatusObject failure_status), None).
Proof. unfold decode_new. rewrite status_registered. reflexivity. Qed.
End Demo.

Lemma native_api_over_network_witness :
  let format := Conversion.Demo.demo_format in
  let parse := Conversion.Demo.demo_parse in
  Transformed.client_spec
    (ValidatingAdmissionPolicies format parse
       (native (Options := ()) (λ _ _, None) format parse "application/json" (λ _, inr NoBody) (λ _, inr ∅)
          (network_transport (flaky Demo.server) id inr (λ _, true) body_of_text (λ _ _, None) "application/json" ""
             (λ _, mret (Some (), None)) ()) Stack.Demo.client (λ _, NoBody)))
    (λ w, Demo.policies_ok w.2) untyped
    (λ w, shown format parse <$> ((λ j, untyped (read Demo.policy_wire j)) <$> w.2.1)) policy_name
    (good_policy format parse Native)
    (λ p p', ∃ q, json_admitted policy_kind_name (validatingAdmissionPolicy_codec format parse CRD) (λ x x', x' = x)
                    (submitted format parse p) q ∧ p' = shown format parse q).
Proof.
  intros format parse.
  refine (proj1 (native_api_over_network (flaky Demo.server) id inr (λ _, true) body_of_text (λ _ _, None)
    "application/json" "" (λ _, mret (Some (), None)) () format parse "application/json" (λ _, inr NoBody) (λ _, inr ∅)
    Stack.Demo.client (λ _, NoBody) Resources.crd_prefix (λ w, Demo.policies_ok w.2) (λ w, Demo.bindings_ok w.2)
    (λ w, (λ j, untyped (read Demo.policy_wire j)) <$> w.2.1) (λ w, (λ j, untyped (read Demo.binding_wire j)) <$> w.2.2)
    (λ x x', x' = x) (λ x x', x' = x)
    Conversion.Demo.demo_parse_format (Resources.crd_prefix_is _ _) _ _ _ _ _ _)).
  - intros o e [=].
  - intros r e [=].
  - intros m. apply flaky_bystanders.
  - intros m. apply flaky_bystanders.
  - apply Demo.serves_policies.
  - apply Demo.serves_bindings.
Defined.

Lemma sent_is_read_witness :
  let p := Conversion.Demo.demo_policy "example.org/v1" in
  let t := Scheme.v1alpha1 "ValidatingAdmissionPolicy" in
  ∃ b, (Serializer.Encode Scheme.Scheme_ t (Conversion.Demo.policy CRD) Scheme.SchemeGroupVersion p).2 = inr b ∧
       Interpret b = inr (mkGVK "admissionregistration.x-k8s.io" "v1alpha1" "ValidatingAdmissionPolicy") ∧
       Into Scheme.Scheme_ (λ _ _, None) t Demo.policy_wire b (zero Demo.policy_wire) =
         (untyped (Conversion.Demo.demo_returned ""), None).
Proof.
  destruct (sent_is_read (λ _ _, None) Conversion.Demo.demo_format Conversion.Demo.demo_parse
    Conversion.Demo.demo_parse_format) as [H _].
  destruct (H (Conversion.Demo.demo_policy "example.org/v1") (Conversion.Demo.demo_policy_ok CRD _))
    as (b & Hb & Hi & Hd).
  exists b. split_and!; [exact Hb|exact Hi|]. rewrite Hd. vm_compute. reflexivity.
Defined.

Lemma Into_target_witness :
  let t := Scheme.v1alpha1 "ValidatingAdmissionPolicy" in
  let old := Conversion.Demo.demo_policy "" in
  (Into Scheme.Scheme_ (λ _ _, None) t Demo.policy_wire (Tree Demo.failure) old).1 = old ∧
  (Into Scheme.Scheme_ (λ _ _, None) t Demo.policy_wire (Tree Demo.failure) old).2 = Some (StatusError (as_Status Demo.failure_status)).
Proof.
  intros t old.
  destruct (Into_target Scheme.Scheme_ (λ _ _, None) t (Conversion.Demo.policy CRD) Demo.policy_wire
    (crd_kind "ValidatingAdmissionPolicy")
    (crd_registered "ValidatingAdmissionPolicy" _ (proj1 policy_names)
       (policy_holds_kind Conversion.Demo.demo_format Conversion.Demo.demo_parse CRD))
    (Tree Demo.failure) old) as [_ H].
  destruct H as (H1 & _ & H3); [discriminate|]. split; [exact H1|].
  apply (H3 Demo.failure_status); [reflexivity|exact Demo.decode_failure|discriminate].
Defined.

Lemma answer_of_response_witness :
  let resp := {| Send.StatusCode := 403; Send.ContentTypeHeader := "application/json"; Send.RetryAfter := None;
                 Send.Text := inr (text_of_tree Demo.failure) |} in
  let r := Rest.NewRequest Stack.Demo.client "DELETE" in
  match Send.answer_of body_of_text (λ _ _, None)
          (Send.transformResponse inr (λ _, true) "application/json" "" r resp) with
  | inr b => Send.unsuccessful 403 = false ∧
             b = if Send.decodes inr (λ _, true) "application/json" resp then body_of_text (text_of_tree Demo.failure)
                 else NoDecoder (Send.media_type "application/json" resp)
  | inl e => Send.unsuccessful 403 = true ∧ ∃ s, e = StatusError s ∧
      (Send.reports_failure inr (λ _, true) body_of_text (λ _ _, None) "application/json" resp
         (text_of_tree Demo.failure) s ∨
       (∀ s', ¬ Send.reports_failure inr (λ _, true) body_of_text (λ _ _, None) "application/json" resp
                  (text_of_tree Demo.failure) s') ∧
       Code s = 403 ∧ IsNotFound (Some e) = bool_decide (403 = 404))
  end.
Proof.
  intros resp r. apply (Send.answer_of_response inr (λ _, true) body_of_text (λ _ _, None) "application/json" "" r resp).
  - split; [reflexivity|]. intros _. by eexists.
  - simpl. lia.
Defined.
End Wire.
