(* ===== verification/GoHeap.v ===== *)
(** * Pointers, slices and maps in a heap

    Go values whose parts are shared through the heap, the tree of data that a
    value stands for, the locations it reaches, and the reference deep copy of a
    value at its type.  The generated copy functions are in [DeepCopy]. *)
From S2P Require Import Prelude GoStrings.

Module GoHeap.

Definition loc := positive.

(** Values without pointers; a [time.Time] is immutable (see [metav1.Time]). *)
Inductive prim :=
  | PString (s : string)
  | PInt (z : Z)
  | PBool (b : bool)
  | PTime (t : option (Z * Z)).

(** A value: the words that an assignment copies. A slice is an array with an
    offset and a length. *)
Inductive val :=
  | Prim (p : prim)
  | Struct (fields : list (string * val))
  | Ptr (p : option loc)
  | Slice (s : option (loc * nat * nat))
  | Map (m : option loc).

(** What a location holds: a variable, the array of slices, a map of strings. *)
Inductive cell :=
  | Cell (v : val)
  | Array (vs : list val)
  | Table (m : gmap string string).

Abbreviation heap := (gmap loc cell).

(** Types without recursion. *)
Inductive ty :=
  | TPrim
  | TStruct (fields : list (string * ty))
  | TPtr (T : ty)
  | TSlice (T : ty)
  | TMap.

Inductive tree :=
  | Leaf (p : prim)
  | Node (fields : list (string * tree))
  | Deref (t : option tree)
  | Elements (ts : option (list tree))
  | Entries (m : option (gmap string string)).

Definition window {A} (off len : nat) (vs : list A) : list A := take len (drop off vs).

(** The data that a value stands for; [None] for a value that is not of the type
    or has a dangling pointer. *)
Definition read_fields (read : ty → val → option tree)
    : list (string * ty) → list (string * val) → option (list (string * tree)) :=
  fix go fs vs :=
    match fs, vs with
    | [], [] => Some []
    | (n, T) :: fs, (n', v) :: vs =>
        if bool_decide (n = n')
        then t ← read T v; ts ← go fs vs; Some ((n, t) :: ts) else None
    | _, _ => None
    end.

Fixpoint read (h : heap) (T : ty) (v : val) {struct T} : option tree :=
  match T, v with
  | TPrim, Prim p => Some (Leaf p)
  | TStruct fs, Struct vs => Node <$> read_fields (read h) fs vs
  | TPtr _, Ptr None => Some (Deref None)
  | TPtr T, Ptr (Some l) =>
      match h !! l with Some (Cell v) => Deref ∘ Some <$> read h T v | _ => None end
  | TSlice _, Slice None => Some (Elements None)
  | TSlice T, Slice (Some (l, off, len)) =>
      match h !! l with
      | Some (Array vs) =>
          if bool_decide (off + len ≤ length vs)%nat
          then Elements ∘ Some <$> mapM (read h T) (window off len vs) else None
      | _ => None
      end
  | TMap, Map None => Some (Entries None)
  | TMap, Map (Some l) =>
      match h !! l with Some (Table m) => Some (Entries (Some m)) | _ => None end
  | _, _ => None
  end.

(** The locations that a value reaches. *)
Definition reach_fields (reach : ty → val → gset loc)
    : list (string * ty) → list (string * val) → gset loc :=
  fix go fs vs :=
    match fs, vs with
    | (_, T) :: fs, (_, v) :: vs => reach T v ∪ go fs vs
    | _, _ => ∅
    end.

Fixpoint reach (h : heap) (T : ty) (v : val) {struct T} : gset loc :=
  match T, v with
  | TStruct fs, Struct vs => reach_fields (reach h) fs vs
  | TPtr T, Ptr (Some l) =>
      {[l]} ∪ match h !! l with Some (Cell v) => reach h T v | _ => ∅ end
  | TSlice T, Slice (Some (l, off, len)) =>
      {[l]} ∪ match h !! l with Some (Array vs) => ⋃ (reach h T <$> window off len vs) | _ => ∅ end
  | TMap, Map (Some l) => {[l]}
  | _, _ => ∅
  end.

(** ** Copying

    What [DeepCopyInto] does to [*out], given [*in]; a new variable, array or
    map is allocated with its final contents, which nothing else sees before. *)
Abbreviation copier := (val → GO heap val).

Definition nil_dereference : string := "invalid memory address or nil pointer dereference".

Definition alloc (c : cell) : GO heap loc := λ h,
  let l := fresh (dom h) in (Value l, <[l := c]> h).
Definition load (l : loc) : GO heap cell := λ h,
  match h !! l with Some c => (Value c, h) | None => (Panic nil_dereference, h) end.
Definition bad_type {A} : GO heap A := go_panic "value of another type".

(** [*out = *in]. *)
Definition assign : copier := λ v, mret v.

(** [if in.F != nil { *out = new(T); copy **in into **out }]. *)
Definition copy_ptr (f : copier) : copier := λ v,
  match v with
  | Ptr None => mret (Ptr None)
  | Ptr (Some l) =>
      c ← load l;
      match c with
      | Cell v => v' ← f v; l' ← alloc (Cell v'); mret (Ptr (Some l'))
      | _ => bad_type
      end
  | _ => bad_type
  end.

(** [if in.F != nil { *out = make([]T, len( *in)); copy each element }]. *)
Definition copy_slice (f : copier) : copier := λ v,
  match v with
  | Slice None => mret (Slice None)
  | Slice (Some (l, off, len)) =>
      c ← load l;
      match c with
      | Array vs =>
          vs' ← mapM f (window off len vs);
          l' ← alloc (Array vs'); mret (Slice (Some (l', 0%nat, length vs')))
      | _ => bad_type
      end
  | _ => bad_type
  end.

(** [if in.F != nil { *out = make(map[string]string, len( *in)); copy each entry }]. *)
Definition copy_map : copier := λ v,
  match v with
  | Map None => mret (Map None)
  | Map (Some l) =>
      c ← load l;
      match c with
      | Table m => l' ← alloc (Table m); mret (Map (Some l'))
      | _ => bad_type
      end
  | _ => bad_type
  end.

Fixpoint get_field (n : string) (vs : list (string * val)) : option val :=
  match vs with
  | [] => None
  | (n', v) :: vs => if bool_decide (n = n') then Some v else get_field n vs
  end.
Fixpoint set_field (n : string) (v : val) (vs : list (string * val)) : list (string * val) :=
  match vs with
  | [] => []
  | (n', v') :: vs => if bool_decide (n = n') then (n', v) :: vs else (n', v') :: set_field n v vs
  end.

(** [*out = *in], then these fields are copied, in this order, from [in]. *)
Fixpoint copy_fields (cs : list (string * copier)) (ins outs : list (string * val)) : GO heap val :=
  match cs with
  | [] => mret (Struct outs)
  | (n, f) :: cs =>
      match get_field n ins with
      | Some v => v' ← f v; copy_fields cs ins (set_field n v' outs)
      | None => bad_type
      end
  end.
Definition copy_struct (cs : list (string * copier)) : copier := λ v,
  match v with Struct vs => copy_fields cs vs vs | _ => bad_type end.

(** The reference: the deep copy of a value, from its type. *)
Definition deep_fields (copy : ty → copier)
    : list (string * ty) → list (string * val) → GO heap (list (string * val)) :=
  fix go fs vs :=
    match fs, vs with
    | (_, T) :: fs, (n, v) :: vs => v' ← copy T v; vs' ← go fs vs; mret ((n, v') :: vs')
    | _, _ => mret []
    end.
Fixpoint copy (T : ty) (v : val) {struct T} : GO heap val :=
  match T with
  | TPrim => assign v
  | TStruct fs =>
      match v with Struct vs => vs' ← deep_fields copy fs vs; mret (Struct vs') | _ => bad_type end
  | TPtr T => copy_ptr (copy T) v
  | TSlice T => copy_slice (copy T) v
  | TMap => copy_map v
  end.

(** ** Reading *)
Lemma ty_nested_ind (P : ty → Prop) :
  P TPrim → (∀ fs, Forall (λ f, P f.2) fs → P (TStruct fs)) →
  (∀ T, P T → P (TPtr T)) → (∀ T, P T → P (TSlice T)) → P TMap → ∀ T, P T.
Proof.
  intros Hp Hs Hr Hl Hm. fix IH 1. intros [|fs|T|T|]; [done| | | |done].
  - apply Hs. induction fs as [|[n T] fs IHfs]; constructor; [apply IH|done].
  - apply Hr, IH.
  - apply Hl, IH.
Qed.

Lemma read_fields_cons rd n T fs vs ts :
  read_fields rd ((n, T) :: fs) vs = Some ts ↔
  ∃ v vs' t ts', vs = (n, v) :: vs' ∧ ts = (n, t) :: ts' ∧
    rd T v = Some t ∧ read_fields rd fs vs' = Some ts'.
Proof.
  split.
  - destruct vs as [|[n' v] vs']; simpl; [done|]. case_bool_decide as Hn; [subst n'|done].
    intros (t & Ht & (ts' & Hts & [= <-])%bind_Some)%bind_Some. by exists v, vs', t, ts'.
  - intros (v & vs' & t & ts' & -> & -> & Ht & Hts). simpl. rewrite bool_decide_eq_true_2 by done.
    by rewrite Ht; simpl; rewrite Hts.
Qed.

(** What reading needs of the heap. *)
Lemma read_ptr h T v t :
  read h (TPtr T) v = Some t ↔
  v = Ptr None ∧ t = Deref None ∨
  ∃ l w u, v = Ptr (Some l) ∧ t = Deref (Some u) ∧ h !! l = Some (Cell w) ∧ read h T w = Some u.
Proof.
  split.
  - destruct v as [| |[l|]| |]; simpl; try done; [|intros [= <-]; by left].
    destruct (h !! l) as [[w| |]|] eqn:Hl; try done.
    intros (u & Hu & ->)%fmap_Some. right. by exists l, w, u.
  - intros [[-> ->]|(l & w & u & -> & -> & Hl & Hu)]; [done|]. simpl. by rewrite Hl, Hu.
Qed.

Lemma read_slice h T v t :
  read h (TSlice T) v = Some t ↔
  v = Slice None ∧ t = Elements None ∨
  ∃ l off len vs ts, v = Slice (Some (l, off, len)) ∧ t = Elements (Some ts) ∧
    h !! l = Some (Array vs) ∧ (off + len ≤ length vs)%nat ∧
    Forall2 (λ w u, read h T w = Some u) (window off len vs) ts.
Proof.
  split.
  - destruct v as [| | |[[[l off] len]|]|]; simpl; try done; [|intros [= <-]; by left].
    destruct (h !! l) as [[|vs|]|] eqn:Hl; try done. case_bool_decide; [|done].
    intros (ts & Hts%mapM_Some & ->)%fmap_Some. right. by exists l, off, len, vs, ts.
  - intros [[-> ->]|(l & off & len & vs & ts & -> & -> & Hl & Hlen & Hts)]; [done|].
    simpl. rewrite Hl, bool_decide_eq_true_2 by done. apply mapM_Some in Hts. by rewrite Hts.
Qed.

Lemma read_map h v t :
  read h TMap v = Some t ↔
  v = Map None ∧ t = Entries None ∨
  ∃ l m, v = Map (Some l) ∧ t = Entries (Some m) ∧ h !! l = Some (Table m).
Proof.
  split.
  - destruct v as [| | | |[l|]]; simpl; try done; [|intros [= <-]; by left].
    destruct (h !! l) as [[| |m]|] eqn:Hl; try done. intros [= <-]. right. by exists l, m.
  - intros [[-> ->]|(l & m & -> & -> & Hl)]; [done|]. simpl. by rewrite Hl.
Qed.

Lemma read_struct h fs v t :
  read h (TStruct fs) v = Some t ↔
  ∃ vs ts, v = Struct vs ∧ t = Node ts ∧ read_fields (read h) fs vs = Some ts.
Proof.
  split.
  - destruct v; try done. intros (ts & Hts & ->)%fmap_Some. by eexists _, _.
  - intros (vs & ts & -> & -> & Hts). simpl. by rewrite Hts.
Qed.

Lemma elem_of_reach_slice h T l off len vs l' :
  h !! l = Some (Array vs) →
  l' ∈ reach h (TSlice T) (Slice (Some (l, off, len))) ↔
  l' = l ∨ ∃ w, w ∈ window off len vs ∧ l' ∈ reach h T w.
Proof.
  intros Hl. simpl. rewrite Hl, elem_of_union, elem_of_singleton, elem_of_union_list.
  setoid_rewrite list_elem_of_fmap. naive_solver.
Qed.

(** Frame: reading depends on the locations it reaches and on nothing else. *)
Definition agree_on (S : gset loc) (h h' : heap) : Prop := ∀ l, l ∈ S → h' !! l = h !! l.

Lemma read_agree T : ∀ h h' v t,
  read h T v = Some t → agree_on (reach h T v) h h' → read h' T v = Some t ∧ reach h' T v = reach h T v.
Proof.
  induction T as [|fs IH|T IH|T IH|] using ty_nested_ind; intros h h' v t Hr Hag.
  - by destruct v.
  - apply read_struct in Hr as (vs & ts & -> & -> & Hts). simpl in Hag.
    assert (read_fields (read h') fs vs = Some ts ∧ reach h' (TStruct fs) (Struct vs) = reach h (TStruct fs) (Struct vs))
      as [H1 H2]; [|split; [by apply read_struct; eauto|done]].
    revert vs ts Hts Hag. induction IH as [|[n T] fs HT _ IHfs]; intros vs ts Hts Hag; [by destruct vs|].
    apply read_fields_cons in Hts as (w & vs' & u & ts' & -> & -> & Hu & Hts). simpl in Hag.
    destruct (HT h h' w u) as [Hu' Hw]; [done|intros l Hl; apply Hag; set_solver|].
    destruct (IHfs vs' ts') as [Hts' Hvs]; [done|intros l Hl; apply Hag; set_solver|].
    split; [|by simpl in *; rewrite Hw, Hvs].
    apply read_fields_cons. by eexists _, _, _, _.
  - apply read_ptr in Hr as [[-> ->]|(l & w & u & -> & -> & Hl & Hu)]; [done|]. simpl in Hag |- *.
    rewrite Hl in Hag |- *. rewrite (Hag l), Hl by set_solver.
    destruct (IH h h' w u) as [-> ->]; [done|intros l' Hl'; apply Hag; set_solver|done].
  - apply read_slice in Hr as [[-> ->]|(l & off & len & vs & ts & -> & -> & Hl & Hlen & Hts)]; [done|].
    assert (Hl' : h' !! l = Some (Array vs)).
    { rewrite <- Hl. apply Hag, elem_of_reach_slice with vs; eauto. }
    assert (Hws : ∀ w, w ∈ window off len vs → agree_on (reach h T w) h h').
    { intros w Hw l' Hl''. apply Hag, elem_of_reach_slice with vs; eauto. }
    split.
    + apply read_slice. right. exists l, off, len, vs, ts. split_and!; try done.
      apply Forall2_same_length_lookup_2; [by eapply Forall2_length|].
      intros i w u Hw Hu. apply (IH h h'); [exact (Forall2_lookup_lr _ _ _ _ _ _ Hts Hw Hu)|].
      by eapply Hws, list_elem_of_lookup_2.
    + simpl. rewrite Hl, Hl'. do 2 f_equal. apply list_fmap_ext. intros i w Hw.
      destruct (Forall2_lookup_l _ _ _ _ _ Hts Hw) as (u & _ & Hu).
      apply (IH h h' w u); [exact Hu|]. by eapply Hws, list_elem_of_lookup_2.
  - apply read_map in Hr as [[-> ->]|(l & m & -> & -> & Hl)]; [done|].
    simpl in Hag |- *. by rewrite (Hag l), Hl by set_solver.
Qed.

Lemma reach_dom T : ∀ h v t, read h T v = Some t → reach h T v ⊆ dom h.
Proof.
  induction T as [|fs IH|T IH|T IH|] using ty_nested_ind; intros h v t Hr.
  - by destruct v.
  - apply read_struct in Hr as (vs & ts & -> & -> & Hts). simpl.
    revert vs ts Hts. induction IH as [|[n T] fs HT _ IHfs]; intros vs ts Hts; [by destruct vs|].
    apply read_fields_cons in Hts as (w & vs' & u & ts' & -> & -> & Hu & Hts). simpl.
    apply union_least; [by eapply HT|by eapply IHfs].
  - apply read_ptr in Hr as [[-> ->]|(l & w & u & -> & -> & Hl & Hu)]; [done|]. simpl. rewrite Hl.
    apply union_least; [|by eapply IH]. apply singleton_subseteq_l, elem_of_dom. eauto.
  - apply read_slice in Hr as [[-> ->]|(l & off & len & vs & ts & -> & -> & Hl & Hlen & Hts)]; [done|].
    intros l' [->|(w & Hw & Hl')]%(elem_of_reach_slice _ _ _ _ _ vs); [apply elem_of_dom; eauto| |done].
    apply list_elem_of_lookup in Hw as [i Hw]. destruct (Forall2_lookup_l _ _ _ _ _ Hts Hw) as (u & _ & Hu).
    by eapply IH.
  - apply read_map in Hr as [[-> ->]|(l & m & -> & -> & Hl)]; [done|]. simpl.
    apply singleton_subseteq_l, elem_of_dom. eauto.
Qed.

(** A larger heap holds the same data. *)
Lemma read_mono h h' T v t :
  read h T v = Some t → h ⊆ h' → read h' T v = Some t ∧ reach h' T v = reach h T v.
Proof.
  intros Hr Hh. eapply read_agree; [done|]. intros l Hl.
  apply (reach_dom _ _ _ _ Hr), elem_of_dom in Hl as [c Hc]. rewrite Hc. by eapply lookup_weaken.
Qed.

(** ** What a deep copy promises

    It does not panic, changes nothing of the old heap, and gives a value that
    stands for the same data and reaches only new locations. *)
Definition copied (h : heap) (T : ty) (t : tree) (v' : val) (h' : heap) : Prop :=
  h ⊆ h' ∧ read h' T v' = Some t ∧ reach h' T v' ## dom h.
Definition deep (T : ty) (f : copier) : Prop := ∀ h v t,
  read h T v = Some t → wp (f v) h (copied h T t).

Lemma copied_mono h T t v' h' h'' : copied h T t v' h' → h' ⊆ h'' → copied h T t v' h''.
Proof.
  intros (Hh & Hr & Hd) Hh'. destruct (read_mono _ _ _ _ _ Hr Hh') as [Hr' Hreach].
  split_and!; [by etrans|done|by rewrite Hreach].
Qed.

Lemma copied_older h0 h T t v' h' : h0 ⊆ h → copied h T t v' h' → copied h0 T t v' h'.
Proof.
  intros Hh (Hh' & Hr & Hd). split_and!; [by etrans|done|].
  assert (dom h0 ⊆ dom h) by by apply subseteq_dom. set_solver.
Qed.

Lemma wp_alloc c h (Q : loc → heap → Prop) :
  (∀ l, h !! l = None → Q l (<[l := c]> h)) → wp (alloc c) h Q.
Proof. intros HQ. eexists _, _. split; [done|]. apply HQ, not_elem_of_dom, is_fresh. Qed.

Lemma wp_load l h c (Q : cell → heap → Prop) : h !! l = Some c → Q c h → wp (load l) h Q.
Proof. intros Hl HQ. exists c, h. split; [|done]. unfold load. by rewrite Hl. Qed.

Lemma wp_same T v t h :
  read h T v = Some t → reach h T v = ∅ → wp (mret (M := GO heap) v) h (copied h T t).
Proof. intros Hr Hv. apply wp_ret. split_and!; [done|done|]. rewrite Hv. apply disjoint_empty_l. Qed.

Lemma deep_ptr T f : deep T f → deep (TPtr T) (copy_ptr f).
Proof.
  intros Hf h v t Hr.
  apply read_ptr in Hr as [[-> ->]|(l & w & u & -> & -> & Hl & Hu)]; [by apply (wp_same (TPtr T) (Ptr None))|].
  apply wp_bind, (wp_load _ _ _ _ Hl), wp_bind. eapply wp_mono; [by apply Hf|].
  intros w' h' (Hh & Hr & Hd). apply wp_bind, wp_alloc. intros l' Hl'. apply wp_ret.
  assert (Hh' : h' ⊆ <[l' := Cell w']> h') by by apply insert_subseteq.
  destruct (read_mono _ _ _ _ _ Hr Hh') as [Hr' Hreach]. split_and!; [by etrans| |].
  - apply read_ptr. right. exists l', w', u. by rewrite lookup_insert_eq.
  - simpl. rewrite lookup_insert_eq, Hreach.
    assert (l' ∉ dom h) by (rewrite not_elem_of_dom; by eapply lookup_weaken_None). set_solver.
Qed.

(** The elements of a slice, one after the other. *)
Lemma deep_elements T f vs : ∀ h ts,
  deep T f → Forall2 (λ v t, read h T v = Some t) vs ts →
  wp (mapM f vs) h (λ vs' h', h ⊆ h' ∧ Forall2 (λ v' t, copied h T t v' h') vs' ts).
Proof.
  induction vs as [|v vs IH]; intros h ts Hf Hts; inversion Hts as [|? t ? ts' Ht Hts']; subst; simpl.
  - by apply wp_ret.
  - apply wp_bind. eapply wp_mono; [by apply Hf|]. intros v' h1 Hc. pose proof Hc as (Hh & _ & _).
    apply wp_bind. eapply wp_mono.
    { apply (IH h1 ts' Hf). eapply Forall2_impl; [done|]. intros w u Hu. apply (read_mono h h1 T w u Hu Hh). }
    intros vs' h2 [Hh' Hcs]. apply wp_ret. split; [by etrans|]. constructor.
    + by eapply copied_mono.
    + eapply Forall2_impl; [done|]. intros w u. by apply copied_older.
Qed.

Lemma deep_slice T f : deep T f → deep (TSlice T) (copy_slice f).
Proof.
  intros Hf h v t Hr.
  apply read_slice in Hr as [[-> ->]|(l & off & len & vs & ts & -> & -> & Hl & Hlen & Hts)]; [by apply (wp_same (TSlice T) (Slice None))|].
  apply wp_bind, (wp_load _ _ _ _ Hl), wp_bind. eapply wp_mono; [by apply deep_elements|].
  intros vs' h' [Hh Hcs]. apply wp_bind, wp_alloc. intros l' Hl'. apply wp_ret.
  assert (Hh' : h' ⊆ <[l' := Array vs']> h') by by apply insert_subseteq.
  assert (Hcs' : Forall2 (λ v' t, copied h T t v' (<[l' := Array vs']> h')) vs' ts).
  { eapply Forall2_impl; [done|]. intros w u Hc. exact (copied_mono _ _ _ _ _ _ Hc Hh'). }
  assert (Hw : window 0 (length vs') vs' = vs') by (unfold window; by rewrite drop_0, firstn_all).
  split_and!; [by etrans| |].
  - apply read_slice. right. exists l', 0%nat, (length vs'), vs', ts.
    rewrite lookup_insert_eq, Hw. split_and!; [done..|]. eapply Forall2_impl; [done|]. by intros w u (_ & ? & _).
  - apply elem_of_disjoint. intros l''.
    rewrite (elem_of_reach_slice _ _ _ _ _ vs'), Hw by apply lookup_insert_eq. intros [->|(w & Hw' & Hin)] Hdom.
    + apply elem_of_dom in Hdom as [c Hc]. pose proof (lookup_weaken _ _ _ _ Hc Hh). congruence.
    + apply list_elem_of_lookup in Hw' as [i Hi].
      destruct (Forall2_lookup_l _ _ _ _ _ Hcs' Hi) as (u & _ & _ & _ & Hd). set_solver.
Qed.

Lemma deep_map : deep TMap copy_map.
Proof.
  intros h v t Hr. apply read_map in Hr as [[-> ->]|(l & m & -> & -> & Hl)]; [by apply (wp_same TMap (Map None))|].
  apply wp_bind, (wp_load _ _ _ _ Hl), wp_bind, wp_alloc. intros l' Hl'. apply wp_ret.
  split_and!; [by apply insert_subseteq| |].
  - simpl. by rewrite lookup_insert_eq.
  - simpl. apply not_elem_of_dom in Hl'. set_solver.
Qed.

Lemma deep_struct fs :
  Forall (λ f, deep f.2 (copy f.2)) fs → deep (TStruct fs) (copy (TStruct fs)).
Proof.
  intros Hfs h v t Hr. apply read_struct in Hr as (vs & ts & -> & -> & Hts). simpl. apply wp_bind.
  assert (wp (deep_fields copy fs vs) h
    (λ vs' h', copied h (TStruct fs) (Node ts) (Struct vs') h')) as H;
    [|eapply wp_mono; [exact H|]; intros vs' h' Hc; by apply wp_ret].
  revert h vs ts Hts. induction Hfs as [|[n T] fs HT _ IH]; intros h vs ts Hts.
  - destruct vs; [|done]. injection Hts as <-. by apply wp_ret.
  - apply read_fields_cons in Hts as (w & vs' & u & ts' & -> & -> & Hu & Hts). simpl.
    apply wp_bind. eapply wp_mono; [by apply HT|]. intros w' h1 Hc. pose proof Hc as (Hh & _ & _).
    assert (Hts1 : read h1 (TStruct fs) (Struct vs') = Some (Node ts')).
    { eapply read_mono; [|done]. apply read_struct. eauto. }
    apply read_struct in Hts1 as (? & ? & [= <-] & [= <-] & Hts1).
    apply wp_bind. eapply wp_mono; [by apply IH|]. intros vs2 h2 Hc2. pose proof Hc2 as (Hh2 & Hr2 & Hd2).
    apply wp_ret. destruct (copied_mono _ _ _ _ _ _ Hc Hh2) as (H1 & H2 & H3).
    apply read_struct in Hr2 as (? & ? & [= <-] & [= <-] & Hr2). split_and!; [done| |].
    + apply read_struct. eexists _, _. split_and!; [done..|]. apply read_fields_cons. by eexists _, _, _, _.
    + simpl in *. assert (dom h ⊆ dom h1) by by apply subseteq_dom. set_solver.
Qed.

(** The reference copy is deep. *)
Lemma copy_deep T : deep T (copy T).
Proof.
  induction T as [|fs IH|T IH|T IH|] using ty_nested_ind.
  - intros h v t Hr. apply wp_same; [done|by destruct v].
  - by apply deep_struct.
  - by apply deep_ptr.
  - by apply deep_slice.
  - apply deep_map.
Qed.

(** ** Copy functions that agree with the reference *)
Definition same_copy (T : ty) (f : copier) : Prop := ∀ h v t,
  read h T v = Some t → f v h = copy T v h.

Lemma go_bind_run {W A B} (m m' : GO W A) (k : A → GO W B) w : m w = m' w → (m ≫= k) w = (m' ≫= k) w.
Proof. intros Hm. unfold mbind, GO_bind. by rewrite Hm. Qed.

Lemma same_copy_deep T f : same_copy T f → deep T f.
Proof.
  intros Hf h v t Hr. destruct (copy_deep T h v t Hr) as (v' & h' & Hc & H).
  exists v', h'. split; [|done]. by rewrite (Hf _ _ _ Hr).
Qed.

(** A type without pointers is copied by assignment. *)
Fixpoint flat (T : ty) : bool :=
  match T with
  | TPrim => true
  | TStruct fs => forallb (λ f, flat f.2) fs
  | _ => false
  end.

Lemma flat_copy T : ∀ h v t, flat T = true → read h T v = Some t → copy T v h = (Value v, h).
Proof.
  induction T as [|fs IH|T IH|T IH|] using ty_nested_ind; intros h v t Hf Hr; try done.
  apply read_struct in Hr as (vs & ts & -> & -> & Hts).
  assert (deep_fields copy fs vs h = (Value vs, h)) as H; [|simpl; by rewrite (go_bind_value _ _ _ _ _ H)].
  simpl in Hf. revert vs ts Hts Hf.
  induction IH as [|[n T] fs HT _ IHfs]; intros vs ts Hts Hf; [by destruct vs|].
  apply read_fields_cons in Hts as (w & vs' & u & ts' & -> & -> & Hu & Hts).
  apply andb_true_iff in Hf as [Hf1 Hf2]. simpl.
  rewrite (go_bind_value _ _ _ _ _ (HT h w u Hf1 Hu)).
  by rewrite (go_bind_value _ _ _ _ _ (IHfs vs' ts' Hts Hf2)).
Qed.

Lemma same_assign T : flat T = true → same_copy T assign.
Proof. intros Hf h v t Hr. by rewrite (flat_copy T h v t). Qed.

Lemma same_copy_refl T : same_copy T (copy T).
Proof. by intros h v t Hr. Qed.

Lemma same_ptr T f : same_copy T f → same_copy (TPtr T) (copy_ptr f).
Proof.
  intros Hf h v t Hr.
  apply read_ptr in Hr as [[-> ->]|(l & w & u & -> & -> & Hl & Hu)]; [done|]. simpl.
  rewrite !(go_bind_value (load l) _ h (Cell w) h) by (unfold load; by rewrite Hl).
  by apply go_bind_run, (Hf h w u).
Qed.

Lemma same_map : same_copy TMap copy_map.
Proof. by intros h v t Hr. Qed.

Lemma same_elements T f vs : ∀ h ts,
  same_copy T f → Forall2 (λ v t, read h T v = Some t) vs ts → mapM f vs h = mapM (copy T) vs h.
Proof.
  induction vs as [|v vs IH]; intros h ts Hf Hts; inversion Hts as [|? t ? ts' Ht Hts']; subst; [done|].
  destruct (copy_deep T h v t Ht) as (v' & h' & Hc & Hh & _). simpl.
  rewrite (go_bind_value (copy T v) _ _ _ _ Hc), (go_bind_value (f v) _ _ v' h') by (by rewrite (Hf h v t)).
  apply go_bind_run, (IH h' ts'); [done|].
  eapply Forall2_impl; [done|]. intros w u Hu. apply (read_mono h h' T w u Hu Hh).
Qed.

Lemma same_slice T f : same_copy T f → same_copy (TSlice T) (copy_slice f).
Proof.
  intros Hf h v t Hr.
  apply read_slice in Hr as [[-> ->]|(l & off & len & vs & ts & -> & -> & Hl & Hlen & Hts)]; [done|].
  simpl. rewrite !(go_bind_value (load l) _ h (Array vs) h) by (unfold load; by rewrite Hl).
  by apply go_bind_run, (same_elements T f _ h ts).
Qed.

(** The fields that a copy function names, against those of the type: a field that
    is not named has no pointers. *)
Fixpoint covers (fs : list (string * ty)) (cs : list (string * copier)) : Prop :=
  match fs, cs with
  | [], [] => True
  | [], _ :: _ => False
  | (n, T) :: fs, [] => flat T = true ∧ covers fs []
  | (n, T) :: fs', (n', f) :: cs' =>
      if bool_decide (n = n') then same_copy T f ∧ covers fs' cs' else flat T = true ∧ covers fs' cs
  end.

Lemma get_field_app n v pre vs : n ∉ pre.*1 → get_field n (pre ++ (n, v) :: vs) = Some v.
Proof.
  induction pre as [|[n' w] pre IH]; intros Hn; simpl; [by rewrite bool_decide_eq_true_2|].
  csimpl in Hn. rewrite bool_decide_eq_false_2 by set_solver. apply IH. set_solver.
Qed.
Lemma set_field_app n v v' pre vs :
  n ∉ pre.*1 → set_field n v' (pre ++ (n, v) :: vs) = (pre ++ [(n, v')]) ++ vs.
Proof.
  induction pre as [|[n' w] pre IH]; intros Hn; simpl; [by rewrite bool_decide_eq_true_2|].
  csimpl in Hn. rewrite bool_decide_eq_false_2 by set_solver. f_equal. apply IH. set_solver.
Qed.

(** The fields not yet reached are those of [in]; the earlier ones are copied. *)
Lemma copy_fields_from fs : ∀ cs pre pre' vs h ts,
  pre.*1 = pre'.*1 → NoDup (pre.*1 ++ fs.*1) → covers fs cs →
  read_fields (read h) fs vs = Some ts →
  copy_fields cs (pre ++ vs) (pre' ++ vs) h =
  (vs' ← deep_fields copy fs vs; mret (Struct (pre' ++ vs'))) h.
Proof.
  induction fs as [|[n T] fs IH]; intros cs pre pre' vs h ts Hpre Hnd Hc Hts.
  { destruct vs, cs; done. }
  apply read_fields_cons in Hts as (v & vs' & u & ts' & -> & -> & Hu & Hts). csimpl in Hnd.
  assert (Hn : n ∉ pre.*1) by (apply NoDup_app in Hnd as (_ & Hnd & _); set_solver).
  assert (Hnd' : ∀ w : val, NoDup ((pre ++ [(n, w)]).*1 ++ fs.*1)).
  { intros w. by rewrite fmap_app, <- app_assoc. }
  destruct (copy_deep T h v u Hu) as (v' & h' & Hcopy & Hh & _).
  assert (Hts' : read_fields (read h') fs vs' = Some ts').
  { destruct (read_mono h h' (TStruct fs) (Struct vs') (Node ts')) as [Hr _]; [apply read_struct; eauto|done|].
    apply read_struct in Hr as (? & ? & [= <-] & [= <-] & ?). done. }
  trans ((vs' ← deep_fields copy fs vs'; mret (M := GO heap) (Struct ((pre' ++ [(n, v')]) ++ vs'))) h').
  2: { simpl. unfold mbind, GO_bind. rewrite Hcopy.
       destruct (deep_fields copy fs vs' h') as [[] ]; [|done]. by rewrite <- app_assoc. }
  assert (Hflat : flat T = true → v' = v ∧ h' = h).
  { intros Hf. rewrite (flat_copy T h v u Hf Hu) in Hcopy. by injection Hcopy. }
  assert (Hskip : flat T = true → covers fs cs →
    copy_fields cs (pre ++ (n, v) :: vs') (pre' ++ (n, v) :: vs') h =
    (vs' ← deep_fields copy fs vs'; mret (M := GO heap) (Struct ((pre' ++ [(n, v')]) ++ vs'))) h').
  { intros Hf Hc'. destruct (Hflat Hf) as [-> ->].
    rewrite (cons_middle (n, v) pre), (cons_middle (n, v) pre'), (app_assoc pre), (app_assoc pre').
    refine (IH cs (pre ++ [(n, v)]) (pre' ++ [(n, v)]) vs' h ts' _ (Hnd' v) Hc' Hts).
    by rewrite !fmap_app, Hpre. }
  destruct cs as [|[n' f] cs]; [by destruct Hc; apply Hskip|]. cbn [covers] in Hc.
  case_bool_decide as Hnn; [|by destruct Hc; apply Hskip].
  subst n'. destruct Hc as [Hf Hc]. cbn [copy_fields]. rewrite (get_field_app n v pre vs' Hn).
  assert (Hfv : f v h = (Value v', h')) by (by rewrite (Hf h v u)).
  rewrite (go_bind_value _ _ _ _ _ Hfv), set_field_app by (by rewrite <- Hpre).
  rewrite (cons_middle (n, v)), (app_assoc pre).
  refine (IH cs (pre ++ [(n, v)]) (pre' ++ [(n, v')]) vs' h' ts' _ (Hnd' v) Hc Hts').
  by rewrite !fmap_app, Hpre.
Qed.

Lemma same_struct fs cs :
  NoDup fs.*1 → covers fs cs → same_copy (TStruct fs) (copy_struct cs).
Proof.
  intros Hnd Hc h v t Hr. apply read_struct in Hr as (vs & ts & -> & -> & Hts).
  exact (copy_fields_from fs cs [] [] vs h ts eq_refl Hnd Hc Hts).
Qed.

(** ** Isolation

    [h2] is [h] after writes to the locations [S] and allocations. *)
Definition mutated (h : heap) (S : gset loc) (h2 : heap) : Prop :=
  ∀ l, l ∉ S → is_Some (h !! l) → h2 !! l = h !! l.

(** The original and the copy do not see writes to each other. *)
Definition isolated (T : ty) (v v' : val) (t : tree) (h h' : heap) : Prop :=
  h ⊆ h' ∧ read h' T v' = Some t ∧
  (∀ h2, mutated h' (reach h' T v') h2 → read h2 T v = Some t) ∧
  (∀ h2, mutated h' (dom h) h2 → read h2 T v' = Some t).

Lemma mutated_read h S h2 T v t :
  mutated h S h2 → read h T v = Some t → reach h T v ## S → read h2 T v = Some t.
Proof.
  intros Hm Hr Hd. eapply read_agree; [done|]. intros l Hl. apply Hm; [set_solver|].
  by apply elem_of_dom, (reach_dom _ _ _ _ Hr).
Qed.

Lemma copied_isolated h T v t v' h' :
  read h T v = Some t → copied h T t v' h' → isolated T v v' t h h'.
Proof.
  intros Hr (Hh & Hr' & Hd). destruct (read_mono _ _ _ _ _ Hr Hh) as [Hrv Hreach].
  pose proof (reach_dom _ _ _ _ Hr). split_and!; [done|done| |].
  - intros h2 Hm. eapply mutated_read; [done|done|]. rewrite Hreach. set_solver.
  - intros h2 Hm. by eapply mutated_read.
Qed.
End GoHeap.
