(* ===== verification/DeepCopy.v ===== *)
(** * The generated deep copies

    [zz_generated.deepcopy.go]: for each API type, [DeepCopyInto] and [DeepCopy],
    and [DeepCopyObject] for the types that are API objects, on the heap of
    [GoHeap]; with the functions of the vendored types that they call. *)
From S2P Require Import Prelude GoStrings GoHeap.

Module DeepCopy.
Import GoHeap.

(** ** The types, by their fields *)
Definition ty_TypeMeta : ty :=
  TStruct [("Kind", TPrim); ("APIVersion", TPrim)].
Definition ty_ListMeta : ty :=
  TStruct [("SelfLink", TPrim); ("ResourceVersion", TPrim); ("Continue", TPrim);
           ("RemainingItemCount", TPtr TPrim)].
Definition ty_OwnerReference : ty :=
  TStruct [("APIVersion", TPrim); ("Kind", TPrim); ("Name", TPrim); ("UID", TPrim);
           ("Controller", TPtr TPrim); ("BlockOwnerDeletion", TPtr TPrim)].
Definition ty_FieldsV1 : ty :=
  TStruct [("Raw", TSlice TPrim)].
Definition ty_ManagedFieldsEntry : ty :=
  TStruct [("Manager", TPrim); ("Operation", TPrim); ("APIVersion", TPrim); ("Time", TPtr TPrim);
           ("FieldsType", TPrim); ("FieldsV1", TPtr ty_FieldsV1); ("Subresource", TPrim)].
Definition ty_ObjectMeta : ty :=
  TStruct [("Name", TPrim); ("GenerateName", TPrim); ("Namespace", TPrim); ("SelfLink", TPrim);
           ("UID", TPrim); ("ResourceVersion", TPrim); ("Generation", TPrim);
           ("CreationTimestamp", TPrim); ("DeletionTimestamp", TPtr TPrim);
           ("DeletionGracePeriodSeconds", TPtr TPrim); ("Labels", TMap); ("Annotations", TMap);
           ("OwnerReferences", TSlice ty_OwnerReference); ("Finalizers", TSlice TPrim);
           ("ManagedFields", TSlice ty_ManagedFieldsEntry)].
Definition ty_LabelSelectorRequirement : ty :=
  TStruct [("Key", TPrim); ("Operator", TPrim); ("Values", TSlice TPrim)].
Definition ty_LabelSelector : ty :=
  TStruct [("MatchLabels", TMap); ("MatchExpressions", TSlice ty_LabelSelectorRequirement)].
Definition ty_Condition : ty :=
  TStruct [("Type", TPrim); ("Status", TPrim); ("ObservedGeneration", TPrim);
           ("LastTransitionTime", TPrim); ("Reason", TPrim); ("Message", TPrim)].
Definition ty_Rule : ty :=
  TStruct [("APIGroups", TSlice TPrim); ("APIVersions", TSlice TPrim); ("Resources", TSlice TPrim);
           ("Scope", TPtr TPrim)].
Definition ty_RuleWithOperations : ty :=
  TStruct [("Operations", TSlice TPrim); ("Rule", ty_Rule)].

Definition ty_AuditAnnotation : ty :=
  TStruct [("Key", TPrim); ("ValueExpression", TPrim)].
Definition ty_ExpressionWarning : ty :=
  TStruct [("FieldRef", TPrim); ("Warning", TPrim)].
Definition ty_MatchCondition : ty :=
  TStruct [("Name", TPrim); ("Expression", TPrim)].
Definition ty_NamedRuleWithOperations : ty :=
  TStruct [("ResourceNames", TSlice TPrim); ("RuleWithOperations", ty_RuleWithOperations)].
Definition ty_MatchResources : ty :=
  TStruct [("NamespaceSelector", TPtr ty_LabelSelector); ("ObjectSelector", TPtr ty_LabelSelector);
           ("ResourceRules", TSlice ty_NamedRuleWithOperations);
           ("ExcludeResourceRules", TSlice ty_NamedRuleWithOperations); ("MatchPolicy", TPtr TPrim)].
Definition ty_ParamKind : ty :=
  TStruct [("APIVersion", TPrim); ("Kind", TPrim)].
Definition ty_ParamRef : ty :=
  TStruct [("Name", TPrim); ("Namespace", TPrim)].
Definition ty_TypeChecking : ty :=
  TStruct [("ExpressionWarnings", TSlice ty_ExpressionWarning)].
Definition ty_Validation : ty :=
  TStruct [("Expression", TPrim); ("Message", TPrim); ("Reason", TPtr TPrim);
           ("MessageExpression", TPrim)].
Definition ty_ValidatingAdmissionPolicySpec : ty :=
  TStruct [("ParamKind", TPtr ty_ParamKind); ("MatchConstraints", TPtr ty_MatchResources);
           ("Validations", TSlice ty_Validation); ("FailurePolicy", TPtr TPrim);
           ("AuditAnnotations", TSlice ty_AuditAnnotation);
           ("MatchConditions", TSlice ty_MatchCondition)].
Definition ty_ValidatingAdmissionPolicyStatus : ty :=
  TStruct [("ObservedGeneration", TPrim); ("TypeChecking", TPtr ty_TypeChecking);
           ("Conditions", TSlice ty_Condition)].
Definition ty_ValidatingAdmissionPolicy : ty :=
  TStruct [("TypeMeta", ty_TypeMeta); ("ObjectMeta", ty_ObjectMeta);
           ("Spec", ty_ValidatingAdmissionPolicySpec); ("Status", ty_ValidatingAdmissionPolicyStatus)].
Definition ty_ValidatingAdmissionPolicyList : ty :=
  TStruct [("TypeMeta", ty_TypeMeta); ("ListMeta", ty_ListMeta);
           ("Items", TSlice ty_ValidatingAdmissionPolicy)].
Definition ty_ValidatingAdmissionPolicyBindingSpec : ty :=
  TStruct [("PolicyName", TPrim); ("ParamRef", TPtr ty_ParamRef);
           ("MatchResources", TPtr ty_MatchResources); ("ValidationActions", TSlice TPrim)].
Definition ty_ValidatingAdmissionPolicyBinding : ty :=
  TStruct [("TypeMeta", ty_TypeMeta); ("ObjectMeta", ty_ObjectMeta);
           ("Spec", ty_ValidatingAdmissionPolicyBindingSpec)].
Definition ty_ValidatingAdmissionPolicyBindingList : ty :=
  TStruct [("TypeMeta", ty_TypeMeta); ("ListMeta", ty_ListMeta);
           ("Items", TSlice ty_ValidatingAdmissionPolicyBinding)].

(** ** Vendored copy functions ([k8s.io/apimachinery] and [k8s.io/api]) *)
Definition ListMeta_DeepCopyInto : copier :=
  copy_struct [("RemainingItemCount", copy_ptr assign)].
Definition OwnerReference_DeepCopyInto : copier :=
  copy_struct [("Controller", copy_ptr assign); ("BlockOwnerDeletion", copy_ptr assign)].
Definition FieldsV1_DeepCopyInto : copier :=
  copy_struct [("Raw", copy_slice assign)].
Definition ManagedFieldsEntry_DeepCopyInto : copier :=
  copy_struct [("Time", copy_ptr assign); ("FieldsV1", copy_ptr FieldsV1_DeepCopyInto)].
Definition ObjectMeta_DeepCopyInto : copier :=
  copy_struct [("CreationTimestamp", assign); ("DeletionTimestamp", copy_ptr assign);
               ("DeletionGracePeriodSeconds", copy_ptr assign); ("Labels", copy_map);
               ("Annotations", copy_map); ("OwnerReferences", copy_slice OwnerReference_DeepCopyInto);
               ("Finalizers", copy_slice assign);
               ("ManagedFields", copy_slice ManagedFieldsEntry_DeepCopyInto)].
Definition LabelSelectorRequirement_DeepCopyInto : copier :=
  copy_struct [("Values", copy_slice assign)].
Definition LabelSelector_DeepCopyInto : copier :=
  copy_struct [("MatchLabels", copy_map);
               ("MatchExpressions", copy_slice LabelSelectorRequirement_DeepCopyInto)].
Definition Condition_DeepCopyInto : copier :=
  copy_struct [("LastTransitionTime", assign)].
Definition Rule_DeepCopyInto : copier :=
  copy_struct [("APIGroups", copy_slice assign); ("APIVersions", copy_slice assign);
               ("Resources", copy_slice assign); ("Scope", copy_ptr assign)].
Definition RuleWithOperations_DeepCopyInto : copier :=
  copy_struct [("Operations", copy_slice assign); ("Rule", Rule_DeepCopyInto)].

(** ** Generated copy functions

    [DeepCopy] of a pointer: nil for nil, else a new variable with the copy. *)
Definition AuditAnnotation_DeepCopyInto : copier := assign.
Definition AuditAnnotation_DeepCopy : copier := copy_ptr AuditAnnotation_DeepCopyInto.

Definition ExpressionWarning_DeepCopyInto : copier := assign.
Definition ExpressionWarning_DeepCopy : copier := copy_ptr ExpressionWarning_DeepCopyInto.

Definition MatchCondition_DeepCopyInto : copier := assign.
Definition MatchCondition_DeepCopy : copier := copy_ptr MatchCondition_DeepCopyInto.

Definition NamedRuleWithOperations_DeepCopyInto : copier :=
  copy_struct [("ResourceNames", copy_slice assign);
               ("RuleWithOperations", RuleWithOperations_DeepCopyInto)].
Definition NamedRuleWithOperations_DeepCopy : copier := copy_ptr NamedRuleWithOperations_DeepCopyInto.

Definition MatchResources_DeepCopyInto : copier :=
  copy_struct [("NamespaceSelector", copy_ptr LabelSelector_DeepCopyInto);
               ("ObjectSelector", copy_ptr LabelSelector_DeepCopyInto);
               ("ResourceRules", copy_slice NamedRuleWithOperations_DeepCopyInto);
               ("ExcludeResourceRules", copy_slice NamedRuleWithOperations_DeepCopyInto);
               ("MatchPolicy", copy_ptr assign)].
Definition MatchResources_DeepCopy : copier := copy_ptr MatchResources_DeepCopyInto.

Definition ParamKind_DeepCopyInto : copier := assign.
Definition ParamKind_DeepCopy : copier := copy_ptr ParamKind_DeepCopyInto.

Definition ParamRef_DeepCopyInto : copier := assign.
Definition ParamRef_DeepCopy : copier := copy_ptr ParamRef_DeepCopyInto.

Definition TypeChecking_DeepCopyInto : copier :=
  copy_struct [("ExpressionWarnings", copy_slice assign)].
Definition TypeChecking_DeepCopy : copier := copy_ptr TypeChecking_DeepCopyInto.

Definition Validation_DeepCopyInto : copier :=
  copy_struct [("Reason", copy_ptr assign)].
Definition Validation_DeepCopy : copier := copy_ptr Validation_DeepCopyInto.

Definition ValidatingAdmissionPolicySpec_DeepCopyInto : copier :=
  copy_struct [("ParamKind", copy_ptr assign); ("MatchConstraints", copy_ptr MatchResources_DeepCopyInto);
               ("Validations", copy_slice Validation_DeepCopyInto); ("FailurePolicy", copy_ptr assign);
               ("AuditAnnotations", copy_slice assign); ("MatchConditions", copy_slice assign)].
Definition ValidatingAdmissionPolicySpec_DeepCopy : copier := copy_ptr ValidatingAdmissionPolicySpec_DeepCopyInto.

Definition ValidatingAdmissionPolicyStatus_DeepCopyInto : copier :=
  copy_struct [("TypeChecking", copy_ptr TypeChecking_DeepCopyInto);
               ("Conditions", copy_slice Condition_DeepCopyInto)].
Definition ValidatingAdmissionPolicyStatus_DeepCopy : copier := copy_ptr ValidatingAdmissionPolicyStatus_DeepCopyInto.

Definition ValidatingAdmissionPolicy_DeepCopyInto : copier :=
  copy_struct [("TypeMeta", assign); ("ObjectMeta", ObjectMeta_DeepCopyInto);
               ("Spec", ValidatingAdmissionPolicySpec_DeepCopyInto);
               ("Status", ValidatingAdmissionPolicyStatus_DeepCopyInto)].
Definition ValidatingAdmissionPolicy_DeepCopy : copier := copy_ptr ValidatingAdmissionPolicy_DeepCopyInto.

Definition ValidatingAdmissionPolicyList_DeepCopyInto : copier :=
  copy_struct [("TypeMeta", assign); ("ListMeta", ListMeta_DeepCopyInto);
               ("Items", copy_slice ValidatingAdmissionPolicy_DeepCopyInto)].
Definition ValidatingAdmissionPolicyList_DeepCopy : copier := copy_ptr ValidatingAdmissionPolicyList_DeepCopyInto.

Definition ValidatingAdmissionPolicyBindingSpec_DeepCopyInto : copier :=
  copy_struct [("ParamRef", copy_ptr assign); ("MatchResources", copy_ptr MatchResources_DeepCopyInto);
               ("ValidationActions", copy_slice assign)].
Definition ValidatingAdmissionPolicyBindingSpec_DeepCopy : copier := copy_ptr ValidatingAdmissionPolicyBindingSpec_DeepCopyInto.

Definition ValidatingAdmissionPolicyBinding_DeepCopyInto : copier :=
  copy_struct [("TypeMeta", assign); ("ObjectMeta", ObjectMeta_DeepCopyInto);
               ("Spec", ValidatingAdmissionPolicyBindingSpec_DeepCopyInto)].
Definition ValidatingAdmissionPolicyBinding_DeepCopy : copier := copy_ptr ValidatingAdmissionPolicyBinding_DeepCopyInto.

Definition ValidatingAdmissionPolicyBindingList_DeepCopyInto : copier :=
  copy_struct [("TypeMeta", assign); ("ListMeta", ListMeta_DeepCopyInto);
               ("Items", copy_slice ValidatingAdmissionPolicyBinding_DeepCopyInto)].
Definition ValidatingAdmissionPolicyBindingList_DeepCopy : copier := copy_ptr ValidatingAdmissionPolicyBindingList_DeepCopyInto.

(** A [runtime.Object]: nil, or the name of a type and a pointer to it. *)
Definition Object : Type := option (string * val).
Definition object_of (name : string) (c : val) : Object :=
  match c with Ptr None => None | _ => Some (name, c) end.

Definition ValidatingAdmissionPolicy_DeepCopyObject (v : val) : GO heap Object :=
  c ← ValidatingAdmissionPolicy_DeepCopy v; mret (object_of "ValidatingAdmissionPolicy" c).
Definition ValidatingAdmissionPolicyList_DeepCopyObject (v : val) : GO heap Object :=
  c ← ValidatingAdmissionPolicyList_DeepCopy v; mret (object_of "ValidatingAdmissionPolicyList" c).
Definition ValidatingAdmissionPolicyBinding_DeepCopyObject (v : val) : GO heap Object :=
  c ← ValidatingAdmissionPolicyBinding_DeepCopy v; mret (object_of "ValidatingAdmissionPolicyBinding" c).
Definition ValidatingAdmissionPolicyBindingList_DeepCopyObject (v : val) : GO heap Object :=
  c ← ValidatingAdmissionPolicyBindingList_DeepCopy v; mret (object_of "ValidatingAdmissionPolicyBindingList" c).

(** ** The copies agree with the reference *)
Ltac same_fields :=
  apply same_struct; [by apply (bool_decide_unpack (NoDup _)); vm_compute|];
  repeat (split; [first [reflexivity|by auto 2 with deepcopy]|]); try exact I; try done.

Create HintDb deepcopy.
#[export] Hint Resolve same_ptr same_slice same_map same_assign : deepcopy.

Lemma same_ListMeta : same_copy ty_ListMeta ListMeta_DeepCopyInto.
Proof. same_fields. Qed.
#[export] Hint Resolve same_ListMeta : deepcopy.
Lemma same_OwnerReference : same_copy ty_OwnerReference OwnerReference_DeepCopyInto.
Proof. same_fields. Qed.
#[export] Hint Resolve same_OwnerReference : deepcopy.
Lemma same_FieldsV1 : same_copy ty_FieldsV1 FieldsV1_DeepCopyInto.
Proof. same_fields. Qed.
#[export] Hint Resolve same_FieldsV1 : deepcopy.
Lemma same_ManagedFieldsEntry : same_copy ty_ManagedFieldsEntry ManagedFieldsEntry_DeepCopyInto.
Proof. same_fields. Qed.
#[export] Hint Resolve same_ManagedFieldsEntry : deepcopy.
Lemma same_ObjectMeta : same_copy ty_ObjectMeta ObjectMeta_DeepCopyInto.
Proof. same_fields. Qed.
#[export] Hint Resolve same_ObjectMeta : deepcopy.
Lemma same_LabelSelectorRequirement : same_copy ty_LabelSelectorRequirement LabelSelectorRequirement_DeepCopyInto.
Proof. same_fields. Qed.
#[export] Hint Resolve same_LabelSelectorRequirement : deepcopy.
Lemma same_LabelSelector : same_copy ty_LabelSelector LabelSelector_DeepCopyInto.
Proof. same_fields. Qed.
#[export] Hint Resolve same_LabelSelector : deepcopy.
Lemma same_Condition : same_copy ty_Condition Condition_DeepCopyInto.
Proof. same_fields. Qed.
#[export] Hint Resolve same_Condition : deepcopy.
Lemma same_Rule : same_copy ty_Rule Rule_DeepCopyInto.
Proof. same_fields. Qed.
#[export] Hint Resolve same_Rule : deepcopy.
Lemma same_RuleWithOperations : same_copy ty_RuleWithOperations RuleWithOperations_DeepCopyInto.
Proof. same_fields. Qed.
#[export] Hint Resolve same_RuleWithOperations : deepcopy.
Lemma same_AuditAnnotation : same_copy ty_AuditAnnotation AuditAnnotation_DeepCopyInto.
Proof. by apply same_assign. Qed.
#[export] Hint Resolve same_AuditAnnotation : deepcopy.
Lemma same_ExpressionWarning : same_copy ty_ExpressionWarning ExpressionWarning_DeepCopyInto.
Proof. by apply same_assign. Qed.
#[export] Hint Resolve same_ExpressionWarning : deepcopy.
Lemma same_MatchCondition : same_copy ty_MatchCondition MatchCondition_DeepCopyInto.
Proof. by apply same_assign. Qed.
#[export] Hint Resolve same_MatchCondition : deepcopy.
Lemma same_NamedRuleWithOperations : same_copy ty_NamedRuleWithOperations NamedRuleWithOperations_DeepCopyInto.
Proof. same_fields. Qed.
#[export] Hint Resolve same_NamedRuleWithOperations : deepcopy.
Lemma same_MatchResources : same_copy ty_MatchResources MatchResources_DeepCopyInto.
Proof. same_fields. Qed.
#[export] Hint Resolve same_MatchResources : deepcopy.
Lemma same_ParamKind : same_copy ty_ParamKind ParamKind_DeepCopyInto.
Proof. by apply same_assign. Qed.
#[export] Hint Resolve same_ParamKind : deepcopy.
Lemma same_ParamRef : same_copy ty_ParamRef ParamRef_DeepCopyInto.
Proof. by apply same_assign. Qed.
#[export] Hint Resolve same_ParamRef : deepcopy.
Lemma same_TypeChecking : same_copy ty_TypeChecking TypeChecking_DeepCopyInto.
Proof. same_fields. Qed.
#[export] Hint Resolve same_TypeChecking : deepcopy.
Lemma same_Validation : same_copy ty_Validation Validation_DeepCopyInto.
Proof. same_fields. Qed.
#[export] Hint Resolve same_Validation : deepcopy.
Lemma same_ValidatingAdmissionPolicySpec : same_copy ty_ValidatingAdmissionPolicySpec ValidatingAdmissionPolicySpec_DeepCopyInto.
Proof. same_fields. Qed.
#[export] Hint Resolve same_ValidatingAdmissionPolicySpec : deepcopy.
Lemma same_ValidatingAdmissionPolicyStatus : same_copy ty_ValidatingAdmissionPolicyStatus ValidatingAdmissionPolicyStatus_DeepCopyInto.
Proof. same_fields. Qed.
#[export] Hint Resolve same_ValidatingAdmissionPolicyStatus : deepcopy.
Lemma same_ValidatingAdmissionPolicy : same_copy ty_ValidatingAdmissionPolicy ValidatingAdmissionPolicy_DeepCopyInto.
Proof. same_fields. Qed.
#[export] Hint Resolve same_ValidatingAdmissionPolicy : deepcopy.
Lemma same_ValidatingAdmissionPolicyList : same_copy ty_ValidatingAdmissionPolicyList ValidatingAdmissionPolicyList_DeepCopyInto.
Proof. same_fields. Qed.
#[export] Hint Resolve same_ValidatingAdmissionPolicyList : deepcopy.
Lemma same_ValidatingAdmissionPolicyBindingSpec : same_copy ty_ValidatingAdmissionPolicyBindingSpec ValidatingAdmissionPolicyBindingSpec_DeepCopyInto.
Proof. same_fields. Qed.
#[export] Hint Resolve same_ValidatingAdmissionPolicyBindingSpec : deepcopy.
Lemma same_ValidatingAdmissionPolicyBinding : same_copy ty_ValidatingAdmissionPolicyBinding ValidatingAdmissionPolicyBinding_DeepCopyInto.
Proof. same_fields. Qed.
#[export] Hint Resolve same_ValidatingAdmissionPolicyBinding : deepcopy.
Lemma same_ValidatingAdmissionPolicyBindingList : same_copy ty_ValidatingAdmissionPolicyBindingList ValidatingAdmissionPolicyBindingList_DeepCopyInto.
Proof. same_fields. Qed.
#[export] Hint Resolve same_ValidatingAdmissionPolicyBindingList : deepcopy.


(** C19: Every generated copy function does exactly what the deep copy that follows
    the type does, heap and value: no field with a pointer, slice or map is left
    to the shallow assignment, none is copied twice and none is dropped. *)
Theorem generated_copies_equal_reference :
  same_copy ty_AuditAnnotation AuditAnnotation_DeepCopyInto ∧
  same_copy ty_ExpressionWarning ExpressionWarning_DeepCopyInto ∧
  same_copy ty_MatchCondition MatchCondition_DeepCopyInto ∧
  same_copy ty_MatchResources MatchResources_DeepCopyInto ∧
  same_copy ty_NamedRuleWithOperations NamedRuleWithOperations_DeepCopyInto ∧
  same_copy ty_ParamKind ParamKind_DeepCopyInto ∧
  same_copy ty_ParamRef ParamRef_DeepCopyInto ∧
  same_copy ty_TypeChecking TypeChecking_DeepCopyInto ∧
  same_copy ty_Validation Validation_DeepCopyInto ∧
  same_copy ty_ValidatingAdmissionPolicySpec ValidatingAdmissionPolicySpec_DeepCopyInto ∧
  same_copy ty_ValidatingAdmissionPolicyStatus ValidatingAdmissionPolicyStatus_DeepCopyInto ∧
  same_copy ty_ValidatingAdmissionPolicy ValidatingAdmissionPolicy_DeepCopyInto ∧
  same_copy ty_ValidatingAdmissionPolicyList ValidatingAdmissionPolicyList_DeepCopyInto ∧
  same_copy ty_ValidatingAdmissionPolicyBindingSpec ValidatingAdmissionPolicyBindingSpec_DeepCopyInto ∧
  same_copy ty_ValidatingAdmissionPolicyBinding ValidatingAdmissionPolicyBinding_DeepCopyInto ∧
  same_copy ty_ValidatingAdmissionPolicyBindingList ValidatingAdmissionPolicyBindingList_DeepCopyInto.
Proof.
  split_and!; [exact same_AuditAnnotation|exact same_ExpressionWarning|exact same_MatchCondition
  |exact same_MatchResources|exact same_NamedRuleWithOperations|exact same_ParamKind|exact same_ParamRef
  |exact same_TypeChecking|exact same_Validation|exact same_ValidatingAdmissionPolicySpec
  |exact same_ValidatingAdmissionPolicyStatus|exact same_ValidatingAdmissionPolicy
  |exact same_ValidatingAdmissionPolicyList|exact same_ValidatingAdmissionPolicyBindingSpec
  |exact same_ValidatingAdmissionPolicyBinding|exact same_ValidatingAdmissionPolicyBindingList].
Qed.

Lemma object_isolated name T into h l t :
  same_copy T into → read h (TPtr T) (Ptr (Some l)) = Some t →
  wp (c ← copy_ptr into (Ptr (Some l)); mret (object_of name c)) h (λ o h',
    ∃ v', o = Some (name, v') ∧ isolated (TPtr T) (Ptr (Some l)) v' t h h').
Proof.
  intros Hs Hr. apply wp_bind. eapply wp_mono; [by apply same_copy_deep; [apply same_ptr|]|].
  intros v' h' Hc. apply wp_ret. exists v'. split; [|by apply copied_isolated].
  destruct Hc as (_ & Hr' & _). apply read_ptr in Hr' as [[-> ->]|(l' & w & u & -> & _)]; [|done].
  apply read_ptr in Hr as [[? _]|(? & ? & ? & _ & ? & _)]; done.
Qed.

(** The API objects with their types and [DeepCopyObject]. *)
Definition api_objects : list (string * ty * (val → GO heap Object)) :=
  [("ValidatingAdmissionPolicy", ty_ValidatingAdmissionPolicy, ValidatingAdmissionPolicy_DeepCopyObject);
   ("ValidatingAdmissionPolicyList", ty_ValidatingAdmissionPolicyList,
    ValidatingAdmissionPolicyList_DeepCopyObject);
   ("ValidatingAdmissionPolicyBinding", ty_ValidatingAdmissionPolicyBinding,
    ValidatingAdmissionPolicyBinding_DeepCopyObject);
   ("ValidatingAdmissionPolicyBindingList", ty_ValidatingAdmissionPolicyBindingList,
    ValidatingAdmissionPolicyBindingList_DeepCopyObject)].

(** C20: A deep copy of an API object is isolated from it: [DeepCopyObject] does not
    panic, gives a pointer to an object of the same type that stands for the same
    data, changes nothing that was there, and afterwards no sequence of writes to
    what the copy reaches changes the original, and no writes to anything that was
    there before the copy change the copy.  Of a nil pointer it gives the nil
    interface, not an interface that holds a nil pointer. *)
Theorem deep_copies_isolated name T DeepCopyObject h :
  (name, T, DeepCopyObject) ∈ api_objects →
  (∀ l t, read h (TPtr T) (Ptr (Some l)) = Some t →
     wp (DeepCopyObject (Ptr (Some l))) h (λ o h',
       ∃ v', o = Some (name, v') ∧ isolated (TPtr T) (Ptr (Some l)) v' t h h')) ∧
  DeepCopyObject (Ptr None) h = (Value None, h).
Proof.
  intros Hin. unfold api_objects in Hin.
  repeat (apply elem_of_cons in Hin as [[= -> -> ->]|Hin]; [split; [intros l t|done]|]).
  - apply (object_isolated _ _ _ _ _ _ same_ValidatingAdmissionPolicy).
  - apply (object_isolated _ _ _ _ _ _ same_ValidatingAdmissionPolicyList).
  - apply (object_isolated _ _ _ _ _ _ same_ValidatingAdmissionPolicyBinding).
  - apply (object_isolated _ _ _ _ _ _ same_ValidatingAdmissionPolicyBindingList).
  - by apply not_elem_of_nil in Hin.
Qed.

(** ** A policy in the heap *)
Module Demo.
Definition str (s : string) : val := Prim (PString s).
Definition meta : val :=
  Struct [("Name", str "replicas"); ("GenerateName", str ""); ("Namespace", str ""); ("SelfLink", str "");
          ("UID", str ""); ("ResourceVersion", str "12"); ("Generation", Prim (PInt 3));
          ("CreationTimestamp", Prim (PTime None)); ("DeletionTimestamp", Ptr None);
          ("DeletionGracePeriodSeconds", Ptr None); ("Labels", Map (Some 2%positive));
          ("Annotations", Map None); ("OwnerReferences", Slice None); ("Finalizers", Slice None);
          ("ManagedFields", Slice None)].
Definition spec : val :=
  Struct [("ParamKind", Ptr None); ("MatchConstraints", Ptr None);
          ("Validations", Slice (Some (3%positive, 1%nat, 1%nat))); ("FailurePolicy", Ptr (Some 4%positive));
          ("AuditAnnotations", Slice None); ("MatchConditions", Slice None)].
Definition validation (e : string) : val :=
  Struct [("Expression", str e); ("Message", str ""); ("Reason", Ptr (Some 5%positive));
          ("MessageExpression", str "")].
(** The slice of validations is the second element of an array of two. *)
Definition demo_heap : gmap positive cell :=
  {[ 1%positive := Cell (Struct [("TypeMeta", Struct [("Kind", str ""); ("APIVersion", str "")]);
       ("ObjectMeta", meta); ("Spec", spec);
       ("Status", Struct [("ObservedGeneration", Prim (PInt 0)); ("TypeChecking", Ptr None);
                          ("Conditions", Slice None)])]);
     2%positive := Table {["team" := "infra"]};
     3%positive := Array [validation "false"; validation "object.spec.replicas <= 5"];
     4%positive := Cell (str "Fail");
     5%positive := Cell (str "Invalid") ]}.
Definition demo_tree : tree :=
  default (Deref None) (read demo_heap (TPtr ty_ValidatingAdmissionPolicy) (Ptr (Some 1%positive))).
Lemma demo_read :
  read demo_heap (TPtr ty_ValidatingAdmissionPolicy) (Ptr (Some 1%positive)) = Some demo_tree.
Proof. reflexivity. Qed.
End Demo.

Lemma deep_copies_isolated_witness :
  wp (ValidatingAdmissionPolicy_DeepCopyObject (Ptr (Some 1%positive))) Demo.demo_heap (λ o h',
    ∃ v', o = Some ("ValidatingAdmissionPolicy", v') ∧
          isolated (TPtr ty_ValidatingAdmissionPolicy) (Ptr (Some 1%positive)) v' Demo.demo_tree
            Demo.demo_heap h').
Proof.
  apply (proj1 (deep_copies_isolated "ValidatingAdmissionPolicy" ty_ValidatingAdmissionPolicy
    ValidatingAdmissionPolicy_DeepCopyObject Demo.demo_heap (list_elem_of_here _ _))).
  exact Demo.demo_read.
Defined.
End DeepCopy.
