(* ===== verification/InformerFactory.v ===== *)
(** * The generated informers and their factory ([pkg/generated/informers/externalversions])

    How the informers of policies and bindings are built from a client, and the
    factory that shares them: the map of informers by type, starting them in
    goroutines, waiting for their caches and shutting down, as a transition
    system over the calls and goroutines that use one factory. *)
From S2P Require Import Prelude GoStrings GoErrors Admission Keys Store Lister TransformedClient.

(** ** Building informers ([v1alpha1/validatingadmissionpolicy.go] and [..binding.go]) *)
Module Informers.
Section informers.
Context {W Options Watcher Policy Binding : Type}.

(** [versioned.Interface]: the two typed clients. *)
Record Interface := {
  ValidatingAdmissionPolicies : ClientInterface W Options Watcher Policy;
  ValidatingAdmissionPolicyBindings : ClientInterface W Options Watcher Binding;
}.

(** What [ListFunc] gives as a [runtime.Object]. *)
Inductive list_object :=
  | PolicyList (l : option (TypedList Policy))
  | BindingList (l : option (TypedList Binding)).

(** What [cache.NewSharedIndexInformer] is given. *)
Record SharedIndexInformer := {
  ListFunc : Options → GO W (list_object * option error);
  WatchFunc : Options → GO W (returns error Watcher);
  objectType : string;
  resyncPeriod : Z;
  indexers : list string;
}.

Abbreviation TweakListOptionsFunc := (option (Options → Options)).
Definition tweaked (tweakListOptions : TweakListOptionsFunc) (options : Options) : Options :=
  match tweakListOptions with Some f => f options | None => options end.

Definition policy_type : string := "*v1alpha1.ValidatingAdmissionPolicy".
Definition binding_type : string := "*v1alpha1.ValidatingAdmissionPolicyBinding".

Definition NewFilteredValidatingAdmissionPolicyInformer (client : Interface) (resyncPeriod : Z)
    (indexers : list string) (tweakListOptions : TweakListOptionsFunc) : SharedIndexInformer :=
  {| ListFunc := λ options,
       '(l, err) ← ListObjects (ValidatingAdmissionPolicies client) TODO (tweaked tweakListOptions options);
       mret (PolicyList l, err);
     WatchFunc := λ options,
       TransformedClient.Watch (ValidatingAdmissionPolicies client) TODO (tweaked tweakListOptions options);
     objectType := policy_type; resyncPeriod := resyncPeriod; indexers := indexers |}.
Definition NewValidatingAdmissionPolicyInformer client resyncPeriod indexers :=
  NewFilteredValidatingAdmissionPolicyInformer client resyncPeriod indexers None.

Definition NewFilteredValidatingAdmissionPolicyBindingInformer (client : Interface) (resyncPeriod : Z)
    (indexers : list string) (tweakListOptions : TweakListOptionsFunc) : SharedIndexInformer :=
  {| ListFunc := λ options,
       '(l, err) ← ListObjects (ValidatingAdmissionPolicyBindings client) TODO (tweaked tweakListOptions options);
       mret (BindingList l, err);
     WatchFunc := λ options,
       TransformedClient.Watch (ValidatingAdmissionPolicyBindings client) TODO (tweaked tweakListOptions options);
     objectType := binding_type; resyncPeriod := resyncPeriod; indexers := indexers |}.
Definition NewValidatingAdmissionPolicyBindingInformer client resyncPeriod indexers :=
  NewFilteredValidatingAdmissionPolicyBindingInformer client resyncPeriod indexers None.

(** [cache.NamespaceIndex]. *)
Definition NamespaceIndex : string := "namespace".

Definition policy_defaultInformer (tweak : TweakListOptionsFunc) (client : Interface) (resyncPeriod : Z) :=
  NewFilteredValidatingAdmissionPolicyInformer client resyncPeriod [NamespaceIndex] tweak.
Definition binding_defaultInformer (tweak : TweakListOptionsFunc) (client : Interface) (resyncPeriod : Z) :=
  NewFilteredValidatingAdmissionPolicyBindingInformer client resyncPeriod [NamespaceIndex] tweak.

(** ** The factory

    An informer is a pointer into [created], the informers built so far. *)
Abbreviation pointer := nat.
Record sharedInformerFactory := {
  client : Interface;
  namespace : string;
  tweakListOptions : TweakListOptionsFunc;
  defaultResync : Z;
  customResync : gmap string Z;
  informers : gmap string pointer;
  startedInformers : gset string;
  shuttingDown : bool;
  created : list SharedIndexInformer;
}.
#[export] Instance factory_settable : Settable sharedInformerFactory := λ f,
  {| client := client f; namespace := namespace f; tweakListOptions := tweakListOptions f;
     defaultResync := defaultResync f; customResync := customResync f; informers := informers f;
     startedInformers := startedInformers f; shuttingDown := shuttingDown f; created := created f |}.
Definition set_namespace : string → sharedInformerFactory → sharedInformerFactory :=
  ltac:(setter_of sharedInformerFactory namespace).
Definition set_tweakListOptions : TweakListOptionsFunc → sharedInformerFactory → sharedInformerFactory :=
  ltac:(setter_of sharedInformerFactory tweakListOptions).
Definition set_customResync : gmap string Z → sharedInformerFactory → sharedInformerFactory :=
  ltac:(setter_of sharedInformerFactory customResync).
Definition set_startedInformers : gset string → sharedInformerFactory → sharedInformerFactory :=
  ltac:(setter_of sharedInformerFactory startedInformers).
Definition set_shuttingDown : bool → sharedInformerFactory → sharedInformerFactory :=
  ltac:(setter_of sharedInformerFactory shuttingDown).

Abbreviation SharedInformerOption := (sharedInformerFactory → sharedInformerFactory).
(** [resyncConfig]: objects by their types; of two objects of one type the last
    in the order of the map counts. *)
Definition WithCustomResyncConfig (resyncConfig : list (string * Z)) : SharedInformerOption := λ factory,
  set_customResync (foldl (λ m kv, <[kv.1 := kv.2]> m) (customResync factory) resyncConfig) factory.
Definition WithTweakListOptions (tweak : TweakListOptionsFunc) : SharedInformerOption :=
  set_tweakListOptions tweak.
Definition WithNamespace (ns : string) : SharedInformerOption := set_namespace ns.

Definition NewSharedInformerFactoryWithOptions (client : Interface) (defaultResync : Z)
    (options : list SharedInformerOption) : sharedInformerFactory :=
  foldl (λ factory opt, opt factory)
    {| client := client; namespace := ""; tweakListOptions := None; defaultResync := defaultResync;
       customResync := ∅; informers := ∅; startedInformers := ∅; shuttingDown := false; created := [] |}
    options.
Definition NewSharedInformerFactory client defaultResync :=
  NewSharedInformerFactoryWithOptions client defaultResync [].
Definition NewFilteredSharedInformerFactory client defaultResync (ns : string) (tweak : TweakListOptionsFunc) :=
  NewSharedInformerFactoryWithOptions client defaultResync [WithNamespace ns; WithTweakListOptions tweak].

(** [InformerFor], under the lock. *)
Definition InformerFor (informerType : string) (newFunc : Interface → Z → SharedIndexInformer)
    (f : sharedInformerFactory) : pointer * sharedInformerFactory :=
  match informers f !! informerType with
  | Some informer => (informer, f)
  | None =>
      let resync := default (defaultResync f) (customResync f !! informerType) in
      let informer := length (created f) in
      (informer,
       {| client := client f; namespace := namespace f; tweakListOptions := tweakListOptions f;
          defaultResync := defaultResync f; customResync := customResync f;
          informers := <[informerType := informer]> (informers f);
          startedInformers := startedInformers f; shuttingDown := shuttingDown f;
          created := created f ++ [newFunc (client f) resync] |})
  end.

(** [Admissionregistration().V1alpha1()] and the typed informers: they hold the
    factory and its [tweakListOptions]. *)
Record version := { v_namespace : string; v_tweakListOptions : TweakListOptionsFunc }.
Definition Admissionregistration_V1alpha1 (f : sharedInformerFactory) : version :=
  {| v_namespace := namespace f; v_tweakListOptions := tweakListOptions f |}.
Definition policy_Informer (v : version) (f : sharedInformerFactory) :=
  InformerFor policy_type (policy_defaultInformer (v_tweakListOptions v)) f.
Definition binding_Informer (v : version) (f : sharedInformerFactory) :=
  InformerFor binding_type (binding_defaultInformer (v_tweakListOptions v)) f.

(** [generic.go]. *)
Record genericInformer := { informer : pointer; resource : GroupResource }.
Definition crd_resource (res : string) : GroupVersionResource :=
  {| gvrGroup := "admissionregistration.x-k8s.io"; gvrVersion := "v1alpha1"; gvrResource := res |}.
(** [format]: how [%v] writes a resource. *)
Definition ForResource (format : GroupVersionResource → string) (r : GroupVersionResource)
    (f : sharedInformerFactory) : (error + genericInformer) * sharedInformerFactory :=
  if bool_decide (r = crd_resource "validatingadmissionpolicies") then
    let '(i, f) := policy_Informer (Admissionregistration_V1alpha1 f) f in
    (inr {| resource := gvr_GroupResource r; informer := i |}, f)
  else if bool_decide (r = crd_resource "validatingadmissionpolicybindings") then
    let '(i, f) := binding_Informer (Admissionregistration_V1alpha1 f) f in
    (inr {| resource := gvr_GroupResource r; informer := i |}, f)
  else (inl (plainError ("no informer found for " ++ format r)), f).
End informers.
End Informers.

(** ** The factory in use *)
Module Factory.
Import Informers.
Section factory.
Context {W Options Watcher Policy Binding : Type}.
Abbreviation factory := (sharedInformerFactory (W := W) (Options := Options) (Watcher := Watcher)
  (Policy := Policy) (Binding := Binding)).
Abbreviation constructor := (Interface (W := W) (Options := Options) (Watcher := Watcher)
  (Policy := Policy) (Binding := Binding) → Z → SharedIndexInformer (W := W) (Options := Options)
  (Watcher := Watcher) (Policy := Policy) (Binding := Binding)).
Abbreviation channel := nat.
Abbreviation pointer := nat.

(** A goroutine that [Start] made for an informer; [Run] returns once its channel
    is closed. *)
Record goroutine := { g_type : string; g_informer : pointer; g_stop : channel; running : bool }.
Definition exited (g : goroutine) : goroutine :=
  {| g_type := g_type g; g_informer := g_informer g; g_stop := g_stop g; running := false |}.

(** A call of [Shutdown] or [WaitForCacheSync]. *)
Inductive call :=
  | Locking                       (** [Shutdown] before it takes the lock *)
  | Waiting                       (** [Shutdown] in [f.wg.Wait()] *)
  | Returned                      (** [Shutdown] has returned *)
  | Syncing (stop : channel) (todo : list (string * pointer)) (res : gmap string bool)
  | Synced (res : gmap string bool).   (** [WaitForCacheSync] has returned *)
#[export] Instance call_eq_dec : EqDecision call.
Proof. solve_decision. Defined.

Record state := {
  fac : factory;
  wg : nat;
  goroutines : list goroutine;
  calls : list call;
  closed : gset channel;
  hasSynced : gset pointer;
}.
#[local] Instance state_settable : Settable state := λ st,
  {| fac := fac st; wg := wg st; goroutines := goroutines st; calls := calls st;
     closed := closed st; hasSynced := hasSynced st |}.
Definition set_fac : factory → state → state := ltac:(setter_of state fac).
Definition set_wg : nat → state → state := ltac:(setter_of state wg).
Definition set_goroutines : list goroutine → state → state := ltac:(setter_of state goroutines).
Definition set_calls : list call → state → state := ltac:(setter_of state calls).
Definition set_closed : gset channel → state → state := ltac:(setter_of state closed).
Definition set_hasSynced : gset pointer → state → state := ltac:(setter_of state hasSynced).

Definition initial (f : factory) : state :=
  {| fac := f; wg := 0; goroutines := []; calls := []; closed := ∅; hasSynced := ∅ |}.

(** One round of the loop of [Start]. *)
Definition start_informer (stopCh : channel) (st : state) (kv : string * pointer) : state :=
  let '(informerType, informer) := kv in
  if bool_decide (informerType ∈ startedInformers (fac st)) then st
  else set_fac (set_startedInformers ({[informerType]} ∪ startedInformers (fac st)) (fac st))
         (set_goroutines (goroutines st ++ [{| g_type := informerType; g_informer := informer;
                                               g_stop := stopCh; running := true |}])
            (set_wg (S (wg st)) st)).

(** [Start], under the lock; [order] is the order in which the map is read. *)
Definition Start (stopCh : channel) (order : list (string * pointer)) (st : state) : state :=
  if shuttingDown (fac st) then st else foldl (start_informer stopCh) st order.

(** The goroutine's [informer.Run(stopCh)] returns and [wg.Done()] is called. *)
Definition goroutine_move (i : nat) (st : state) : option state :=
  g ← goroutines st !! i;
  if running g && bool_decide (g_stop g ∈ closed st)
  then Some (set_goroutines (<[i := exited g]> (goroutines st)) (set_wg (pred (wg st)) st))
  else None.

(** The informers that [WaitForCacheSync] reads under the lock. *)
Definition started (f : factory) : gmap string pointer :=
  filter (λ kv, kv.1 ∈ startedInformers f) (informers f).

(** A move of the [i]-th call; [ok]: what [cache.WaitForCacheSync] returns, true
    for a synced cache, false when the stop channel is closed. *)
Definition call_move (i : nat) (ok : bool) (st : state) : option state :=
  c ← calls st !! i;
  match c with
  | Locking => Some (set_calls (<[i := Waiting]> (calls st)) (set_fac (set_shuttingDown true (fac st)) st))
  | Waiting =>
      if bool_decide (wg st = 0%nat) then Some (set_calls (<[i := Returned]> (calls st)) st) else None
  | Syncing _ [] res => Some (set_calls (<[i := Synced res]> (calls st)) st)
  | Syncing stop ((informType, informer) :: todo) res =>
      if (if ok then bool_decide (informer ∈ hasSynced st) else bool_decide (stop ∈ closed st))
      then Some (set_calls (<[i := Syncing stop todo (<[informType := ok]> res)]> (calls st)) st)
      else None
  | Returned | Synced _ => None
  end.

Inductive label :=
  | LInformerFor (informerType : string) (newFunc : constructor)
  | LStart (stopCh : channel)
  | LShutdown
  | LWaitForCacheSync (stopCh : channel)
  | LCall (i : nat)
  | LGoroutine (i : nat)
  | LClose (stopCh : channel)
  | LHasSynced (informer : pointer).

Inductive step (st : state) : label → state → Prop :=
  | step_InformerFor informerType newFunc :
      step st (LInformerFor informerType newFunc)
        (set_fac (InformerFor informerType newFunc (fac st)).2 st)
  | step_Start stopCh order :
      order ≡ₚ map_to_list (informers (fac st)) →
      step st (LStart stopCh) (Start stopCh order st)
  | step_Shutdown :
      step st LShutdown (set_calls (calls st ++ [Locking]) st)
  | step_WaitForCacheSync stopCh order :
      order ≡ₚ map_to_list (started (fac st)) →
      step st (LWaitForCacheSync stopCh) (set_calls (calls st ++ [Syncing stopCh order ∅]) st)
  | step_call i ok st' :
      call_move i ok st = Some st' → step st (LCall i) st'
  | step_goroutine i st' :
      goroutine_move i st = Some st' → step st (LGoroutine i) st'
  | step_close stopCh :
      step st (LClose stopCh) (set_closed ({[stopCh]} ∪ closed st) st)
  | step_synced informer :
      step st (LHasSynced informer) (set_hasSynced ({[informer]} ∪ hasSynced st) st).

(** ** Invariant *)
Record inv (st : state) : Prop := {
  inv_wg : wg st = length (filter (λ g, running g = true) (goroutines st));
  inv_types : NoDup (g_type <$> goroutines st);
  inv_started T : T ∈ startedInformers (fac st) ↔ T ∈ g_type <$> goroutines st;
  inv_running g : g ∈ goroutines st → informers (fac st) !! g_type g = Some (g_informer g);
  inv_created T p : informers (fac st) !! T = Some p → (p < length (created (fac st)))%nat;
  inv_distinct T T' p :
    informers (fac st) !! T = Some p → informers (fac st) !! T' = Some p → T = T';
  inv_down : Waiting ∈ calls st ∨ Returned ∈ calls st → shuttingDown (fac st) = true;
  inv_returned : Returned ∈ calls st → wg st = 0%nat;
}.

Lemma inv_start_informer stopCh st T p :
  inv st → shuttingDown (fac st) = false → informers (fac st) !! T = Some p →
  inv (start_informer stopCh st (T, p)).
Proof.
  intros [Hwg Hnd Hst Hrun Hcr Hdi Hdown Hret] Hsd Hp. unfold start_informer.
  case_bool_decide as Hin; [by split|].
  assert (Hno : ¬ (Waiting ∈ calls st ∨ Returned ∈ calls st)) by (intros ?%Hdown; congruence).
  split; simpl; try done.
  - rewrite filter_app, length_app, filter_cons_True by done. simpl. rewrite Hwg. lia.
  - rewrite fmap_app. apply NoDup_app. split_and!; [done| |apply NoDup_singleton].
    intros T' HT'. csimpl. intros ->%list_elem_of_singleton. by apply Hin, Hst.
  - intros T'. rewrite fmap_app, elem_of_union, elem_of_singleton, elem_of_app, Hst. csimpl.
    rewrite list_elem_of_singleton. naive_solver.
  - intros g [Hg| ->%list_elem_of_singleton]%elem_of_app; [by apply Hrun|done].
  - intros Hr. destruct Hno. by right.
Qed.

Lemma start_informer_keeps stopCh st kv :
  calls (start_informer stopCh st kv) = calls st ∧ closed (start_informer stopCh st kv) = closed st ∧
  hasSynced (start_informer stopCh st kv) = hasSynced st ∧
  informers (fac (start_informer stopCh st kv)) = informers (fac st) ∧
  shuttingDown (fac (start_informer stopCh st kv)) = shuttingDown (fac st).
Proof. destruct kv as [T p]. unfold start_informer. by case_bool_decide. Qed.

Lemma Start_keeps stopCh order st :
  calls (Start stopCh order st) = calls st ∧ closed (Start stopCh order st) = closed st ∧
  hasSynced (Start stopCh order st) = hasSynced st ∧
  informers (fac (Start stopCh order st)) = informers (fac st) ∧
  shuttingDown (fac (Start stopCh order st)) = shuttingDown (fac st).
Proof.
  unfold Start. destruct (shuttingDown (fac st)) eqn:Hs; [done|]. rewrite <- Hs. clear Hs.
  revert st. induction order as [|kv order IH]; intros st; [done|]. simpl.
  destruct (IH (start_informer stopCh st kv)) as (-> & -> & -> & -> & ->). apply start_informer_keeps.
Qed.

Lemma inv_Start stopCh order st :
  inv st → order ⊆ map_to_list (informers (fac st)) → inv (Start stopCh order st).
Proof.
  intros Hinv Ho. unfold Start. destruct (shuttingDown (fac st)) eqn:Hs; [done|].
  revert st Hinv Ho Hs. induction order as [|[T p] order IH]; intros st Hinv Ho Hs; [done|]. cbn [foldl].
  destruct (start_informer_keeps stopCh st (T, p)) as (_ & _ & _ & Hi & Hsd).
  apply IH; [|rewrite Hi; set_solver|congruence].
  apply inv_start_informer; [done..|]. apply elem_of_map_to_list. set_solver.
Qed.

Lemma elem_of_insert_inv {A} (l : list A) i x y : x ∈ <[i := y]> l → x = y ∨ x ∈ l.
Proof.
  intros (j & Hj)%list_elem_of_lookup. apply list_lookup_insert_Some in Hj as [(_ & -> & _)|[_ Hj]]; [by left|].
  right. by eapply list_elem_of_lookup_2.
Qed.

Lemma call_move_spec i ok st st' :
  call_move i ok st = Some st' →
  ∃ c c', calls st !! i = Some c ∧ calls st' = <[i := c']> (calls st) ∧
    wg st' = wg st ∧ goroutines st' = goroutines st ∧ closed st' = closed st ∧
    hasSynced st' = hasSynced st ∧ informers (fac st') = informers (fac st) ∧
    startedInformers (fac st') = startedInformers (fac st) ∧ created (fac st') = created (fac st) ∧
    (c' = Waiting → shuttingDown (fac st') = true) ∧
    (c' = Returned → c = Waiting ∧ wg st = 0%nat) ∧
    (shuttingDown (fac st) = true → shuttingDown (fac st') = true).
Proof.
  unfold call_move. destruct (calls st !! i) as [c|]; [|done]. simpl. intros Hm. exists c.
  destruct c as [| | |stop [|[T p] todo] res|]; try done.
  - injection Hm as <-. exists Waiting. by split_and!.
  - case_bool_decide as Hwg; [|done]. injection Hm as <-. exists Returned. by split_and!.
  - injection Hm as <-. exists (Synced res). by split_and!.
  - case_match; [|done]. injection Hm as <-. eexists. by split_and!.
Qed.

Lemma inv_call_move i ok st st' : inv st → call_move i ok st = Some st' → inv st'.
Proof.
  intros [Hwg Hnd Hst Hrun Hcr Hdi Hdown Hret]
    (c & c' & Hc & Hcalls & Ewg & Eg & _ & _ & Ei & Es & Ecr & Hw & Hr & Hsd)%call_move_spec.
  split; rewrite ?Ewg, ?Eg, ?Ei, ?Es, ?Ecr, ?Hcalls; try done.
  - assert (c = Waiting → shuttingDown (fac st) = true).
    { intros ->. apply Hdown. left. by eapply list_elem_of_lookup_2. }
    intros [[?|?]%elem_of_insert_inv|[?|?]%elem_of_insert_inv]; naive_solver.
  - intros [?|?]%elem_of_insert_inv; naive_solver.
Qed.

Lemma goroutine_move_spec i st st' :
  goroutine_move i st = Some st' →
  ∃ g, goroutines st !! i = Some g ∧ running g = true ∧ g_stop g ∈ closed st ∧
    st' = set_goroutines (<[i := exited g]> (goroutines st)) (set_wg (pred (wg st)) st).
Proof.
  unfold goroutine_move. destruct (goroutines st !! i) as [g|]; [|done]. simpl.
  destruct (running g) eqn:Hr; [|done]. simpl. case_bool_decide; [|done]. intros [= <-]. by exists g.
Qed.

Lemma running_exited (l : list goroutine) i g :
  l !! i = Some g → running g = true →
  length (filter (λ g, running g = true) l) =
  S (length (filter (λ g, running g = true) (<[i := exited g]> l))).
Proof.
  revert i. induction l as [|g' l IH]; intros [|i] Hi Hr; simplify_eq/=.
  - by rewrite filter_cons_True, filter_cons_False.
  - rewrite !filter_cons. destruct (decide (running g' = true)); simpl; by rewrite (IH i).
Qed.

Lemma inv_goroutine_move i st st' : inv st → goroutine_move i st = Some st' → inv st'.
Proof.
  intros [Hwg Hnd Hst Hrun Hcr Hdi Hdown Hret] (g & Hg & Hr & _ & ->)%goroutine_move_spec.
  assert (Htypes : g_type <$> <[i := exited g]> (goroutines st) = g_type <$> goroutines st).
  { rewrite list_fmap_insert. apply list_insert_id. by rewrite list_lookup_fmap, Hg. }
  split; simpl; rewrite ?Htypes; try done.
  - rewrite Hwg, (running_exited _ _ _ Hg Hr). done.
  - intros g' [->|Hg']%elem_of_insert_inv; [|by apply Hrun]. apply (Hrun g). by eapply list_elem_of_lookup_2.
  - intros Hret'. by rewrite (Hret Hret').
Qed.

Lemma inv_InformerFor T newFunc st : inv st → inv (set_fac (InformerFor T newFunc (fac st)).2 st).
Proof.
  intros [Hwg Hnd Hst Hrun Hcr Hdi Hdown Hret]. unfold InformerFor.
  destruct (informers (fac st) !! T) as [p|] eqn:HT; [by split|]. split; simpl; try done.
  - intros g Hg. rewrite lookup_insert_ne; [by apply Hrun|]. intros ->. by rewrite (Hrun g Hg) in HT.
  - intros T' p. rewrite length_app. simpl. intros [[_ <-]|[_ Hp]]%lookup_insert_Some; [lia|].
    apply Hcr in Hp. lia.
  - intros T1 T2 p [[<- <-]|[Hn1 H1]]%lookup_insert_Some [[<- E]|[Hn2 H2]]%lookup_insert_Some; try done.
    + apply Hcr in H2. lia.
    + subst p. apply Hcr in H1. lia.
    + by eapply Hdi.
Qed.

Lemma factory_inv_step st l st' : inv st → step st l st' → inv st'.
Proof.
  intros Hinv Hs. destruct Hs as [T newFunc|stopCh order Ho| |stopCh order Ho|i ok st' Hm|i st' Hm|stopCh|p].
  - by apply inv_InformerFor.
  - apply inv_Start; [done|]. intros kv. by rewrite Ho.
  - destruct Hinv. split; simpl; try done.
    + intros [H|H]; apply elem_of_app in H as [H| ?%list_elem_of_singleton]; auto; done.
    + intros [H| ?%list_elem_of_singleton]%elem_of_app; auto; done.
  - destruct Hinv. split; simpl; try done.
    + intros [H|H]; apply elem_of_app in H as [H| ?%list_elem_of_singleton]; auto; done.
    + intros [H| ?%list_elem_of_singleton]%elem_of_app; auto; done.
  - by eapply inv_call_move.
  - by eapply inv_goroutine_move.
  - by destruct Hinv; split.
  - by destruct Hinv; split.
Qed.

(** A factory that has just been made. *)
Definition fresh_factory (f : factory) : Prop :=
  informers f = ∅ ∧ startedInformers f = ∅ ∧ created f = [].

Lemma factory_inv_reachable f tr st :
  fresh_factory f → steps step (initial f) tr st → inv st.
Proof.
  intros (Hi & Hs & _) Hst. refine (steps_invariant step inv _ _ _ _ _ Hst); [by apply factory_inv_step|].
  split; simpl; try done.
  - constructor.
  - intros T. rewrite Hs. set_solver.
  - intros g. set_solver.
  - intros T p. by rewrite Hi.
  - intros T T' p. by rewrite Hi.
  - intros [H|H]; set_solver.
Qed.

(** ** What steps keep *)
Lemma step_keeps st l st' :
  step st l st' →
  (∀ T p, informers (fac st) !! T = Some p → informers (fac st') !! T = Some p) ∧
  closed st ⊆ closed st' ∧ hasSynced st ⊆ hasSynced st' ∧
  (shuttingDown (fac st) = true → shuttingDown (fac st') = true).
Proof.
  intros Hs. destruct Hs as [T newFunc|stopCh order Ho| |stopCh order Ho|i ok st' Hm|i st' Hm|stopCh|p].
  - unfold InformerFor. destruct (informers (fac st) !! T) eqn:HT; [done|].
    simpl. split_and!; [|done..]. intros T' p Hp. rewrite lookup_insert_ne; [done|]. congruence.
  - by destruct (Start_keeps stopCh order st) as (_ & -> & -> & -> & ->).
  - done.
  - done.
  - apply call_move_spec in Hm as (c & c' & _ & _ & _ & _ & -> & -> & -> & _ & _ & _ & _ & Hsd). done.
  - apply goroutine_move_spec in Hm as (g & _ & _ & _ & ->). done.
  - simpl. split_and!; [done|set_solver|done|done].
  - simpl. split_and!; [done|done|set_solver|done].
Qed.

Lemma steps_keep st tr st' :
  steps step st tr st' →
  (∀ T p, informers (fac st) !! T = Some p → informers (fac st') !! T = Some p) ∧
  closed st ⊆ closed st' ∧ hasSynced st ⊆ hasSynced st' ∧
  (shuttingDown (fac st) = true → shuttingDown (fac st') = true).
Proof.
  induction 1 as [|st tr st1 l st2 _ (H1 & H2 & H3 & H4) Hs]; [done|].
  destruct (step_keeps _ _ _ Hs) as (H1' & H2' & H3' & H4'). split_and!; [eauto|set_solver|set_solver|eauto].
Qed.

Lemma factory_inv_steps st tr st' : inv st → steps step st tr st' → inv st'.
Proof. intros Hi Hs. refine (steps_invariant step inv _ _ _ _ Hi Hs). by apply factory_inv_step. Qed.

(** C30: Informers are shared and run once: however the factory is used, the informer
    that [InformerFor] returns for a type is the one it returns for that type ever
    after, informers of different types are different, and no informer is run by
    two goroutines, however often [Start] is called. *)
Theorem informers_shared f tr st :
  fresh_factory f → steps step (initial f) tr st →
  (∀ T newFunc newFunc' tr' st',
     steps step (set_fac (InformerFor T newFunc (fac st)).2 st) tr' st' →
     (InformerFor T newFunc' (fac st')).1 = (InformerFor T newFunc (fac st)).1) ∧
  (∀ T T' p, informers (fac st) !! T = Some p → informers (fac st) !! T' = Some p → T = T') ∧
  (∀ i j g g', goroutines st !! i = Some g → goroutines st !! j = Some g' →
     g_informer g = g_informer g' → i = j).
Proof.
  intros Hf Hst. pose proof (factory_inv_reachable f tr st Hf Hst) as Hinv. split_and!.
  - intros T newFunc newFunc' tr' st' Hst'. destruct (steps_keep _ _ _ Hst') as (Hkeep & _).
    assert (Hp : informers (InformerFor T newFunc (fac st)).2 !! T = Some (InformerFor T newFunc (fac st)).1).
    { unfold InformerFor. destruct (informers (fac st) !! T) eqn:HT; [done|]. simpl. by rewrite lookup_insert_eq. }
    apply Hkeep in Hp. unfold InformerFor at 1. by rewrite Hp.
  - apply Hinv.
  - intros i j g g' Hi Hj Heq.
    assert (g_type g = g_type g').
    { apply (inv_distinct _ Hinv _ _ (g_informer g)); [|rewrite Heq];
        by eapply inv_running, list_elem_of_lookup_2. }
    apply (NoDup_lookup _ i j (g_type g) (inv_types _ Hinv)); rewrite list_lookup_fmap; [by rewrite Hi|].
    rewrite Hj. simpl. congruence.
Qed.

(** Once the factory is shutting down, [Start] starts nothing. *)
Lemma down_step st l st' :
  step st l st' → shuttingDown (fac st) = true →
  (∃ i g, l = LGoroutine i ∧ goroutines st !! i = Some g ∧ running g = true ∧ g_stop g ∈ closed st ∧
     goroutines st' = <[i := exited g]> (goroutines st) ∧ wg st' = pred (wg st) ∧ calls st' = calls st) ∨
  (∀ i, l ≠ LGoroutine i) ∧ goroutines st' = goroutines st ∧ wg st' = wg st.
Proof.
  intros Hs Hd. destruct Hs as [T newFunc|stopCh order Ho| |stopCh order Ho|i ok st' Hm|i st' Hm|stopCh|p];
    try (by right).
  - right. unfold Start. by rewrite Hd.
  - apply call_move_spec in Hm as (c & c' & _ & _ & -> & -> & _). by right.
  - apply goroutine_move_spec in Hm as (g & Hg & Hr & Hc & ->). left. by exists i, g.
Qed.

Lemma none_running st : inv st → wg st = 0%nat → ∀ g, g ∈ goroutines st → running g = false.
Proof.
  intros Hinv Hw g Hg. destruct (running g) eqn:Hr; [|done].
  rewrite (inv_wg _ Hinv) in Hw. apply length_zero_iff_nil in Hw.
  assert (g ∈ filter (λ g, running g = true) (goroutines st)) as H by (by apply list_elem_of_filter).
  rewrite Hw in H. by apply elem_of_nil in H.
Qed.

(** C28: When [Shutdown] has returned, every goroutine that the factory ever started
    has ended, and none is started any more, whatever is called afterwards. *)
Theorem shutdown_final f tr st tr' st' :
  fresh_factory f → steps step (initial f) tr st → Returned ∈ calls st → steps step st tr' st' →
  goroutines st' = goroutines st ∧ ∀ g, g ∈ goroutines st' → running g = false.
Proof.
  intros Hf Hst Hret Hst'. pose proof (factory_inv_reachable f tr st Hf Hst) as Hinv.
  assert (Hdown : shuttingDown (fac st) = true) by (apply (inv_down _ Hinv); auto).
  pose proof (none_running _ Hinv (inv_returned _ Hinv Hret)) as Hnone.
  assert (goroutines st' = goroutines st) as ->; [|done].
  induction Hst' as [|st tr' st1 l st2 Hst1 IH Hs]; [done|].
  rewrite <- IH by done. destruct (steps_keep _ _ _ Hst1) as (_ & _ & _ & Hd1).
  destruct (down_step _ _ _ Hs (Hd1 Hdown)) as [(i & g & _ & Hg & Hr & _)|(_ & Hg & _)]; [|done].
  rewrite (Hnone g) in Hr; [done|]. rewrite <- IH by done. by eapply list_elem_of_lookup_2.
Qed.

(** ** [Shutdown] returns *)
Definition own (i : nat) (l : label) : bool :=
  match l with LGoroutine _ => true | LCall j => bool_decide (i = j) | _ => false end.
Definition remaining (i : nat) (st : state) : nat :=
  wg st + match calls st !! i with Some Waiting => 1 | _ => 0 end.
Definition waiting (i : nat) (st : state) : Prop :=
  calls st !! i = Some Waiting ∨ calls st !! i = Some Returned.

Lemma shutdown_remaining_step i st l st' :
  inv st → waiting i st → step st l st' →
  waiting i st' ∧ remaining i st = (remaining i st' + if own i l then 1 else 0)%nat.
Proof.
  intros Hinv Hw Hs.
  assert (Hd : shuttingDown (fac st) = true).
  { apply (inv_down _ Hinv). destruct Hw as [Hw|Hw]; [left|right]; by eapply list_elem_of_lookup_2. }
  assert (Hcalls : calls st' !! i = calls st !! i ∧ own i l = (if l is LGoroutine _ then true else false) ∨
    l = LCall i ∧ calls st !! i = Some Waiting ∧ calls st' !! i = Some Returned).
  { destruct Hs as [T newFunc|stopCh order Ho| |stopCh order Ho|j ok st' Hm|j st' Hm|stopCh|p];
      try (by left); simpl.
    - left. by destruct (Start_keeps stopCh order st) as (-> & _).
    - left. rewrite lookup_app_l; [done|]. by destruct Hw as [Hw|Hw]; eapply lookup_lt_Some.
    - left. rewrite lookup_app_l; [done|]. by destruct Hw as [Hw|Hw]; eapply lookup_lt_Some.
    - unfold call_move in Hm. destruct (decide (i = j)) as [<-|Hij]; [rewrite bool_decide_eq_true_2 by done|rewrite bool_decide_eq_false_2 by done].
      + destruct Hw as [Hw|Hw]; rewrite Hw in Hm; simpl in Hm; [|done].
        case_bool_decide; [|done]. injection Hm as <-. right. split_and!; [done..|].
        simpl. apply list_lookup_insert_eq. by eapply lookup_lt_Some.
      + left. split; [|done]. apply call_move_spec in Hm as (c & c' & _ & -> & _).
        by rewrite list_lookup_insert_ne.
    - apply goroutine_move_spec in Hm as (g & _ & _ & _ & ->). by left. }
  unfold remaining, waiting. destruct (down_step _ _ _ Hs Hd) as [(j & g & -> & Hg & Hr & _ & Hgs & Hwg & Hc)|(Hl & Hg & ->)].
  - rewrite Hc, Hwg. split; [done|]. simpl. rewrite (inv_wg _ Hinv), (running_exited _ _ _ Hg Hr). lia.
  - destruct Hcalls as [[-> ->]|(-> & -> & ->)].
    + split; [done|]. destruct l; try lia. by destruct (Hl i0).
    + simpl. rewrite bool_decide_eq_true_2 by done. split; [by right|lia].
Qed.

Lemma waiting_steps i st tr st' :
  inv st → waiting i st → (∀ g, g ∈ goroutines st → running g = true → g_stop g ∈ closed st) →
  steps step st tr st' →
  waiting i st' ∧ (remaining i st' + length (filter (λ l, own i l = true) tr) = remaining i st)%nat ∧
  ∀ g, g ∈ goroutines st' → running g = true → g_stop g ∈ closed st'.
Proof.
  intros Hinv Hw Hclosed Hst.
  assert (Hdown : shuttingDown (fac st) = true).
  { apply (inv_down _ Hinv). destruct Hw as [Hw|Hw]; [left|right]; by eapply list_elem_of_lookup_2. }
  induction Hst as [|st tr st1 l st2 Hst1 IH Hs]; [split_and!; [done|simpl; lia|done]|].
  destruct IH as (Hw1 & Hrem & Hcl); [done..|]. pose proof (factory_inv_steps _ _ _ Hinv Hst1) as Hinv1.
  destruct (shutdown_remaining_step _ _ _ _ Hinv1 Hw1 Hs) as [Hw2 Heq].
  destruct (steps_keep _ _ _ Hst1) as (_ & _ & _ & Hd1).
  destruct (step_keeps _ _ _ Hs) as (_ & Hcs & _). split_and!; [done| |].
  - rewrite filter_app, length_app, filter_cons. rewrite Heq in Hrem.
    destruct (own i l); simpl; lia.
  - intros g Hg Hr. destruct (down_step _ _ _ Hs (Hd1 Hdown)) as [(j & g' & _ & _ & _ & _ & Hgs & _)|(_ & Hgs & _)];
      rewrite Hgs in Hg; [apply elem_of_insert_inv in Hg as [->|Hg]; [done|]|]; by apply Hcs, Hcl.
Qed.

(** Until the call has returned, it or a goroutine can move. *)
Lemma waiting_progress i st :
  inv st → waiting i st → (∀ g, g ∈ goroutines st → running g = true → g_stop g ∈ closed st) →
  calls st !! i = Some Returned ∨ ∃ l st2, step st l st2 ∧ own i l = true.
Proof.
  intros Hinv [Hw|Hw] Hcl; [right|by left].
  destruct (decide (wg st = 0%nat)) as [Hz|Hz].
  - eexists (LCall i), _. split; [|simpl; by apply bool_decide_eq_true_2].
    apply (step_call _ i true). unfold call_move. rewrite Hw. simpl. by rewrite bool_decide_eq_true_2.
  - rewrite (inv_wg _ Hinv) in Hz.
    destruct (filter (λ g, running g = true) (goroutines st)) as [|g gs] eqn:Hgs; [done|].
    assert (Hg : g ∈ filter (λ g, running g = true) (goroutines st)) by (rewrite Hgs; left).
    apply list_elem_of_filter in Hg as [Hr Hg]. pose proof (Hcl g Hg Hr) as Hc.
    apply list_elem_of_lookup in Hg as [j Hj]. eexists (LGoroutine j), _. split; [|done].
    apply step_goroutine. unfold goroutine_move. rewrite Hj. simpl. by rewrite Hr, bool_decide_eq_true_2.
Qed.

(** C29: [Shutdown] returns once the stop channels are closed: after its lock, if the
    channel of every goroutine that still runs is closed, then whatever else
    happens at most [wg + 1] moves of the goroutines and of the call remain, and
    until it has returned one of them can be made. *)
Theorem shutdown_returns f tr st i tr' st' :
  fresh_factory f → steps step (initial f) tr st → calls st !! i = Some Waiting →
  (∀ g, g ∈ goroutines st → running g = true → g_stop g ∈ closed st) →
  steps step st tr' st' →
  (length (filter (λ l, own i l = true) tr') ≤ wg st + 1)%nat ∧
  (calls st' !! i = Some Returned ∨ ∃ l st2, step st' l st2 ∧ own i l = true).
Proof.
  intros Hf Hst Hw Hclosed Hst'. pose proof (factory_inv_reachable f tr st Hf Hst) as Hinv.
  destruct (waiting_steps i st tr' st' Hinv (or_introl Hw) Hclosed Hst') as (Hw' & Hrem & Hcl).
  split; [unfold remaining in Hrem; rewrite Hw in Hrem; lia|].
  apply waiting_progress; [by eapply factory_inv_steps|done..].
Qed.

(** ** [WaitForCacheSync] *)
Definition answered (stop : channel) (all todo : list (string * pointer)) (res : gmap string bool)
    (st : state) : Prop :=
  ∃ front, all = front ++ todo ∧
  ∀ T, match res !! T with
       | Some true => ∃ p, (T, p) ∈ front ∧ p ∈ hasSynced st
       | Some false => T ∈ front.*1 ∧ stop ∈ closed st
       | None => T ∉ front.*1
       end.
Definition sync_inv (i : nat) (stop : channel) (all : list (string * pointer)) (st : state) : Prop :=
  (∃ todo res, calls st !! i = Some (Syncing stop todo res) ∧ answered stop all todo res st) ∨
  (∃ res, calls st !! i = Some (Synced res) ∧ answered stop all [] res st).

Lemma answered_mono stop all todo res (st st' : state) :
  closed st ⊆ closed st' → hasSynced st ⊆ hasSynced st' →
  answered stop all todo res st → answered stop all todo res st'.
Proof.
  intros Hc Hh (front & Hall & Hres). exists front. split; [done|]. intros T. specialize (Hres T).
  destruct (res !! T) as [[]|]; [|set_solver|done]. destruct Hres as (p & ? & ?). exists p. set_solver.
Qed.

Lemma answered_move stop all T p todo res (ok : bool) (st : state) :
  (if ok then p ∈ hasSynced st else stop ∈ closed st) →
  NoDup all.*1 → answered stop all ((T, p) :: todo) res st → answered stop all todo (<[T := ok]> res) st.
Proof.
  intros Hok Hnd (front & -> & Hres). exists (front ++ [(T, p)]). rewrite <- app_assoc. split; [done|].
  assert (HT : T ∉ front.*1).
  { rewrite fmap_app in Hnd. apply NoDup_app in Hnd as (_ & Hnd & _). intros HT. apply (Hnd T HT). left. }
  intros T'. rewrite fmap_app. destruct (decide (T' = T)) as [->|Hne].
  - rewrite lookup_insert_eq. destruct ok; [exists p; set_solver|]. csimpl. set_solver.
  - rewrite lookup_insert_ne by done. specialize (Hres T'). csimpl.
    destruct (res !! T') as [[]|]; [|set_solver|set_solver]. destruct Hres as (p' & ? & ?). exists p'. set_solver.
Qed.

Lemma sync_inv_step i stop all st l st' :
  NoDup all.*1 → sync_inv i stop all st → step st l st' → sync_inv i stop all st'.
Proof.
  intros Hnd Hi Hs. destruct (step_keeps _ _ _ Hs) as (_ & Hc & Hh & _).
  destruct (decide (calls st' !! i = calls st !! i)) as [Heq|Hne].
  { unfold sync_inv. rewrite Heq.
    destruct Hi as [(todo & res & Hcall & Ha)|(res & Hcall & Ha)]; [left; exists todo, res|right; exists res];
      (split; [done|]); by eapply answered_mono. }
  assert (Hlt : (i < length (calls st))%nat).
  { by destruct Hi as [(? & ? & Hcall & _)|(? & Hcall & _)]; eapply lookup_lt_Some. }
  destruct Hs as [T newFunc|stopCh order Ho| |stopCh order Ho|j ok st' Hm|j st' Hm|stopCh|p]; try done.
  - by rewrite (proj1 (Start_keeps stopCh order st)) in Hne.
  - simpl in Hne. by rewrite lookup_app_l in Hne.
  - simpl in Hne. by rewrite lookup_app_l in Hne.
  - destruct (decide (i = j)) as [<-|Hij].
    2: { apply call_move_spec in Hm as (c & c' & _ & Hcs & _). rewrite Hcs, list_lookup_insert_ne in Hne; done. }
    unfold call_move in Hm. destruct Hi as [(todo & res & Hcall & Ha)|(res & Hcall & Ha)]; rewrite Hcall in Hm; [|done].
    simpl in Hm. destruct todo as [|[T p] todo].
    + injection Hm as <-. right. exists res. simpl. split; [by apply list_lookup_insert_eq|done].
    + destruct ok; (case_bool_decide as Hok; [|done]); injection Hm as <-; left; eexists todo, _;
        simpl; (split; [by apply list_lookup_insert_eq|]); apply (answered_move stop all T p todo res _ st); done.
  - apply goroutine_move_spec in Hm as (g & _ & _ & _ & ->). done.
Qed.

(** What [WaitForCacheSync] returns is about exactly the informers that were
    started when it was called, each once: true only for an informer whose cache
    has synced, false only when the stop channel was closed. *)
Theorem WaitForCacheSync_result st stopCh st1 tr st2 res :
  step st (LWaitForCacheSync stopCh) st1 → steps step st1 tr st2 →
  calls st2 !! length (calls st) = Some (Synced res) →
  ∀ T, match res !! T with
       | Some true => ∃ p, started (fac st) !! T = Some p ∧ p ∈ hasSynced st2
       | Some false => is_Some (started (fac st) !! T) ∧ stopCh ∈ closed st2
       | None => started (fac st) !! T = None
       end.
Proof.
  intros Hs Hst Hres. inversion Hs as [| | |? order Ho| | | |]; subst.
  assert (Hnd : NoDup order.*1) by (rewrite Ho; apply NoDup_fst_map_to_list).
  assert (sync_inv (length (calls st)) stopCh order st2) as Hi.
  { refine (steps_invariant step (sync_inv (length (calls st)) stopCh order) _ _ _ _ _ Hst).
    - intros s1 l s2. by apply sync_inv_step.
    - left. exists order, ∅. simpl. split; [by rewrite list_lookup_middle|]. exists []. split; [done|].
      intros T. rewrite lookup_empty. apply not_elem_of_nil. }
  destruct Hi as [(? & ? & Hc & _)|(res' & Hc & front & Hall & Ha)]; rewrite Hres in Hc; [done|].
  injection Hc as <-. rewrite app_nil_r in Hall. subst front. intros T. specialize (Ha T).
  assert (Hin : ∀ p, (T, p) ∈ order ↔ started (fac st) !! T = Some p) by (intros p; by rewrite Ho, elem_of_map_to_list).
  assert (Hfst : T ∈ order.*1 ↔ is_Some (started (fac st) !! T)).
  { rewrite list_elem_of_fmap. unfold is_Some. setoid_rewrite <- Hin. split; [intros ([? p] & -> & ?); by exists p|].
    intros [p Hp]. by exists (T, p). }
  destruct (res !! T) as [[]|].
  - destruct Ha as (p & Hp & ?). exists p. by rewrite <- Hin.
  - by rewrite <- Hfst.
  - apply eq_None_not_Some. by rewrite <- Hfst.
Qed.
End factory.
End Factory.

(** ** The generated listers ([pkg/generated/listers]) *)
Module Listers.
Section listers.
Context {I Obj : Type} `{Indexer I Obj} `{!MetaAccessor Obj}.

(** [v1alpha1.Resource]. *)
Definition Resource (resource : string) : GroupResource :=
  gvr_GroupResource (Informers.crd_resource resource).

(** [List] and [Get] of both listers, with the name that an error gives to the
    resource; objects are of the lister's type. *)
Definition generated_List (indexer : I) (selector : Selector) : list Obj * option error :=
  Lister.ListAll indexer selector.
Definition generated_Get (resource : string) (indexer : I) (name : string) : error + Obj :=
  match GetByKey indexer name with
  | inl err => inl err
  | inr None => inl (NewNotFound (Resource resource) name)
  | inr (Some obj) => inr obj
  end.
Definition NewValidatingAdmissionPolicyLister (indexer : I) : Lister.NamespacedLister :=
  {| Lister.List := generated_List indexer; Lister.Get := generated_Get "validatingadmissionpolicy" indexer |}.
Definition NewValidatingAdmissionPolicyBindingLister (indexer : I) : Lister.NamespacedLister :=
  {| Lister.List := generated_List indexer;
     Lister.Get := generated_Get "validatingadmissionpolicybinding" indexer |}.

(** [cache.genericLister], which [ForResource] gives. *)
Record GenericLister := {
  generic_List : Selector → list Obj * option error;
  generic_Get : string → error + Obj;
  ByNamespace : string → Lister.NamespacedLister (Obj := Obj);
}.
Definition NewGenericLister (indexer : I) (resource : GroupResource) : GenericLister :=
  let get key name :=
    match GetByKey indexer key with
    | inl err => inl err
    | inr None => inl (NewNotFound resource name)
    | inr (Some obj) => inr obj
    end in
  {| generic_List := Lister.ListAll indexer;
     generic_Get name := get name name;
     ByNamespace namespace :=
       {| Lister.List := Lister.ListAllByNamespace indexer namespace;
          Lister.Get name := get (namespace ++ slash_str ++ name)%string name |} |}.

(** ** The listers of informers

    [GetIndexer]: the store that an informer of the factory fills. *)
Context {W Options Watcher Policy Binding : Type} (GetIndexer : nat → I).
Abbreviation sharedInformerFactory := (Informers.sharedInformerFactory (W := W) (Options := Options)
  (Watcher := Watcher) (Policy := Policy) (Binding := Binding)).
Definition policy_Lister (v : Informers.version) (f : sharedInformerFactory) :=
  let '(i, f) := Informers.policy_Informer v f in (NewValidatingAdmissionPolicyLister (GetIndexer i), f).
Definition binding_Lister (v : Informers.version) (f : sharedInformerFactory) :=
  let '(i, f) := Informers.binding_Informer v f in (NewValidatingAdmissionPolicyBindingLister (GetIndexer i), f).
Definition generic_Lister (i : Informers.genericInformer) : GenericLister :=
  NewGenericLister (GetIndexer (Informers.informer i)) (Informers.resource i).

(** [informer.go] of [pkg/controller]: an informer with a lister. *)
Record Informer := { Informer_ : nat; Informer_Lister : Lister.NamespacedLister (Obj := Obj) }.
Definition NewInformer (informe : nat) : Informer :=
  {| Informer_ := informe; Informer_Lister := Lister.NewLister (GetIndexer informe) |}.

(** Whoever asks for a lister, typed or by its resource, before or after the
    informer exists, reads the same store: that of the one informer that the
    factory has registered for the type. *)
Lemma InformerFor_registers t new (f : sharedInformerFactory) :
  let '(i, f') := Informers.InformerFor t new f in
  Informers.informers f' !! t = Some i ∧ Informers.InformerFor t new f' = (i, f').
Proof.
  unfold Informers.InformerFor. destruct (Informers.informers f !! t) as [i|] eqn:Hi; simpl.
  - by rewrite Hi.
  - by rewrite lookup_insert_eq.
Qed.

Theorem listers_share_informer format (f : sharedInformerFactory) v :
  v = Informers.Admissionregistration_V1alpha1 f →
  ∃ i f', policy_Lister v f = (NewValidatingAdmissionPolicyLister (GetIndexer i), f') ∧
    Informers.informers f' !! Informers.policy_type = Some i ∧
    policy_Lister v f' = (NewValidatingAdmissionPolicyLister (GetIndexer i), f') ∧
    Informers.ForResource format (Informers.crd_resource "validatingadmissionpolicies") f =
      (inr {| Informers.resource := Resource "validatingadmissionpolicies"; Informers.informer := i |}, f') ∧
    (∀ name obj, GetByKey (GetIndexer i) name = inr (Some obj) →
       generic_Get (NewGenericLister (GetIndexer i) (Resource "validatingadmissionpolicies")) name = inr obj ∧
       Lister.Get (NewValidatingAdmissionPolicyLister (GetIndexer i)) name = inr obj).
Proof.
  intros ->. unfold policy_Lister, Informers.ForResource, Informers.policy_Informer at 1 2 3.
  rewrite bool_decide_true by done.
  pose proof (InformerFor_registers Informers.policy_type
    (Informers.policy_defaultInformer (Informers.v_tweakListOptions (Informers.Admissionregistration_V1alpha1 f))) f) as Hr.
  destruct (Informers.InformerFor _ _ f) as [i f']. destruct Hr as [Hi Hagain]. exists i, f'.
  unfold Informers.policy_Informer. rewrite Hagain. split_and!; [done..|].
  intros name obj Ho. simpl. unfold generated_Get. by rewrite Ho.
Qed.
End listers.

#[local] Existing Instance Lister.matches_dec.
(** The generated listers agree with the store: every matching object is listed
    once, and an object is found exactly when it is stored under the name. *)
Lemma generated_lister_spec {I Obj : Type} `{IndexerLaws I Obj} (indexer : I) sel resource name :
  ix_ok indexer → Lister.filed indexer → selector_ok sel →
  (generated_List indexer sel).2 = None ∧
  (generated_List indexer sel).1 ≡ₚ filter (Lister.matches sel) (map_to_list (ix_items indexer)).*2 ∧
  generated_Get resource indexer name =
    match ix_items indexer !! name with
    | Some obj => inr obj
    | None => inl (NewNotFound (Resource resource) name)
    end.
Proof.
  intros Hok Hf Hsel. unfold generated_List, generated_Get, Lister.ListAll.
  pose proof (List_items indexer Hok) as Hlist.
  rewrite Lister.append_matching_spec; [|done|by rewrite Hlist; apply Lister.filed_accessors].
  rewrite GetByKey_items by done. split_and!; [done|by simpl; rewrite Hlist|].
  by destruct (ix_items indexer !! name).
Qed.
End Listers.

(** ** A factory in use: the informer of policies is started, its cache syncs, the
    stop channel is closed and the factory shut down *)
Module Demo.
Import Informers Factory.
Definition client : Interface (Policy := string * nat) (Binding := string * nat) :=
  {| ValidatingAdmissionPolicies := Transformed.mem_client fst "";
     ValidatingAdmissionPolicyBindings := Transformed.mem_client fst "" |}.
Definition demo_factory := NewSharedInformerFactory client 30.
Definition new_policies := policy_defaultInformer (Policy := string * nat) (Binding := string * nat)
  (W := gmap string (string * nat)) (Watcher := ()) (Options := ()) None.
Definition s0 := initial demo_factory.
Definition s1 := set_fac (InformerFor policy_type new_policies (fac s0)).2 s0.
Definition s2 := Start 7 [(policy_type, 0%nat)] s1.
Definition s3 := set_calls (calls s2 ++ [Locking]) s2.
Definition s4 := set_calls [Waiting] (set_fac (set_shuttingDown true (fac s3)) s3).
Definition s5 := set_closed ({[7%nat]} ∪ closed s4) s4.
Definition s6 := default s5 (goroutine_move 0 s5).
Definition s7 := set_calls [Returned] s6.

Lemma fresh : fresh_factory demo_factory.
Proof. done. Qed.
Lemma to_s1 : steps step s0 [LInformerFor policy_type new_policies] s1.
Proof. apply steps_one, step_InformerFor. Qed.
Lemma to_s5 : steps step s1 [LStart 7; LShutdown; LCall 0; LClose 7] s5.
Proof.
  apply (steps_snoc _ _ [_; _; _] s4); [|apply step_close].
  apply (steps_snoc _ _ [_; _] s3); [|by apply (step_call _ 0 true)].
  apply (steps_snoc _ _ [_] s2); [|apply step_Shutdown].
  apply steps_one, step_Start. change (informers (fac s1)) with ({[policy_type := 0%nat]} : gmap string nat).
  by rewrite map_to_list_singleton.
Qed.
Lemma from_s0 : steps step s0 [LInformerFor policy_type new_policies; LStart 7; LShutdown; LCall 0; LClose 7] s5.
Proof. apply (steps_cons _ _ _ s1); [apply step_InformerFor|apply to_s5]. Qed.
Definition last_moves : list (label (Policy := string * nat) (Binding := string * nat)
  (W := gmap string (string * nat)) (Watcher := ()) (Options := ())) := [LGoroutine 0; LCall 0].
Lemma to_s7 : steps step s5 last_moves s7.
Proof.
  apply (steps_snoc _ _ [_] s6); [apply steps_one, step_goroutine; reflexivity|].
  apply (step_call _ 0 true). reflexivity.
Qed.
(** A call of [WaitForCacheSync] in [s2]. *)
Definition w1 := set_calls [Syncing 7 [(policy_type, 0%nat)] ∅] s2.
Definition w2 := set_hasSynced ({[0%nat]} ∪ hasSynced w1) w1.
Definition w3 := set_calls [Syncing 7 [] {[policy_type := true]}] w2.
Definition w4 := set_calls [Synced {[policy_type := true]}] w3.
Lemma to_w1 : step s2 (LWaitForCacheSync 7) w1.
Proof.
  apply (step_WaitForCacheSync s2 7 [(policy_type, 0%nat)]).
  unfold started. change (informers (fac s2)) with ({[policy_type := 0%nat]} : gmap string nat).
  rewrite map_filter_singleton_True by (simpl; set_solver). by rewrite map_to_list_singleton.
Qed.
Lemma to_w4 : steps step w1 [LHasSynced 0; LCall 0; LCall 0] w4.
Proof.
  apply (steps_snoc _ _ [_; _] w3); [|by apply (step_call _ 0 true)].
  apply (steps_snoc _ _ [_] w2); [apply steps_one, step_synced|by apply (step_call _ 0 true)].
Qed.
Lemma s5_closed g : g ∈ goroutines s5 → running g = true → g_stop g ∈ closed s5.
Proof. intros ->%list_elem_of_singleton _. set_solver. Qed.
End Demo.

Lemma informers_shared_witness :
  (Informers.InformerFor Informers.policy_type Demo.new_policies (Factory.fac Demo.s5)).1 =
  (Informers.InformerFor Informers.policy_type Demo.new_policies (Factory.fac Demo.s0)).1.
Proof.
  destruct (Factory.informers_shared Demo.demo_factory [] Demo.s0 Demo.fresh (steps_nil _ _)) as (H & _).
  refine (H Informers.policy_type Demo.new_policies Demo.new_policies _ Demo.s5 _).
  exact Demo.to_s5.
Defined.

Lemma shutdown_final_witness :
  Factory.goroutines Demo.s7 = Factory.goroutines Demo.s7 ∧
  ∀ g, g ∈ Factory.goroutines Demo.s7 → Factory.running g = false.
Proof.
  apply (Factory.shutdown_final Demo.demo_factory _ Demo.s7 [] Demo.s7 Demo.fresh
    (steps_app _ _ _ _ _ _ Demo.from_s0 Demo.to_s7)); [left|constructor].
Defined.

Lemma shutdown_returns_witness :
  (length (filter (λ l, Factory.own 0 l = true) Demo.last_moves) ≤ Factory.wg Demo.s5 + 1)%nat ∧
  (Factory.calls Demo.s7 !! 0%nat = Some Factory.Returned ∨
   ∃ l st2, Factory.step Demo.s7 l st2 ∧ Factory.own 0 l = true).
Proof.
  exact (Factory.shutdown_returns Demo.demo_factory _ Demo.s5 0 _ Demo.s7 Demo.fresh Demo.from_s0 eq_refl
    Demo.s5_closed Demo.to_s7).
Defined.

Lemma WaitForCacheSync_result_witness :
  ∃ p, Factory.started (Factory.fac Demo.s2) !! Informers.policy_type = Some p ∧
       p ∈ Factory.hasSynced Demo.w4.
Proof.
  exact (Factory.WaitForCacheSync_result Demo.s2 7 Demo.w1 _ Demo.w4 _ Demo.to_w1 Demo.to_w4 eq_refl
           Informers.policy_type).
Defined.
