(* ===== verification/Pki.v ===== *)
(** * Certificates ([pkg/pki], [cmd/gentls])

    The authority, the certificates it issues, and the program that writes them
    to files.  Keys, signatures and the encodings of [crypto/x509] and
    [encoding/pem] are operations with the laws that their documentation gives;
    serial numbers, templates, validity windows and the order of the steps are
    the program's own. *)
From S2P Require Import Prelude GoStrings GoErrors.

(** Steps that may fail: [if err != nil { return nil, err }]. *)
Definition try_bind {W A B} (m : GO W (error + A)) (f : A → GO W (error + B)) : GO W (error + B) :=
  r ← m; match r with inl err => mret (inl err) | inr a => f a end.
Notation "x ←? m ; k" := (try_bind m (λ x, k))
  (at level 20, m at level 100, k at level 200, only parsing) : stdpp_scope.

Lemma wp_try {W A B} (m : GO W (error + A)) (f : A → GO W (error + B)) w (Q : error + B → W → Prop) :
  wp m w (λ r w', match r with inl err => Q (inl err) w' | inr a => wp (f a) w' Q end) →
  wp (try_bind m f) w Q.
Proof.
  intros Hm. apply wp_bind. eapply wp_mono; [exact Hm|]. intros [err|a] w'; [by apply wp_ret|done].
Qed.

Module Pki.

(** ** Bytes as numbers *)
Abbreviation byte := Z (only parsing).
Definition is_byte (b : Z) : Prop := 0 ≤ b < 256.
(** [new(big.Int).SetBytes(b)]: big-endian. *)
Definition SetBytes (b : list Z) : Z := foldl (λ n d, n * 256 + d) 0 b.
(** [b[0] = b[0] & 0x7f]. *)
Definition mask_first (b : list Z) : list Z :=
  match b with [] => [] | d :: b => Z.land d 127 :: b end.

(** ** Certificates *)
Inductive ExtKeyUsage := ExtKeyUsageServerAuth | ExtKeyUsageClientAuth.
Definition KeyUsageDigitalSignature : Z := 1.
Definition KeyUsageKeyEncipherment : Z := 4.
Definition KeyUsageCertSign : Z := 32.

(** Times are nanoseconds since the epoch, durations [int64] nanoseconds. *)
Definition Second : Z := 1000000000.
Definition Minute : Z := 60 * Second.
Definition Hour : Z := 60 * Minute.
Definition DefaultExpiry : Z := 365 * 24 * Hour.

Section pki.
Context {W Bytes PublicKey PrivateKey : Type}.

(** The fields of [x509.Certificate] that the program sets or that issuing and
    parsing fill in. *)
Record Certificate := {
  SerialNumber : Z;
  Subject : string;
  NotBefore : Z;
  NotAfter : Z;
  KeyUsage : Z;
  BasicConstraintsValid : bool;
  IsCA : bool;
  PermittedDNSDomainsCritical : bool;
  PermittedDNSDomains : list string;
  DNSNames : list string;
  ExtKeyUsages : list ExtKeyUsage;
  Issuer : string;
  CertPublicKey : option PublicKey;
  Raw : option Bytes;
}.

Record CertificateKeyPair := {
  PrivateKeyPem : Bytes;
  CertificatePem : Bytes;
  Cert : Certificate;
  PrivKey : PrivateKey;
}.

(** The library: randomness, clock, keys, certificates, encodings, files. *)
Record Library := {
  rand_Read : nat → GO W (error + list Z);
  time_Now : GO W Z;
  GenerateKey : GO W (error + PublicKey * PrivateKey);
  x509_CreateCertificate : Certificate → Certificate → PublicKey → PrivateKey → GO W (error + Bytes);
  ParseCertificate : Bytes → error + Certificate;
  MarshalPKCS8PrivateKey : PrivateKey → error + Bytes;
  EncodeToMemory : string → Bytes → Bytes;
  WriteFile : string → Bytes → GO W (option error);
}.
Context (lib : Library).

(** ** [cert.go] *)
Definition CertificateBlock : string := "CERTIFICATE".
Definition PrivateKeyBlock : string := "PRIVATE KEY".

Definition serialNumber : GO W (error + Z) :=
  b ←? rand_Read lib 20;
  mret (inr (SetBytes (mask_first b))).

Definition populateTemplate (commonName : string) (expiry : Z) : GO W (error + Certificate) :=
  let expiry := if bool_decide (expiry = 0) then DefaultExpiry else expiry in
  sn ←? serialNumber;
  now ← time_Now lib;
  mret (inr {| SerialNumber := sn; Subject := commonName;
               NotBefore := now + (-5 * Minute); NotAfter := now + expiry;
               KeyUsage := Z.lor KeyUsageKeyEncipherment KeyUsageDigitalSignature;
               BasicConstraintsValid := true; IsCA := false; PermittedDNSDomainsCritical := false;
               PermittedDNSDomains := []; DNSNames := []; ExtKeyUsages := []; Issuer := "";
               CertPublicKey := None; Raw := None |}).

(** [cert.Raw] of a parsed certificate; nil otherwise ([nil_bytes]). *)
Definition encodeKeyPair (nil_bytes : Bytes) (cert : Certificate) (priv : PrivateKey) : error + Bytes * Bytes :=
  match MarshalPKCS8PrivateKey lib priv with
  | inl err => inl err
  | inr privDer => inr (EncodeToMemory lib CertificateBlock (default nil_bytes (Raw cert)),
                        EncodeToMemory lib PrivateKeyBlock privDer)
  end.

(** The common end of [GenerateCA] and [CreateCertificate]. *)
Definition issue (nil_bytes : Bytes) (template parent : Certificate) (pub : PublicKey)
    (priv signer : PrivateKey) : GO W (error + CertificateKeyPair) :=
  certDer ←? x509_CreateCertificate lib template parent pub signer;
  cert ←? mret (ParseCertificate lib certDer);
  pems ←? mret (encodeKeyPair nil_bytes cert priv);
  mret (inr {| PrivateKeyPem := pems.2; CertificatePem := pems.1; Cert := cert; PrivKey := priv |}).

Definition for_host (hostName : string) (t : Certificate) : Certificate :=
  {| SerialNumber := SerialNumber t; Subject := Subject t; NotBefore := NotBefore t;
     NotAfter := NotAfter t; KeyUsage := KeyUsage t; BasicConstraintsValid := BasicConstraintsValid t;
     IsCA := IsCA t; PermittedDNSDomainsCritical := PermittedDNSDomainsCritical t;
     PermittedDNSDomains := PermittedDNSDomains t; DNSNames := [hostName];
     ExtKeyUsages := [ExtKeyUsageClientAuth; ExtKeyUsageServerAuth]; Issuer := Issuer t;
     CertPublicKey := CertPublicKey t; Raw := Raw t |}.

Definition CreateCertificate (nil_bytes : Bytes) (c : CertificateKeyPair) (hostName : string) (expiry : Z)
    : GO W (error + CertificateKeyPair) :=
  keys ←? GenerateKey lib;
  template ←? populateTemplate hostName expiry;
  issue nil_bytes (for_host hostName template) (Cert c) keys.1 keys.2 (PrivKey c).

(** ** [ca.go] *)
Record CAConfig := {
  CommonName : string;
  ca_PermittedDNSDomains : list string;
  Expiry : Z;
}.

Definition for_ca (domains : list string) (t : Certificate) : Certificate :=
  {| SerialNumber := SerialNumber t; Subject := Subject t; NotBefore := NotBefore t;
     NotAfter := NotAfter t; KeyUsage := Z.lor (KeyUsage t) KeyUsageCertSign;
     BasicConstraintsValid := BasicConstraintsValid t; IsCA := true;
     PermittedDNSDomainsCritical :=
       if bool_decide (0 < length domains)%nat then true else PermittedDNSDomainsCritical t;
     PermittedDNSDomains := if bool_decide (0 < length domains)%nat then domains else PermittedDNSDomains t;
     DNSNames := DNSNames t; ExtKeyUsages := ExtKeyUsages t; Issuer := Issuer t;
     CertPublicKey := CertPublicKey t; Raw := Raw t |}.

Definition GenerateCA (nil_bytes : Bytes) (config : CAConfig) : GO W (error + CertificateKeyPair) :=
  keys ←? GenerateKey lib;
  template ←? populateTemplate (CommonName config) (Expiry config);
  let template := for_ca (ca_PermittedDNSDomains config) template in
  issue nil_bytes template template keys.1 keys.2 keys.2.

(** ** [pool.go]: a pool as the certificates in it *)
Definition NewCertPoolFromCA (ca : Certificate) : list Certificate := [ca].

(** ** [cmd/gentls] *)
Definition oneYear : Z := Hour * 24 * 365.
Definition write (name : string) (data : Bytes) : GO W (error + unit) :=
  err ← WriteFile lib name data;
  mret match err with Some err => inl err | None => inr () end.

Definition generateAndWriteCertificates (nil_bytes : Bytes) (hostName : string) : GO W (error + unit) :=
  ca ←? GenerateCA nil_bytes {| CommonName := "SelfSigned"; ca_PermittedDNSDomains := []; Expiry := 0 |};
  _ ←? write "ca.pem" (CertificatePem ca);
  keyPair ←? CreateCertificate nil_bytes ca hostName oneYear;
  _ ←? write "server.pem" (CertificatePem keyPair);
  write "server-key.pem" (PrivateKeyPem keyPair).

(** [main]: the exit status, for the host of the flag. *)
Definition gentls_main (nil_bytes : Bytes) (host : option string) : GO W Z :=
  r ← generateAndWriteCertificates nil_bytes (default "example.com" host);
  mret match r with inl _ => 1 | inr _ => 0 end.

(** ** Serial numbers *)
Lemma SetBytes_from b n : foldl (λ n d, n * 256 + d) n b = n * 256 ^ Z.of_nat (length b) + SetBytes b.
Proof.
  revert n. unfold SetBytes. induction b as [|d b IH]; intros n; cbn [foldl length].
  - rewrite Z.pow_0_r. lia.
  - rewrite IH, (IH (0 * 256 + d)), Nat2Z.inj_succ, Z.pow_succ_r by lia. lia.
Qed.

Lemma SetBytes_cons d b : SetBytes (d :: b) = d * 256 ^ Z.of_nat (length b) + SetBytes b.
Proof. unfold SetBytes at 1. cbn [foldl]. by rewrite SetBytes_from. Qed.

Lemma SetBytes_bounds b : Forall is_byte b → 0 ≤ SetBytes b < 256 ^ Z.of_nat (length b).
Proof.
  induction 1 as [|d b Hd Hb IH]; [done|].
  rewrite SetBytes_cons. cbn [length]. rewrite Nat2Z.inj_succ, Z.pow_succ_r by lia.
  unfold is_byte in Hd. nia.
Qed.

(** Masking the first byte is taking the number without its highest bit. *)
Lemma mask_first_mod d b :
  Forall is_byte (d :: b) → SetBytes (mask_first (d :: b)) = SetBytes (d :: b) `mod` (128 * 256 ^ Z.of_nat (length b)).
Proof.
  intros [Hd Hb]%Forall_cons. unfold mask_first. rewrite !SetBytes_cons.
  change 127 with (Z.ones 7). rewrite Z.land_ones by lia. change (2 ^ 7) with 128.
  pose proof (SetBytes_bounds b Hb). pose proof (Z.mod_pos_bound d 128).
  apply Z.mod_unique_pos with (d / 128); [nia|]. pose proof (Z.div_mod d 128). nia.
Qed.

(** Serial numbers are non-negative numbers of at most 159 bits, so 20 bytes hold
    them with their sign, and they are the 160 random bits without the highest: no
    other bit of randomness is lost.  An error of the source of randomness is
    returned. *)
Theorem serialNumber_bounds w r w' :
  rand_Read lib 20 w = (Value r, w') →
  match r with
  | inl err => serialNumber w = (Value (inl err), w')
  | inr b =>
      length b = 20%nat → Forall is_byte b →
      ∃ sn, serialNumber w = (Value (inr sn), w') ∧
            0 ≤ sn < 2 ^ 159 ∧ sn = SetBytes b `mod` 2 ^ 159
  end.
Proof.
  intros Hr. unfold serialNumber, try_bind. rewrite (go_bind_value _ _ _ _ _ Hr).
  destruct r as [err|[|d b]]; [done|done|]. intros Hlen Hb. eexists. split; [done|].
  rewrite mask_first_mod by done. injection Hlen as ->.
  change (128 * 256 ^ Z.of_nat 19) with (2 ^ 159). split; [|done]. by apply Z.mod_pos_bound.
Qed.

(** ** What the library documents

    [clock]: the time, which does not go back; [files]: the contents by name. *)
Context (clock : W → Z) (files : W → gmap string Bytes).
Context (Public : PrivateKey → PublicKey) (CheckSignature : PublicKey → Bytes → Prop).
Context (pem_Decode : Bytes → option (string * Bytes)) (ParsePKCS8 : Bytes → option PrivateKey).

(** Certificates hold times in whole seconds. *)
Definition truncate (t : Z) : Z := t / Second * Second.

(** What parsing gives for an issued certificate. *)
Definition issued (template parent : Certificate) (pub : PublicKey) (der : Bytes) : Certificate :=
  {| SerialNumber := SerialNumber template; Subject := Subject template;
     NotBefore := truncate (NotBefore template); NotAfter := truncate (NotAfter template);
     KeyUsage := KeyUsage template; BasicConstraintsValid := BasicConstraintsValid template;
     IsCA := IsCA template; PermittedDNSDomainsCritical := PermittedDNSDomainsCritical template;
     PermittedDNSDomains := PermittedDNSDomains template; DNSNames := DNSNames template;
     ExtKeyUsages := ExtKeyUsages template; Issuer := Subject parent; CertPublicKey := Some pub;
     Raw := Some der |}.

(** A step that writes no file. *)
Definition later (w w' : W) : Prop := clock w ≤ clock w' ∧ files w' = files w.

Record library_ok : Prop := {
  rand_ok n w : wp (rand_Read lib n) w (λ r w', later w w' ∧
    match r with inl _ => True | inr b => length b = n ∧ Forall is_byte b end);
  now_ok w : wp (time_Now lib) w (λ t w', later w w' ∧ clock w ≤ t ≤ clock w');
  keys_ok w : wp (GenerateKey lib) w (λ r w', later w w' ∧
    match r with inl _ => True | inr (pub, priv) => pub = Public priv end);
  create_ok template parent pub signer w :
    wp (x509_CreateCertificate lib template parent pub signer) w (λ r w', later w w' ∧
      match r with
      | inl _ => True
      | inr der => CheckSignature (Public signer) der ∧
          ∀ cert, ParseCertificate lib der = inr cert → cert = issued template parent pub der
      end);
  pkcs8_ok priv der : MarshalPKCS8PrivateKey lib priv = inr der → ParsePKCS8 der = Some priv;
  pem_ok type data : pem_Decode (EncodeToMemory lib type data) = Some (type, data);
  write_ok name data w : wp (WriteFile lib name data) w (λ err w', clock w ≤ clock w' ∧
    match err with
    | None => files w' = <[name := data]> (files w)
    | Some _ => delete name (files w') = delete name (files w)
    end);
}.
Hypothesis lib_ok : library_ok.

(** ** Key pairs that belong together *)
Record keypair_ok (kp : CertificateKeyPair) : Prop := {
  kp_public : CertPublicKey (Cert kp) = Some (Public (PrivKey kp));
  kp_cert : ∃ der, Raw (Cert kp) = Some der ∧ ParseCertificate lib der = inr (Cert kp) ∧
                   pem_Decode (CertificatePem kp) = Some (CertificateBlock, der);
  kp_key : ∃ der, pem_Decode (PrivateKeyPem kp) = Some (PrivateKeyBlock, der) ∧
                  ParsePKCS8 der = Some (PrivKey kp);
}.

(** The certificate is issued and signed by the owner of another. *)
Definition issued_by (ca cert : Certificate) : Prop :=
  Issuer cert = Subject ca ∧
  ∃ key der, CertPublicKey ca = Some key ∧ Raw cert = Some der ∧ CheckSignature key der.
Definition valid_at (t : Z) (cert : Certificate) : Prop := NotBefore cert ≤ t ≤ NotAfter cert.

Lemma later_refl w : later w w.
Proof. by split. Qed.
Lemma later_trans w1 w2 w3 : later w1 w2 → later w2 w3 → later w1 w3.
Proof. unfold later. intros [? ?] [? ?]. split; [lia|congruence]. Qed.

Lemma serialNumber_ok w :
  wp serialNumber w (λ r w', later w w' ∧ match r with inl _ => True | inr sn => 0 ≤ sn < 2 ^ 159 end).
Proof.
  apply wp_try. eapply wp_mono; [apply (rand_ok lib_ok)|].
  intros [err|[|d b]] w' [Hl Hr]; [done|by destruct Hr|]. destruct Hr as [Hlen Hb]. apply wp_ret.
  split; [done|]. rewrite mask_first_mod by done. injection Hlen as ->. by apply Z.mod_pos_bound.
Qed.

(** The template: its window is around a time at which the call ran. *)
Definition templated (commonName : string) (expiry : Z) (w w' : W) (t : Certificate) : Prop :=
  Subject t = commonName ∧ 0 ≤ SerialNumber t < 2 ^ 159 ∧
  KeyUsage t = Z.lor KeyUsageKeyEncipherment KeyUsageDigitalSignature ∧
  IsCA t = false ∧ PermittedDNSDomains t = [] ∧
  ∃ now, clock w ≤ now ≤ clock w' ∧ NotBefore t = now - 5 * Minute ∧
         NotAfter t = now + (if bool_decide (expiry = 0) then DefaultExpiry else expiry).

Lemma populateTemplate_ok commonName expiry w :
  wp (populateTemplate commonName expiry) w (λ r w', later w w' ∧
    match r with inl _ => True | inr t => templated commonName expiry w w' t end).
Proof.
  apply wp_try. eapply wp_mono; [apply serialNumber_ok|]. intros [err|sn] w1 [Hl Hsn]; [done|].
  apply wp_bind. eapply wp_mono; [apply (now_ok lib_ok)|]. intros now w2 [Hl2 Hnow]. apply wp_ret.
  split; [by eapply later_trans|]. unfold templated. simpl. split_and!; try done; [lia..|].
  exists now. destruct Hl, Hl2. split_and!; lia.
Qed.

Lemma issue_ok nil_bytes template parent pub priv signer w :
  pub = Public priv →
  wp (issue nil_bytes template parent pub priv signer) w (λ r w', later w w' ∧
    match r with
    | inl _ => True
    | inr kp => keypair_ok kp ∧ ∃ der, Cert kp = issued template parent pub der ∧
                                      CheckSignature (Public signer) der
    end).
Proof.
  intros Hpub. apply wp_try. eapply wp_mono; [apply (create_ok lib_ok)|].
  intros [err|der] w1 [Hl Hc]; [done|]. destruct Hc as [Hsig Hparse].
  apply wp_try, wp_ret. destruct (ParseCertificate lib der) as [err|cert] eqn:Hp; [done|].
  pose proof (Hparse _ eq_refl) as ->. apply wp_try, wp_ret. unfold encodeKeyPair.
  destruct (MarshalPKCS8PrivateKey lib priv) as [err|keyDer] eqn:Hm; [done|]. apply wp_ret.
  split; [done|]. split; [|by exists der]. split; simpl.
  - by rewrite Hpub.
  - exists der. by rewrite (pem_ok lib_ok).
  - exists keyDer. split; [apply (pem_ok lib_ok)|]. by apply (pkcs8_ok lib_ok).
Qed.

(** The times at which an issued certificate is valid. *)
Definition window (expiry : Z) (w w' : W) (cert : Certificate) : Prop :=
  ∃ now, clock w ≤ now ≤ clock w' ∧
    ∀ t, valid_at t cert ↔ truncate (now - 5 * Minute) ≤ t ≤ truncate (now + expiry).

(** [GenerateCA] gives a self-signed authority that fits its key: with the name and
    the permitted domains of the configuration, that may sign certificates, valid
    from five minutes before the call for the expiry asked for, a year if none is.
    No file is written. *)
Lemma GenerateCA_ok nil_bytes config w :
  wp (GenerateCA nil_bytes config) w (λ r w', later w w' ∧
    match r with
    | inl _ => True
    | inr ca =>
        keypair_ok ca ∧ issued_by (Cert ca) (Cert ca) ∧ Subject (Cert ca) = CommonName config ∧
        IsCA (Cert ca) = true ∧ Z.testbit (KeyUsage (Cert ca)) 5 = true ∧
        PermittedDNSDomains (Cert ca) = ca_PermittedDNSDomains config ∧
        0 ≤ SerialNumber (Cert ca) < 2 ^ 159 ∧
        window (if bool_decide (Expiry config = 0) then DefaultExpiry else Expiry config) w w' (Cert ca)
    end).
Proof.
  apply wp_try. eapply wp_mono; [apply (keys_ok lib_ok)|].
  intros [err|[pub priv]] w1 [Hl1 Hk]; [done|]. apply wp_try. eapply wp_mono; [apply populateTemplate_ok|].
  intros [err|t] w2 [Hl2 Ht]; [by split; [eapply later_trans|]|].
  destruct Ht as (Hsub & Hsn & Hku & Hca & Hdom & now & Hnow & Hnb & Hna).
  eapply wp_mono; [by apply issue_ok|]. intros [err|ca] w3 [Hl3 Hr].
  { split; [by do 2 (eapply later_trans; [done|])|done]. }
  destruct Hr as (Hok & der & Hcert & Hsig). split; [by do 2 (eapply later_trans; [done|])|].
  split; [done|]. rewrite Hcert. simpl. rewrite Hku, Hdom. split_and!; try done.
  - split; [done|]. by exists pub, der; rewrite Hk.
  - destruct (ca_PermittedDNSDomains config); [done|]. by rewrite bool_decide_eq_true_2 by (simpl; lia).
  - apply Hsn.
  - apply Hsn.
  - exists now. destruct Hl1, Hl2, Hl3. split; [lia|]. intros x. unfold valid_at. simpl. by rewrite Hnb, Hna.
Qed.

Lemma CreateCertificate_ok nil_bytes c hostName expiry w :
  keypair_ok c →
  wp (CreateCertificate nil_bytes c hostName expiry) w (λ r w', later w w' ∧
    match r with
    | inl _ => True
    | inr kp =>
        keypair_ok kp ∧ issued_by (Cert c) (Cert kp) ∧ Subject (Cert kp) = hostName ∧
        DNSNames (Cert kp) = [hostName] ∧ ExtKeyUsageServerAuth ∈ ExtKeyUsages (Cert kp) ∧
        IsCA (Cert kp) = false ∧ 0 ≤ SerialNumber (Cert kp) < 2 ^ 159 ∧
        window (if bool_decide (expiry = 0) then DefaultExpiry else expiry) w w' (Cert kp)
    end).
Proof.
  intros Hc. apply wp_try. eapply wp_mono; [apply (keys_ok lib_ok)|].
  intros [err|[pub priv]] w1 [Hl1 Hk]; [done|]. apply wp_try. eapply wp_mono; [apply populateTemplate_ok|].
  intros [err|t] w2 [Hl2 Ht]; [by split; [eapply later_trans|]|].
  destruct Ht as (Hsub & Hsn & Hku & Hca & Hdom & now & Hnow & Hnb & Hna).
  eapply wp_mono; [by apply issue_ok|]. intros [err|kp] w3 [Hl3 Hr].
  { split; [by do 2 (eapply later_trans; [done|])|done]. }
  destruct Hr as (Hok & der & Hcert & Hsig). split; [by do 2 (eapply later_trans; [done|])|].
  split; [done|]. rewrite Hcert. simpl. split_and!; try done; [|set_solver|apply Hsn..|].
  - split; [done|]. exists (Public (PrivKey c)), der. split_and!; [apply Hc|done|done].
  - exists now. destruct Hl1, Hl2, Hl3. split; [lia|]. intros x. unfold valid_at. simpl. by rewrite Hnb, Hna.
Qed.

Lemma write_spec name data w :
  wp (write name data) w (λ r w', clock w ≤ clock w' ∧ delete name (files w') = delete name (files w) ∧
    (r = inr () → files w' = <[name := data]> (files w))).
Proof.
  apply wp_bind. eapply wp_mono; [apply (write_ok lib_ok)|].
  intros [err|] w' [Hc Hf]; apply wp_ret; (split; [done|]); [done|].
  split; [|done]. by rewrite Hf, delete_insert_eq.
Qed.

(** What the files of the program hold when it succeeds. *)
Definition decodes (fs : gmap string Bytes) (name : string) (cert : Certificate) : Prop :=
  ∃ pem der, fs !! name = Some pem ∧ pem_Decode pem = Some (CertificateBlock, der) ∧
             Raw cert = Some der ∧ ParseCertificate lib der = inr cert.
Definition decodes_key (fs : gmap string Bytes) (name : string) (priv : PrivateKey) : Prop :=
  ∃ pem der, fs !! name = Some pem ∧ pem_Decode pem = Some (PrivateKeyBlock, der) ∧
             ParsePKCS8 der = Some priv.

Lemma decodes_written fs kp name :
  keypair_ok kp → fs !! name = Some (CertificatePem kp) → decodes fs name (Cert kp).
Proof. intros Hok Hfs. destruct (kp_cert _ Hok) as (der & Hraw & Hparse & Hpem). by eexists _, der. Qed.
Lemma decodes_key_written fs kp name :
  keypair_ok kp → fs !! name = Some (PrivateKeyPem kp) → decodes_key fs name (PrivKey kp).
Proof. intros Hok Hfs. destruct (kp_key _ Hok) as (der & Hpem & Hparse). by eexists _, der. Qed.

Definition generated : list string := ["ca.pem"; "server.pem"; "server-key.pem"].
Definition others_kept (w w' : W) : Prop := ∀ name, name ∉ generated → files w' !! name = files w !! name.

Lemma others_later w w' : later w w' → others_kept w w'.
Proof. intros [_ Hf] name _. by rewrite Hf. Qed.
Lemma others_trans w1 w2 w3 : others_kept w1 w2 → others_kept w2 w3 → others_kept w1 w3.
Proof. intros H1 H2 name Hn. by rewrite H2, H1. Qed.

Lemma write_generated name data w :
  name ∈ generated →
  wp (write name data) w (λ r w', clock w ≤ clock w' ∧ others_kept w w' ∧
    (r = inr () → files w' = <[name := data]> (files w))).
Proof.
  intros Hn. eapply wp_mono; [apply write_spec|]. intros r w' (Hc & Hd & Hf). split_and!; [done| |done].
  intros name' Hn'. assert (name' ≠ name) by (intros ->; done).
  by rewrite <- (lookup_delete_ne (files w') name name'), Hd, lookup_delete_ne by done.
Qed.

Lemma window_valid expiry w w' cert t :
  0 ≤ expiry → window expiry w w' cert → clock w' ≤ t ≤ clock w + expiry - Second → valid_at t cert.
Proof.
  intros He (now & Hnow & Hv) Ht. apply Hv. unfold truncate.
  pose proof (Z.mod_pos_bound (now - 5 * Minute) Second). pose proof (Z.mod_pos_bound (now + expiry) Second).
  pose proof (Z.div_mod (now - 5 * Minute) Second). pose proof (Z.div_mod (now + expiry) Second).
  unfold Minute, Second in *. lia.
Qed.

(** Writing the server's files, after the authority is on disk. *)
Definition server_files (nil_bytes : Bytes) (hostName : string) (ca : CertificateKeyPair) : GO W (error + unit) :=
  keyPair ←? CreateCertificate nil_bytes ca hostName oneYear;
  _ ←? write "server.pem" (CertificatePem keyPair);
  write "server-key.pem" (PrivateKeyPem keyPair).

Lemma server_files_ok nil_bytes hostName ca w :
  keypair_ok ca →
  wp (server_files nil_bytes hostName ca) w (λ r w', clock w ≤ clock w' ∧ others_kept w w' ∧
    (r = inr () → ∃ kp, keypair_ok kp ∧ issued_by (Cert ca) (Cert kp) ∧ DNSNames (Cert kp) = [hostName] ∧
       ExtKeyUsageServerAuth ∈ ExtKeyUsages (Cert kp) ∧
       (∀ t, clock w' ≤ t ≤ clock w + oneYear - Second → valid_at t (Cert kp)) ∧
       files w' = <["server-key.pem" := PrivateKeyPem kp]>
                    (<["server.pem" := CertificatePem kp]> (files w)))).
Proof.
  intros Hca. apply wp_try. eapply wp_mono; [by apply CreateCertificate_ok|].
  intros [err|kp] w1 [Hl Hkp]; [split_and!; [apply Hl|by apply others_later|done]|].
  destruct Hkp as (Hok & Hby & _ & Hdns & Hauth & _ & _ & Hwin). destruct Hl as [Hl Hf1].
  apply wp_try. eapply wp_mono; [by apply write_generated; right; left|].
  assert (Ho1 : others_kept w w1) by by apply others_later.
  intros [err|[]] w2 (Hc2 & Ho2 & Hf2); [split_and!; [lia|by eapply others_trans|done]|].
  eapply wp_mono; [by apply write_generated; right; right; left|].
  intros r w3 (Hc3 & Ho3 & Hf3). split_and!; [lia|by do 2 (eapply others_trans; [done|])|].
  intros Hr. exists kp. split_and!; try done.
  - intros t Ht. apply (window_valid oneYear w w1); [done|exact Hwin|lia].
  - by rewrite Hf3, Hf2, Hf1.
Qed.

(** What [generateAndWriteCertificates] leaves behind. *)
Lemma generateAndWriteCertificates_ok nil_bytes hostName w :
  wp (generateAndWriteCertificates nil_bytes hostName) w (λ r w',
    others_kept w w' ∧
    (r = inr () → ∃ ca cert priv,
       decodes (files w') "ca.pem" ca ∧ issued_by ca ca ∧ IsCA ca = true ∧
       decodes (files w') "server.pem" cert ∧ issued_by ca cert ∧ DNSNames cert = [hostName] ∧
       ExtKeyUsageServerAuth ∈ ExtKeyUsages cert ∧
       decodes_key (files w') "server-key.pem" priv ∧ CertPublicKey cert = Some (Public priv) ∧
       ∀ t, clock w' ≤ t ≤ clock w + oneYear - Second → valid_at t cert)).
Proof.
  apply wp_try. eapply wp_mono; [apply GenerateCA_ok|].
  intros [err|ca] w1 [Hl Hca]; [by split; [apply others_later|]|].
  destruct Hca as (Hok & Hself & _ & HisCA & _). apply wp_try.
  eapply wp_mono; [by apply write_generated; left|].
  assert (Ho1 : others_kept w w1) by by apply others_later. destruct Hl as [Hl1 Hf1].
  intros [err|[]] w2 (Hc2 & Ho2 & Hf2); [by split; [eapply others_trans|]|].
  eapply wp_mono; [by apply (server_files_ok nil_bytes hostName ca)|].
  intros r w3 (Hc3 & Ho3 & Hr). split; [by do 2 (eapply others_trans; [done|])|].
  intros Hr'. destruct (Hr Hr') as (kp & Hkp & Hby & Hdns & Hauth & Hvalid & Hf3).
  assert (Hfs : files w3 = <["server-key.pem" := PrivateKeyPem kp]>
    (<["server.pem" := CertificatePem kp]> (<["ca.pem" := CertificatePem ca]> (files w1))))
    by (by rewrite Hf3, Hf2).
  exists (Cert ca), (Cert kp), (PrivKey kp). split_and!; try done.
  - apply decodes_written; [done|]. rewrite Hfs. by simplify_map_eq.
  - apply decodes_written; [done|]. rewrite Hfs. by simplify_map_eq.
  - apply decodes_key_written; [done|]. rewrite Hfs. by simplify_map_eq.
  - apply Hkp.
  - intros t Ht. apply Hvalid. lia.
Qed.

(** C31: The program's three files belong together: when it succeeds, [ca.pem] decodes
    to a self-signed authority, [server.pem] to a certificate for the host, for
    server authentication, issued by that authority, and [server-key.pem] to the
    private key of that certificate, which is valid from when the program has ended
    until a year after it was started, less a second.  Whatever the status,
    no other file is touched. *)
Theorem generated_files_verify nil_bytes host w :
  wp (gentls_main nil_bytes host) w (λ status w',
    others_kept w w' ∧
    (status = 0 → ∃ ca cert priv,
       decodes (files w') "ca.pem" ca ∧ issued_by ca ca ∧ IsCA ca = true ∧
       decodes (files w') "server.pem" cert ∧ issued_by ca cert ∧ DNSNames cert = [default "example.com" host] ∧
       ExtKeyUsageServerAuth ∈ ExtKeyUsages cert ∧
       decodes_key (files w') "server-key.pem" priv ∧ CertPublicKey cert = Some (Public priv) ∧
       ∀ t, clock w' ≤ t ≤ clock w + oneYear - Second → valid_at t cert)).
Proof.
  apply wp_bind. eapply wp_mono; [apply generateAndWriteCertificates_ok|].
  intros r w' [Hothers Hfiles]. apply wp_ret. split; [done|].
  destruct r as [err|[]]; [done|]. intros _. by apply Hfiles.
Qed.
End pki.

(** ** A library in memory: keys are numbers, encodings are constructors *)
Module Demo.
Inductive wire :=
  | Der (c : Certificate (Bytes := ()) (PublicKey := nat)) (signer : nat)
  | Key (k : nat)
  | Pem (type : string) (data : wire)
  | Nil.
Record world := { next : nat; time : Z; fs : gmap string wire }.
Abbreviation Cert_wire := (Certificate (Bytes := wire) (PublicKey := nat)).

Definition with_raw {B B'} (raw : option B') (c : Certificate (Bytes := B) (PublicKey := nat))
    : Certificate (Bytes := B') (PublicKey := nat) :=
  {| SerialNumber := SerialNumber c; Subject := Subject c; NotBefore := NotBefore c;
     NotAfter := NotAfter c; KeyUsage := KeyUsage c; BasicConstraintsValid := BasicConstraintsValid c;
     IsCA := IsCA c; PermittedDNSDomainsCritical := PermittedDNSDomainsCritical c;
     PermittedDNSDomains := PermittedDNSDomains c; DNSNames := DNSNames c;
     ExtKeyUsages := ExtKeyUsages c; Issuer := Issuer c; CertPublicKey := CertPublicKey c; Raw := raw |}.

Definition parse (der : wire) : error + Cert_wire :=
  match der with Der c _ => inr (with_raw (Some der) c) | _ => inl (plainError "malformed certificate") end.
Definition CheckSignature (pub : nat) (der : wire) : Prop :=
  match der with Der _ signer => signer = pub | _ => False end.
Definition pem_Decode (b : wire) : option (string * wire) :=
  match b with Pem type data => Some (type, data) | _ => None end.
Definition ParsePKCS8 (b : wire) : option nat := match b with Key k => Some k | _ => None end.

Definition tick {A} (a : A) : GO world A := λ w,
  (Value a, {| next := S (next w); time := time w + 1; fs := fs w |}).

Definition library : Library (W := world) (Bytes := wire) (PublicKey := nat) (PrivateKey := nat) :=
  {| rand_Read := λ n, tick (inr (replicate n 255));
     time_Now := λ w, (Value (time w), w);
     GenerateKey := λ w, tick (inr (next w, next w)) w;
     x509_CreateCertificate := λ template parent pub signer,
       tick (inr (Der (with_raw None (issued template parent pub Nil)) signer));
     ParseCertificate := parse;
     MarshalPKCS8PrivateKey := λ k, inr (Key k);
     EncodeToMemory := Pem;
     WriteFile := λ name data w,
       (Value None, {| next := next w; time := time w; fs := <[name := data]> (fs w) |}) |}.

Lemma later_tick {A} (a : A) w : later time fs w (tick a w).2.
Proof. split; simpl; [lia|done]. Qed.

Lemma demo_library_ok :
  library_ok library time fs id CheckSignature pem_Decode ParsePKCS8.
Proof.
  split.
  - intros n w. eexists _, _. split; [done|]. split; [apply (later_tick tt)|].
    split; [apply length_replicate|]. apply Forall_replicate. by split.
  - intros w. eexists _, _. split; [done|]. split; [by split|lia].
  - intros w. eexists _, _. split; [done|]. split; [apply (later_tick tt)|done].
  - intros template parent pub signer w. eexists _, _. split; [done|].
    split; [apply (later_tick tt)|]. split; [done|]. by intros cert [= <-].
  - by intros priv der [= <-].
  - done.
  - intros name data w. eexists _, _. split; [done|]. split; [done|]. done.
Qed.

Definition demo_world : world := {| next := 0; time := 1700000000 * Second; fs := ∅ |}.
End Demo.

Lemma serialNumber_bounds_witness :
  ∃ sn, serialNumber Demo.library Demo.demo_world =
          (Value (inr sn), {| Demo.next := 1; Demo.time := 1700000000 * Second + 1; Demo.fs := ∅ |}) ∧
        0 ≤ sn < 2 ^ 159 ∧ sn = SetBytes (replicate 20 255) `mod` 2 ^ 159.
Proof.
  apply (serialNumber_bounds Demo.library Demo.demo_world (inr (replicate 20 255))).
  - reflexivity.
  - reflexivity.
  - apply Forall_replicate. by split.
Defined.

Lemma generated_files_verify_witness :
  wp (gentls_main Demo.library Demo.Nil None) Demo.demo_world (λ status w',
    others_kept Demo.fs Demo.demo_world w' ∧
    (status = 0 → ∃ ca cert priv,
       decodes Demo.library Demo.pem_Decode (Demo.fs w') "ca.pem" ca ∧
       issued_by Demo.CheckSignature ca ca ∧ IsCA ca = true ∧
       decodes Demo.library Demo.pem_Decode (Demo.fs w') "server.pem" cert ∧
       issued_by Demo.CheckSignature ca cert ∧ DNSNames cert = ["example.com"] ∧
       ExtKeyUsageServerAuth ∈ ExtKeyUsages cert ∧
       decodes_key Demo.pem_Decode Demo.ParsePKCS8 (Demo.fs w') "server-key.pem" priv ∧
       CertPublicKey cert = Some (id priv) ∧
       ∀ t, Demo.time w' ≤ t ≤ Demo.time Demo.demo_world + oneYear - Second → valid_at t cert)) ∧
  (gentls_main Demo.library Demo.Nil None Demo.demo_world).1 = Value 0.
Proof.
  split; [|reflexivity].
  exact (generated_files_verify Demo.library Demo.time Demo.fs id Demo.CheckSignature Demo.pem_Decode
    Demo.ParsePKCS8 Demo.demo_library_ok Demo.Nil None Demo.demo_world).
Defined.
End Pki.
