(* ===== verification/Main.v ===== *)
(** * The program ([cmd/cel-admission-polyfill/main.go])

    How [main] puts the parts together: the clients, the validators behind the
    webhook, and the goroutines that run until one of them stops or a signal
    arrives. *)
From S2P Require Import Prelude GoErrors Admission Validator Plugin Webhook WebhookServer.
From S2P Require Import TransformedClient Json Conversion.

Module Main.
(** ** The clients *)
Section clients.
Context {Config Rest Native Dynamic Apiextensions W Options Watcher : Type}.
Context (format : Z → string) (parse : string → error + Time).
(** [kubeConfig.ClientConfig()], [rest.InClusterConfig()] and the constructors
    [NewForConfig] of the libraries. *)
Context (kubeConfig_ClientConfig rest_InClusterConfig : error + Config).
Context (versioned_NewForConfig : Config →
  error + Conversion.clientset unit
            (Conversion.replacement_client (W := W) (Options := Options) (Watcher := Watcher))).
Context (kubernetes_NewForConfig : Config → error + Conversion.clientset Rest Native).
Context (dynamic_NewForConfig : Config → error + Dynamic).
Context (apiextensions_NewForConfig : Config → error + Apiextensions).

Definition loadClientConfig : error + Config :=
  match kubeConfig_ClientConfig with
  | inr config => inr config
  | inl _ => rest_InClusterConfig
  end.

(** What the rest of [main] works with; on an error [main] prints it and
    returns. *)
Definition create_clients :=
  match loadClientConfig with
  | inl err => inl err
  | inr restConfig =>
  match versioned_NewForConfig restConfig with
  | inl err => inl err
  | inr customClient =>
  match kubernetes_NewForConfig restConfig with
  | inl err => inl err
  | inr unwrappedKubeClient =>
  let kubeClient :=
    Conversion.NewWrappedClient format parse unwrappedKubeClient customClient in
  match dynamic_NewForConfig restConfig with
  | inl err => inl err
  | inr dynamicClient =>
  match apiextensions_NewForConfig restConfig with
  | inl err => inl err
  | inr apiextensionsClient =>
      inr (customClient, kubeClient, dynamicClient, apiextensionsClient)
  end end end end end.
End clients.

(** ** The request path: the webhook over the combined validators *)
Section service.
Context {W Obj : Type} `{MetaAccessor Obj}.
Context (Decode : string → option Obj * option GroupVersionKind * option error).
Context (UnmarshalUnstructured : string → error + Obj).
Context (UnmarshalReview : string → error + Webhook.AdmissionReview).
Context (MarshalReview : Webhook.AdmissionReview → error + string).
Context (plugin : Plugin.celAdmissionPlugin W Obj).

Definition validators : list (ValidationInterface W Obj) := [Plugin.plugin_interface plugin].

Definition main_serve (req : Http.Request) (w : W) : W * Http.ResponseWriter :=
  Webhook.serve Decode UnmarshalUnstructured UnmarshalReview MarshalReview
    (Multi.NewMulti validators) req w.

(** The verdict on a request, with at most [k] questions to the evaluator
    whether it is synced. *)
Definition verdict (k : nat) (a : Attributes Obj) (w : W) : option error * W :=
  if Plugin.isPolicyResource a then (None, w)
  else
    let '(synced, w1) := Plugin.first_synced plugin k w in
    if synced then Plugin.evaluator_Validate (Plugin.evaluator plugin) TODO a w1
    else (Some (admission_NewForbidden a (plainError "not yet ready to handle request")), w1).

(** One member that handles everything is as good as alone. *)
Lemma single_validator a w :
  Validate (Multi.NewMulti validators) TODO a w = Plugin.plugin_Validate plugin TODO a w.
Proof.
  simpl. rewrite st_bind_run. by destruct (Plugin.plugin_Validate plugin TODO a w) as [[e|] w'].
Qed.

Lemma plugin_verdict a w :
  Plugin.timers_ok plugin →
  ∃ k, (1 ≤ k ≤ 12)%nat ∧ Plugin.plugin_Validate plugin TODO a w = verdict k a w.
Proof.
  intros Ht. exists (Wait.max_polls (Plugin.schedule plugin TODO w)).
  split; [by apply Plugin.max_polls_bound|]. unfold verdict.
  destruct (Plugin.isPolicyResource a) eqn:Ha; [|by apply Plugin.plugin_Validate_run].
  unfold Plugin.plugin_Validate. by rewrite Ha.
Qed.

(** A request that parses and whose objects decode is answered
    with the verdict of the polyfill: allowed at once when it is about policies
    or bindings; otherwise the evaluator's own verdict, asked once after at most
    twelve questions whether it is synced, and forbidden when it has not synced.
    The answer is the marshalled review, or a refusal with status 500 when it
    does not marshal; the world is the one the evaluator left. *)
Theorem polyfill_verdict req r object oldObject w :
  Plugin.timers_ok plugin →
  Webhook.parseRequest UnmarshalReview req = inr r →
  Webhook.decode_objects Decode UnmarshalUnstructured r = inr (object, oldObject) →
  ∃ k, (1 ≤ k ≤ 12)%nat ∧
    let '(err, w') := verdict k (Webhook.request_attributes r object oldObject) w in
    let review := Webhook.reviewResponse (Webhook.UID r) err in
    (main_serve req w).1 = w' ∧
    match MarshalReview review with
    | inr _ => Webhook.reviewed MarshalReview (main_serve req w).2 review
    | inl e => Webhook.refusal (main_serve req w).2 StatusInternalServerError (GoErrors.Error e)
    end.
Proof.
  intros Ht Hp Hd. set (a := Webhook.request_attributes r object oldObject).
  destruct (plugin_verdict a w Ht) as (k & Hk & Hv). exists k. split; [done|].
  unfold main_serve, Webhook.serve, Webhook.handleWebhookValidate.
  rewrite Hp, Webhook.review_cases, Hd. fold a. rewrite single_validator, Hv.
  destruct (verdict k a w) as [err w']. simpl.
  destruct (MarshalReview (Webhook.reviewResponse (Webhook.UID r) err)) as [e|out] eqn:Hm; simpl.
  - split; [done|]. apply Webhook.Http_Error_refusal.
  - split; [done|]. destruct (Webhook.serve_reviewed out) as (Hst & Hb & Hc).
    split_and!; [exact Hst|by rewrite Hm, <- Hb at 1|exact Hc].
Qed.
End service.

(** ** The life of the process

    [main] after the clients: it starts the goroutine that runs the plugin, the
    one that runs the webhook, the three informer factories, and waits for the
    first two.  The webhook's own goroutines are those of [Server]; its [parent]
    is the server context. *)

(** Where the plugin's goroutine is: in [r.Run]; before [serverCancel()]; before
    [waitGroup.Done()]. *)
Inductive plugin_pc := PluginNotStarted | PluginRunning | PluginReturned | PluginCancelled | PluginFinished.

(** The webhook's goroutine: in [webhook.Run]; before the deferred
    [serverCancel()] and [waitGroup.Done()]. *)
Inductive web_pc :=
  | WebNotStarted
  | WebRunning (s : Server.state)
  | WebReturned | WebCancelled | WebFinished.

Inductive main_pc := StartsPlugin | StartsWebhook | StartsFactories (left : nat) | Waits | Exited.

Record state := {
  root : option Server.ctx_err;           (** the context of the signals *)
  serverContext : option Server.ctx_err;
  plugin_goroutine : plugin_pc;
  web : web_pc;
  waitGroup : Z;
  factories : nat;                        (** informer factories started *)
  main : main_pc;
}.

#[local] Instance state_settable : Settable state := λ st,
  {| root := root st; serverContext := serverContext st;
     plugin_goroutine := plugin_goroutine st; web := web st; waitGroup := waitGroup st;
     factories := factories st; main := main st |}.
Definition set_root : option Server.ctx_err → state → state := ltac:(setter_of state root).
Definition set_serverContext : option Server.ctx_err → state → state :=
  ltac:(setter_of state serverContext).
Definition set_plugin : plugin_pc → state → state := ltac:(setter_of state plugin_goroutine).
Definition set_web : web_pc → state → state := ltac:(setter_of state web).
Definition set_waitGroup : Z → state → state := ltac:(setter_of state waitGroup).
Definition set_factories : nat → state → state := ltac:(setter_of state factories).
Definition set_main : main_pc → state → state := ltac:(setter_of state main).

(** After the creation of the clients, failed or not. *)
Definition start {A} (clients : error + A) : state :=
  {| root := None; serverContext := None; plugin_goroutine := PluginNotStarted;
     web := WebNotStarted; waitGroup := 0; factories := 0;
     main := match clients with inl _ => Exited | inr _ => StartsPlugin end |}.

(** A context is done with its first error, also for those that hold it. *)
Definition with_parent (p : option Server.ctx_err) (w : web_pc) : web_pc :=
  match w with
  | WebRunning s =>
      WebRunning {| Server.parent := p; Server.fork := Server.fork s;
                    Server.serverError := Server.serverError s;
                    Server.srv_closed := Server.srv_closed s;
                    Server.listener := Server.listener s; Server.main := Server.main s |}
  | w => w
  end.
Definition cancel_server (e : Server.ctx_err) (st : state) : state :=
  let done := Server.cancel (serverContext st) e in
  set_serverContext done (set_web (with_parent done (web st)) st).

Definition main_move (st : state) : option state :=
  match main st with
  | StartsPlugin =>
      Some (set_main StartsWebhook
              (set_plugin PluginRunning (set_waitGroup (waitGroup st + 1) st)))
  | StartsWebhook =>
      Some (set_main (StartsFactories 3)
              (set_web (WebRunning (Server.start (serverContext st)))
                 (set_waitGroup (waitGroup st + 1) st)))
  | StartsFactories (S n) => Some (set_main (StartsFactories n) (set_factories (S (factories st)) st))
  | StartsFactories O => Some (set_main Waits st)
  | Waits => if decide (waitGroup st = 0) then Some (set_main Exited st) else None
  | Exited => None
  end.

Definition plugin_move (st : state) : option state :=
  match plugin_goroutine st with
  | PluginReturned => Some (set_plugin PluginCancelled (cancel_server Server.Canceled st))
  | PluginCancelled => Some (set_plugin PluginFinished (set_waitGroup (waitGroup st - 1) st))
  | _ => None
  end.

(** The webhook's goroutine outside [webhook.Run]. *)
Definition web_move (st : state) : option state :=
  match web st with
  | WebRunning s =>
      match Server.main s with
      | Server.returned _ => Some (set_web WebReturned st)
      | _ => None
      end
  | WebReturned => Some (set_web WebCancelled (cancel_server Server.Canceled st))
  | WebCancelled => Some (set_web WebFinished (set_waitGroup (waitGroup st - 1) st))
  | _ => None
  end.

Inductive label :=
  | Signal                         (** SIGINT or SIGTERM *)
  | RootDone                       (** the server context learns of it *)
  | PluginReturns                  (** [evaluator.Run] returns *)
  | MainMoves | PluginMoves | WebMoves
  | ServerMoves (l : Server.label).

#[export] Instance label_Signal_dec (l : label) : Decision (l = Signal).
Proof. destruct l; (by left) || (by right). Defined.
#[export] Instance main_pc_eq_dec : EqDecision main_pc.
Proof. solve_decision. Defined.

Inductive step : state → label → state → Prop :=
  | step_signal st :
      root st = None → step st Signal (set_root (Some Server.Canceled) st)
  | step_root st e :
      root st = Some e → serverContext st = None → step st RootDone (cancel_server e st)
  | step_plugin_returns st :
      plugin_goroutine st = PluginRunning → step st PluginReturns (set_plugin PluginReturned st)
  | step_main st st' : main_move st = Some st' → step st MainMoves st'
  | step_plugin st st' : plugin_move st = Some st' → step st PluginMoves st'
  | step_web st st' : web_move st = Some st' → step st WebMoves st'
  | step_server st s l s' :
      web st = WebRunning s → Server.step s l s' →
      (∀ e, l ≠ Server.ParentDone e) → step st (ServerMoves l) (set_web (WebRunning s') st).

(** ** Invariant *)
Definition plugin_count (pc : plugin_pc) : Z :=
  match pc with PluginNotStarted | PluginFinished => 0 | _ => 1 end.
Definition web_count (w : web_pc) : Z :=
  match w with WebNotStarted | WebFinished => 0 | _ => 1 end.
Definition plugin_cancelled (pc : plugin_pc) : Prop := pc = PluginCancelled ∨ pc = PluginFinished.
Definition web_cancelled (w : web_pc) : Prop := w = WebCancelled ∨ w = WebFinished.

(** What [main] has started. *)
Definition main_started (st : state) : Prop :=
  match main st with
  | StartsPlugin => plugin_goroutine st = PluginNotStarted ∧ web st = WebNotStarted ∧ factories st = 0%nat
  | StartsWebhook => plugin_goroutine st ≠ PluginNotStarted ∧ web st = WebNotStarted ∧ factories st = 0%nat
  | StartsFactories n =>
      plugin_goroutine st ≠ PluginNotStarted ∧ web st ≠ WebNotStarted ∧ (factories st + n = 3)%nat
  | Waits => plugin_goroutine st ≠ PluginNotStarted ∧ web st ≠ WebNotStarted ∧ factories st = 3%nat
  | Exited => plugin_goroutine st = PluginFinished ∧ web st = WebFinished ∧ factories st = 3%nat
  end.

Record inv (st : state) : Prop := {
  inv_waitGroup : waitGroup st = plugin_count (plugin_goroutine st) + web_count (web st);
  inv_web s : web st = WebRunning s → Server.parent s = serverContext st ∧ Server.inv s;
  inv_main : main_started st;
  inv_done : plugin_cancelled (plugin_goroutine st) ∨ web_cancelled (web st) →
             serverContext st ≠ None;
}.

Lemma process_inv_start : inv (start (@inr error () tt)).
Proof. split; simpl; try done. by intros [[]|[]]. Qed.

Lemma with_parent_shape p w :
  web_count (with_parent p w) = web_count w ∧
  (with_parent p w = WebNotStarted ↔ w = WebNotStarted) ∧
  (with_parent p w = WebFinished ↔ w = WebFinished) ∧
  (web_cancelled (with_parent p w) ↔ web_cancelled w).
Proof. destruct w; simpl; unfold web_cancelled; naive_solver. Qed.

(** A server whose context ends is a server that took that step. *)
Lemma with_parent_inv s p e :
  Server.parent s = p → Server.inv s →
  ∃ s', with_parent (Server.cancel p e) (WebRunning s) = WebRunning s' ∧
        Server.parent s' = Server.cancel p e ∧ Server.inv s'.
Proof.
  intros Hp Hinv. eexists. split; [done|]. split; [done|]. simpl.
  destruct p as [e'|]; simpl; [rewrite <- Hp; by destruct s|].
  eapply Server.server_inv_step; [exact Hinv|]. by apply (Server.step_parent s e).
Qed.

Lemma inv_cancel st e : inv st → inv (cancel_server e st) ∧ serverContext (cancel_server e st) ≠ None.
Proof.
  intros [Hwg Hweb Hm Hd].
  destruct (with_parent_shape (Server.cancel (serverContext st) e) (web st)) as (Hc & Hn & Hf & Hca).
  split; [|apply Server.cancel_not_none]. split; simpl.
  - by rewrite Hc.
  - intros s Hs. destruct (web st) as [|s0| | |] eqn:Hw; try done.
    destruct (Hweb s0 eq_refl) as [Hp Hinv].
    destruct (with_parent_inv s0 _ e Hp Hinv) as (s' & Hs' & Hp' & Hinv').
    simpl in Hs, Hs'. by simplify_eq.
  - unfold main_started in *. simpl. by destruct (main st); rewrite ?Hn, ?Hf.
  - intros _. apply Server.cancel_not_none.
Qed.

Lemma inv_move st pc wg :
  inv st → plugin_goroutine st ≠ PluginNotStarted → pc ≠ PluginNotStarted →
  (plugin_goroutine st = PluginFinished → pc = PluginFinished) →
  wg = waitGroup st + plugin_count pc - plugin_count (plugin_goroutine st) →
  (plugin_cancelled pc → serverContext st ≠ None) →
  inv (set_plugin pc (set_waitGroup wg st)).
Proof.
  intros [Hwg Hweb Hm Hd] Hn Hpc Hfin -> Hca. split; simpl; [lia|done| |naive_solver].
  unfold main_started in *. simpl. destruct (main st); naive_solver.
Qed.

Lemma inv_move_web st w wg :
  inv st → web st ≠ WebNotStarted → w ≠ WebNotStarted →
  (web st = WebFinished → w = WebFinished) →
  wg = waitGroup st + web_count w - web_count (web st) →
  (web_cancelled w → serverContext st ≠ None) →
  (∀ s, w = WebRunning s → Server.parent s = serverContext st ∧ Server.inv s) →
  inv (set_web w (set_waitGroup wg st)).
Proof.
  intros [Hwg Hweb Hm Hd] Hn Hpc Hfin -> Hca Hrun. split; simpl; [lia|done| |naive_solver].
  unfold main_started in *. simpl. destruct (main st); naive_solver.
Qed.

Lemma inv_main_move st st' : inv st → main_move st = Some st' → inv st'.
Proof.
  intros [Hwg Hweb Hm Hd] Hmv. unfold main_move in Hmv. unfold main_started in Hm.
  destruct (main st) as [| |[|n]| |] eqn:He; simplify_eq; destruct Hm as (Hp & Hw & Hf).
  - split; simpl; [rewrite Hp in Hwg; simpl in Hwg; lia|done|by unfold main_started; simpl|].
    intros [[]|Hc]; [done..|]. by rewrite Hw in Hc; destruct Hc.
  - split; simpl.
    + rewrite Hw in Hwg. simpl in Hwg. lia.
    + intros s [= <-]. split; [done|]. apply Server.inv_start.
    + unfold main_started. simpl. by rewrite Hf.
    + intros [Hc|[]]; [|done..]. apply Hd. by left.
  - split; simpl; [done..| |done]. unfold main_started. simpl. split_and!; [done|done|lia].
  - split; simpl; [done..| |done]. unfold main_started. simpl. split_and!; [done|done|lia].
  - case_decide as H0; [|done]. simplify_eq. split; simpl; [done..| |done].
    unfold main_started. simpl. rewrite H0 in Hwg.
    destruct (plugin_goroutine st), (web st); simpl in Hwg; done || lia.
Qed.

Lemma process_inv_step st l st' : inv st → step st l st' → inv st'.
Proof.
  intros Hinv Hst. pose proof Hinv as [Hwg Hweb Hm Hd].
  destruct Hst as [st|st e Hr Hc|st Hp|st st' Hmv|st st' Hmv|st st' Hmv|st s l s' Hw Hs Hl].
  - by split.
  - by apply inv_cancel.
  - apply (inv_move st PluginReturned (waitGroup st)); rewrite ?Hp; try done; [simpl; lia|].
    by intros [].
  - by eapply inv_main_move.
  - unfold plugin_move in Hmv. destruct (plugin_goroutine st) eqn:Hp; try done; injection Hmv as <-.
    + destruct (inv_cancel st Server.Canceled Hinv) as [Hi Hn].
      apply (inv_move (cancel_server Server.Canceled st) PluginCancelled (waitGroup st));
        simpl; rewrite ?Hp; try done; simpl; lia.
    + apply (inv_move st PluginFinished (waitGroup st - 1)); rewrite ?Hp; try done; [simpl; lia|].
      intros _. apply Hd. left. by left.
  - unfold web_move in Hmv. destruct (web st) as [|s| | |] eqn:Hw; try done.
    + destruct (Server.main s); try done. injection Hmv as <-.
      apply (inv_move_web st WebReturned (waitGroup st)); rewrite ?Hw; try done; [simpl; lia|].
      by intros [].
    + injection Hmv as <-. destruct (inv_cancel st Server.Canceled Hinv) as [Hi Hn].
      apply (inv_move_web (cancel_server Server.Canceled st) WebCancelled (waitGroup st));
        simpl; rewrite ?Hw; try done; simpl; lia.
    + injection Hmv as <-. apply (inv_move_web st WebFinished (waitGroup st - 1)); rewrite ?Hw; try done; [simpl; lia|].
      intros _. apply Hd. right. by left.
  - destruct (Hweb s Hw) as [Hp Hi].
    apply (inv_move_web st (WebRunning s') (waitGroup st)); rewrite ?Hw; try done; [simpl; lia|by intros []|].
    intros s1 [= <-]. split; [|by eapply Server.server_inv_step].
    rewrite <- Hp. destruct Hs; try done. by destruct (Hl e).
Qed.

Lemma process_inv_steps tr st : steps step (start (@inr error () tt)) tr st → inv st.
Proof. apply steps_invariant; [apply process_inv_step|apply process_inv_start]. Qed.

(** ** Stopping *)

(** What makes the process stop: a signal, the plugin's [Run] returning, or the
    listener of the webhook returning. *)
Definition causes (l : label) : Prop :=
  match l with
  | Signal | PluginReturns | ServerMoves (Server.ListenReturns _) => True
  | _ => False
  end.

(** Something in the process is stopping. *)
Definition server_stopping (s : Server.state) : Prop :=
  Server.fork s ≠ None ∨ Server.listener s ≠ Server.listening.
Definition web_stopping (w : web_pc) : Prop :=
  match w with WebNotStarted => False | WebRunning s => server_stopping s | _ => True end.
Definition plugin_stopping (pc : plugin_pc) : Prop :=
  match pc with PluginNotStarted | PluginRunning => False | _ => True end.
Definition stopping (st : state) : Prop :=
  root st ≠ None ∨ serverContext st ≠ None ∨
  plugin_stopping (plugin_goroutine st) ∨ web_stopping (web st).

Lemma with_parent_stopping p w : web_stopping (with_parent p w) ↔ web_stopping w.
Proof. by destruct w. Qed.

Lemma server_stopping_step s l s' :
  Server.step s l s' → server_stopping s → server_stopping s'.
Proof.
  intros Hs. unfold server_stopping. destruct Hs; simpl; try tauto.
  intros _. left. apply Server.cancel_not_none.
Qed.

(** The process starts to stop by a cause, and keeps stopping. *)
Lemma stopping_step st l st' :
  inv st → step st l st' → (stopping st ∨ causes l ↔ stopping st').
Proof.
  intros [Hwg Hweb Hm Hd] Hst. unfold stopping, causes.
  destruct Hst as [st|st e Hr Hc|st Hp|st st' Hmv|st st' Hmv|st st' Hmv|st s l s' Hw Hs Hl]; simpl.
  - naive_solver.
  - assert (Server.cancel (serverContext st) e ≠ None) by apply Server.cancel_not_none.
    rewrite with_parent_stopping. naive_solver.
  - naive_solver.
  - unfold main_move in Hmv. unfold main_started in Hm.
    destruct (main st) as [| |[|n]| |]; simplify_eq; simpl; try (by destruct Hm as (-> & -> & _); naive_solver).
    + destruct Hm as (_ & -> & _). simpl. unfold server_stopping. simpl. naive_solver.
    + tauto.
    + tauto.
    + case_decide; simplify_eq. simpl. tauto.
  - unfold plugin_move in Hmv. destruct (plugin_goroutine st); simplify_eq; simpl; naive_solver.
  - unfold web_move in Hmv. destruct (web st) as [|s| | |]; simplify_eq; simpl; [|naive_solver..].
    destruct (Server.main s) eqn:Hsm; simplify_eq. simpl. destruct (Hweb s eq_refl) as [_ Hi].
    assert (server_stopping s) by (left; apply Hi; by rewrite Hsm). tauto.
  - rewrite Hw. simpl. destruct (Hweb s Hw) as [Hp Hi]. split.
    + intros [[?|[?|[?|?]]]|Hca]; [tauto..| |].
      * do 3 right. by eapply server_stopping_step.
      * destruct l; try done. do 3 right. inversion Hs. by right.
    + intros [?|[?|[?|Hst]]]; [tauto..|].
      destruct Hs; simpl in *; unfold server_stopping in *; simpl in *; try tauto.
      * left. right. left. congruence.
      * left. do 3 right. right. congruence.
Qed.

Lemma stopping_iff tr st :
  steps step (start (@inr error () tt)) tr st → (stopping st ↔ ∃ l, l ∈ tr ∧ causes l).
Proof.
  intros Hst. assert (Hboth : inv st ∧ (stopping st ↔ ∃ l, l ∈ tr ∧ causes l)); [|by destruct Hboth].
  revert Hst. apply (steps_trace_invariant step (λ tr st, inv st ∧ (stopping st ↔ ∃ l, l ∈ tr ∧ causes l))).
  - intros tr1 s1 l s2 [Hinv Hiff] Hl. split; [by eapply process_inv_step|].
    rewrite <- (stopping_step s1 l s2) by done. rewrite Hiff. setoid_rewrite elem_of_app.
    setoid_rewrite list_elem_of_singleton. naive_solver.
  - split; [apply process_inv_start|]. unfold stopping. simpl. split; [naive_solver|].
    intros (l & []%not_elem_of_nil & _).
Qed.

(** The steps the program takes by itself; [evaluator.Run] returns once its
    context is done. *)
Definition own_step (st : state) (l : label) : Prop :=
  match l with
  | Signal => False
  | PluginReturns => serverContext st ≠ None
  | ServerMoves l => Server.own_step l
  | _ => True
  end.

(** How many steps remain at most, without the signal. *)
Definition remaining (st : state) : nat :=
  (match main st with
   | StartsPlugin => 7 | StartsWebhook => 6 | StartsFactories n => 2 + n | Waits => 1 | Exited => 0
   end) +
  (match plugin_goroutine st with
   | PluginNotStarted | PluginRunning => 3 | PluginReturned => 2 | PluginCancelled => 1
   | PluginFinished => 0
   end) +
  (match web st with
   | WebNotStarted => 9 | WebRunning s => 3 + Server.remaining s | WebReturned => 2
   | WebCancelled => 1 | WebFinished => 0
   end) +
  (match serverContext st with None => 1 | Some _ => 0 end).

Lemma process_remaining_step st l st' :
  inv st → step st l st' → l ≠ Signal → (remaining st' < remaining st)%nat.
Proof.
  intros [Hwg Hweb Hm Hd] Hst Hl. unfold remaining.
  destruct Hst as [st|st e Hr Hc|st Hp|st st' Hmv|st st' Hmv|st st' Hmv|st s l s' Hw Hs Hne]; simpl; [done|..].
  - rewrite Hc. unfold Server.remaining. destruct (web st); simpl; lia.
  - rewrite Hp. lia.
  - unfold main_move in Hmv. unfold main_started in Hm.
    destruct (main st) as [| |[|n]| |]; simplify_eq; simpl.
    + destruct Hm as (-> & _). lia.
    + destruct Hm as (_ & -> & _). unfold Server.remaining. simpl. destruct (serverContext st); lia.
    + lia.
    + lia.
    + case_decide; simplify_eq. simpl. lia.
  - unfold plugin_move in Hmv. destruct (plugin_goroutine st); simplify_eq; simpl.
    + unfold Server.remaining. destruct (web st), (serverContext st); simpl; lia.
    + lia.
  - unfold web_move in Hmv. destruct (web st) as [|s| | |]; simplify_eq; simpl.
    + destruct (Server.main s); simplify_eq. simpl. lia.
    + destruct (serverContext st); simpl; lia.
    + lia.
  - rewrite Hw. pose proof (Server.remaining_step _ _ _ Hs Hne). lia.
Qed.

(** While something is stopping and [main] has not returned, the program can
    move. *)
Lemma progress st :
  inv st → stopping st → main st ≠ Exited →
  ∃ l st', step st l st' ∧ own_step st l.
Proof.
  intros [Hwg Hweb Hm Hd] Hstop Hex. unfold main_started in Hm.
  destruct (main_move st) as [st'|] eqn:Hmv; [by eexists MainMoves, st'; split; [apply step_main|]|].
  assert (Hw : main st = Waits ∧ waitGroup st ≠ 0).
  { unfold main_move in Hmv. destruct (main st) as [| |[]| |]; try done. by case_decide. }
  destruct Hw as [Hw Hwg0]. rewrite Hw in Hm. destruct Hm as (Hpn & Hwn & _).
  destruct (plugin_move st) as [st'|] eqn:Hpm; [by eexists PluginMoves, st'; split; [apply step_plugin|]|].
  destruct (web_move st) as [st'|] eqn:Hwm; [by eexists WebMoves, st'; split; [apply step_web|]|].
  destruct (serverContext st) as [e|] eqn:Hc.
  - destruct (plugin_goroutine st) eqn:Hp; try done.
    { eexists PluginReturns, _. split; [by apply step_plugin_returns|]. simpl. by rewrite Hc. }
    all: unfold plugin_move in Hpm; rewrite Hp in Hpm; try done.
    unfold web_move in Hwm. destruct (web st) as [|s| | |] eqn:Hws; try done.
    destruct (Hweb s eq_refl) as [Hpar Hi].
    destruct (Server.server_progress s Hi) as [[r Hr]|(l & s' & Hl & Hown)];
      [right; congruence|by rewrite Hr in Hwm|].
    exists (ServerMoves l), (set_web (WebRunning s') st). split; [|done].
    apply (step_server st s); [done..|]. by intros e' ->.
  - destruct (root st) as [e|] eqn:Hr; [by eexists RootDone, _; split; [eapply step_root|]|].
    assert (Hpl : ¬ plugin_stopping (plugin_goroutine st)).
    { unfold plugin_move in Hpm. destruct (plugin_goroutine st); simpl; try tauto; try done.
      destruct Hd; [|done]. left. by right. }
    unfold stopping in Hstop. rewrite Hr, Hc in Hstop. destruct Hstop as [?|[?|[?|Hst]]]; [done..|].
    unfold web_move in Hwm. destruct (web st) as [|s| | |] eqn:Hws; try done;
      [|destruct Hd; [|done]; right; by right].
    destruct (Hweb s eq_refl) as [Hpar Hi].
    assert (Hl : Server.listener s ≠ Server.listening).
    { destruct Hst as [Hf|]; [|done]. assert (Hno : Server.parent s = None) by congruence.
      pose proof (Server.inv_live _ Hi Hno Hf) as [_ ->]. done. }
    destruct (Server.server_progress s Hi) as [[r Hr']|(l & s' & Hl' & Hown)];
      [by left|by rewrite Hr' in Hwm|].
    exists (ServerMoves l), (set_web (WebRunning s') st). split; [|done].
    apply (step_server st s); [done..|]. by intros e' ->.
Qed.

(** ** Theorems *)
(** The process stops as a whole and never by itself: when [main] returns
    after having created its clients, the plugin and the webhook have both
    returned and the wait group is at zero, the server context is done, all
    informer factories had been started, and a signal, the return of the
    plugin's [Run] or that of the listener was the cause. *)
Theorem process_exit tr st :
  steps step (start (@inr error () tt)) tr st → main st = Exited →
  plugin_goroutine st = PluginFinished ∧ web st = WebFinished ∧ waitGroup st = 0 ∧
  serverContext st ≠ None ∧ factories st = 3%nat ∧ ∃ l, l ∈ tr ∧ causes l.
Proof.
  intros Hst Hex. pose proof (process_inv_steps _ _ Hst) as [Hwg Hweb Hm Hd].
  unfold main_started in Hm. rewrite Hex in Hm. destruct Hm as (Hp & Hw & Hf).
  split_and!; [done|done| | |done|].
  - by rewrite Hp, Hw in Hwg.
  - apply Hd. left. by right.
  - apply (stopping_iff tr st Hst). right. right. left. by rewrite Hp.
Qed.

(** C26: One failure stops everything: once a signal has arrived or the plugin or
    the listener of the webhook has returned, at whatever moment of the start,
    the program can move by itself until [main] returns, and it takes at most
    twenty more steps: every step but the arrival of a signal is one of them.
    The evaluator is assumed to return when its context is done. *)
Theorem process_terminates tr st :
  steps step (start (@inr error () tt)) tr st → (∃ l, l ∈ tr ∧ causes l) →
  (remaining st ≤ 20)%nat ∧
  (main st = Exited ∨ ∃ l st', step st l st' ∧ own_step st l) ∧
  (∀ l st', step st l st' → l ≠ Signal → (remaining st' < remaining st)%nat).
Proof.
  intros Hst Hca. pose proof (process_inv_steps _ _ Hst) as Hinv. split_and!.
  - enough (H : (remaining st ≤ remaining (start (@inr error () tt)))%nat) by exact H.
    clear Hca Hinv. pose proof process_inv_start as H0.
    induction Hst as [|s tr s1 l s2 Hst IH Hl]; [done|].
    pose proof (steps_invariant step inv _ _ _ process_inv_step H0 Hst) as Hi.
    destruct (decide (l = Signal)) as [->|Hne].
    + inversion Hl; subst. etrans; [|by apply IH]. done.
    + pose proof (process_remaining_step _ _ _ Hi Hl Hne). specialize (IH H0). lia.
  - destruct (decide (main st = Exited)) as [|Hex]; [by left|right].
    apply progress; [done| |done]. by apply (stopping_iff tr st Hst).
  - intros l st' Hl. by apply process_remaining_step.
Qed.

(** ** Concrete runs *)
#[local] Existing Instance Plugin.Demo.string_accessor.

Lemma polyfill_verdict_witness :
  ∃ k, (1 ≤ k ≤ 12)%nat ∧
    let '(err, w') := verdict (Plugin.Demo.demo_plugin 3) k
      (Webhook.request_attributes (Webhook.Demo.demo_request "good") (Some "pod") None) 0%nat in
    let review := Webhook.reviewResponse "7" err in
    let served := main_serve Webhook.Demo.demo_Decode (λ raw, inr raw)
      Webhook.Demo.demo_UnmarshalReview Webhook.Demo.demo_MarshalReview
      (Plugin.Demo.demo_plugin 3)
      {| Http.ContentType := "application/json"; Http.Body := "good" |} 0%nat in
    served.1 = w' ∧
    match Webhook.Demo.demo_MarshalReview review with
    | inr _ => Webhook.reviewed Webhook.Demo.demo_MarshalReview served.2 review
    | inl e => Webhook.refusal served.2 StatusInternalServerError (GoErrors.Error e)
    end.
Proof.
  apply (polyfill_verdict Webhook.Demo.demo_Decode (λ raw, inr raw)
    Webhook.Demo.demo_UnmarshalReview Webhook.Demo.demo_MarshalReview
    (Plugin.Demo.demo_plugin 3)
    {| Http.ContentType := "application/json"; Http.Body := "good" |}
    (Webhook.Demo.demo_request "good") (Some "pod") None 0%nat).
  - apply Plugin.Demo.demo_timers.
  - reflexivity.
  - reflexivity.
Defined.

(** The port of the webhook cannot be bound. *)
Definition bind_error : error := plainError "listen tcp :8443: bind: address already in use".
Definition failed_run : list label :=
  [MainMoves; MainMoves; MainMoves; MainMoves; MainMoves; MainMoves;
   ServerMoves (Server.ListenReturns bind_error); ServerMoves Server.ListenerCancels;
   ServerMoves Server.WakeUp; ServerMoves Server.CloseServer; ServerMoves Server.Return;
   WebMoves; WebMoves; WebMoves; PluginReturns; PluginMoves; PluginMoves; MainMoves].
Definition failed_end : state :=
  {| root := None; serverContext := Some Server.Canceled; plugin_goroutine := PluginFinished;
     web := WebFinished; waitGroup := 0; factories := 3; main := Exited |}.

(** One step along a concrete trace. *)
Ltac next_step :=
  eapply steps_cons;
  [lazymatch goal with
   | |- step _ Signal _ => apply step_signal; reflexivity
   | |- step _ PluginReturns _ => apply step_plugin_returns; reflexivity
   | |- step _ MainMoves _ => apply step_main; reflexivity
   | |- step _ PluginMoves _ => apply step_plugin; reflexivity
   | |- step _ WebMoves _ => apply step_web; reflexivity
   | |- step _ (ServerMoves _) _ =>
       eapply step_server; [reflexivity|econstructor; done|done]
   end|];
  lazymatch goal with
  | |- steps _ ?s _ _ => let s' := eval vm_compute in s in change s with s'
  end.

Lemma failed_run_steps : steps step (start (@inr error () tt)) failed_run failed_end.
Proof. unfold failed_run. do 18 next_step. apply steps_nil. Qed.

Lemma process_exit_witness :
  plugin_goroutine failed_end = PluginFinished ∧ web failed_end = WebFinished ∧
  waitGroup failed_end = 0 ∧ serverContext failed_end ≠ None ∧ factories failed_end = 3%nat ∧
  ∃ l, l ∈ failed_run ∧ causes l.
Proof. apply (process_exit failed_run failed_end failed_run_steps). reflexivity. Defined.

(** A signal while [main] is starting things. *)
Definition early_signal : list label := [MainMoves; Signal].
Definition early_state : state :=
  {| root := Some Server.Canceled; serverContext := None; plugin_goroutine := PluginRunning;
     web := WebNotStarted; waitGroup := 1; factories := 0; main := StartsWebhook |}.

Lemma process_terminates_witness :
  (remaining early_state ≤ 20)%nat ∧
  (main early_state = Exited ∨ ∃ l st', step early_state l st' ∧ own_step early_state l) ∧
  (∀ l st', step early_state l st' → l ≠ Signal → (remaining st' < remaining early_state)%nat).
Proof.
  apply (process_terminates early_signal).
  - unfold early_signal. do 2 next_step. apply steps_nil.
  - exists Signal. split; [right; left|exact I].
Defined.
End Main.
