(* ===== verification/Exchange.v ===== *)
(** * The exchange between an API server and the polyfill

    An API server that asks a validating webhook whether it may admit a request
    ([apiserver/pkg/admission/plugin/webhook]): it sends an [AdmissionReview] with
    the REST client of [Send], reads the answer and verifies it.  Here the webhook
    is the one of [Main], with the JSON of [Review] in both directions. *)
From S2P Require Import Prelude GoStrings GoErrors Admission Validator Plugin Webhook TransformedClient Json JsonText JsonSync JsonPrint Types Rest Scheme Serializer Review Send Main.

Module Exchange.
Import Serializer Review.

(** ** The API server *)

(** The scheme of the clients of webhooks ([NewClientManager]). *)
Definition v1 : string * string := ("admission.k8s.io", "v1").
Definition v1beta1 : string * string := ("admission.k8s.io", "v1beta1").
Definition review_type (package : string) : Scheme.go_type := (package, "AdmissionReview").
Definition v1_review : Scheme.go_type := review_type "k8s.io/api/admission/v1".
Definition addKnownTypes (gv : string * string) (t : Scheme.go_type) : GO Scheme.Scheme unit :=
  _ ← Scheme.AddKnownTypes gv [t]; Scheme.AddToGroupVersion gv.
Definition hookScheme : Scheme.Scheme :=
  ((_ ← addKnownTypes v1beta1 (review_type "k8s.io/api/admission/v1beta1");
    addKnownTypes v1 v1_review) Scheme.NewScheme).2.
Definition review_gvk : GroupVersionKind := Scheme.with_kind v1 "AdmissionReview".

(** [generic.WebhookInvocation]: the kind and resource that the webhook is asked
    about, which may be equivalents of those of the request. *)
Record WebhookInvocation := {
  iv_Kind : GroupVersionKind;
  iv_Resource : GroupVersionResource;
  iv_Subresource : string;
}.

(** [CreateV1AdmissionReview]; objects are given as what [json.Marshal] makes of
    them. *)
Definition RawExtension (object : option json) : raw_json :=
  match object with Some j => RawJson j | None => RawNil end.
Definition request_about (uid : string) (attr : Attributes json) (invocation : WebhookInvocation)
    : Review.AdmissionRequest :=
  let aUserInfo := attrUserInfo attr in
  let extra : gmap string (list string) := default ∅ (uiExtra aUserInfo) in
  {| rq_UID := uid;
     rq_Kind := iv_Kind invocation;
     rq_Resource := iv_Resource invocation;
     rq_SubResource := iv_Subresource invocation;
     rq_RequestKind := Some (attrKind attr);
     rq_RequestResource := Some (attrResource attr);
     rq_RequestSubResource := attrSubresource attr;
     rq_Name := attrName attr;
     rq_Namespace := attrNamespace attr;
     rq_Operation := attrOperation attr;
     rq_UserInfo := {| us_Username := uiName aUserInfo; us_UID := uiUID aUserInfo;
                       us_Groups := Some (uiGroups aUserInfo); us_Extra := Some (Some <$> extra) |};
     rq_Object := RawExtension (attrObject attr);
     rq_OldObject := RawExtension (attrOldObject attr);
     rq_DryRun := Some (attrDryRun attr);
     rq_Options := RawExtension (attrOptions attr) |}.
Definition CreateV1AdmissionReview (uid : string) (attr : Attributes json) (invocation : WebhookInvocation)
    : Review.AdmissionReview :=
  {| rv_TypeMeta := zero typeMeta_codec; rv_Request := Some (request_about uid attr invocation);
     rv_Response := None |}.

(** [VerifyAdmissionResponse] of a validating webhook, for version [v1]. *)
Definition VerifyAdmissionResponse (uid : string) (r : Review.AdmissionReview)
    : error + Review.AdmissionResponse :=
  match rv_Response r with
  | None => inl (plainError "webhook response was absent")
  | Some response =>
      if negb (bool_decide (rs_UID response = uid))
      then inl (plainError ("expected response.uid=" ++ quote uid ++ ", got " ++ quote (rs_UID response)))
      else if negb (bool_decide (GetGroupVersionKind r = review_gvk))
      then inl (plainError ("expected webhook response of " ++ Webhook.gvk_String review_gvk ++ ", got "
                            ++ Webhook.gvk_String (GetGroupVersionKind r)))
      else if negb (is_empty (default "" (rs_Patch response)))
      then inl (plainError "validating webhook may not return response.patch")
      else if bool_decide (is_Some (rs_PatchType response))
      then inl (plainError "validating webhook may not return response.patchType")
      else inr response
  end.

(** [webhookerrors.ToStatusErr]; the kind and the list metadata of the result stay
    as they are and are left out. *)
Definition ToStatusErr (webhookName : string) (result : option Status) : Status :=
  let deniedBy := ("admission webhook " ++ quote webhookName ++ " denied the request")%string in
  let result := default {| StatusStatus := "Failure"; Message := ""; Reason := ""; Details := None; Code := 0 |} result in
  {| StatusStatus := if is_empty (StatusStatus result) || bool_decide (StatusStatus result = "Success")
                     then "Failure" else StatusStatus result;
     Message := if negb (is_empty (Message result)) then (deniedBy ++ ": " ++ Message result)%string
                else if negb (is_empty (Reason result)) then (deniedBy ++ ": " ++ Reason result)%string
                else (deniedBy ++ " without explanation")%string;
     Reason := Reason result; Details := Details result;
     Code := if bool_decide (Code result < StatusBadRequest) then StatusBadRequest else Code result |}.

(** [webhookutil.ErrCallingWebhook] and [ErrWebhookRejection], and the error for a
    webhook that does not support dry runs. *)
Inductive hook_error :=
  | ErrCallingWebhook (WebhookName : string) (Reason : error) (status : error)
  | ErrWebhookRejection (status : Status)
  | NewDryRunUnsupportedErr (status : error).

(** [v1.ValidatingWebhook], as far as it is used. *)
Record ValidatingWebhook := { hook_Name : string; SideEffects : option string }.

Definition NewBadRequest (reason : string) : error :=
  StatusError {| StatusStatus := "Failure"; Code := StatusBadRequest; Reason := "BadRequest"; Details := None;
                 Message := reason |}.
Definition NewServiceUnavailable (reason : string) : error :=
  StatusError {| StatusStatus := "Failure"; Code := 503; Reason := "ServiceUnavailable"; Details := None;
                 Message := reason |}.
(** A type assertion, which does not unwrap. *)
Definition status_of_call (err : error) : error :=
  match err with StatusError _ => err | _ => NewBadRequest "error calling webhook" end.

(** The codec [LegacyCodec(v1beta1, v1)] of a target of version [v1]: the JSON
    serializer, which leaves the kind of what it decodes; no conversion to the
    target is registered. *)
Definition type_String (t : Scheme.go_type) : string :=
  (List.last (split_byte "/" t.1) "" ++ "." ++ t.2)%string.
Definition unknown_conversion (o : object) : error :=
  let t := match o with StatusObject _ => Scheme.metav1 "Status" | ObjectOf t => t end in
  plainError ("converting (" ++ type_String t ++ ") to (" ++ type_String v1_review ++ "): unknown conversion").
Definition decode_into (unmarshal_type : Scheme.go_type → json → option error) (data : body)
    (response : Review.AdmissionReview) : Review.AdmissionReview * option error :=
  match json_Decode hookScheme unmarshal_type v1_review (review_codec (kf := case_sensitive)) data None
          response with
  | (into, _, Some err) => (into, Some err)
  | (into, Another o, None) => (into, Some (unknown_conversion o))
  | (into, _, None) => (into, None)
  end.

(** The end of [callHook]: what the answer, or the error, of the call comes to. *)
Definition answered_hook (unmarshal_type : Scheme.go_type → json → option error) (h : ValidatingWebhook)
    (uid : string) (answer : error + body) : option hook_error :=
  let failed reason status := ErrCallingWebhook (hook_Name h) reason status in
  match Rest.Into body_empty (decode_into unmarshal_type) answer (zero review_codec) with
  | (_, Some err) => Some (failed (wrapError ("failed to call webhook: " ++ Error err) err) (status_of_call err))
  | (response, None) =>
      match VerifyAdmissionResponse uid response with
      | inl err => Some (failed (wrapError ("received invalid webhook response: " ++ Error err) err)
                           (NewServiceUnavailable "error validating webhook response"))
      | inr result =>
          if rs_Allowed result then None
          else Some (ErrWebhookRejection (ToStatusErr (hook_Name h) (as_Status <$> rs_Result result)))
      end
  end.

(** Whether the webhook may be asked about a dry run. *)
Definition dry_run_error (h : ValidatingWebhook) : option hook_error :=
  match SideEffects h with
  | None => Some (ErrCallingWebhook (hook_Name h) (plainError "Webhook SideEffects is nil")
                    (NewBadRequest "Webhook SideEffects is nil"))
  | Some effects =>
      if bool_decide (effects = "None") || bool_decide (effects = "NoneOnDryRun") then None
      else Some (NewDryRunUnsupportedErr
             (NewBadRequest ("admission webhook " ++ quote (hook_Name h) ++ " does not support dry run")))
  end.

Section api_server.
Context {W : Type} (net : Send.Network W) (inner : error → error).
Context (ParseMediaType : string → error + string) (unmarshal_type : Scheme.go_type → json → option error).
Context (client : Rest.RESTClient).

(** The client has one serializer, whatever the media type of an answer. *)
Definition hook_transport : Rest.Transport body W unit :=
  Send.transport net inner ParseMediaType (λ _, true) body_of_text unmarshal_type "application/json" ""
    (λ _, mret (None, None)) ().

(** [validatingDispatcher.callHook] with the client at hand and a webhook that is
    asked in version [v1]; audit annotations, warnings and the timeout are left
    out. *)
Definition callHook (ctx : Context) (h : ValidatingWebhook) (uid : string) (attr : Attributes json)
    (invocation : WebhookInvocation) : GO W (option hook_error) :=
  match if attrDryRun attr then dry_run_error h else None with
  | Some err => mret (Some err)
  | None =>
    let request := CreateV1AdmissionReview uid attr invocation in
    let encoded := (Encode hookScheme v1_review (review_codec (kf := encoding_json)) v1 request).2 in
    answer ← Rest.Do hook_transport ctx
               (Rest.BodyObject "application/json" (Some encoded) (Rest.NewRequest client "POST"));
    mret (answered_hook unmarshal_type h uid answer)
  end.
End api_server.

(** ** The polyfill at the other end of the connection *)
Section polyfill.
Context {W Obj : Type} `{MetaAccessor Obj}.
Context (Decode : string → option Obj * option GroupVersionKind * option error).
Context (UnmarshalUnstructured : string → error + Obj).
Context (plugin : Plugin.celAdmissionPlugin W Obj).

(** [main] with the JSON of reviews. *)
Definition polyfill (req : Http.Request) (w : W) : W * Http.ResponseWriter :=
  Main.main_serve Decode UnmarshalUnstructured UnmarshalReview MarshalReview plugin req w.

(** What HTTP makes of a request and of a response; [/validate] is the path of
    the webhook. *)
Definition http_request (r : Rest.Request body) : Http.Request :=
  {| Http.ContentType := Rest.contentType r;
     Http.Body := match Rest.bodyBytes r with Some (Tree j) => text_of_tree j | _ => "" end |}.
Definition http_response (rw : Http.ResponseWriter) : Send.Response :=
  {| Send.StatusCode := default StatusOK (Http.status rw);
     Send.ContentTypeHeader := default "" (Http.header rw !! "Content-Type");
     Send.RetryAfter := None; Send.Text := inr (Http.body rw) |}.
(** A connection that does not fail, of a client without a limiter, within the
    timeout of the webhook. *)
Definition connection : Send.Network W :=
  {| Send.ctx_Err := λ _, mret None; Send.limiter_Wait := None; Send.newHTTPRequest := λ _, None;
     Send.client_Do := λ _ r w,
       let '(w, rw) := polyfill (http_request r) w in (Value (Send.Answered (http_response rw)), w) |}.

Context (inner : error → error) (ParseMediaType : string → error + string).
Context (unmarshal_type : Scheme.go_type → json → option error) (client : Rest.RESTClient).

(** What the API server makes of the verdict of the polyfill. *)
Definition outcome_of (webhookName : string) (err : option error) : option hook_error :=
  match err with
  | None => None
  | Some _ =>
      match Webhook.Response_ (Webhook.reviewResponse "" err) with
      | Some response => Some (ErrWebhookRejection
          (ToStatusErr webhookName (Some (as_Status (sent_result (Webhook.Result response))))))
      | None => None
      end
  end.

(** *** One request, one answer *)
Lemma request_connection ctx r w :
  Send.request connection inner ctx r w =
  (let '(w', rw) := polyfill (http_request r) w in (Value (inr (http_response rw)), w')).
Proof.
  unfold Send.request, Send.tryThrottle, connection. simpl.
  unfold mbind, GO_bind, mret, GO_ret. simpl. unfold mbind, GO_bind. simpl.
  destruct (polyfill (http_request r) w) as [w' rw]. simpl. unfold Send.asks_to_wait. simpl.
  by rewrite andb_false_r.
Qed.

Abbreviation answered := (Send.answer_of body_of_text unmarshal_type).
Abbreviation transformed := (Send.transformResponse ParseMediaType (λ _, true) "application/json" "").

Lemma refused_answer r code msg rw :
  Webhook.refusal rw code msg → code = StatusBadRequest ∨ code = StatusInternalServerError →
  ∃ e, answered (transformed r (http_response rw)) = inl e.
Proof.
  intros (Hst & _ & Hct) Hcode. unfold Send.transformResponse, http_response. simpl. rewrite Hst, Hct. simpl.
  assert (Hun : Send.unsuccessful code = true) by (destruct Hcode as [->| ->]; reflexivity). rewrite Hun.
  unfold Send.answer_of, Send.Result_Error.
  destruct (ParseMediaType "text/plain; charset=utf-8"); simpl; [by eexists|].
  repeat case_match; simplify_eq; by eexists.
Qed.
Lemma reviewed_answer r resp rw :
  ParseMediaType "application/json" = inr "application/json" →
  Webhook.reviewed MarshalReview rw resp →
  answered (transformed r (http_response rw)) = inr (body_of_text (Http.body rw)).
Proof.
  intros Hmedia (Hst & _ & Hct). unfold Send.transformResponse, http_response. simpl. rewrite Hst, Hct. simpl.
  by rewrite Hmedia.
Qed.

(** What the API server reads of an answer. *)
Lemma review_registered {kf : KeyFolding} : registered hookScheme v1_review review_codec review_gvk.
Proof.
  split; [by vm_compute| |by vm_compute|by vm_compute|exact review_holds_kind].
  by apply (bool_decide_unpack (Kinds.plain_kind review_gvk)); vm_compute.
Qed.
Lemma zero_review kf : zero (review_codec (kf := kf)) =
  {| rv_TypeMeta := {| tm_Kind := ""; tm_APIVersion := "" |}; rv_Request := None; rv_Response := None |}.
Proof. reflexivity. Qed.
Lemma decode_answer uid err :
  let r := Webhook.reviewResponse uid err in
  (∀ s, errors_As err = Some s → int32 (Code s)) →
  ∃ s j, Webhook.Response_ r = Some s ∧ MarshalReview r = inr (Printer.print j) ∧
    body_of_text (Printer.print j) = Tree j ∧
    decode_into unmarshal_type (Tree j) (zero review_codec) =
      ({| rv_TypeMeta := Kinds.kind_TypeMeta review_gvk; rv_Request := None; rv_Response := Some (sent_response s) |},
       None).
Proof.
  intros r Hcode.
  assert (Hs : ∃ s, Webhook.Response_ r = Some s ∧ int32 (Webhook.ResultCode (Webhook.Result s)) ∧
                    rv_TypeMeta (wire_of r) = Kinds.kind_TypeMeta review_gvk).
  { unfold r, Webhook.reviewResponse. destruct (errors_As err) as [st|].
    - eexists. split; [done|]. split; [by apply Hcode|by vm_compute].
    - eexists. split; [done|]. split; [by destruct err|by vm_compute]. }
  destruct Hs as (s & Hs & Hint & Htm).
  destruct (MarshalReview_read (kf := case_sensitive) r s Hs Hint) as (j & Hm & Hu & Hj & Hd).
  exists s, j. split; [done|]. split; [done|].
  assert (Hbody : body_of_text (Printer.print j) = Tree j).
  { unfold body_of_text. rewrite Hu. destruct (is_empty _) eqn:He; [|done].
    apply is_empty_true in He. by rewrite He in Hu. }
  assert (Hi : Interpret (Tree j) = inr review_gvk).
  { destruct (hk_encode _ review_holds_kind _ _ Hj) as (ms1 & ms2 & Hms1 & -> & Hms2).
    change (GetTypeMeta (wire_of r)) with (rv_TypeMeta (wire_of r)) in Hms1. rewrite Htm in Hms1.
    by apply (Interpret_document review_gvk); [apply (reg_plain _ _ _ _ review_registered)|vm_compute| |]. }
  split; [done|]. unfold decode_into.
  rewrite (json_Decode_kind _ _ _ review_codec review_codec _ review_registered _ review_gvk) by (done || by vm_compute).
  unfold unmarshal_target, unmarshal_body.
  rewrite zero_review in Hd |- *.
  rewrite Hd, Htm. reflexivity.
Qed.

(** *** The exchange *)

(** A webhook may be asked: a dry run needs one that declares no side effects. *)
Definition may_ask (h : ValidatingWebhook) (attr : Attributes json) : Prop :=
  attrDryRun attr = true → SideEffects h = Some "None" ∨ SideEffects h = Some "NoneOnDryRun".

(** The request as it is written and read. *)
Lemma request_written uid attr invocation :
  let q := request_about uid attr invocation in
  request_ok q →
  ∃ j, (Encode hookScheme v1_review (review_codec (kf := encoding_json)) v1
          (CreateV1AdmissionReview uid attr invocation)).2 = inr (Tree j) ∧
    Webhook.parseRequest UnmarshalReview
      {| Http.ContentType := "application/json"; Http.Body := text_of_tree j |} = inr (received q).
Proof.
  intros q Hq. set (tm := Kinds.kind_TypeMeta review_gvk).
  destruct (UnmarshalReview_sent (kf := encoding_json) q tm newline Hq eq_refl) as (j & Hj & _).
  exists j. split; [|exact (parseRequest_sent q tm newline j Hq eq_refl Hj)].
  change v1 with (Group review_gvk, Version review_gvk).
  rewrite (Encode_kind _ _ review_codec review_gvk review_registered). cbn [snd]. unfold json_Encode, Marshal.
  change (SetGroupVersionKind _ _) with {| rv_TypeMeta := tm; rv_Request := Some q; rv_Response := None |}.
  by rewrite Hj.
Qed.

Lemma review_kind_read request response :
  GetGroupVersionKind {| rv_TypeMeta := Kinds.kind_TypeMeta review_gvk; rv_Request := request; rv_Response := response |}
  = review_gvk.
Proof. reflexivity. Qed.
Lemma verified_answer uid s :
  Utf8.coerce (Webhook.ResponseUID s) = uid →
  VerifyAdmissionResponse uid {| rv_TypeMeta := Kinds.kind_TypeMeta review_gvk; rv_Request := None;
                                 rv_Response := Some (sent_response s) |} = inr (sent_response s).
Proof.
  intros Huid. unfold VerifyAdmissionResponse. cbn [rv_Response]. cbn [sent_response rs_UID]. rewrite review_kind_read.
  destruct (bool_decide_reflect (Utf8.coerce (Webhook.ResponseUID s) = uid)); [|done].
  destruct (bool_decide_reflect (review_gvk = review_gvk)); [|done]. reflexivity.
Qed.

(** The status codes of the evaluator's errors are of type [int32]. *)
Definition status_codes : Prop :=
  ∀ a w s, errors_As (Plugin.evaluator_Validate (Plugin.evaluator plugin) TODO a w).1 = Some s → int32 (Code s).
Lemma verdict_codes k a w s : status_codes → errors_As (Main.verdict plugin k a w).1 = Some s → int32 (Code s).
Proof.
  intros Hcodes. unfold Main.verdict. destruct (Plugin.isPolicyResource a); [done|].
  destruct (Plugin.first_synced plugin k w) as [[] w1]; [apply Hcodes|].
  destruct (admission_NewForbidden_status a (plainError "not yet ready to handle request"))
    as (s' & Hs & Hcode & _); [done|].
  cbn [fst]. rewrite Hs. intros [= <-]. by rewrite Hcode.
Qed.

Lemma reviewResponse_uid uid err s :
  Webhook.Response_ (Webhook.reviewResponse uid err) = Some s →
  Webhook.ResponseUID s = uid ∧ Webhook.Allowed s = bool_decide (err = None) ∧
  ∃ s', Webhook.Response_ (Webhook.reviewResponse "" err) = Some s' ∧ Webhook.Result s' = Webhook.Result s.
Proof.
  unfold Webhook.reviewResponse. destruct (errors_As err); intros [= <-]; split_and!; try done; by eexists.
Qed.

(** A rejection is a failure with an error's status code. *)
Lemma outcome_rejects webhookName err :
  err ≠ None → ∃ s, outcome_of webhookName err = Some (ErrWebhookRejection s) ∧
    StatusStatus s = "Failure" ∧ StatusBadRequest ≤ Code s.
Proof.
  intros He. destruct err as [e|]; [|done]. unfold outcome_of, Webhook.reviewResponse.
  destruct (errors_As (Some e)); (eexists; split; [done|]; split; [done|]; simpl; first [case_bool_decide; lia|done]).
Qed.

(** The conversation of [callHook] with the polyfill. *)
Lemma callHook_polyfill ctx h uid attr invocation j w :
  may_ask h attr →
  (Encode hookScheme v1_review (review_codec (kf := encoding_json)) v1
     (CreateV1AdmissionReview uid attr invocation)).2 = inr (Tree j) →
  ∃ r : Rest.Request body,
    callHook connection inner ParseMediaType unmarshal_type client ctx h uid attr invocation w =
    (let '(w', rw) := polyfill {| Http.ContentType := "application/json"; Http.Body := text_of_tree j |} w in
     (Value (answered_hook unmarshal_type h uid (answered (transformed r (http_response rw)))), w')).
Proof.
  intros Hask He. exists (Rest.BodyObject "application/json" (Some (inr (Tree j))) (Rest.NewRequest client "POST")).
  unfold callHook. rewrite He.
  assert (Hdry : (if attrDryRun attr then dry_run_error h else None) = None).
  { unfold may_ask in Hask. destruct (attrDryRun attr); [|done]. unfold dry_run_error. by destruct (Hask eq_refl) as [->| ->]. }
  rewrite Hdry. unfold Rest.Do.
  change (Rest.err (Rest.BodyObject _ _ _)) with (@None error). cbv iota.
  unfold hook_transport, Send.transport. cbn [Rest.roundTrip]. unfold Send.Do.
  unfold mbind, GO_bind. rewrite request_connection.
  change (http_request _) with {| Http.ContentType := "application/json"; Http.Body := text_of_tree j |}.
  by destruct (polyfill _ w) as [w' rw].
Qed.

(** A request whose documents cannot be decoded is refused. *)
Lemma main_serve_refuses req r e code w :
  Webhook.parseRequest UnmarshalReview req = inr r →
  Webhook.decode_objects Decode UnmarshalUnstructured r = inl (e, code) →
  polyfill req w = (w, Http.Error (Error e) code Http.fresh).
Proof.
  intros Hp Hd. unfold polyfill, Main.main_serve, Webhook.serve, Webhook.handleWebhookValidate.
  by rewrite Hp, Webhook.review_cases, Hd.
Qed.

(** C1: End to end: an API server that asks the polyfill about a request gets its
    verdict.  What it sends is read by the handler as it was sent (as far as JSON
    holds it).  If the documents in it do not decode, the call fails and nothing
    has changed.  Otherwise the API server admits the request exactly if the
    polyfill allows it: at once when it is about policies or bindings, and else by
    the verdict of the evaluator, asked once after at most twelve questions
    whether it is synced, and not at all when it has not synced; a rejection has
    the status code, the reason and the message of the evaluator's error.  The
    world is the one the evaluator left. *)
Theorem admission_exchange ctx h uid attr invocation w :
  let q := request_about uid attr invocation in
  Plugin.timers_ok plugin → status_codes → ParseMediaType "application/json" = inr "application/json" →
  Utf8.coerce uid = uid → request_ok q → may_ask h attr →
  let called := callHook connection inner ParseMediaType unmarshal_type client ctx h uid attr invocation w in
  match Webhook.decode_objects Decode UnmarshalUnstructured (received q) with
  | inl _ => ∃ reason status, called = (Value (Some (ErrCallingWebhook (hook_Name h) reason status)), w)
  | inr (object, oldObject) =>
      ∃ k, (1 ≤ k ≤ 12)%nat ∧
        let '(err, w') := Main.verdict plugin k (Webhook.request_attributes (received q) object oldObject) w in
        called = (Value (outcome_of (hook_Name h) err), w')
  end.
Proof.
  intros q Htimers Hcodes Hmedia Huid Hq Hask called.
  destruct (request_written uid attr invocation Hq) as (j & Hj & Hparse). fold q in Hparse.
  destruct (callHook_polyfill ctx h uid attr invocation j w Hask Hj) as [r Hcall]. fold called in Hcall.
  rewrite Hcall. set (req := {| Http.ContentType := _; Http.Body := _ |}) in *.
  destruct (Webhook.decode_objects Decode UnmarshalUnstructured (received q)) as [[e code]|[object oldObject]] eqn:Hdec.
  - rewrite (main_serve_refuses req _ e code w Hparse Hdec).
    destruct (refused_answer r code (Error e) _ (Webhook.Http_Error_refusal (Error e) code)
      (Webhook.decode_objects_error_status _ _ _ _ _ Hdec)) as [err Herr].
    rewrite Herr. unfold answered_hook. simpl. eauto.
  - destruct (Main.polyfill_verdict Decode UnmarshalUnstructured UnmarshalReview MarshalReview plugin req _ _ _ w
      Htimers Hparse Hdec) as (k & Hk & Hserve). exists k. split; [done|].
    pose proof (verdict_codes k (Webhook.request_attributes (received q) object oldObject) w) as Hcode.
    destruct (Main.verdict plugin k _ w) as [err w']. destruct Hserve as [Hw Hrw]. simpl in Hcode.
    change (Main.main_serve _ _ _ _ _) with polyfill in Hw, Hrw.
    destruct (polyfill req w) as [w1 rw] eqn:Hserved. simpl in Hw, Hrw. subst w1. f_equal. f_equal.
    rewrite Huid in Hrw.
    destruct (decode_answer uid err (λ s, Hcode s Hcodes)) as (s & j' & Hs & Hmar & Hbody & Hdecode).
    rewrite Hmar in Hrw. rewrite (reviewed_answer r _ rw Hmedia Hrw).
    destruct Hrw as (_ & Htext & _). rewrite Hmar in Htext. injection Htext as Htext. rewrite <- Htext, Hbody.
    unfold answered_hook, Rest.Into. cbn [body_empty]. rewrite Hdecode.
    destruct (reviewResponse_uid uid err s Hs) as (Hsu & Hallowed & s' & Hs' & Hres).
    rewrite (verified_answer uid s) by congruence.
    unfold outcome_of. rewrite Hs'. cbn [sent_response rs_Allowed rs_Result]. rewrite Hres, Hallowed.
    by destruct err.
Qed.
End polyfill.

(** ** A pod is about to be created *)
#[local] Existing Instance Plugin.Demo.string_accessor.
Module Demo.
Definition pod : GroupVersionKind := mkGVK "" "v1" "Pod".
Definition pods : GroupVersionResource := mkGVR "" "v1" "pods".
Definition document : json := JObject [("apiVersion", JString "v1"); ("kind", JString "Pod")].
Definition attributes (name : string) : Attributes json :=
  NewAttributesRecord (Some document) None pod "default" name pods "" "CREATE" None false
    {| uiName := "admin"; uiUID := ""; uiGroups := ["system:masters"]; uiExtra := None |}.
Definition invocation : WebhookInvocation := {| iv_Kind := pod; iv_Resource := pods; iv_Subresource := "" |}.
Definition hook : ValidatingWebhook := {| hook_Name := "cel-admission-polyfill.k8s.io"; SideEffects := Some "None" |}.
Definition uid : string := "705ab4f5-6393-11e8-b7cc-42010a800002".
(** Objects are kept as their text. *)
Definition decode (raw : string) : option string * option GroupVersionKind * option error := (Some raw, Some pod, None).
Definition client : Rest.RESTClient :=
  {| Rest.basePath := "/validate"; Rest.versionedAPIPath := ""; Rest.ContentType := "application/json";
     Rest.ClientTimeout := 0 |}.
Definition sent (name : string) : Review.AdmissionRequest := request_about uid (attributes name) invocation.
(** Synced at the third question; only pods named bad are rejected. *)
Definition plugin := Plugin.Demo.demo_plugin 3.
Definition exchange (name : string) : outcome (option hook_error) * nat :=
  callHook (connection decode (λ raw, inr raw) plugin) id (λ t, inr t) (λ _ _, None) client
    TODO hook uid (attributes name) invocation 0%nat.

Lemma sent_ok name : request_ok (sent name).
Proof.
  split; [|by split_and!]. split; [|done]. split; [|done].
  unfold room. change Scanner.maxNestingDepth with 10000. simpl. lia.
Qed.
Lemma codes : status_codes plugin.
Proof. intros a w s. simpl. by case_bool_decide. Qed.
End Demo.

Lemma admission_exchange_witness :
  let q := request_about Demo.uid (Demo.attributes "bad") Demo.invocation in
  let called := callHook (connection Demo.decode (λ raw, inr raw) Demo.plugin) id (λ t, inr t) (λ _ _, None)
                  Demo.client TODO Demo.hook Demo.uid (Demo.attributes "bad") Demo.invocation 0%nat in
  match Webhook.decode_objects Demo.decode (λ raw, inr raw) (received q) with
  | inl _ => ∃ reason status, called = (Value (Some (ErrCallingWebhook (hook_Name Demo.hook) reason status)), 0%nat)
  | inr (object, oldObject) =>
      ∃ k, (1 ≤ k ≤ 12)%nat ∧
        let '(err, w') := Main.verdict Demo.plugin k (Webhook.request_attributes (received q) object oldObject) 0%nat in
        called = (Value (outcome_of (hook_Name Demo.hook) err), w')
  end.
Proof.
  exact (admission_exchange Demo.decode (λ raw, inr raw) Demo.plugin id (λ t, inr t) (λ _ _, None) Demo.client
    TODO Demo.hook Demo.uid (Demo.attributes "bad") Demo.invocation 0%nat
    (Plugin.Demo.demo_timers 3) Demo.codes eq_refl eq_refl (Demo.sent_ok "bad") (λ _, or_introl eq_refl)).
Defined.
End Exchange.
