(* ===== verification/Interceptor.v ===== *)
(** * The local interceptor ([cmd/interceptor/main.go])

    A reverse proxy in front of an API server that lets a client use the native
    policy API while the server only has the CRDs: paths and request bodies are
    rewritten from the native group to the CRD group, response bodies back.
    Strings and bodies are lists of bytes. *)
From S2P Require Import Prelude GoStrings GoErrors.

(** ** [strings.Contains], [strings.ReplaceAll] and [bytes.ReplaceAll] *)
Module Replace.
Abbreviation text := (list ascii).

Fixpoint has_prefix (p s : text) : bool :=
  match p, s with
  | [], _ => true
  | a :: p, b :: s => bool_decide (a = b) && has_prefix p s
  | _ :: _, [] => false
  end.

Fixpoint Contains (s substr : text) : bool :=
  has_prefix substr s || match s with [] => false | _ :: s => Contains s substr end.

(** The leftmost occurrences that do not overlap, for a non-empty [old];
    [skip] bytes belong to an occurrence already replaced. *)
Fixpoint replace_from (old new : text) (skip : nat) (s : text) : text :=
  match s with
  | [] => []
  | c :: s' =>
      match skip with
      | S skip => replace_from old new skip s'
      | O => if has_prefix old s then new ++ replace_from old new (pred (length old)) s'
             else c :: replace_from old new 0 s'
      end
  end.
Definition ReplaceAll (s old new : text) : text := replace_from old new 0 s.

(** ** Lemmas *)
Implicit Types (s old new p : text).

Lemma has_prefix_spec p s : has_prefix p s = true ↔ p `prefix_of` s.
Proof.
  revert s. induction p as [|a p IH]; intros [|b s]; simpl.
  - split; [intros _; apply prefix_nil|done].
  - split; [intros _; apply prefix_nil|done].
  - split; [done|]. by intros ?%prefix_nil_not.
  - rewrite andb_true_iff, bool_decide_eq_true, IH. split.
    + intros [-> ?]. by apply prefix_cons.
    + intros Hp. split; [by eapply prefix_cons_inv_1|by eapply prefix_cons_inv_2].
Qed.

Lemma has_prefix_false p s : has_prefix p s = false ↔ ¬ p `prefix_of` s.
Proof. rewrite <- has_prefix_spec. by destruct (has_prefix p s). Qed.

Definition occurs p s : Prop := ∃ l r, s = l ++ p ++ r.

Lemma occurs_cons p a s : occurs p (a :: s) ↔ p `prefix_of` a :: s ∨ occurs p s.
Proof.
  split.
  - intros ([|b l] & r & Heq); simpl in Heq; [left; by exists r|].
    injection Heq as <- ->. right. by exists l, r.
  - intros [[r ->]|(l & r & ->)]; [by exists [], r|]. by exists (a :: l), r.
Qed.

Lemma Contains_spec s p : Contains s p = true ↔ occurs p s.
Proof.
  induction s as [|a s IH]; simpl.
  - rewrite orb_false_r, has_prefix_spec. split.
    + intros ->%prefix_nil_inv. by exists [], [].
    + intros ([|] & r & Heq); [|done]. by exists r.
  - by rewrite orb_true_iff, IH, has_prefix_spec, occurs_cons.
Qed.

Lemma occurs_app_r p l s : occurs p s → occurs p (l ++ s).
Proof. intros (l' & r & ->). exists (l ++ l'), r. by rewrite <- app_assoc. Qed.

Lemma replace_skip old new l s :
  replace_from old new (length l) (l ++ s) = replace_from old new 0 s.
Proof. induction l; simpl; [by destruct s|done]. Qed.

Lemma ReplaceAll_prefix old new s :
  old ≠ [] → ReplaceAll (old ++ s) old new = new ++ ReplaceAll s old new.
Proof.
  intros Hne. destruct old as [|a old]; [done|]. unfold ReplaceAll. simpl.
  rewrite bool_decide_eq_true_2 by done. simpl.
  assert (Hp : has_prefix old (old ++ s) = true) by (apply has_prefix_spec; by exists s).
  by rewrite Hp, replace_skip.
Qed.

Lemma ReplaceAll_cons old new c s :
  ¬ old `prefix_of` c :: s → ReplaceAll (c :: s) old new = c :: ReplaceAll s old new.
Proof. intros Hp%has_prefix_false. unfold ReplaceAll. cbn [replace_from]. by rewrite Hp. Qed.

Lemma ReplaceAll_absent old new s : ¬ occurs old s → ReplaceAll s old new = s.
Proof.
  induction s as [|c s IH]; [done|]. intros Ho. rewrite occurs_cons in Ho.
  rewrite ReplaceAll_cons by tauto. f_equal. apply IH. tauto.
Qed.

(** No proper part of the end of [p] is its beginning. *)
Definition unbordered p : Prop :=
  ∀ q, q `suffix_of` p → q `prefix_of` p → q = [] ∨ q = p.

Definition unbordered_b p : bool :=
  forallb (λ k, negb (bool_decide (take k p = drop (length p - k) p))) (seq 1 (pred (length p))).

Lemma unbordered_b_spec p : unbordered_b p = true → unbordered p.
Proof.
  intros Hb q [l Hl] [r Hr]. destruct (decide (q = [])) as [|Hq]; [by left|right].
  destruct (decide (l = [])) as [->|Hne]; [done|exfalso].
  assert (Hlen : length p = (length l + length q)%nat) by (rewrite Hl; apply length_app).
  assert (length l ≠ 0%nat) by (by destruct l). assert (length q ≠ 0%nat) by (by destruct q).
  unfold unbordered_b in Hb. rewrite forallb_forall in Hb.
  specialize (Hb (length q)). rewrite in_seq in Hb.
  rewrite negb_true_iff, bool_decide_eq_false in Hb. apply Hb; [lia|].
  rewrite Hr at 1. rewrite take_app_length, Hlen.
  replace (length l + length q - length q)%nat with (length l) by lia.
  by rewrite Hl, drop_app_length.
Qed.

(** Bytes of [new] found at the front of the result, but not the whole of it,
    were at the front of the text. *)
Lemma ReplaceAll_front old new q s :
  old ≠ [] → unbordered new → q `suffix_of` new → q ≠ new →
  q `prefix_of` ReplaceAll s old new → q `prefix_of` s.
Proof.
  intros Hold Hunb. revert q. induction s as [|c s IH]; intros q Hsuf Hne Hpre; [done|].
  destruct q as [|a q]; [apply prefix_nil|].
  destruct (decide (old `prefix_of` c :: s)) as [[r Hr]|Hno].
  - exfalso. rewrite Hr, ReplaceAll_prefix in Hpre by done.
    destruct (Hunb (a :: q) Hsuf); [|done..].
    apply suffix_length in Hsuf as Hlen. destruct Hpre as [k Hk].
    exists (drop (length (a :: q)) new).
    rewrite <- (take_drop (length (a :: q)) new) at 1. f_equal.
    transitivity (take (length (a :: q)) (new ++ ReplaceAll r old new)).
    + by rewrite take_app_le.
    + by rewrite Hk, take_app_length.
  - rewrite ReplaceAll_cons in Hpre by done.
    apply prefix_cons_inv_1 in Hpre as Ha. apply prefix_cons_inv_2 in Hpre. subst.
    apply prefix_cons, IH; [|intros ->|done].
    + etrans; [|exact Hsuf]. by exists [c].
    + apply suffix_length in Hsuf. simpl in Hsuf. lia.
Qed.

(** Replacing back undoes a replacement, when what was put in cannot be found in
    the text itself and does not overlap itself. *)
Lemma ReplaceAll_back old new s :
  old ≠ [] → new ≠ [] → unbordered new → ¬ occurs new s →
  ReplaceAll (ReplaceAll s old new) new old = s.
Proof.
  intros Hold Hnew Hunb. induction s as [s IH] using (induction_ltof1 _ length). intros Hno.
  destruct s as [|c s]; [done|]. rewrite occurs_cons in Hno.
  destruct (decide (old `prefix_of` c :: s)) as [[r Hr]|Hpre].
  - rewrite Hr, ReplaceAll_prefix, ReplaceAll_prefix by done. f_equal. apply IH.
    + unfold ltof. rewrite Hr, length_app. destruct old; [done|]. simpl. lia.
    + intros Hocc. rewrite <- occurs_cons, Hr in Hno. by apply Hno, occurs_app_r.
  - rewrite (ReplaceAll_cons old new) by done. rewrite ReplaceAll_cons.
    + f_equal. apply IH; [unfold ltof; simpl; lia|tauto].
    + destruct new as [|a new]; [done|]. intros Hp.
      apply prefix_cons_inv_1 in Hp as Ha. apply prefix_cons_inv_2 in Hp. subst.
      apply Hno. left. apply prefix_cons. eapply ReplaceAll_front; [exact Hold|exact Hunb| | |exact Hp].
      * by exists [c].
      * intros Heq. apply (f_equal length) in Heq. simpl in Heq. lia.
Qed.
End Replace.

Module Interceptor.
Import Replace.

(** ** [bufio.Scanner] over a body: its tokens until the end or an error *)
Definition MaxScanTokenSize : Z := 64 * 1024.
Definition LF : ascii := ascii_of_nat 10.
Definition CR : ascii := ascii_of_nat 13.

(** [dropCR] of [ScanLines], on the bytes of a line in reverse. *)
Definition dropCR (reversed : text) : text :=
  match reversed with
  | [] => []
  | c :: l => if bool_decide (c = CR) then reverse l else reverse reversed
  end.

(** [token]: the bytes of the line so far, in reverse; [room]: how many bytes
    the buffer can still take.  A buffer full of one unfinished line ends the
    scan with [ErrTooLong]. *)
Fixpoint scan_from (token : text) (room : Z) (s : text) : list text :=
  match s with
  | [] => if bool_decide (token = []) then [] else [dropCR token]
  | c :: s =>
      if bool_decide (c = LF) then dropCR token :: scan_from [] MaxScanTokenSize s
      else if bool_decide (room ≤ 1) then []
           else scan_from (c :: token) (room - 1) s
  end.
Definition scan (s : text) : list text := scan_from [] MaxScanTokenSize s.

(** ** The proxy's rewriting *)
Definition native_path : text := bytes "admissionregistration.k8s.io/v1alpha1".
Definition crd_path : text := bytes "admissionregistration.x-k8s.io/v1alpha1".

(** What the rewriting reads and sets of a request ([URL.Path], [URL.RawPath],
    the [Accept] header, [ContentLength] and [Body]) and of a response. *)
Record Request := {
  Path : text;
  RawPath : text;
  Accept : option string;
  ContentLength : Z;
  Body : text;
}.

Record Response := {
  RequestPath : text;               (** [response.Request.URL.Path] *)
  ResponseContentLength : Z;
  ContentLengthHeader : option Z;   (** as a number *)
  ResponseBody : text;
}.

(** What the goroutine of [Rewrite] writes to the pipe. *)
Definition copy_body (s : text) : text :=
  concat ((λ b, ReplaceAll b native_path crd_path) <$> scan s).

(** [SetURL] is [request.SetURL(u)], applied to the outgoing request. *)
Definition Rewrite (SetURL : Request → Request) (in_ out : Request) : Request :=
  let out := SetURL out in
  if negb (Contains (Path in_) native_path) then out
  else
    {| Path := ReplaceAll (Path out) native_path crd_path;
       RawPath := ReplaceAll (RawPath out) native_path crd_path;
       Accept := Some "application/json";
       ContentLength := -1;
       Body := copy_body (Body in_) |}.

(** [read_error]: the error of [io.ReadAll] on the body, whose bytes are those
    read before it. *)
Definition ModifyResponse (read_error : option error) (response : Response)
    : Response * option error :=
  if negb (Contains (RequestPath response) crd_path) then (response, None)
  else
    let b := ReplaceAll (ResponseBody response) crd_path native_path in
    ({| RequestPath := RequestPath response;
        ResponseContentLength := Z.of_nat (length b);
        ContentLengthHeader := Some (Z.of_nat (length b));
        ResponseBody := b |}, read_error).

(** ** Lemmas *)
Lemma scan_from_lines token room l s :
  LF ∉ l → Z.of_nat (length l) < room →
  scan_from token room (l ++ LF :: s) =
  dropCR (reverse l ++ token) :: scan_from [] MaxScanTokenSize s.
Proof.
  revert token room. induction l as [|c l IH]; intros token room Hl Hlen; [done|].
  cbn [app scan_from]. apply not_elem_of_cons in Hl as [Hc Hl]. simpl in Hlen.
  rewrite bool_decide_eq_false_2 by done. rewrite bool_decide_eq_false_2 by lia.
  rewrite IH by (done || lia). by rewrite reverse_cons, <- app_assoc.
Qed.

Lemma scan_from_last token room l :
  LF ∉ l → Z.of_nat (length l) < room →
  scan_from token room l =
  if bool_decide (reverse l ++ token = []) then [] else [dropCR (reverse l ++ token)].
Proof.
  revert token room. induction l as [|c l IH]; intros token room Hl Hlen; [done|].
  cbn [scan_from]. apply not_elem_of_cons in Hl as [Hc Hl]. simpl in Hlen.
  rewrite bool_decide_eq_false_2 by done. rewrite (bool_decide_eq_false_2 (room ≤ 1)) by lia.
  rewrite IH by (done || lia). by rewrite reverse_cons, <- app_assoc.
Qed.

Lemma scan_from_long token room l s :
  LF ∉ l → room ≤ Z.of_nat (length l) → 0 < room → scan_from token room (l ++ s) = [].
Proof.
  revert token room. induction l as [|c l IH]; intros token room Hl Hlen Hroom; [simpl in Hlen; lia|].
  cbn [app scan_from]. apply not_elem_of_cons in Hl as [Hc Hl]. simpl in Hlen.
  rewrite bool_decide_eq_false_2 by done. case_bool_decide; [done|]. apply IH; [done|lia..].
Qed.

(** A line that the scanner takes and that does not end in a carriage return. *)
Definition plain_line (l : text) : Prop :=
  (LF ∉ l) ∧ last l ≠ Some CR ∧ Z.of_nat (length l) < MaxScanTokenSize.

Lemma dropCR_plain l : last l ≠ Some CR → dropCR (reverse l) = l.
Proof.
  destruct l as [|c l] using rev_ind; [done|]. rewrite last_snoc, reverse_snoc. simpl.
  intros Hc. rewrite bool_decide_eq_false_2 by congruence.
  by rewrite reverse_cons, reverse_involutive.
Qed.

Lemma scan_plain l : plain_line l → scan l = if bool_decide (l = []) then [] else [l].
Proof.
  intros (Hlf & Hcr & Hlen). unfold scan. rewrite scan_from_last by done.
  rewrite app_nil_r, dropCR_plain by done.
  assert (Hnil : reverse l = [] ↔ l = []).
  { split; [|by intros ->]. intros H%(f_equal reverse). by rewrite reverse_involutive in H. }
  by rewrite (bool_decide_ext _ _ Hnil).
Qed.

Lemma copy_body_plain l : plain_line l → copy_body l = ReplaceAll l native_path crd_path.
Proof.
  intros Hl. unfold copy_body. rewrite scan_plain by done.
  case_bool_decide; [by subst|]. simpl. apply app_nil_r.
Qed.

Lemma crd_path_unbordered : unbordered crd_path.
Proof. apply unbordered_b_spec. by vm_compute. Qed.

Lemma restore s : ¬ occurs crd_path s → ReplaceAll (ReplaceAll s native_path crd_path) crd_path native_path = s.
Proof. intros. apply ReplaceAll_back; [done..|apply crd_path_unbordered|done]. Qed.

(** Lines, each with its end of line. *)
Definition with_newlines (lines : list text) : text := concat ((λ l, l ++ [LF]) <$> lines).

Lemma with_newlines_cons l lines :
  with_newlines (l :: lines) = l ++ LF :: with_newlines lines.
Proof. unfold with_newlines. csimpl. by rewrite <- app_assoc. Qed.

Lemma scan_lines lines s :
  Forall plain_line lines → scan (with_newlines lines ++ s) = lines ++ scan s.
Proof.
  induction 1 as [|l lines (Hlf & Hcr & Hlen) _ IH]; [done|].
  rewrite with_newlines_cons, <- app_assoc. unfold scan in *. cbn [app].
  by rewrite scan_from_lines, IH, app_nil_r, dropCR_plain.
Qed.

(** ** Theorems *)
(** C27: The client does not see the interceptor: the body of a request to the
    native policy API that is one line of less than 64 KiB and does not name the
    CRD group is sent to the CRD API with the group replaced, and if the server
    answers with what it was sent, the client reads back the body it wrote, with
    its length. *)
Theorem interceptor_transparent SetURL in_ out response :
  occurs native_path (Path in_) → plain_line (Body in_) → ¬ occurs crd_path (Body in_) →
  occurs crd_path (RequestPath response) →
  let sent := Rewrite SetURL in_ out in
  ResponseBody response = Body sent →
  Body sent = ReplaceAll (Body in_) native_path crd_path ∧
  Path sent = ReplaceAll (Path (SetURL out)) native_path crd_path ∧
  ModifyResponse None response =
    ({| RequestPath := RequestPath response;
        ResponseContentLength := Z.of_nat (length (Body in_));
        ContentLengthHeader := Some (Z.of_nat (length (Body in_)));
        ResponseBody := Body in_ |}, None).
Proof.
  intros Hin Hline Hno Hresp sent Hbody. apply Contains_spec in Hin, Hresp.
  assert (Hsent : Body sent = ReplaceAll (Body in_) native_path crd_path).
  { unfold sent, Rewrite. rewrite Hin. simpl. by apply copy_body_plain. }
  split_and!; [done|unfold sent, Rewrite; by rewrite Hin|].
  unfold ModifyResponse. rewrite Hresp. simpl. by rewrite Hbody, Hsent, restore.
Qed.

(** C36: What the interceptor does to longer bodies: the lines of a body are sent
    one after the other without their newlines, and from the first line of
    64 KiB or more on nothing is sent at all, without an error. *)
Theorem interceptor_body_lines SetURL in_ out lines rest long :
  occurs native_path (Path in_) → Forall plain_line lines →
  LF ∉ long → MaxScanTokenSize ≤ Z.of_nat (length long) →
  Body (Rewrite SetURL {| Path := Path in_; RawPath := RawPath in_; Accept := Accept in_;
          ContentLength := ContentLength in_;
          Body := with_newlines lines ++ long ++ rest |} out) =
  concat ((λ l, ReplaceAll l native_path crd_path) <$> lines).
Proof.
  intros Hin Hlines Hlf Hlong. apply Contains_spec in Hin.
  unfold Rewrite. simpl. rewrite Hin. simpl. unfold copy_body. f_equal. f_equal.
  rewrite scan_lines by done. unfold scan. by rewrite scan_from_long, app_nil_r.
Qed.

(** Requests and responses about anything else pass unchanged. *)
Lemma interceptor_passes SetURL in_ out response e :
  ¬ occurs native_path (Path in_) → ¬ occurs crd_path (RequestPath response) →
  Rewrite SetURL in_ out = SetURL out ∧ ModifyResponse e response = (response, None).
Proof.
  rewrite <- !Contains_spec. intros H1%not_true_iff_false H2%not_true_iff_false.
  unfold Rewrite, ModifyResponse. by rewrite H1, H2.
Qed.

(** ** A concrete exchange *)
(** ** The proxy and the program

    [runServer], [main] and [loadClientConfig]: what the reverse proxy is made of
    and how the program ends. *)
Module Setup.
Section setup.
(** Configurations, URLs, certificate pools and key pairs, with the library
    functions that make them; [TransportConfig] gives the certificate data of a
    configuration. *)
Context {W Config URL Pool KeyPair : Type}.

Record TLSConfig := { CAData : text; CertData : text; KeyData : text }.
Record HTTPTransport := { RootCAs : option Pool; Certificates : list KeyPair }.
Record ReverseProxy := { upstream : URL; Transport : HTTPTransport }.

Context (Host : Config → string).
Context (kubeConfig_ClientConfig rest_InClusterConfig : error + Config).
Context (TransportConfig : Config → returns error TLSConfig).
Context (url_Parse : string → error + URL).
Context (CertPool : text → Pool).                        (** [AppendCertsFromPEM] to a new pool *)
Context (X509KeyPair : text → text → error + KeyPair).
(** It serves until it fails, and returns the error. *)
Context (ListenAndServeTLS : string → string → string → ReverseProxy → GO W (option error)).

Definition loadClientConfig : error + Config :=
  match kubeConfig_ClientConfig with
  | inr config => inr config
  | inl _ => rest_InClusterConfig
  end.

Definition non_empty (t : text) : bool := negb (bool_decide (t = [])).

Definition transport_of (t : TLSConfig) : error + HTTPTransport :=
  let RootCAs := if non_empty (CAData t) then Some (CertPool (CAData t)) else None in
  if non_empty (CertData t) && non_empty (KeyData t) then
    match X509KeyPair (CertData t) (KeyData t) with
    | inl err => inl err
    | inr cert => inr {| RootCAs := RootCAs; Certificates := [cert] |}
    end
  else inr {| RootCAs := RootCAs; Certificates := [] |}.

(** The error of [TransportConfig] is not looked at: a nil result is
    dereferenced, after the host has been parsed. *)
Definition new_proxy : outcome (error + ReverseProxy) :=
  match loadClientConfig with
  | inl err => Value (inl err)
  | inr config =>
      let t := (TransportConfig config).1 in
      match url_Parse (Host config) with
      | inl err => Value (inl err)
      | inr u =>
          match t with
          | None => Panic "invalid memory address or nil pointer dereference"
          | Some t =>
              match transport_of t with
              | inl err => Value (inl err)
              | inr transport => Value (inr {| upstream := u; Transport := transport |})
              end
          end
      end
  end.

Definition runServer (certFile keyFile addr : string) : GO W (option error) := λ w,
  match new_proxy with
  | Panic msg => (Panic msg, w)
  | Value (inl err) => (Value (Some err), w)
  | Value (inr proxy) => ListenAndServeTLS addr certFile keyFile proxy w
  end.

(** The exit status. *)
Definition main (certFile keyFile addr : string) : GO W Z :=
  err ← runServer certFile keyFile addr;
  mret match err with Some _ => 1 | None => 0 end.

(** What a proxy is made of: the host of the configuration, and of its
    credentials the certificate data alone. *)
Lemma new_proxy_spec proxy :
  new_proxy = Value (inr proxy) ↔
  ∃ config t transport,
    loadClientConfig = inr config ∧ url_Parse (Host config) = inr (upstream proxy) ∧
    (TransportConfig config).1 = Some t ∧ transport_of t = inr transport ∧ Transport proxy = transport.
Proof.
  unfold new_proxy. split.
  - destruct loadClientConfig as [e|config]; [done|].
    destruct (url_Parse (Host config)) as [e|u] eqn:Hu; [done|].
    destruct (TransportConfig config).1 as [t|] eqn:Ht; [|done].
    destruct (transport_of t) as [e|tr] eqn:Htr; [done|]. intros [= <-]. by exists config, t, tr.
  - intros (config & t & tr & -> & -> & -> & -> & <-). by destruct proxy.
Qed.

Lemma new_proxy_panics msg :
  new_proxy = Panic msg → ∃ config,
    loadClientConfig = inr config ∧ (TransportConfig config).1 = None.
Proof.
  unfold new_proxy. destruct loadClientConfig as [e|config]; [done|].
  destruct (url_Parse (Host config)) as [e|u]; [done|].
  destruct (TransportConfig config).1 as [t|] eqn:Ht; [by destruct (transport_of t)|]. by exists config.
Qed.

(** Serving ends with an error, so that the program exits with status 1 or
    panics. *)
Lemma main_fails certFile keyFile addr w s w' :
  (∀ proxy w w', ListenAndServeTLS addr certFile keyFile proxy w ≠ (Value None, w')) →
  main certFile keyFile addr w = (Value s, w') → s = 1.
Proof.
  intros Hserve. unfold main, runServer, mbind, GO_bind.
  destruct new_proxy as [[err|proxy]|msg]; [by intros [= <- _]| |done].
  destruct (ListenAndServeTLS addr certFile keyFile proxy w) as [[[err|]|msg] w1] eqn:Hl;
    [by intros [= <- _]|by apply Hserve in Hl|done].
Qed.
End setup.
End Setup.

Module Demo.
Definition policies : text := bytes "/apis/admissionregistration.k8s.io/v1alpha1/validatingadmissionpolicies".
Definition crd_policies : text := bytes "/apis/admissionregistration.x-k8s.io/v1alpha1/validatingadmissionpolicies".
Definition demo_body : text := bytes "{apiVersion: admissionregistration.k8s.io/v1alpha1, kind: ValidatingAdmissionPolicy}".
Definition demo_sent : text := bytes "{apiVersion: admissionregistration.x-k8s.io/v1alpha1, kind: ValidatingAdmissionPolicy}".
Definition demo_request (body : text) : Request :=
  {| Path := policies; RawPath := []; Accept := None; ContentLength := 0; Body := body |}.
Definition demo_response : Response :=
  {| RequestPath := crd_policies; ResponseContentLength := 0; ContentLengthHeader := None;
     ResponseBody := demo_sent |}.

Lemma plain_line_dec l :
  (forallb (λ c, negb (bool_decide (c = LF))) l && negb (bool_decide (last l = Some CR)) &&
   bool_decide (Z.of_nat (length l) < MaxScanTokenSize))%bool = true → plain_line l.
Proof.
  rewrite !andb_true_iff, !bool_decide_eq_true, negb_true_iff, bool_decide_eq_false, forallb_forall.
  intros [[Hl Hc] Hn]. split_and!; [|done|done]. intros Hin%list_elem_of_In.
  specialize (Hl _ Hin). by rewrite bool_decide_eq_true_2 in Hl.
Qed.

(** A line without an end that is too long for the scanner. *)
Definition xs (n : Z) : text := repeat "x"%char (Z.to_nat n).
Lemma xs_length n : n ≤ Z.of_nat (length (xs n)).
Proof. unfold xs. rewrite repeat_length. lia. Qed.
Lemma xs_no_LF n : LF ∉ xs n.
Proof. by intros Hin%list_elem_of_In%repeat_spec. Qed.
Definition long_request : Request :=
  {| Path := policies; RawPath := []; Accept := None; ContentLength := 0;
     Body := with_newlines [demo_body; demo_body] ++ xs MaxScanTokenSize ++ demo_body |}.
End Demo.
Import Demo.

Lemma demo_path_native : occurs native_path policies.
Proof. apply Contains_spec. by vm_compute. Qed.
Lemma demo_path_crd : occurs crd_path crd_policies.
Proof. apply Contains_spec. by vm_compute. Qed.
Lemma demo_body_plain : plain_line demo_body.
Proof. apply plain_line_dec. by vm_compute. Qed.
Lemma demo_body_native : ¬ occurs crd_path demo_body.
Proof. rewrite <- Contains_spec. by vm_compute. Qed.
Lemma demo_sent_body : demo_sent = Body (Rewrite id (demo_request demo_body) (demo_request demo_body)).
Proof.
  unfold Rewrite. cbn [demo_request Path Body].
  rewrite (proj2 (Contains_spec _ _) demo_path_native). cbn [negb Body].
  rewrite copy_body_plain by apply demo_body_plain. by vm_compute.
Qed.

Lemma interceptor_transparent_witness :
  let sent := Rewrite id (demo_request demo_body) (demo_request demo_body) in
  Body sent = ReplaceAll demo_body native_path crd_path ∧
  Path sent = ReplaceAll policies native_path crd_path ∧
  ModifyResponse None demo_response =
    ({| RequestPath := crd_policies;
        ResponseContentLength := Z.of_nat (length demo_body);
        ContentLengthHeader := Some (Z.of_nat (length demo_body));
        ResponseBody := demo_body |}, None).
Proof.
  apply (interceptor_transparent id (demo_request demo_body) (demo_request demo_body) demo_response).
  - apply demo_path_native.
  - apply demo_body_plain.
  - apply demo_body_native.
  - apply demo_path_crd.
  - apply demo_sent_body.
Defined.

Lemma interceptor_body_lines_witness :
  Body (Rewrite id long_request (demo_request [])) =
  concat ((λ l, ReplaceAll l native_path crd_path) <$> [demo_body; demo_body]).
Proof.
  apply (interceptor_body_lines id (demo_request []) (demo_request []) [demo_body; demo_body]
           demo_body (xs MaxScanTokenSize)).
  - apply demo_path_native.
  - repeat constructor; apply demo_body_plain.
  - apply xs_no_LF.
  - apply xs_length.
Defined.
End Interceptor.
