(* ===== verification/Fake.v ===== *)
(** * The generated fake clientset ([pkg/generated/clientset/versioned/fake])

    Clients that tests use in place of a server: each method makes an action,
    which goes through a chain of reactors to a tracker of objects in memory
    ([client-go/testing]).  The fake clients are shown to keep the contract of a
    typed client, as the generated REST clients do over a server. *)
From stdpp Require Import sorting.
From S2P Require Import Prelude GoStrings GoErrors Admission Keys Store Lister TransformedClient Rest Json Types Conversion Scheme.

Module Tracker.
Section tracker.
(** Runtime objects; lists are apart, since the tracker stores none. *)
Context {Object : Type} `{!MetaAccessor Object}.
Context (SetNamespace : string → Object → Object).

(** The key of a resource and of an object in it. *)
Definition gvr_key (r : GroupVersionResource) : string * string * string :=
  (gvrGroup r, gvrVersion r, gvrResource r).
Abbreviation NamespacedName := (string * string)%type.

(** A watcher, with the events that are in its channel. *)
Record watcher := { w_resource : string * string * string; w_namespace : string; stopped : bool;
                    result : list (string * Object) }.
Definition DefaultChanSize : nat := 100.

Record tracker := {
  objects : gmap (string * string * string) (gmap NamespacedName Object);
  watchers : list watcher;
}.

Definition NewAlreadyExists (r : GroupResource) (name : string) : error :=
  StatusError {| StatusStatus := "Failure"; Code := 409; Reason := "AlreadyExists";
                 Message := (GroupResource_String r ++ " " ++ quote name ++ " already exists")%string;
                 Details := Some (details (grGroup r) (grResource r) name) |}.
Definition NewBadRequest (msg : string) : error :=
  StatusError {| StatusStatus := "Failure"; Code := 400; Reason := "BadRequest"; Message := msg;
                 Details := None |}.

(** An event goes to every running watcher of the namespace; a full channel
    panics. *)
Definition watches (r : GroupVersionResource) (ns : string) (w : watcher) : bool :=
  bool_decide (w_resource w = gvr_key r) && bool_decide (w_namespace w = ns).
Fixpoint notify (r : GroupVersionResource) (ns : string) (event : string * Object) (ws : list watcher)
    : outcome unit * list watcher :=
  match ws with
  | [] => (Value tt, [])
  | w :: ws =>
      if watches r ns w && negb (stopped w) then
        if bool_decide (DefaultChanSize ≤ length (result w))%nat then (Panic "channel full", w :: ws)
        else
          let '(o, ws) := notify r ns event ws in
          (o, {| w_resource := w_resource w; w_namespace := w_namespace w; stopped := stopped w;
                 result := result w ++ [event] |} :: ws)
      else let '(o, ws) := notify r ns event ws in (o, w :: ws)
  end.

Definition broadcast (r : GroupVersionResource) (ns : string) (event : string * Object) : GO tracker unit := λ t,
  let '(o, ws) := notify r ns event (watchers t) in (o, {| objects := objects t; watchers := ws |}).
(** The watchers of the namespace first, then those of all namespaces. *)
Definition send (r : GroupVersionResource) (ns : string) (event : string * Object) : GO tracker unit :=
  _ ← broadcast r ns event;
  if is_empty ns then mret tt else broadcast r "" event.
Definition set_objects (r : GroupVersionResource) (objs : gmap NamespacedName Object) : GO tracker unit := λ t,
  (Value tt, {| objects := <[gvr_key r := objs]> (objects t); watchers := watchers t |}).

Definition objects_of (r : GroupVersionResource) (t : tracker) : gmap NamespacedName Object :=
  default ∅ (objects t !! gvr_key r).

(** [tracker.add]. *)
Definition add (r : GroupVersionResource) (obj : Object) (ns : string) (replaceExisting : bool)
    : GO tracker (option error) := λ t,
  match Accessor obj with
  | None => (Value (Some errNotObject), t)
  | Some meta =>
      let obj := if is_empty (GetNamespace meta) then SetNamespace ns obj else obj in
      let objNs := if is_empty (GetNamespace meta) then ns else GetNamespace meta in
      if negb (bool_decide (ns = objNs))
      then (Value (Some (NewBadRequest "request namespace does not match object namespace")), t)
      else
        let key := (objNs, GetName meta) in
        let objs := objects_of r t in
        (_ ← set_objects r objs;
         match objs !! key with
         | Some _ =>
             if replaceExisting
             then _ ← send r ns ("MODIFIED", obj); _ ← set_objects r (<[key := obj]> objs); mret None
             else mret (Some (NewAlreadyExists (gvr_GroupResource r) (GetName meta)))
         | None =>
             if replaceExisting
             then mret (Some (NewNotFound (gvr_GroupResource r) (GetName meta)))
             else _ ← set_objects r (<[key := obj]> objs); _ ← send r ns ("ADDED", obj); mret None
         end) t
  end.

Definition Get (r : GroupVersionResource) (ns name : string) : GO tracker (returns error Object) := λ t,
  match objects_of r t !! (ns, name) with
  | Some obj => (Value (Some obj, None), t)
  | None => (Value (None, Some (NewNotFound (gvr_GroupResource r) name)), t)
  end.

Definition Delete (r : GroupVersionResource) (ns name : string) : GO tracker (option error) := λ t,
  match objects_of r t !! (ns, name) with
  | Some obj =>
      (_ ← set_objects r (delete (ns, name) (objects_of r t)); _ ← send r ns ("DELETED", obj); mret None) t
  | None => (Value (Some (NewNotFound (gvr_GroupResource r) name)), t)
  end.

Definition Watch (r : GroupVersionResource) (ns : string) : GO tracker nat := λ t,
  (Value (length (watchers t)),
   {| objects := objects t;
      watchers := watchers t ++ [{| w_resource := gvr_key r; w_namespace := ns; stopped := false;
                                    result := [] |}] |}).

(** [filterByNamespace], sorted by namespace and name. *)
Definition name_le (o1 o2 : Object) : Prop :=
  match Accessor o1, Accessor o2 with
  | Some m1, Some m2 =>
      if bool_decide (GetNamespace m1 = GetNamespace m2)
      then String.leb (GetName m1) (GetName m2) = true
      else String.ltb (GetNamespace m1) (GetNamespace m2) = true
  | _, _ => True
  end.
#[export] Instance name_le_dec o1 o2 : Decision (name_le o1 o2).
Proof. unfold name_le. repeat case_match; apply _. Defined.

Definition filterByNamespace (objs : gmap NamespacedName Object) (ns : string) : error + list Object :=
  let all := (map_to_list objs).*2 in
  if bool_decide (Forall (λ o, is_Some (Accessor o)) all)
  then inr (merge_sort name_le
              (filter (λ o, ns = "" ∨ GetNamespace <$> Accessor o = Some ns) all))
  else inl errNotObject.

(** [tracker.List]: the objects of the list, [None] for a resource that has never
    had one. *)
Definition List_ (r : GroupVersionResource) (ns : string) : GO tracker (error + option (list Object)) := λ t,
  (Value match objects t !! gvr_key r with
         | None => inr None
         | Some objs => match filterByNamespace objs ns with
                        | inl err => inl err
                        | inr res => inr (Some res)
                        end
         end, t).
(** ** A collection in the tracker

    The objects of a cluster-scoped resource, by name, when nobody watches it. *)
Section collection.
Context {R : Type} (inj : R → Object) (name : R → string) (meta : R → ObjectAccessor).
Hypothesis Accessor_inj : ∀ r, Accessor (inj r) = Some (meta r).
Hypothesis GetName_meta : ∀ r, GetName (meta r) = name r.
Hypothesis SetNamespace_inj : ∀ r, GetNamespace (meta r) = "" → SetNamespace "" (inj r) = inj r.
Implicit Types (m : gmap string R) (t : tracker).

Definition quiet (gvr : GroupVersionResource) t : Prop :=
  Forall (λ w, watches gvr "" w && negb (stopped w) = false) (watchers t).
Definition holds (gvr : GroupVersionResource) m t : Prop :=
  objects_of gvr t = kmap (pair "") (inj <$> m) ∧
  map_Forall (λ k r, name r = k ∧ GetNamespace (meta r) = "") m ∧ quiet gvr t.
(** Watchers and the other resources are as they were. *)
Definition only (gvr : GroupVersionResource) t t' : Prop :=
  watchers t' = watchers t ∧
  ∀ r', gvr_key r' ≠ gvr_key gvr → objects_of r' t' = objects_of r' t.

Lemma only_refl gvr t : only gvr t t.
Proof. done. Qed.
Lemma quiet_only gvr t t' : only gvr t t' → ∀ r, quiet r t → quiet r t'.
Proof. intros [Hw _] r. unfold quiet. by rewrite Hw. Qed.

Lemma notify_quiet gvr ev ws :
  Forall (λ w, watches gvr "" w && negb (stopped w) = false) ws → notify gvr "" ev ws = (Value tt, ws).
Proof. induction 1 as [|w ws Hw _ IH]; [done|]. simpl. by rewrite Hw, IH. Qed.

Lemma wp_send gvr ev t (Q : unit → tracker → Prop) : quiet gvr t → Q tt t → wp (send gvr "" ev) t Q.
Proof.
  intros Hq HQ. apply wp_bind, wp_mono with (λ _ t', t' = t).
  - exists tt, t. split; [|done]. unfold broadcast. rewrite notify_quiet by done. by destruct t.
  - intros [] t' ->. by apply wp_ret.
Qed.

Lemma wp_set gvr m' t u (Q : unit → tracker → Prop) :
  only gvr t u → quiet gvr t → map_Forall (λ k r, name r = k ∧ GetNamespace (meta r) = "") m' →
  (∀ u', only gvr t u' → holds gvr m' u' → Q tt u') →
  wp (set_objects gvr (kmap (pair "") (inj <$> m'))) u Q.
Proof.
  intros [Hw Ho] Hq Hall HQ. eexists tt, _. split; [done|]. apply HQ.
  - split; [done|]. intros r' Hr. unfold objects_of. simpl. rewrite lookup_insert_ne by done.
    by apply Ho.
  - split_and!; [|done|by unfold quiet; simpl; rewrite Hw].
    unfold objects_of. simpl. by rewrite lookup_insert_eq.
Qed.

Lemma holds_empty gvr t : objects_of gvr t = ∅ → watchers t = [] → holds gvr ∅ t.
Proof.
  intros Ho Hw. split_and!; [by rewrite Ho, fmap_empty, (kmap_empty (pair ""))|done|].
  unfold quiet. by rewrite Hw.
Qed.

Lemma holds_lookup gvr m t k : holds gvr m t → objects_of gvr t !! ("", k) = inj <$> m !! k.
Proof. intros [-> _]. by rewrite (lookup_kmap (pair "")), lookup_fmap. Qed.

Lemma kmap_write m k r :
  <[("", k) := inj r]> (kmap (pair "") (inj <$> m) : gmap NamespacedName Object) =
  kmap (pair "") (inj <$> <[k := r]> m).
Proof. by rewrite fmap_insert, (kmap_insert (pair "")). Qed.

(** A computation that reads the state it starts in. *)
Lemma wp_read {A} (f : GO tracker A) t Q : wp (λ _, f t) t Q → wp f t Q.
Proof. done. Qed.
Lemma wp_at {A} (f : GO tracker A) t Q : wp f t Q → wp (λ _, f t) t Q.
Proof. done. Qed.

Lemma wp_Get gvr m k t (Q : returns error Object → tracker → Prop) :
  holds gvr m t →
  Q match m !! k with
    | Some r => (Some (inj r), None)
    | None => (None, Some (NewNotFound (gvr_GroupResource gvr) k))
    end t →
  wp (Get gvr "" k) t Q.
Proof.
  intros Hm HQ. unfold wp, Get. rewrite (holds_lookup _ _ _ _ Hm).
  destruct (m !! k) as [r|]; simpl; eauto.
Qed.

(** An object is stored when it has no namespace and its name is free to be
    created, or there to be updated. *)
Lemma wp_add gvr m r replace t :
  holds gvr m t →
  wp (add gvr (inj r) "" replace) t (λ err t',
    only gvr t t' ∧
    match err with
    | None => GetNamespace (meta r) = "" ∧ bool_decide (is_Some (m !! name r)) = replace ∧
              holds gvr (<[name r := r]> m) t'
    | Some _ => ¬ (GetNamespace (meta r) = "" ∧ bool_decide (is_Some (m !! name r)) = replace) ∧
                holds gvr m t'
    end).
Proof.
  intros Hm. pose proof Hm as (Ho & Hall & Hq). unfold add. rewrite Accessor_inj, GetName_meta.
  destruct (is_empty (GetNamespace (meta r))) eqn:He.
  2: { rewrite bool_decide_eq_false_2 by (intros Heq; by rewrite <- Heq in He).
       exists (Some (NewBadRequest "request namespace does not match object namespace")), t. split; [done|].
       split; [apply only_refl|]. split; [|done]. intros [Hns _]. by rewrite Hns in He. }
  apply is_empty_true in He. rewrite SetNamespace_inj by done. simpl negb. cbv iota.
  assert (Hall' : map_Forall (λ k r, name r = k ∧ GetNamespace (meta r) = "") (<[name r := r]> m))
    by (by apply map_Forall_insert_2).
  apply wp_read. rewrite Ho. apply wp_at, wp_bind, (wp_set gvr m t t); [done..|]. intros t1 H1 Hm1.
  rewrite (lookup_kmap (pair "")), lookup_fmap, kmap_write.
  destruct (m !! name r) as [old|] eqn:Hold; simpl.
  - destruct replace.
    + apply wp_bind, wp_send; [apply Hm1|]. apply wp_bind, (wp_set gvr _ t t1); [done..|].
      intros t2 H2 Hm2. by apply wp_ret.
    + apply wp_ret. split; [done|]. split; [|done]. by intros [_ ?].
  - destruct replace.
    + apply wp_ret. split; [done|]. split; [|done]. by intros [_ ?].
    + apply wp_bind, (wp_set gvr _ t t1); [done..|]. intros t2 H2 Hm2.
      apply wp_bind, wp_send; [apply Hm2|]. by apply wp_ret.
Qed.

Lemma wp_Delete gvr m k t :
  holds gvr m t →
  wp (Delete gvr "" k) t (λ err t',
    only gvr t t' ∧
    match err with
    | None => is_Some (m !! k) ∧ holds gvr (delete k m) t'
    | Some _ => m !! k = None ∧ holds gvr m t'
    end).
Proof.
  intros Hm. pose proof Hm as (Ho & Hall & Hq). unfold wp, Delete.
  rewrite (holds_lookup _ _ _ _ Hm). destruct (m !! k) as [r|] eqn:Hk; simpl; [|by eexists _, _].
  rewrite Ho, <- (kmap_delete (pair "")), <- fmap_delete.
  apply wp_bind, (wp_set gvr _ t t); [done|done|by apply map_Forall_delete|]. intros t1 H1 Hm1.
  apply wp_bind, wp_send; [apply Hm1|]. apply wp_ret. split_and!; [done| |done]. by eexists.
Qed.

(** The names determine the collection. *)
Definition collection (prj : Object → option R) (gvr : GroupVersionResource) t : gmap string R :=
  list_to_map (omap (λ o, (λ r, (name r, r)) <$> prj o) (map_to_list (objects_of gvr t)).*2).

Lemma filter_true {A} (P : A → Prop) `{!∀ x, Decision (P x)} (l : list A) :
  (∀ x, P x) → filter P l = l.
Proof.
  intros HP. induction l as [|x l IH]; [done|]. by rewrite filter_cons_True, IH by apply HP.
Qed.

Lemma values_holds gvr m t :
  holds gvr m t → (map_to_list (objects_of gvr t)).*2 ≡ₚ inj <$> (map_to_list m).*2.
Proof.
  intros (-> & _). rewrite (map_to_list_kmap (pair "")), map_to_list_fmap.
  by rewrite <- !list_fmap_compose.
Qed.

Lemma collection_holds prj gvr m t :
  (∀ r, prj (inj r) = Some r) → holds gvr m t → collection prj gvr t = m.
Proof.
  intros Hprj Hm. unfold collection.
  assert (Hlist : omap (λ o, (λ r, (name r, r)) <$> prj o) (map_to_list (objects_of gvr t)).*2 ≡ₚ map_to_list m).
  { rewrite (values_holds _ _ _ Hm). destruct Hm as (_ & Hall & _).
    apply map_Forall_to_list in Hall. induction Hall as [|[k r] l [Hk _] _ IH]; [done|]. simpl.
    rewrite Hprj. simpl in *. by rewrite Hk, IH. }
  rewrite <- (list_to_map_to_list m). apply list_to_map_proper; [|done].
  rewrite Hlist. apply NoDup_fst_map_to_list.
Qed.

Lemma wp_List gvr m t (Q : error + option (list Object) → tracker → Prop) :
  holds gvr m t →
  (∀ res, inj <$> (map_to_list m).*2 ≡ₚ default [] res → Q (inr res) t) →
  wp (List_ gvr "") t Q.
Proof.
  intros Hm HQ. pose proof (values_holds _ _ _ Hm) as Hv. eexists _, t. split; [done|].
  revert Hv. unfold objects_of. destruct (objects t !! gvr_key gvr) as [objs|]; simpl; intros Hv.
  - unfold filterByNamespace. rewrite bool_decide_eq_true_2.
    + apply HQ. simpl. rewrite merge_sort_Permutation, <- Hv.
      by rewrite filter_true by (intros o; by left).
    + rewrite Hv. apply Forall_fmap, Forall_true. intros r. simpl. rewrite Accessor_inj. by eexists.
  - apply HQ. simpl. by rewrite map_to_list_empty in Hv.
Qed.

Lemma holds_only gvr gvr' m t t' :
  only gvr' t t' → gvr_key gvr ≠ gvr_key gvr' → holds gvr m t → holds gvr m t'.
Proof.
  intros Hon Hne (Ho & Hall & Hq). split_and!; [|done|by eapply quiet_only].
  destruct Hon as [_ Hon]. by rewrite Hon.
Qed.
End collection.
End tracker.
End Tracker.

(** ** Actions, reactors and the fake clientset *)
Module Fake.
Import Tracker.
Section fake.
Context {Object : Type} `{!MetaAccessor Object}.
Context (SetNamespace : string → Object → Object) (type_of : Object → Scheme.go_type).
(** The scheme of the fake, and the types of its lists with those of their items. *)
Context (scheme : Scheme.Scheme) (list_item : Scheme.go_type → option Scheme.go_type).
(** A JSON, merge or strategic merge patch of an object. *)
Context (patched : string → string → Object → error + Object).
Abbreviation tracker := (tracker (Object := Object)).

Inductive Action :=
  | GetAction (r : GroupVersionResource) (name : string)
  | ListAction (r : GroupVersionResource) (kind : GroupVersionKind) (label : Selector)
  | CreateAction (r : GroupVersionResource) (subresource : string) (obj : option Object)
  | UpdateAction (r : GroupVersionResource) (subresource : string) (obj : option Object)
  | DeleteAction (r : GroupVersionResource) (name : string)
  | DeleteCollectionAction (r : GroupVersionResource) (label : Selector)
  | PatchAction (r : GroupVersionResource) (name subresource pt data : string)
  | WatchAction (r : GroupVersionResource) (label : Selector).

Definition GetVerb (a : Action) : string :=
  match a with
  | GetAction _ _ => "get" | ListAction _ _ _ => "list" | CreateAction _ _ _ => "create"
  | UpdateAction _ _ _ => "update" | DeleteAction _ _ => "delete"
  | DeleteCollectionAction _ _ => "delete-collection" | PatchAction _ _ _ _ _ => "patch"
  | WatchAction _ _ => "watch"
  end.
Definition GetResource (a : Action) : GroupVersionResource :=
  match a with
  | GetAction r _ | ListAction r _ _ | CreateAction r _ _ | UpdateAction r _ _ | DeleteAction r _
  | DeleteCollectionAction r _ | PatchAction r _ _ _ _ | WatchAction r _ => r
  end.
Definition GetSubresource (a : Action) : string :=
  match a with CreateAction _ s _ | UpdateAction _ s _ | PatchAction _ _ s _ _ => s | _ => "" end.

(** What a reaction returns: nil, an object or a list. *)
Inductive reply :=
  | RNil
  | RObject (o : Object)
  | RList (t : Scheme.go_type) (meta : ListMeta) (items : option (list Object)).
Definition reply_of (o : option Object) : reply := match o with Some o => RObject o | None => RNil end.

(** [ObjectReaction]: what the tracker answers; no namespace is set by the clients
    of cluster-scoped resources. *)
Definition tracker_list (r : GroupVersionResource) (kind : GroupVersionKind) : GO tracker (reply * option error) :=
  let listGVK := mkGVK (Group kind) (if is_empty (Version kind) then "__internal" else Version kind)
                       (Kind kind ++ "List")%string in
  match Scheme.New listGVK scheme with
  | inl err => mret (RNil, Some err)
  | inr t =>
      match list_item t with
      | None => mret (RNil, Some (plainError (quote (Kind listGVK) ++ " is not a list type")))
      | Some item =>
          res ← List_ r "";
          mret match res with
               | inl err => (RNil, Some err)
               | inr None => (RList t zero_ListMeta None, None)
               | inr (Some objs) =>
                   if bool_decide (Forall (λ o, type_of o = item) objs)
                   then (RList t zero_ListMeta (Some objs), None)
                   else (RNil, Some (plainError "item: can't assign or convert"))
               end
      end
  end.

Definition stored (r : GroupVersionResource) (name : string) : GO tracker (bool * reply * option error) :=
  '(obj, err) ← Get r "" name; mret (true, reply_of obj, err).

Definition ObjectReaction (a : Action) : GO tracker (bool * reply * option error) :=
  match a with
  | ListAction r kind _ => '(obj, err) ← tracker_list r kind; mret (true, obj, err)
  | GetAction r name => stored r name
  | CreateAction r sub obj =>
      match obj ≫= Accessor, obj with
      | Some objMeta, Some obj =>
          if is_empty sub then
            err ← add SetNamespace r obj "" false;
            match err with Some err => mret (true, RNil, Some err) | None => stored r (GetName objMeta) end
          else
            '(oldObj, getOldObjErr) ← Get r "" (GetName objMeta);
            match oldObj, getOldObjErr with
            | Some oldObj, None =>
                if bool_decide (type_of oldObj = type_of obj) then
                  err ← add SetNamespace r obj "" true;
                  match err with Some err => mret (true, RNil, Some err) | None => stored r (GetName objMeta) end
                else mret (true, RObject obj, None)
            | _, err => mret (true, RNil, err)
            end
      | _, _ => mret (true, RNil, Some errNotObject)
      end
  | UpdateAction r _ obj =>
      match obj ≫= Accessor, obj with
      | Some objMeta, Some obj =>
          err ← add SetNamespace r obj "" true;
          match err with Some err => mret (true, RNil, Some err) | None => stored r (GetName objMeta) end
      | _, _ => mret (true, RNil, Some errNotObject)
      end
  | DeleteAction r name =>
      err ← Delete r "" name; mret (true, RNil, err)
  | PatchAction r name _ pt data =>
      '(obj, err) ← Get r "" name;
      match obj, err with
      | Some obj, None =>
          match patched pt data obj with
          | inl err => mret (true, RNil, Some err)
          | inr obj =>
              err ← add SetNamespace r obj "" true;
              mret match err with Some err => (true, RNil, Some err) | None => (true, RObject obj, None) end
          end
      | _, err => mret (true, RNil, err)
      end
  | DeleteCollectionAction _ _ | WatchAction _ _ =>
      mret (false, RNil, Some (plainError "no reaction implemented"))
  end.

(** [testing.Fake]: the chain of reactors, and the actions made so far. *)
Record Reactor := {
  r_Verb : string;
  r_Resource : string;
  Reaction : Action → GO tracker (bool * reply * option error);
}.
Record world := { actions : list Action; tr : tracker }.
Definition on_tracker {A} (m : GO tracker A) : GO world A := λ w,
  let '(o, t) := m (tr w) in (o, {| actions := actions w; tr := t |}).
Definition record_action (a : Action) : GO world unit := λ w,
  (Value tt, {| actions := actions w ++ [a]; tr := tr w |}).

(** The part of a resource before a slash, and the part after it. *)
Definition covers_subresource (resource : string) (a : Action) : bool :=
  match split_byte "/"%char resource with
  | res :: rest => negb (bool_decide (rest = [])) && bool_decide (res = gvrResource (GetResource a)) &&
                   bool_decide (join "/" rest = GetSubresource a)
  | [] => false
  end.
Definition resourceCovers (resource : string) (a : Action) : bool :=
  bool_decide (resource = "*") || bool_decide (resource = gvrResource (GetResource a)) ||
  covers_subresource resource a.
Definition Handles (r : Reactor) (a : Action) : bool :=
  (bool_decide (r_Verb r = "*") || bool_decide (r_Verb r = GetVerb a)) && resourceCovers (r_Resource r) a.

Fixpoint react (chain : list Reactor) (a : Action) (default : reply) : GO world (reply * option error) :=
  match chain with
  | [] => mret (default, None)
  | r :: chain =>
      if Handles r a then
        '(handled, ret, err) ← on_tracker (Reaction r a);
        if (handled : bool) then mret (ret, err) else react chain a default
      else react chain a default
  end.
Definition Invokes (chain : list Reactor) (a : Action) (default : reply) : GO world (reply * option error) :=
  _ ← record_action a; react chain a default.

(** The clientset's chain, and its watch reactor. *)
Definition ReactionChain : list Reactor :=
  [{| r_Verb := "*"; r_Resource := "*"; Reaction := ObjectReaction |}].
Definition InvokesWatch (a : Action) : GO world (returns error nat) :=
  _ ← record_action a;
  watch ← on_tracker (Watch (GetResource a) "");
  mret (Some watch, None).

(** ** The clients of one resource *)
Section typed.
Context {Options R : Type} (inj : R → Object) (prj : Object → option R) (labels_of : R → gmap string string).
(** The resource, the kind, and the types of an object and of a list. *)
Context (resource : GroupVersionResource) (kind : GroupVersionKind) (list_type : Scheme.go_type).
(** [ExtractFromListOptions] parses a selector or panics. *)
Context (zero_object : R) (label_of : Options → error + Selector).

(** [obj.( *T), err], or nil for nil. *)
Definition typed (obj : reply) (err : option error) : GO world (returns error R) :=
  match obj with
  | RNil => mret (None, err)
  | RObject o => match prj o with
                 | Some r => mret (Some r, err)
                 | None => go_panic "interface conversion"
                 end
  | RList _ _ _ => go_panic "interface conversion"
  end.
Definition invoke (a : Action) : GO world (returns error R) :=
  '(obj, err) ← Invokes ReactionChain a (RObject (inj zero_object)); typed obj err.
Definition restriction (opts : Options) : GO world Selector :=
  match label_of opts with inl err => go_panic (Error err) | inr label => mret label end.

Definition fake_Get (ctx : Context) (name : string) (opts : Options) : GO world (returns error R) :=
  invoke (GetAction resource name).
Definition fake_List (ctx : Context) (opts : Options) : GO world (returns error (TypedList R)) :=
  label ← restriction opts;
  '(obj, err) ← Invokes ReactionChain (ListAction resource kind label) (RList list_type zero_ListMeta None);
  match obj with
  | RNil => mret (None, err)
  | RObject _ => go_panic "interface conversion"
  | RList t meta items =>
      if bool_decide (t = list_type) then
        let matching := filter (λ r, Matches label (labels_of r) = true) (omap prj (default [] items)) in
        mret (Some {| list_kind := ""; list_apiVersion := ""; list_meta := meta;
                      Items := match matching with [] => None | _ => Some matching end |}, err)
      else go_panic "interface conversion"
  end.
Definition fake_Watch (ctx : Context) (opts : Options) : GO world (returns error nat) :=
  label ← restriction opts; InvokesWatch (WatchAction resource label).
Definition fake_Create (ctx : Context) (obj : option R) (opts : Options) : GO world (returns error R) :=
  invoke (CreateAction resource "" (inj <$> obj)).
Definition fake_Update (ctx : Context) (obj : option R) (opts : Options) : GO world (returns error R) :=
  invoke (UpdateAction resource "" (inj <$> obj)).
Definition fake_UpdateStatus (ctx : Context) (obj : option R) (opts : Options) : GO world (returns error R) :=
  invoke (UpdateAction resource "status" (inj <$> obj)).
Definition fake_Delete (ctx : Context) (name : string) (opts : Options) : GO world (option error) :=
  '(_, err) ← Invokes ReactionChain (DeleteAction resource name) (RObject (inj zero_object)); mret err.
Definition fake_DeleteCollection (ctx : Context) (opts listOpts : Options) : GO world (option error) :=
  label ← restriction listOpts;
  '(_, err) ← Invokes ReactionChain (DeleteCollectionAction resource label) (RList list_type zero_ListMeta None);
  mret err.
Definition fake_Patch (ctx : Context) (name pt data : string) (opts : Options) (subresources : list string)
    : GO world (returns error R) :=
  invoke (PatchAction resource name (Path.Join subresources) pt data).

Definition fake_client (has_status : bool) : ClientInterface world Options nat R :=
  {| Create := fake_Create; Update := fake_Update;
     UpdateStatus := if has_status then Some fake_UpdateStatus else None;
     TransformedClient.Delete := fake_Delete; DeleteCollection := fake_DeleteCollection;
     TransformedClient.Get := fake_Get; ListObjects := fake_List; TransformedClient.Watch := fake_Watch;
     Patch := fake_Patch |}.
(** [ObjectReaction] knows no delete-collection action, so no reactor handles it:
    the fake reports success and deletes nothing. *)
Lemma fake_DeleteCollection_ignored ctx opts listOpts label w :
  label_of listOpts = inr label →
  fake_DeleteCollection ctx opts listOpts w =
  (Value None, {| actions := actions w ++ [DeleteCollectionAction resource label]; tr := tr w |}).
Proof. intros Hl. unfold fake_DeleteCollection, restriction. by rewrite Hl. Qed.

(** ** The clients keep the contract of a typed client *)
Section spec.
Context (name : R → string) (meta : R → ObjectAccessor) (item_type : Scheme.go_type) (good : R → Prop).
Hypothesis Accessor_inj : ∀ r, Accessor (inj r) = Some (meta r).
Hypothesis GetName_meta : ∀ r, GetName (meta r) = name r.
Hypothesis SetNamespace_inj : ∀ r, GetNamespace (meta r) = "" → SetNamespace "" (inj r) = inj r.
Hypothesis prj_inj : ∀ r, prj (inj r) = Some r.
Hypothesis type_inj : ∀ r, type_of (inj r) = item_type.
Hypothesis list_known :
  Scheme.New (mkGVK (Group kind) (if is_empty (Version kind) then "__internal" else Version kind)
                    (Kind kind ++ "List")) scheme = inr list_type ∧ list_item list_type = Some item_type.
(** Options that select every object. *)
Hypothesis label_all : ∀ opts, ∃ label,
  label_of opts = inr label ∧ ∀ r, Matches label (labels_of r) = true.
Abbreviation holds := (holds inj name meta resource).
Implicit Types (w : world) (m : gmap string R).

Definition fake_abs w : gmap string R := collection name prj resource (tr w).
Definition fake_ok w : Prop := ∃ m, holds m (tr w) ∧ map_Forall (λ _, good) m.

Lemma wp_Invokes a dflt w (Q : reply * option error → world → Prop) :
  wp (ObjectReaction a) (tr w) (λ '(handled, ret, err) t,
    Q (if handled : bool then (ret, err) else (dflt, None)) {| actions := actions w ++ [a]; tr := t |}) →
  wp (Invokes ReactionChain a dflt) w Q.
Proof.
  unfold Invokes, ReactionChain. generalize ObjectReaction. intros reaction ([[h ret] err] & t & Ha & HQ).
  eexists _, _. split; [|exact HQ].
  unfold record_action, mbind, GO_bind. simpl. unfold on_tracker. simpl.
  unfold mbind, GO_bind. simpl. rewrite Ha. by destruct h.
Qed.

Lemma wp_invoke a w (Q : returns error R → world → Prop) :
  wp (ObjectReaction a) (tr w) (λ '(handled, ret, err) t,
    handled = true ∧ ∃ v, ret = reply_of (inj <$> v) ∧ Q (v, err) {| actions := actions w ++ [a]; tr := t |}) →
  wp (invoke a) w Q.
Proof.
  intros Ha. apply wp_bind, wp_Invokes. eapply wp_mono; [exact Ha|].
  intros [[h ret] err] t (-> & v & -> & HQ). destruct v as [r|]; simpl; [rewrite prj_inj|]; by apply wp_ret.
Qed.

Lemma prj_items (l : list R) : omap prj (inj <$> l) = l.
Proof. induction l as [|r l IH]; [done|]. simpl. rewrite prj_inj. by f_equal. Qed.

Lemma abs_holds m w : holds m (tr w) → fake_abs w = m.
Proof. by apply collection_holds. Qed.

Lemma wp_stored m k t (Q : bool * reply * option error → tracker → Prop) :
  holds m t →
  Q (true, reply_of (inj <$> m !! k),
     match m !! k with Some _ => None | None => Some (NewNotFound (gvr_GroupResource resource) k) end) t →
  wp (stored resource k) t Q.
Proof.
  intros Hm HQ. apply wp_bind, (wp_Get inj name meta _ _ _ _ _ Hm).
  destruct (m !! k); by apply wp_ret.
Qed.

(** Storing an object, as creation and update do. *)
Lemma wp_write m r replace w (a : Action) :
  holds m (tr w) → map_Forall (λ _, good) m → good r →
  ObjectReaction a = (err ← add SetNamespace resource (inj r) "" replace;
                      match err with
                      | Some err => mret (true, RNil, Some err)
                      | None => stored resource (name r)
                      end) →
  wp (invoke a) w (λ '(v, e) w', fake_ok w' ∧
    match e with
    | None => v = Some r ∧ bool_decide (is_Some (m !! name r)) = replace ∧
              fake_abs w' = <[name r := r]> m
    | Some _ => fake_abs w' = m
    end).
Proof.
  intros Hm Hg Hr Ha. apply wp_invoke. rewrite Ha. apply wp_bind.
  eapply wp_mono; [by apply (wp_add SetNamespace inj name meta)|]. intros [err|] t (_ & Ht).
  - destruct Ht as [_ Ht]. apply wp_ret. split; [done|]. exists None. split; [done|].
    split; [by exists m|by apply abs_holds].
  - destruct Ht as (_ & Hrep & Ht). apply (wp_stored _ _ _ _ Ht). rewrite lookup_insert_eq.
    split; [done|]. exists (Some r). split; [done|]. split; [|split_and!; [done|done|by apply abs_holds]].
    exists (<[name r := r]> m). split; [done|]. by apply map_Forall_insert_2.
Qed.

(** A deletion of an object that is not there is refused; the comment on the
    interface of the tracker says that it returns no error. *)
Lemma fake_Delete_missing m ctx k opts w :
  holds m (tr w) → m !! k = None →
  fake_Delete ctx k opts w =
  (Value (Some (NewNotFound (gvr_GroupResource resource) k)), {| actions := actions w ++ [DeleteAction resource k]; tr := tr w |}).
Proof.
  intros Hm Hk. pose proof (holds_lookup _ _ _ _ _ _ k Hm) as Hl. rewrite Hk in Hl.
  unfold fake_Delete, Invokes, ReactionChain. unfold mbind, GO_bind. simpl. unfold on_tracker. simpl.
  unfold mbind, GO_bind. simpl. unfold Delete. by rewrite Hl.
Qed.

Lemma fake_client_spec has_status :
  Transformed.client_spec (fake_client has_status) fake_ok id fake_abs name good (λ r r', r' = r).
Proof.
  split; simpl.
  - intros ctx k opts w (m & Hm & Hg). rewrite (abs_holds _ _ Hm). apply wp_invoke, (wp_stored _ _ _ _ Hm).
    split; [done|]. exists (m !! k). split; [done|]. split; [by exists m|]. split; [by apply abs_holds|].
    destruct (m !! k) as [r|] eqn:Hk; [|done]. exists r. split_and!; [done|by apply (Hg k)|done].
  - intros ctx r opts w (m & Hm & Hg) Hr. rewrite (abs_holds _ _ Hm). unfold fake_Create.
    eapply wp_mono; [apply (wp_write m r false); try done|].
    { simpl. by rewrite Accessor_inj, GetName_meta. }
    intros [v e] w' (Hok & He). split; [done|]. destruct e as [e|]; [done|].
    destruct He as (-> & Hnone%bool_decide_eq_false & Hw). exists r.
    split_and!; [done|done|done|by apply eq_None_not_Some|done].
  - intros ctx r opts w (m & Hm & Hg) Hr. rewrite (abs_holds _ _ Hm). unfold fake_Update.
    eapply wp_mono; [apply (wp_write m r true); try done|].
    { simpl. by rewrite Accessor_inj, GetName_meta. }
    intros [v e] w' (Hok & He). split; [done|]. destruct e as [e|]; [done|].
    destruct He as (-> & Hsome%bool_decide_eq_true & Hw). by exists r.
  - intros ctx k opts w (m & Hm & Hg). rewrite (abs_holds _ _ Hm). unfold fake_Delete.
    apply wp_bind, wp_Invokes. simpl. apply wp_bind.
    eapply wp_mono; [by apply (wp_Delete inj name meta)|]. intros err t (_ & Ht).
    apply wp_ret, wp_ret. destruct err as [err|]; destruct Ht as [Hk Ht].
    + split; [by exists m|by apply abs_holds].
    + split; [exists (delete k m); split; [done|by apply map_Forall_delete]|].
      split; [done|by apply abs_holds].
  - intros ctx opts w (m & Hm & Hg). rewrite (abs_holds _ _ Hm). unfold fake_List.
    destruct (label_all opts) as (label & Hl & Hall). unfold restriction. rewrite Hl.
    apply wp_bind, wp_ret, wp_bind, wp_Invokes. simpl. unfold tracker_list.
    destruct list_known as [-> ->]. apply wp_bind, wp_bind, (wp_List inj name meta Accessor_inj _ _ _ _ Hm).
    intros res Hres. apply wp_ret. assert (Hitems : omap prj (default [] res) ≡ₚ (map_to_list m).*2).
    { by rewrite <- Hres, prj_items. }
    assert (Hgood : Forall good (omap prj (default [] res))).
    { rewrite Hitems. apply Forall_fmap, Forall_forall. intros [k r] Hin%elem_of_map_to_list. by apply (Hg k). }
    destruct res as [objs|]; simpl in Hres, Hitems, Hgood.
    + rewrite bool_decide_eq_true_2.
      2: { rewrite <- Hres. by apply Forall_fmap, Forall_true. }
      apply wp_ret. simpl. rewrite bool_decide_eq_true_2, filter_true by done. apply wp_ret.
      split; [by exists m|]. split; [by apply abs_holds|]. eexists. split; [done|]. simpl.
      rewrite <- Hitems, list_fmap_id. by destruct (omap prj objs).
    + apply wp_ret. simpl. rewrite bool_decide_eq_true_2 by done. apply wp_ret.
      split; [by exists m|]. split; [by apply abs_holds|]. eexists. split; [done|].
      rewrite <- Hitems. by split.
Qed.
End spec.
End typed.

(** ** [NewSimpleClientset] *)
Definition HasSuffix (suffix s : string) : bool :=
  (String.length suffix <=? String.length s)%nat &&
  bool_decide (String.substring (String.length s - String.length suffix) (String.length suffix) s = suffix).

Definition UnsafeGuessKindToResource (kind : GroupVersionKind) : GroupVersionResource :=
  if is_empty (Kind kind) then mkGVR "" "" ""
  else
    let singularName := Rest.ToLower (Kind kind) in
    let named n := mkGVR (Group kind) (Version kind) n in
    if HasSuffix "endpoints" singularName then named singularName
    else if HasSuffix "s" singularName then named (singularName ++ "es")%string
    else if HasSuffix "y" singularName
    then named (String.substring 0 (String.length singularName - 1) singularName ++ "ies")%string
    else named (singularName ++ "s")%string.

(** What [tracker.Add] does with an object that is no list: it adds it once for
    each of its kinds. *)
Definition kind_resource (gvk : GroupVersionKind) : GroupVersionResource :=
  let gvr := UnsafeGuessKindToResource gvk in
  if bool_decide (gvrVersion gvr = "__internal") then mkGVR (gvrGroup gvr) "" (gvrResource gvr) else gvr.
Fixpoint add_kinds (gvks : list GroupVersionKind) (obj : Object) (ns : string) : GO tracker (option error) :=
  match gvks with
  | [] => mret None
  | gvk :: gvks =>
      err ← add SetNamespace (kind_resource gvk) obj ns false;
      match err with Some err => mret (Some err) | None => add_kinds gvks obj ns end
  end.
Definition Add_object (obj : Object) : GO tracker (option error) :=
  match Accessor obj with
  | None => mret (Some errNotObject)
  | Some objMeta =>
      match Scheme.ObjectKinds (type_of obj) scheme with
      | inl err => mret (Some err)
      | inr [] => mret (Some (plainError "no registered kinds"))
      | inr gvks => add_kinds gvks obj (GetNamespace objMeta)
      end
  end.

(** What a tracker is given: an object, or a list with its items
    ([meta.ExtractList]); [runtime.DecodeList] leaves items of Go types as they
    are. *)
Inductive seed := Single (obj : Object) | ListOf (items : list Object).
Definition objects_in (s : seed) : list Object :=
  match s with Single obj => [obj] | ListOf items => items end.
Fixpoint addList (items : list Object) : GO tracker (option error) :=
  match items with
  | [] => mret None
  | obj :: items =>
      err ← Add_object obj;
      match err with Some err => mret (Some err) | None => addList items end
  end.
Definition Add (s : seed) : GO tracker (option error) :=
  match s with Single obj => Add_object obj | ListOf items => addList items end.
Fixpoint add_all (seeds : list seed) : GO tracker unit :=
  match seeds with
  | [] => mret tt
  | s :: seeds =>
      err ← Add s;
      match err with Some err => go_panic (Error err) | None => add_all seeds end
  end.
Definition NewObjectTracker : tracker := {| objects := ∅; watchers := [] |}.
Definition NewSimpleClientset (seeds : list seed) : outcome world :=
  let '(o, t) := add_all seeds NewObjectTracker in
  match o with Value tt => Value {| actions := []; tr := t |} | Panic msg => Panic msg end.

(** A list as a seed is its items as seeds. *)
Lemma add_all_items items seeds :
  add_all (ListOf items :: seeds) ≈ₛ add_all ((Single <$> items) ++ seeds).
Proof.
  intros t. revert t. induction items as [|obj items IH]; intros t; [done|].
  cbn [add_all Add addList fmap list_fmap app]. cbn [add_all Add addList] in IH.
  unfold mbind, GO_bind in *. destruct (Add_object obj t) as [[[err|]|msg] t']; [done| |done]. apply IH.
Qed.
Lemma add_all_cons s seeds seeds' : add_all seeds ≈ₛ add_all seeds' → add_all (s :: seeds) ≈ₛ add_all (s :: seeds').
Proof.
  intros H t. cbn [add_all]. unfold mbind, GO_bind. destruct (Add s t) as [[[err|]|msg] t']; [done|apply H|done].
Qed.
Lemma add_all_flat seeds : add_all seeds ≈ₛ add_all (Single <$> (seeds ≫= objects_in)).
Proof.
  induction seeds as [|s seeds IH]; [done|]. etransitivity; [by apply add_all_cons|].
  rewrite bind_cons, fmap_app. destruct s as [obj|items]; [done|]. apply add_all_items.
Qed.

Lemma wp_Add {R} (inj : R → Object) name meta gvk m r t :
  (∀ r, Accessor (inj r) = Some (meta r)) → (∀ r, GetName (meta r) = name r) →
  (∀ r, GetNamespace (meta r) = "" → SetNamespace "" (inj r) = inj r) →
  Scheme.ObjectKinds (type_of (inj r)) scheme = inr [gvk] →
  let gvr := kind_resource gvk in
  holds inj name meta gvr m t → GetNamespace (meta r) = "" → m !! name r = None →
  wp (Add_object (inj r)) t (λ err t', err = None ∧ only gvr t t' ∧ holds inj name meta gvr (<[name r := r]> m) t').
Proof.
  intros HA HN HS Hk gvr Hm Hns Hnone. unfold Add_object. rewrite HA, Hk, Hns. simpl add_kinds.
  apply wp_bind. eapply wp_mono; [by apply (wp_add SetNamespace inj name meta)|].
  intros [err|] t' [Hon Ht].
  - destruct Ht as [Hno _]. destruct Hno. split; [done|]. by rewrite Hnone.
  - apply wp_ret. destruct Ht as (_ & _ & Ht). done.
Qed.
End fake.
End Fake.

(** ** The fake clientset of the two resources *)
Module FakeClientset.
Import Tracker Fake Conversion.

Inductive api_object := Policy (p : ValidatingAdmissionPolicy) | Binding (b : ValidatingAdmissionPolicyBinding).

Definition meta_of (m : ObjectMeta) : ObjectAccessor :=
  {| GetNamespace := om_Namespace m; GetName := om_Name m; GetGenerateName := om_GenerateName m;
     GetResourceVersion := om_ResourceVersion m; GetLabels := default ∅ (om_Labels m) |}.
Definition object_meta (o : api_object) : ObjectMeta :=
  match o with Policy p => po_ObjectMeta p | Binding b => bi_ObjectMeta b end.
#[export] Instance api_accessor : MetaAccessor api_object := λ o, Some (meta_of (object_meta o)).

Definition with_namespace (ns : string) (m : ObjectMeta) : ObjectMeta :=
  {| om_Name := om_Name m; om_GenerateName := om_GenerateName m; om_Namespace := ns;
     om_SelfLink := om_SelfLink m; om_UID := om_UID m; om_ResourceVersion := om_ResourceVersion m;
     om_Generation := om_Generation m; om_CreationTimestamp := om_CreationTimestamp m;
     om_DeletionTimestamp := om_DeletionTimestamp m;
     om_DeletionGracePeriodSeconds := om_DeletionGracePeriodSeconds m; om_Labels := om_Labels m;
     om_Annotations := om_Annotations m; om_OwnerReferences := om_OwnerReferences m;
     om_Finalizers := om_Finalizers m; om_ManagedFields := om_ManagedFields m |}.
Definition SetNamespace (ns : string) (o : api_object) : api_object :=
  match o with
  | Policy p => Policy {| po_TypeMeta := po_TypeMeta p; po_ObjectMeta := with_namespace ns (po_ObjectMeta p);
                          po_Spec := po_Spec p; po_Status := po_Status p |}
  | Binding b => Binding {| bi_TypeMeta := bi_TypeMeta b;
                            bi_ObjectMeta := with_namespace ns (bi_ObjectMeta b); bi_Spec := bi_Spec b |}
  end.
Definition type_of (o : api_object) : Scheme.go_type :=
  Scheme.v1alpha1 match o with
                  | Policy _ => "ValidatingAdmissionPolicy"
                  | Binding _ => "ValidatingAdmissionPolicyBinding"
                  end.
(** The list types of the scheme, with the types of their [Items]. *)
Definition list_item (t : Scheme.go_type) : option Scheme.go_type :=
  if bool_decide (t = Scheme.v1alpha1 "ValidatingAdmissionPolicyList")
  then Some (Scheme.v1alpha1 "ValidatingAdmissionPolicy")
  else if bool_decide (t = Scheme.v1alpha1 "ValidatingAdmissionPolicyBindingList")
  then Some (Scheme.v1alpha1 "ValidatingAdmissionPolicyBinding")
  else None.
Definition as_policy (o : api_object) : option ValidatingAdmissionPolicy :=
  match o with Policy p => Some p | Binding _ => None end.
Definition as_binding (o : api_object) : option ValidatingAdmissionPolicyBinding :=
  match o with Policy _ => None | Binding b => Some b end.

Definition with_resource (resource : string) : GroupVersionResource :=
  mkGVR Scheme.SchemeGroupVersion.1 Scheme.SchemeGroupVersion.2 resource.
Definition validatingadmissionpoliciesResource := with_resource "validatingadmissionpolicies".
Definition validatingadmissionpoliciesKind :=
  Scheme.with_kind Scheme.SchemeGroupVersion "ValidatingAdmissionPolicy".
Definition validatingadmissionpolicybindingsResource := with_resource "validatingadmissionpolicybindings".
Definition validatingadmissionpolicybindingsKind :=
  Scheme.with_kind Scheme.SchemeGroupVersion "ValidatingAdmissionPolicyBinding".

Section clientset.
Context (format : Z → string) (parse : string → error + Time).
Context (patched : string → string → api_object → error + api_object).
Context {Options : Type} (label_of : Options → error + Selector).

Definition FakeValidatingAdmissionPolicies : ClientInterface world Options nat ValidatingAdmissionPolicy :=
  fake_client SetNamespace type_of Scheme.Scheme_ list_item patched Policy as_policy
    (λ p, default ∅ (om_Labels (po_ObjectMeta p))) validatingadmissionpoliciesResource
    validatingadmissionpoliciesKind (Scheme.v1alpha1 "ValidatingAdmissionPolicyList")
    (zero (validatingAdmissionPolicy_codec format parse CRD)) label_of true.
Definition FakeValidatingAdmissionPolicyBindings
    : ClientInterface world Options nat ValidatingAdmissionPolicyBinding :=
  fake_client SetNamespace type_of Scheme.Scheme_ list_item patched Binding as_binding
    (λ b, default ∅ (om_Labels (bi_ObjectMeta b))) validatingadmissionpolicybindingsResource
    validatingadmissionpolicybindingsKind (Scheme.v1alpha1 "ValidatingAdmissionPolicyBindingList")
    (zero (validatingAdmissionPolicyBinding_codec format parse CRD)) label_of false.

(** The fake as the replacement of the injected clients. *)
Definition fake_replacement : replacement_client :=
  {| r_ValidatingAdmissionPolicies := FakeValidatingAdmissionPolicies;
     r_ValidatingAdmissionPolicyBindings := FakeValidatingAdmissionPolicyBindings |}.

Definition policy_meta (p : ValidatingAdmissionPolicy) : ObjectAccessor := meta_of (po_ObjectMeta p).
Definition binding_meta (b : ValidatingAdmissionPolicyBinding) : ObjectAccessor := meta_of (bi_ObjectMeta b).

Lemma with_namespace_same m : om_Namespace m = "" → with_namespace "" m = m.
Proof. destruct m; simpl. by intros ->. Qed.
Lemma SetNamespace_policy p : GetNamespace (policy_meta p) = "" → SetNamespace "" (Policy p) = Policy p.
Proof. destruct p; simpl. intros H. by rewrite with_namespace_same. Qed.
Lemma SetNamespace_binding b : GetNamespace (binding_meta b) = "" → SetNamespace "" (Binding b) = Binding b.
Proof. destruct b; simpl. intros H. by rewrite with_namespace_same. Qed.

Abbreviation holds_policies := (holds Policy policy_name policy_meta validatingadmissionpoliciesResource).
Abbreviation holds_bindings := (holds Binding binding_name binding_meta validatingadmissionpolicybindingsResource).

Definition policies_ok : world → Prop :=
  fake_ok Policy validatingadmissionpoliciesResource policy_name policy_meta (good_policy format parse CRD).
Definition policies_of : world → gmap string ValidatingAdmissionPolicy :=
  fake_abs as_policy validatingadmissionpoliciesResource policy_name.
Definition bindings_ok : world → Prop :=
  fake_ok Binding validatingadmissionpolicybindingsResource binding_name binding_meta (good_binding format parse CRD).
Definition bindings_of : world → gmap string ValidatingAdmissionPolicyBinding :=
  fake_abs as_binding validatingadmissionpolicybindingsResource binding_name.

(** Worlds in which the tracker holds well-formed, cluster-scoped objects under their
    names, and in which nobody watches a resource: a watcher that does not read
    makes a write panic once its channel is full ([RaceFreeFakeWatcher]). *)
Definition keeps {R} (inj : R → api_object) (name : R → string) (meta : R → ObjectAccessor) (good : R → Prop)
    (gvr : GroupVersionResource) (w : world) : Prop :=
  ∃ m : gmap string R, objects_of gvr (tr w) = kmap (pair "") (inj <$> m) ∧
    map_Forall (λ k r, name r = k ∧ GetNamespace (meta r) = "") m ∧ map_Forall (λ _, good) m.
Definition keeps_policies : world → Prop :=
  keeps Policy policy_name policy_meta (good_policy format parse CRD) validatingadmissionpoliciesResource.
Definition keeps_bindings : world → Prop :=
  keeps Binding binding_name binding_meta (good_binding format parse CRD) validatingadmissionpolicybindingsResource.
Definition unwatched (gvr : GroupVersionResource) (w : world (Object := api_object)) : Prop := quiet gvr (tr w).

Lemma fake_ok_iff {R} inj name meta good gvr (w : world) :
  fake_ok (R := R) inj gvr name meta good w ↔ keeps inj name meta good gvr w ∧ unwatched gvr w.
Proof.
  unfold fake_ok, holds, keeps, unwatched. naive_solver.
Qed.
Lemma policies_ok_iff w : policies_ok w ↔ keeps_policies w ∧ unwatched validatingadmissionpoliciesResource w.
Proof. apply fake_ok_iff. Qed.
Lemma bindings_ok_iff w : bindings_ok w ↔ keeps_bindings w ∧ unwatched validatingadmissionpolicybindingsResource w.
Proof. apply fake_ok_iff. Qed.

(** The answer to the deletion of what is not there. *)
Definition missing (gvr : GroupVersionResource) (k : string) (w : world (Object := api_object))
    : outcome (option error) * world :=
  (Value (Some (NewNotFound (gvr_GroupResource gvr) k)),
   {| actions := actions w ++ [DeleteAction gvr k]; tr := tr w |}).
Lemma policies_missing ctx k opts w :
  policies_ok w → policies_of w !! k = None →
  TransformedClient.Delete FakeValidatingAdmissionPolicies ctx k opts w = missing validatingadmissionpoliciesResource k w.
Proof.
  intros (m & Hm & _) Hk. unfold policies_of, fake_abs in Hk.
  rewrite (collection_holds Policy policy_name policy_meta as_policy _ m) in Hk by done.
  by eapply fake_Delete_missing.
Qed.
Lemma bindings_missing ctx k opts w :
  bindings_ok w → bindings_of w !! k = None →
  TransformedClient.Delete FakeValidatingAdmissionPolicyBindings ctx k opts w = missing validatingadmissionpolicybindingsResource k w.
Proof.
  intros (m & Hm & _) Hk. unfold bindings_of, fake_abs in Hk.
  rewrite (collection_holds Binding binding_name binding_meta as_binding _ m) in Hk by done.
  by eapply fake_Delete_missing.
Qed.

(** ** What the fake holds and serves *)
Section serves.
(** Options that select every object. *)
Hypothesis label_all : ∀ opts, ∃ label, label_of opts = inr label ∧ ∀ ls, Matches label ls = true.

Lemma fake_policies_spec :
  Transformed.client_spec FakeValidatingAdmissionPolicies policies_ok id policies_of policy_name
    (good_policy format parse CRD) (λ p p', p' = p).
Proof.
  apply (fake_client_spec SetNamespace type_of Scheme.Scheme_ list_item patched Policy as_policy _ _ _ _ _ _
    policy_name policy_meta (Scheme.v1alpha1 "ValidatingAdmissionPolicy")); try done.
  - apply SetNamespace_policy.
  - intros opts. destruct (label_all opts) as (label & ? & ?). by exists label.
Qed.

Lemma fake_bindings_spec :
  Transformed.client_spec FakeValidatingAdmissionPolicyBindings bindings_ok id bindings_of binding_name
    (good_binding format parse CRD) (λ b b', b' = b).
Proof.
  apply (fake_client_spec SetNamespace type_of Scheme.Scheme_ list_item patched Binding as_binding _ _ _ _ _ _
    binding_name binding_meta (Scheme.v1alpha1 "ValidatingAdmissionPolicyBinding")); try done.
  - apply SetNamespace_binding.
  - intros opts. destruct (label_all opts) as (label & ? & ?). by exists label.
Qed.
End serves.

(** By name, the later of two objects of one name last. *)
Definition named_policies (objs : list api_object) : gmap string ValidatingAdmissionPolicy :=
  list_to_map ((λ p, (policy_name p, p)) <$> omap as_policy objs).
Definition named_bindings (objs : list api_object) : gmap string ValidatingAdmissionPolicyBinding :=
  list_to_map ((λ b, (binding_name b, b)) <$> omap as_binding objs).
(** Objects that may be given together: cluster-scoped, well formed and of
    distinct names within a resource. *)
Definition seed_ok (o : api_object) : Prop :=
  om_Namespace (object_meta o) = "" ∧
  match o with Policy p => good_policy format parse CRD p | Binding b => good_binding format parse CRD b end.
Definition seed_key (o : api_object) : bool * string :=
  (match o with Policy _ => true | Binding _ => false end, om_Name (object_meta o)).

Lemma named_policies_good objs : Forall seed_ok objs → map_Forall (λ _, good_policy format parse CRD) (named_policies objs).
Proof.
  induction 1 as [|[p|b] objs [_ Hp] _ IH]; [done| |done]. by apply map_Forall_insert_2.
Qed.
Lemma named_bindings_good objs : Forall seed_ok objs → map_Forall (λ _, good_binding format parse CRD) (named_bindings objs).
Proof.
  induction 1 as [|[p|b] objs [_ Hb] _ IH]; [done|done|]. by apply map_Forall_insert_2.
Qed.
Lemma named_policies_fresh p objs : (true, policy_name p) ∉ seed_key <$> objs → named_policies objs !! policy_name p = None.
Proof.
  induction objs as [|[q|b] objs IH]; [done| |]; simpl; rewrite not_elem_of_cons; intros [Hne Hin]; [|by apply IH].
  unfold named_policies. simpl. rewrite lookup_insert_ne; [by apply IH|]. intros Heq. by rewrite <- Heq in Hne.
Qed.
Lemma named_bindings_fresh b objs : (false, binding_name b) ∉ seed_key <$> objs → named_bindings objs !! binding_name b = None.
Proof.
  induction objs as [|[q|c] objs IH]; [done| |]; simpl; rewrite not_elem_of_cons; intros [Hne Hin]; [by apply IH|].
  unfold named_bindings. simpl. rewrite lookup_insert_ne; [by apply IH|]. intros Heq. by rewrite <- Heq in Hne.
Qed.

(** No object still to be added has the name of one that is there. *)
Definition fresh {R} (tag : bool) (objs : list api_object) (m : gmap string R) : Prop :=
  ∀ k, (tag, k) ∈ seed_key <$> objs → m !! k = None.
Lemma fresh_insert {R} tag objs (m : gmap string R) k r :
  fresh tag objs m → (tag, k) ∉ seed_key <$> objs → fresh tag objs (<[k := r]> m).
Proof. intros Hf Hk k' Hk'. rewrite lookup_insert_ne; [by apply Hf|]. by intros ->. Qed.
Lemma fresh_tail {R} tag o objs (m : gmap string R) : fresh tag (o :: objs) m → fresh tag objs m.
Proof. intros Hf k Hk. apply Hf. simpl. by right. Qed.

Lemma wp_add_all objs mp mb t :
  Forall seed_ok objs → NoDup (seed_key <$> objs) → fresh true objs mp → fresh false objs mb →
  holds_policies mp t → holds_bindings mb t →
  wp (add_all SetNamespace type_of Scheme.Scheme_ (Single <$> objs)) t (λ _ t',
    holds_policies (named_policies objs ∪ mp) t' ∧ holds_bindings (named_bindings objs ∪ mb) t').
Proof.
  intros Hok. revert mp mb t. induction Hok as [|o objs [Hns Hgood] Hok IH]; intros mp mb t Hnd Hfp Hfb Hp Hb.
  { apply wp_ret. unfold named_policies, named_bindings. simpl. by rewrite !(left_id_L ∅ (∪)). }
  simpl in Hnd. apply NoDup_cons in Hnd as [Hnew Hnd]. apply wp_bind.
  destruct o as [p|b].
  - eapply wp_mono.
    { apply (wp_Add _ _ _ Policy policy_name policy_meta validatingadmissionpoliciesKind mp p t);
        [done|done|apply SetNamespace_policy|reflexivity|exact Hp|done|apply Hfp; simpl; by left]. }
    intros err t' (-> & Hon & Hp').
    eapply wp_mono; [apply (IH (<[policy_name p := p]> mp) mb)|]; eauto using fresh_insert, fresh_tail.
    + by eapply holds_only.
    + intros [] t2 [Hp2 Hb2]. split; [|exact Hb2].
      rewrite <- insert_union_r, insert_union_l in Hp2 by (apply named_policies_fresh; exact Hnew). exact Hp2.
  - eapply wp_mono.
    { apply (wp_Add _ _ _ Binding binding_name binding_meta validatingadmissionpolicybindingsKind mb b t);
        [done|done|apply SetNamespace_binding|reflexivity|exact Hb|done|apply Hfb; simpl; by left]. }
    intros err t' (-> & Hon & Hb').
    eapply wp_mono; [apply (IH mp (<[binding_name b := b]> mb))|]; eauto using fresh_insert, fresh_tail.
    + by eapply holds_only.
    + intros [] t2 [Hp2 Hb2]. split; [exact Hp2|].
      rewrite <- insert_union_r, insert_union_l in Hb2 by (apply named_bindings_fresh; exact Hnew). exact Hb2.
Qed.

Lemma NewSimpleClientset_holds seeds :
  let objs := seeds ≫= objects_in in
  Forall seed_ok objs → NoDup (seed_key <$> objs) →
  ∃ w, NewSimpleClientset SetNamespace type_of Scheme.Scheme_ seeds = Value w ∧ actions w = [] ∧
    policies_ok w ∧ policies_of w = named_policies objs ∧ bindings_ok w ∧ bindings_of w = named_bindings objs.
Proof.
  intros objs Hok Hnd.
  destruct (wp_add_all objs ∅ ∅ NewObjectTracker Hok Hnd) as ([] & t & Ha & Hp & Hb); [done|done|by apply holds_empty..|].
  rewrite (right_id_L ∅ (∪)) in Hp. rewrite (right_id_L ∅ (∪)) in Hb. exists {| actions := []; tr := t |}.
  unfold NewSimpleClientset. rewrite (add_all_flat _ _ _ seeds). fold objs. rewrite Ha. split_and!; [done|done| | | |].
  - exists (named_policies objs). split; [exact Hp|by apply named_policies_good].
  - by apply (collection_holds Policy policy_name policy_meta).
  - exists (named_bindings objs). split; [exact Hb|by apply named_bindings_good].
  - by apply (collection_holds Binding binding_name binding_meta).
Qed.

(** C40: The fake clientset serves the native API like a server.  Made of
    cluster-scoped, well-formed objects of distinct names, single ones and lists, it
    does not panic and holds exactly these, watched by nobody.  While nobody watches a
    resource, the injected client over its fake client reads and writes, under the
    same names, the native conversions of what it holds (get, create, update, delete
    and lists that select everything; errors included).  What is not there is not
    deleted in silence, as the comment on the tracker has it, but reported as not
    found, and nothing changes. *)
Theorem fakes_serve_native seeds :
  let objs := seeds ≫= objects_in in
  let policies := validatingadmissionpoliciesResource in
  let bindings := validatingadmissionpolicybindingsResource in
  (∀ sec, representable sec → parse (format sec) = inr (Some (sec, 0))) →
  (∀ opts, ∃ label, label_of opts = inr label ∧ ∀ ls, Matches label ls = true) →
  Forall seed_ok objs → NoDup (seed_key <$> objs) →
  (∃ w, NewSimpleClientset SetNamespace type_of Scheme.Scheme_ seeds = Value w ∧
     keeps_policies w ∧ unwatched policies w ∧ policies_of w = named_policies objs ∧
     keeps_bindings w ∧ unwatched bindings w ∧ bindings_of w = named_bindings objs) ∧
  Transformed.client_spec (ValidatingAdmissionPolicies format parse fake_replacement)
    (λ w, keeps_policies w ∧ unwatched policies w) id
    (λ w, shown format parse <$> policies_of w) policy_name (good_policy format parse Native)
    (λ p p', ∃ q, q = submitted format parse p ∧ p' = shown format parse q) ∧
  Transformed.client_spec (ValidatingAdmissionPolicyBindings format parse fake_replacement)
    (λ w, keeps_bindings w ∧ unwatched bindings w) id
    (λ w, shown_binding format parse <$> bindings_of w) binding_name (good_binding format parse Native)
    (λ b b', ∃ c, c = submitted_binding format parse b ∧ b' = shown_binding format parse c) ∧
  ∀ ctx k opts w,
    (keeps_policies w → unwatched policies w → policies_of w !! k = None →
     TransformedClient.Delete (ValidatingAdmissionPolicies format parse fake_replacement) ctx k opts w =
     missing policies k w) ∧
    (keeps_bindings w → unwatched bindings w → bindings_of w !! k = None →
     TransformedClient.Delete (ValidatingAdmissionPolicyBindings format parse fake_replacement) ctx k opts w =
     missing bindings k w).
Proof.
  intros objs policies bindings Hparse Hlabel Hok Hnd. split_and!.
  - destruct (NewSimpleClientset_holds seeds Hok Hnd) as (w & ? & _ & [??]%policies_ok_iff & ? & [??]%bindings_ok_iff & ?).
    by exists w.
  - apply (Transformed.client_spec_iff _ _ _ _ _ _ _ _ policies_ok_iff).
    exact (injected_policies_spec format parse Hparse fake_replacement id id _ _ _ _ (λ _, eq_refl) (fake_policies_spec Hlabel)).
  - apply (Transformed.client_spec_iff _ _ _ _ _ _ _ _ bindings_ok_iff).
    exact (injected_bindings_spec format parse Hparse fake_replacement id id _ _ _ _ (λ _, eq_refl) (fake_bindings_spec Hlabel)).
  - intros ctx k opts w. split; intros Hkeep Hquiet Hk.
    + apply policies_missing; [by apply policies_ok_iff|done].
    + apply bindings_missing; [by apply bindings_ok_iff|done].
Qed.
End clientset.

Lemma fakes_serve_native_witness : ∃ w,
  NewSimpleClientset SetNamespace type_of Scheme.Scheme_
    [ListOf [Policy (Demo.demo_policy crd_apiVersion)]; Single (Binding Demo.demo_binding)] = Value w ∧
  policies_of w = {["replicas" := Demo.demo_policy crd_apiVersion]} ∧
  bindings_of w = {["replicas" := Demo.demo_binding]}.
Proof.
  destruct (fakes_serve_native Demo.demo_format Demo.demo_parse (λ _ _ o, inr o) (λ _ : (), inr Everything)
    [ListOf [Policy (Demo.demo_policy crd_apiVersion)]; Single (Binding Demo.demo_binding)])
    as ((w & Hw & _ & _ & Hp & _ & _ & Hb) & _).
  - exact Demo.demo_parse_format.
  - intros opts. exists Everything. by split.
  - apply Forall_cons. split; [|apply Forall_singleton]; (split; [reflexivity|split; [|reflexivity]]);
      [apply Demo.demo_policy_ok|apply Demo.demo_binding_ok].
  - apply NoDup_cons. split; [|apply NoDup_singleton]. by intros ?%list_elem_of_singleton.
  - exists w. refine (conj Hw (conj _ _)).
    + exact (eq_trans Hp eq_refl).
    + exact (eq_trans Hb eq_refl).
Defined.
End FakeClientset.
